(** * FTU-Mixer: the hardware control plane of [ftumixer.py]

    A shallow embedding of the classes [Mixer], [Gui] and [Config] of
    [source/ftumixer.py]: the route matrices and their volumes, the
    configuration dictionaries written and read by [GetConfigDict] and
    [ParseConfigDict], the polling thread, the cascade of the linked
    outputs in [Gui.__OnHardwareRouting], the macros and the master slider
    of the master tab, and the observer that brings the sliders in line
    with the hardware.

    Python values are modelled as follows: an [int] is a [Z]; a [str] is a
    [string] of ASCII characters; a [list] is a [list], indexed the way
    Python indexes it (a negative index counts from the end); a [dict] is an
    association list in insertion order; an exception is an [error] and a
    function that can raise returns a [result].  The ALSA controls and the
    [amixer] command are outside the program: their reaction to a write is
    a parameter ([Backend]) of every operation that writes a control. *)

From Stdlib Require Import List ZArith Lia Bool Ascii String.
From Stdlib Require Import DecimalString DecimalZ DecimalPos.
Import ListNotations.

Local Open Scope string_scope.
Local Open Scope list_scope.
Local Open Scope Z_scope.

(** [length] is the length of a list throughout; the length of a string is
    written [String.length]. *)
Abbreviation length := Datatypes.length (only parsing).

(* ===================================================================== *)
(** * Python values *)
(* ===================================================================== *)

Module Py.

(** The exceptions the modelled code can raise. *)
Inductive error : Type :=
| IndexError       (* list index out of range *)
| AttributeError   (* a method called on None *)
| ValueError       (* int() of a malformed literal, unpacking of a wrong length *)
| KeyError         (* a dict subscript that is absent *)
| ALSAAudioError   (* raised by the ALSA binding *)
| CalledProcessError.  (* subprocess.check_output of a command that failed *)

Inductive result (A : Type) : Type :=
| Ok (a : A)
| Err (e : error).
Arguments Ok {A} a.
Arguments Err {A} e.

Definition rbind {A B} (r : result A) (k : A -> result B) : result B :=
  match r with
  | Ok a => k a
  | Err e => Err e
  end.

Definition is_ok {A} (r : result A) : bool :=
  match r with Ok _ => true | Err _ => false end.

(** ** Lists with Python's subscripts *)

(** [l[k]]: [k] in [0, len) counts from the front, [k] in [-len, 0) from the
    end, anything else raises IndexError. *)
Definition norm_index (len : nat) (k : Z) : option nat :=
  if 0 <=? k then
    if k <? Z.of_nat len then Some (Z.to_nat k) else None
  else
    if - Z.of_nat len <=? k then Some (Z.to_nat (Z.of_nat len + k)) else None.

Definition getitem {A} (l : list A) (k : Z) : result A :=
  match norm_index (length l) k with
  | Some n =>
      match nth_error l n with
      | Some x => Ok x
      | None => Err IndexError
      end
  | None => Err IndexError
  end.

Fixpoint update {A} (l : list A) (n : nat) (x : A) : list A :=
  match l, n with
  | [], _ => []
  | _ :: t, O => x :: t
  | h :: t, S n' => h :: update t n' x
  end.

(** [l[k] = x] *)
Definition setitem {A} (l : list A) (k : Z) (x : A) : result (list A) :=
  match norm_index (length l) k with
  | Some n => Ok (update l n x)
  | None => Err IndexError
  end.

(** [range(n)] *)
Definition range (n : nat) : list Z := map Z.of_nat (seq 0 n).

(** ** Strings *)

Definition is_digit (c : ascii) : bool :=
  let n := nat_of_ascii c in (48 <=? n)%nat && (n <=? 57)%nat.

(** The characters that [int] passes over at both ends of its argument:
    the blank and the characters 9 to 13 (tab, line feed, vertical tab,
    form feed, carriage return).  The separators 28 to 31 are not among
    them: [int] raises ValueError on a string that holds one. *)
Definition is_space (c : ascii) : bool :=
  let n := nat_of_ascii c in
  ((9 <=? n)%nat && (n <=? 13)%nat) || (n =? 32)%nat.

Fixpoint starts_with (p s : string) : bool :=
  match p, s with
  | EmptyString, _ => true
  | String a p', String b s' => Ascii.eqb a b && starts_with p' s'
  | String _ _, EmptyString => false
  end.

(** [s.split(sep)] for a non-empty [sep]: the occurrences of [sep] are found
    from the left and do not overlap.  [skip] counts the characters of an
    occurrence that are still to be passed over, [cur] is the piece being
    collected. *)
Fixpoint split_go (sep : string) (skip : nat) (cur : string) (s : string)
  : list string :=
  match s with
  | EmptyString => [cur]
  | String c s' =>
      match skip with
      | S k => split_go sep k cur s'
      | O =>
          if starts_with sep s
          then cur :: split_go sep (String.length sep - 1) EmptyString s'
          else split_go sep O (cur ++ String c EmptyString)%string s'
      end
  end.

Definition split (sep s : string) : list string := split_go sep O EmptyString s.

Fixpoint mem_char (c : ascii) (chars : string) : bool :=
  match chars with
  | EmptyString => false
  | String a r => Ascii.eqb c a || mem_char c r
  end.

(** [s.lstrip(chars)]: drops the leading characters that occur in [chars]. *)
Fixpoint lstrip (chars s : string) : string :=
  match s with
  | EmptyString => EmptyString
  | String c s' => if mem_char c chars then lstrip chars s' else s
  end.

(** [s.rstrip(chars)]: drops the trailing characters that occur in [chars]. *)
Fixpoint rstrip (chars s : string) : string :=
  match s with
  | EmptyString => EmptyString
  | String c s' =>
      match rstrip chars s' with
      | EmptyString => if mem_char c chars then EmptyString else String c EmptyString
      | r => String c r
      end
  end.

Fixpoint map_chars (f : ascii -> ascii) (s : string) : string :=
  match s with
  | EmptyString => EmptyString
  | String c s' => String (f c) (map_chars f s')
  end.

(** [s.replace(" ", "_")] *)
Definition replace_space (s : string) : string :=
  map_chars (fun c => if Ascii.eqb c " " then "_"%char else c) s.

(** [s.lower()] on ASCII letters. *)
Definition lower_char (c : ascii) : ascii :=
  let n := nat_of_ascii c in
  if (65 <=? n)%nat && (n <=? 90)%nat then ascii_of_nat (n + 32) else c.

Definition lower (s : string) : string := map_chars lower_char s.

(** ** [str(n)], ["%i" % n] and [int(s)] *)

(** The decimal text of an int.  The ints that the program writes are
    volumes of ALSA, numbers of channels and links: CPython raises
    ValueError for an int of more than 4300 digits (see
    [int_max_str_digits] below), which none of them has. *)
Definition str_of_int (z : Z) : string := NilZero.string_of_int (Z.to_int z).

Fixpoint lstrip_space (s : string) : string :=
  match s with
  | EmptyString => EmptyString
  | String c s' => if is_space c then lstrip_space s' else s
  end.

Fixpoint rstrip_space (s : string) : string :=
  match s with
  | EmptyString => EmptyString
  | String c s' =>
      match rstrip_space s' with
      | EmptyString => if is_space c then EmptyString else String c EmptyString
      | r => String c r
      end
  end.

(** The digits of a decimal literal: at least one digit, and an underscore
    only between two digits.  Returns the digits without the underscores. *)
Fixpoint int_digits (after_digit : bool) (s : string) : option string :=
  match s with
  | EmptyString => if after_digit then Some EmptyString else None
  | String c s' =>
      if is_digit c then option_map (String c) (int_digits true s')
      else if Ascii.eqb c "_" && after_digit then int_digits false s'
      else None
  end.

(** [sys.get_int_max_str_digits()], which the program leaves at the default
    of CPython: [int] raises ValueError on a literal of more digits, leading
    zeros counted, underscores and sign not. *)
Definition int_max_str_digits : nat := 4300.

(** The ints of at most [int_max_str_digits] digits are the ones of
    absolute value below [int_limit]. *)
Definition int_limit : Z := 10 ^ Z.of_nat int_max_str_digits.
Arguments int_limit : simpl never.

Definition int_unsigned (s : string) : option Z :=
  match int_digits false s with
  | Some ds =>
      if (String.length ds <=? int_max_str_digits)%nat then
        match NilEmpty.uint_of_string ds with
        | Some u => Some (Z.of_uint u)
        | None => None
        end
      else None
  | None => None
  end.

(** A numeral that does not start with the digit 0. *)
Definition nonzero_head (d : Decimal.uint) : Prop :=
  match d with
  | Decimal.Nil | Decimal.D0 _ => False
  | _ => True
  end.

(** [int(s)] for a string of ASCII characters, in base 10: surrounding
    white space, an optional sign, then at most [int_max_str_digits]
    digits. *)
Definition int_of_str (s : string) : result Z :=
  let body := rstrip_space (lstrip_space s) in
  let r :=
    match body with
    | String "-" rest => option_map Z.opp (int_unsigned rest)
    | String "+" rest => int_unsigned rest
    | _ => int_unsigned body
    end in
  match r with
  | Some z => Ok z
  | None => Err ValueError
  end.

(** ** Dictionaries with string keys, in insertion order *)

Definition dict (V : Type) : Type := list (string * V).

Fixpoint dict_get {V} (d : dict V) (k : string) : option V :=
  match d with
  | [] => None
  | (k', v) :: r => if String.eqb k' k then Some v else dict_get r k
  end.

(** [k in d] *)
Definition dict_mem {V} (d : dict V) (k : string) : bool :=
  match dict_get d k with Some _ => true | None => false end.

(** [d[k] = v]: an existing key keeps its place, a new key goes last. *)
Fixpoint dict_set {V} (d : dict V) (k : string) (v : V) : dict V :=
  match d with
  | [] => [(k, v)]
  | (k', v') :: r =>
      if String.eqb k' k then (k', v) :: r else (k', v') :: dict_set r k v
  end.

Definition dict_keys {V} (d : dict V) : list string := map fst d.

(** The values found in a configuration dictionary: the volumes are ints,
    the labels of enumerated controls and everything read from a
    configuration file are strings. *)
Inductive value : Type :=
| VInt (z : Z)
| VStr (s : string).

(** [int(v)] *)
Definition int_of (v : value) : result Z :=
  match v with
  | VInt z => Ok z
  | VStr s => int_of_str s
  end.

(** [str(v)] *)
Definition str_of (v : value) : string :=
  match v with
  | VInt z => str_of_int z
  | VStr s => s
  end.

(** [v in labels] for a list of strings. *)
Definition value_in (v : value) (labels : list string) : bool :=
  match v with
  | VInt _ => false
  | VStr s => existsb (String.eqb s) labels
  end.

End Py.
Export Py.

Notation "'let?' x ':=' r 'in' k" := (rbind r (fun x => k))
  (at level 10, x name, r at level 100, k at level 200).
Notation "'let?' ' p ':=' r 'in' k" := (rbind r (fun x => match x with p => k end))
  (at level 10, p pattern, r at level 100, k at level 200).

(* ===================================================================== *)
(** * State and exceptions *)
(* ===================================================================== *)

(** A method that mutates an object of type [S] and may raise: the state
    reached is returned also when an exception is raised, since what was
    written before the exception stays written. *)
Definition M (S A : Type) : Type := S -> result A * S.

Definition ret {S A} (a : A) : M S A := fun s => (Ok a, s).

Definition raise {S A} (e : error) : M S A := fun s => (Err e, s).

Definition lift {S A} (r : result A) : M S A := fun s => (r, s).

Definition bind {S A B} (c : M S A) (k : A -> M S B) : M S B :=
  fun s =>
    match c s with
    | (Ok a, s') => k a s'
    | (Err e, s') => (Err e, s')
    end.

Notation "x <- c ;; k" := (bind c (fun x => k))
  (at level 61, c at next level, right associativity).
Notation "c ;;; k" := (bind c (fun _ => k))
  (at level 61, right associativity).

(** [for x in xs: body(x)] *)
Fixpoint for_each {S A} (xs : list A) (body : A -> M S unit) : M S unit :=
  match xs with
  | [] => ret tt
  | x :: r => body x ;;; for_each r body
  end.

(** A loop that only reads and accumulates. *)
Fixpoint foldM {A B} (f : B -> A -> result B) (xs : list A) (acc : B) : result B :=
  match xs with
  | [] => Ok acc
  | x :: r => let? acc' := f acc x in foldM f r acc'
  end.

(** [[f(x) for x in xs]] *)
Fixpoint mapM {A B} (f : A -> result B) (xs : list A) : result (list B) :=
  match xs with
  | [] => Ok []
  | x :: r => let? y := f x in let? ys := mapM f r in Ok (y :: ys)
  end.

(** A loop whose body calls a method that calls itself: the body returns
    [None] when the bound on the depth of these calls is reached, and so
    does the loop. *)
Fixpoint for_each_bounded {S A} (xs : list A)
    (body : A -> S -> option (result unit * S)) (s : S)
  : option (result unit * S) :=
  match xs with
  | [] => Some (Ok tt, s)
  | x :: r =>
      match body x s with
      | Some (Ok _, s') => for_each_bounded r body s'
      | Some (Err e, s') => Some (Err e, s')
      | None => None
      end
  end.

(* ===================================================================== *)
(** * class Mixer *)
(* ===================================================================== *)

(** ** The ALSA controls *)

(** The [alsaaudio.Mixer] object of a route: the volume its first channel
    reports ([getvolume()[0]]) and its poll descriptor
    ([polldescriptors()[0]], a file descriptor and an event mask). *)
Record Control : Type := {
  volume : Z;
  descriptor : Z * Z
}.

Definition with_volume (c : Control) (v : Z) : Control :=
  {| volume := v; descriptor := descriptor c |}.

(** A control of the effects processor: either it has a volume
    ([getenum() == ()]) or it is enumerated, and [getenum()] is its current
    label and the list of its labels. *)
Inductive FxControl : Type :=
| FxLinear (vol : Z)
| FxEnum (current : string) (labels : list string).

(** What is outside the program.  [setvolume] is the reaction of an ALSA
    control to [setvolume(value, 0)]: from the requested value and the
    volume the control has, the volume it has afterwards, or the exception
    of the binding.  [amixer_sset] is the outcome of the command
    [amixer -c<card> sset <name> <label>] on an enumerated control: from the
    name, the label asked for, the current label and the labels, the label
    that is current afterwards, or the exception of [check_output].  When
    either raises, the control stays as it is. *)
Record Backend : Type := {
  setvolume : Z -> Z -> result Z;
  amixer_sset : string -> string -> string -> list string -> result string
}.

(** A binding that accepts the volumes 0 to 100, stores them as they are,
    and raises for any other value; an [amixer] that selects a label of the
    control and fails for anything else. *)
Definition checked_backend : Backend :=
  {| setvolume := fun value _ =>
       if (0 <=? value) && (value <=? 100) then Ok value else Err ALSAAudioError;
     amixer_sset := fun _ label _ labels =>
       if existsb (String.eqb label) labels then Ok label else Err CalledProcessError |}.

(** A backend accepts the volumes of the documented range, and then the
    control reports the volume it was given. *)
Definition accepts_range (B : Backend) : Prop :=
  forall value cur, 0 <= value <= 100 -> setvolume B value cur = Ok value.

(** [amixer] selects the label it is given when the control has it. *)
Definition selects_labels (B : Backend) : Prop :=
  forall name label cur labels,
    In label labels -> amixer_sset B name label cur labels = Ok label.

(** What the program asks of the hardware, in the order of the calls. *)
Inductive hw_write : Type :=
| SetRouteVolume (digital : bool) (output input : nat) (value : Z)
| SetFxVolume (name : string) (value : Z)
| AmixerSset (name : string) (label : string).

(** ** The object *)

Definition Observer : Type := nat.

(** A call [o(changed_analog_routes, changed_digital_routes)]. *)
Definition Dispatch : Type := (Observer * list (Z * Z) * list (Z * Z))%type.

(** The tuple stored in [__descriptors_to_routes]:
    [(out_index, in_index, digital, eventmask, fd)]. *)
Definition RouteInfo : Type := (Z * Z * bool * Z * Z)%type.

Record Mixer : Type := {
  analog_routes : list (list (option Control));
  digital_routes : list (list (option Control));
  (** [__fx_control_names], each name with the state of the control that
      [alsaaudio.Mixer(name)] opens *)
  fx_controls : list (string * FxControl);
  observers : list Observer;
  descriptors_to_routes : list (Z * RouteInfo);
  (** the calls made to the hardware and to the observers so far *)
  hw_writes : list hw_write;
  dispatched : list Dispatch
}.

Definition routes_of (digital : bool) (m : Mixer) : list (list (option Control)) :=
  if digital then digital_routes m else analog_routes m.

Definition set_routes (digital : bool) (rs : list (list (option Control))) (m : Mixer)
  : Mixer :=
  {| analog_routes := if digital then analog_routes m else rs;
     digital_routes := if digital then rs else digital_routes m;
     fx_controls := fx_controls m;
     observers := observers m;
     descriptors_to_routes := descriptors_to_routes m;
     hw_writes := hw_writes m;
     dispatched := dispatched m |}.

Definition set_fx (fx : list (string * FxControl)) (m : Mixer) : Mixer :=
  {| analog_routes := analog_routes m;
     digital_routes := digital_routes m;
     fx_controls := fx;
     observers := observers m;
     descriptors_to_routes := descriptors_to_routes m;
     hw_writes := hw_writes m;
     dispatched := dispatched m |}.

Definition log_write (w : hw_write) (m : Mixer) : Mixer :=
  {| analog_routes := analog_routes m;
     digital_routes := digital_routes m;
     fx_controls := fx_controls m;
     observers := observers m;
     descriptors_to_routes := descriptors_to_routes m;
     hw_writes := hw_writes m ++ [w];
     dispatched := dispatched m |}.

Definition log_dispatch (d : list Dispatch) (m : Mixer) : Mixer :=
  {| analog_routes := analog_routes m;
     digital_routes := digital_routes m;
     fx_controls := fx_controls m;
     observers := observers m;
     descriptors_to_routes := descriptors_to_routes m;
     hw_writes := hw_writes m;
     dispatched := dispatched m ++ d |}.

Definition add_observer (o : Observer) (m : Mixer) : Mixer :=
  {| analog_routes := analog_routes m;
     digital_routes := digital_routes m;
     fx_controls := fx_controls m;
     observers := observers m ++ [o];
     descriptors_to_routes := descriptors_to_routes m;
     hw_writes := hw_writes m;
     dispatched := dispatched m |}.

(** [routes[output_channel][input_channel]] with the positions the two
    subscripts denote; a slot that [__CreateRoute] padded with None has no
    method to call. *)
Definition locate (routes : list (list (option Control))) (o i : Z)
  : result (nat * nat * Control) :=
  let? row := getitem routes o in
  let? slot := getitem row i in
  match slot, norm_index (length routes) o, norm_index (length row) i with
  | Some c, Some no, Some ni => Ok (no, ni, c)
  | None, _, _ => Err AttributeError
  | _, _, _ => Err IndexError
  end.

Definition store (routes : list (list (option Control))) (no ni : nat) (c : Control)
  : list (list (option Control)) :=
  match nth_error routes no with
  | Some row => update routes no (update row ni (Some c))
  | None => routes
  end.

Section WithBackend.

Variable alsa : Backend.

Definition GetNumberOfChannels (m : Mixer) : nat := length (analog_routes m).

Definition GetVolume (output_channel input_channel : Z) (digital : bool) (m : Mixer)
  : result Z :=
  let? '(_, _, c) := locate (routes_of digital m) output_channel input_channel in
  Ok (volume c).

(** [routes[o][i].setvolume(value, 0)] *)
Definition route_setvolume (digital : bool) (value o i : Z) : M Mixer unit :=
  fun m =>
    match locate (routes_of digital m) o i with
    | Err e => (Err e, m)
    | Ok (no, ni, c) =>
        let m1 := log_write (SetRouteVolume digital no ni value) m in
        match setvolume alsa value (volume c) with
        | Err e => (Err e, m1)
        | Ok v =>
            (Ok tt, set_routes digital
                      (store (routes_of digital m1) no ni (with_volume c v)) m1)
        end
    end.

Definition SetVolume (value output_channel input_channel : Z) (digital : bool)
  : M Mixer unit :=
  route_setvolume digital value output_channel input_channel.

Definition AddObserver (function : Observer) : M Mixer unit :=
  fun m => (Ok tt, add_observer function m).

(** [for o in self.__observers: o(changed_analog_routes, changed_digital_routes)] *)
Definition notify (changed_analog_routes changed_digital_routes : list (Z * Z))
  : M Mixer unit :=
  fun m =>
    (Ok tt,
     log_dispatch
       (map (fun o => (o, changed_analog_routes, changed_digital_routes)) (observers m))
       m).

(** The body of the loop of [DisableEffects] over [__fx_control_names]:
    a control with a volume ([volumecap() != []]) is set to 0. *)
Fixpoint disable_fx (fx : list (string * FxControl)) (log : list hw_write)
  : result unit * list (string * FxControl) * list hw_write :=
  match fx with
  | [] => (Ok tt, [], log)
  | (n, FxLinear cur) :: rest =>
      let log1 := log ++ [SetFxVolume n 0] in
      match setvolume alsa 0 cur with
      | Err e => (Err e, fx, log1)
      | Ok v =>
          let '(r, rest', log') := disable_fx rest log1 in
          (r, (n, FxLinear v) :: rest', log')
      end
  | (n, FxEnum cur labels) :: rest =>
      let '(r, rest', log') := disable_fx rest log in
      (r, (n, FxEnum cur labels) :: rest', log')
  end.

Definition set_fx_log (fx : list (string * FxControl)) (log : list hw_write) (m : Mixer)
  : Mixer :=
  {| analog_routes := analog_routes m;
     digital_routes := digital_routes m;
     fx_controls := fx;
     observers := observers m;
     descriptors_to_routes := descriptors_to_routes m;
     hw_writes := log;
     dispatched := dispatched m |}.

Definition DisableEffects : M Mixer unit :=
  fun m =>
    let '(r, fx, log) := disable_fx (fx_controls m) (hw_writes m) in
    (r, set_fx_log fx log m).

Definition MuteMostDigitalRoutes : M Mixer unit :=
  fun m =>
    for_each (range (length (digital_routes m)))
      (fun o m' =>
         match getitem (digital_routes m') o with
         | Err e => (Err e, m')
         | Ok row =>
             for_each (range (length row))
               (fun i => if negb (o =? i) then route_setvolume true 0 o i else ret tt)
               m'
         end)
      m.

End WithBackend.

(** ** The configuration dictionary *)

Definition config : Type := dict (dict value).

(** ["ain%i_to_out%i" % (i + 1, o + 1)], and the same with ["din"]. *)
Definition route_key (prefix : string) (i o : Z) : string :=
  (prefix ++ str_of_int (i + 1) ++ "_to_out" ++ str_of_int (o + 1))%string.

(** [n.replace(" ", "_").lower()] *)
Definition cname (n : string) : string := lower (replace_space n).

(** The value [GetConfigDict] stores for a control of the effects. *)
Definition fx_value (c : FxControl) : value :=
  match c with
  | FxLinear v => VInt v
  | FxEnum cur _ => VStr cur
  end.

(** One of the two double loops of [GetConfigDict].  [bounds] is the list
    whose rows give the range of the inner loop. *)
Definition dump_routes (prefix : string) (digital : bool)
    (bounds : list (list (option Control))) (m : Mixer) : result (dict value) :=
  foldM
    (fun d o =>
       let? row := getitem bounds o in
       foldM
         (fun d i =>
            let? v := GetVolume o i digital m in
            Ok (dict_set d (route_key prefix i o) (VInt v)))
         (range (length row)) d)
    (range (length (routes_of digital m))) [].

Definition GetConfigDict (m : Mixer) : result config :=
  let? analog := dump_routes "ain" false (analog_routes m) m in
  (* the inner loop of the digital section runs over
     range(len(self.__analog_routes[o])) *)
  let? digital := dump_routes "din" true (analog_routes m) m in
  let effects :=
    fold_left (fun d '(n, c) => dict_set d (cname n) (fx_value c)) (fx_controls m) [] in
  Ok (dict_set (dict_set (dict_set [] "Analog" analog) "Digital" digital)
        "Effects" effects).

(** [i, o = [int(s) - 1 for s in key.split(prefix)[1].split("_to_out")]] *)
Definition parse_route_key (prefix key : string) : result (Z * Z) :=
  let? rest := getitem (split prefix key) 1 in
  let? ints := mapM (fun s => let? n := int_of_str s in Ok (n - 1))
                 (split "_to_out" rest) in
  match ints with
  | [i; o] => Ok (i, o)
  | _ => Err ValueError
  end.

Section WithBackend.

Variable alsa : Backend.

(** The loop over the keys of the section ["Analog"] or ["Digital"]; the
    routes collected so far are in [changed]. *)
Fixpoint apply_routes (prefix : string) (digital : bool) (section : dict value)
    (keys : list string) (changed : list (Z * Z)) : M Mixer (list (Z * Z)) :=
  match keys with
  | [] => ret changed
  | key :: rest =>
      io <- lift (parse_route_key prefix key) ;;
      v <- lift (match dict_get section key with
                 | Some v => int_of v
                 | None => Err KeyError
                 end) ;;
      SetVolume alsa v (snd io) (fst io) digital ;;;
      apply_routes prefix digital section rest (changed ++ [(snd io, fst io)])
  end.

(** The loop over [__fx_control_names] in the section ["Effects"].  An
    enumerated control is set by running [amixer sset name label]. *)
Fixpoint apply_effects (section : dict value) (fx : list (string * FxControl))
    (log : list hw_write) : result unit * list (string * FxControl) * list hw_write :=
  match fx with
  | [] => (Ok tt, [], log)
  | (n, c) :: rest =>
      match dict_get section (cname n) with
      | None =>
          let '(r, rest', log') := apply_effects section rest log in
          (r, (n, c) :: rest', log')
      | Some v =>
          match c with
          | FxLinear cur =>
              match int_of v with
              | Err e => (Err e, fx, log)
              | Ok z =>
                  let log1 := log ++ [SetFxVolume n z] in
                  match setvolume alsa z cur with
                  | Err e => (Err e, fx, log1)
                  | Ok v' =>
                      let '(r, rest', log') := apply_effects section rest log1 in
                      (r, (n, FxLinear v') :: rest', log')
                  end
              end
          | FxEnum cur labels =>
              if value_in v labels then
                let log1 := log ++ [AmixerSset n (str_of v)] in
                match amixer_sset alsa n (str_of v) cur labels with
                | Err e => (Err e, fx, log1)
                | Ok cur' =>
                    let '(r, rest', log') := apply_effects section rest log1 in
                    (r, (n, FxEnum cur' labels) :: rest', log')
                end
              else
                let '(r, rest', log') := apply_effects section rest log in
                (r, (n, c) :: rest', log')
          end
      end
  end.

Definition ParseConfigDict (configdict : config) : M Mixer unit :=
  changed_analog_routes <-
    match dict_get configdict "Analog" with
    | Some section => apply_routes "ain" false section (dict_keys section) []
    | None => ret []
    end ;;
  changed_digital_routes <-
    match dict_get configdict "Digital" with
    | Some section => apply_routes "din" true section (dict_keys section) []
    | None => ret []
    end ;;
  match dict_get configdict "Effects" with
  | Some section =>
      fun m =>
        let '(r, fx, log) := apply_effects section (fx_controls m) (hw_writes m) in
        (r, set_fx_log fx log m)
  | None => ret tt
  end ;;;
  notify changed_analog_routes changed_digital_routes.

(** ** The polling thread *)

(** [select.POLLIN] *)
Definition POLLIN : Z := 1.

Fixpoint lookup_fd (table : list (Z * RouteInfo)) (fd : Z) : result RouteInfo :=
  match table with
  | [] => Err KeyError
  | (k, r) :: rest => if k =? fd then Ok r else lookup_fd rest fd
  end.

(** The loop over the events returned by [self.__poll.poll(700)]. *)
Fixpoint collect_changes (table : list (Z * RouteInfo)) (events : list (Z * Z))
    (changed_analog_routes changed_digital_routes : list (Z * Z))
  : result (list (Z * Z) * list (Z * Z)) :=
  match events with
  | [] => Ok (changed_analog_routes, changed_digital_routes)
  | d :: rest =>
      if negb (Z.land (snd d) POLLIN =? 0) then
        let? '(o, i, digital, _, _) := lookup_fd table (fst d) in
        if digital
        then collect_changes table rest changed_analog_routes
               (changed_digital_routes ++ [(o, i)])
        else collect_changes table rest (changed_analog_routes ++ [(o, i)])
               changed_digital_routes
      else collect_changes table rest changed_analog_routes changed_digital_routes
  end.

(** One iteration of the [while True] loop of [__PollForChanges], for the
    events that [poll] returned in it. *)
Definition PollForChanges_cycle (events : list (Z * Z)) : M Mixer unit :=
  fun m =>
    match collect_changes (descriptors_to_routes m) events [] [] with
    | Err e => (Err e, m)
    | Ok (changed_analog_routes, changed_digital_routes) =>
        match changed_analog_routes, changed_digital_routes with
        | [], [] => (Ok tt, m)
        | _, _ => notify changed_analog_routes changed_digital_routes m
        end
    end.

(** The loop itself, for the results of the successive calls of [poll]. *)
Definition PollForChanges (polls : list (list (Z * Z))) : M Mixer unit :=
  for_each polls PollForChanges_cycle.

End WithBackend.

(** ** The constructor *)

(** What [alsaaudio.Mixer(name, cardindex=...)] opens: a control with the
    volume of its first channel, its poll descriptor and, for an enumerated
    control, the current label and the labels. *)
Record AlsaMixer : Type := {
  am_volume : Z;
  am_descriptor : Z * Z;
  am_enum : option (string * list string)
}.

Definition as_route (a : AlsaMixer) : Control :=
  {| volume := am_volume a; descriptor := am_descriptor a |}.

Definition as_fx (a : AlsaMixer) : FxControl :=
  match am_enum a with
  | Some (current, labels) => FxEnum current labels
  | None => FxLinear (am_volume a)
  end.

Definition digit_at (name : string) (k : nat) : bool :=
  match String.get k name with
  | Some c => is_digit c
  | None => false
  end.

(** [re.compile(kind + "\d - Out\d").match(name)] for [kind] of three
    characters: the pattern is looked for at the start of the name. *)
Definition matches_route (kind name : string) : bool :=
  starts_with kind name && digit_at name 3 &&
  String.eqb (String.substring 4 6 name) " - Out" && digit_at name 10.

(** [int(name[k])] *)
Definition int_at (name : string) (k : nat) : result Z :=
  match String.get k name with
  | Some c => int_of_str (String c EmptyString)
  | None => Err IndexError
  end.

Fixpoint set_fd (table : list (Z * RouteInfo)) (fd : Z) (r : RouteInfo)
  : list (Z * RouteInfo) :=
  match table with
  | [] => [(fd, r)]
  | (k, r') :: rest =>
      if k =? fd then (k, r) :: rest else (k, r') :: set_fd rest fd r
  end.

Definition empty_mixer : Mixer :=
  {| analog_routes := [];
     digital_routes := [];
     fx_controls := [];
     observers := [];
     descriptors_to_routes := [];
     hw_writes := [];
     dispatched := [] |}.

Definition register_route (fd : Z) (r : RouteInfo) (m : Mixer) : Mixer :=
  {| analog_routes := analog_routes m;
     digital_routes := digital_routes m;
     fx_controls := fx_controls m;
     observers := observers m;
     descriptors_to_routes := set_fd (descriptors_to_routes m) fd r;
     hw_writes := hw_writes m;
     dispatched := dispatched m |}.

(** [for i in range(len(l), n): l.append(x)] *)
Definition pad_to {A} (l : list A) (n : Z) (x : A) : list A :=
  l ++ repeat x (Z.to_nat (n - Z.of_nat (length l))).

(** [Mixer.__CreateRoute] *)
Definition CreateRoute (name : string) (route : AlsaMixer) (digital : bool)
  : M Mixer unit :=
  fun m =>
    match
      (let? o := int_at name 10 in
       let? i := int_at name 3 in
       let out_index := o - 1 in
       let in_index := i - 1 in
       let rows := pad_to (routes_of digital m) (out_index + 1) [] in
       let? row := getitem rows out_index in
       let? row' := setitem (pad_to row (in_index + 1) None) in_index
                      (Some (as_route route)) in
       let? rows' := setitem rows out_index row' in
       Ok (rows', out_index, in_index))
    with
    | Err e => (Err e, m)
    | Ok (rows', out_index, in_index) =>
        let descriptor := am_descriptor route in
        (Ok tt,
         register_route (fst descriptor)
           (out_index, in_index, digital, snd descriptor, fst descriptor)
           (set_routes digital rows' m))
    end.

Section WithBackend.

Variable alsa : Backend.

(** [Mixer.__init__] for the controls [alsaaudio.mixers(card_index)] lists,
    each name with the control it opens. *)
Definition Mixer_init (controls : list (string * AlsaMixer))
    (disable_effects mute_most_digital_routes : bool) : result unit * Mixer :=
  (for_each controls
     (fun '(name, a) =>
        if matches_route "AIn" name then CreateRoute name a false
        else if matches_route "DIn" name then CreateRoute name a true
        else fun m => (Ok tt, set_fx (fx_controls m ++ [(name, as_fx a)]) m)) ;;;
   (if disable_effects then DisableEffects alsa else ret tt) ;;;
   (if mute_most_digital_routes then MuteMostDigitalRoutes alsa else ret tt))
    empty_mixer.

End WithBackend.

(* ===================================================================== *)
(** * class Gui: the sliders of the analog routes and the links *)
(* ===================================================================== *)

(** A [wx.Slider]: the identifier [GetId()] returns and the value
    [GetValue()] returns.  The sliders are created with the range 0 to 100. *)
Record Slider : Type := {
  slider_id : Z;
  slider_value : Z
}.

(** The part of the object that the handlers of the routing sliders and the
    configuration use: the mixer, the pairs [(slider, vlabel)] of
    [__hardwarerouting_sliders] (a label is the text it shows) and
    [__links].  The widgets of [__linkchoices] only display [__links]. *)
Record Gui : Type := {
  mixer : Mixer;
  hardwarerouting_sliders : list (list (Slider * string));
  links : list (option Z)
}.

Definition set_mixer (m : Mixer) (g : Gui) : Gui :=
  {| mixer := m;
     hardwarerouting_sliders := hardwarerouting_sliders g;
     links := links g |}.

Definition set_sliders (s : list (list (Slider * string))) (g : Gui) : Gui :=
  {| mixer := mixer g;
     hardwarerouting_sliders := s;
     links := links g |}.

Definition set_links (l : list (option Z)) (g : Gui) : Gui :=
  {| mixer := mixer g;
     hardwarerouting_sliders := hardwarerouting_sliders g;
     links := l |}.

(** [l[k]] changed by [f], for a subscript already known to be valid. *)
Definition alter_item {A} (f : A -> A) (l : list A) (k : Z) : list A :=
  match norm_index (length l) k with
  | Some n =>
      match nth_error l n with
      | Some x => update l n (f x)
      | None => l
      end
  | None => l
  end.

(** [sliders[o][i]] *)
Definition slider_at (g : Gui) (o i : Z) : result (Slider * string) :=
  let? row := getitem (hardwarerouting_sliders g) o in
  getitem row i.

(** [vlabel.SetLabel(text)] for the label of [sliders[o][i]] *)
Definition SetLabel (o i : Z) (text : string) (g : Gui) : Gui :=
  set_sliders
    (alter_item (fun row => alter_item (fun sl => (fst sl, text)) row i)
       (hardwarerouting_sliders g) o) g.

(** [slider.SetValue(v)] for the slider of [sliders[o][i]] *)
Definition SetValue (o i : Z) (v : Z) (g : Gui) : Gui :=
  set_sliders
    (alter_item
       (fun row =>
          alter_item
            (fun sl => ({| slider_id := slider_id (fst sl); slider_value := v |}, snd sl))
            row i)
       (hardwarerouting_sliders g) o) g.

(** A [wx] event is modelled by what the handlers read of it: [GetId()],
    the identifier of the slider that was moved.  [None] is Python's None. *)
Definition Event : Type := option Z.

Section WithBackend.

Variable alsa : Backend.

(** [Gui.__OnHardwareRouting].  The method calls itself along the links;
    [fuel] bounds the depth of these calls, and [None] is returned when the
    bound is reached before the calls end. *)
Fixpoint OnHardwareRouting (fuel : nat) (event : Event)
    (output_channel input_channel : Z) (g : Gui) : option (result unit * Gui) :=
  match fuel with
  | O => None
  | S fuel' =>
      match slider_at g output_channel input_channel with
      | Err e => Some (Err e, g)
      | Ok (slider, _) =>
          let volume := slider_value slider in
          match SetVolume alsa volume output_channel input_channel false (mixer g) with
          | (Err e, m') => Some (Err e, set_mixer m' g)
          | (Ok _, m') =>
              let g1 := SetLabel output_channel input_channel (str_of_int volume)
                          (set_mixer m' g) in
              match getitem (links g1) output_channel with
              | Err e => Some (Err e, g1)
              | Ok linked_output =>
                  match linked_output, event with
                  | Some lo, Some id =>
                      match slider_at g1 lo input_channel with
                      | Err e => Some (Err e, g1)
                      | Ok (linked_slider, _) =>
                          if negb (id =? slider_id linked_slider) then
                            OnHardwareRouting fuel' event lo input_channel
                              (SetValue lo input_channel volume g1)
                          else Some (Ok tt, g1)
                      end
                  | _, _ => Some (Ok tt, g1)
                  end
              end
          end
      end
  end.

(** The binding of a routing slider: the user moves the slider of
    [(output_channel, input_channel)] to [value], and [wx] calls the handler
    with an event that carries the identifier of this slider. *)
Definition move_slider (fuel : nat) (value output_channel input_channel : Z) (g : Gui)
  : option (result unit * Gui) :=
  match slider_at g output_channel input_channel with
  | Err e => Some (Err e, g)
  | Ok (slider, _) =>
      OnHardwareRouting fuel (Some (slider_id slider)) output_channel input_channel
        (SetValue output_channel input_channel value g)
  end.

End WithBackend.

(** [Gui.__OnLink]: the selection is ["None"] or ["Out%i"]. *)
Definition last_char (s : string) : result string :=
  match String.length s with
  | O => Err IndexError
  | S n => Ok (String.substring n 1 s)
  end.

Definition OnLink (output_channel : Z) (selection : string) : M Gui unit :=
  fun g =>
    if String.eqb selection "None" then
      match setitem (links g) output_channel None with
      | Ok l => (Ok tt, set_links l g)
      | Err e => (Err e, g)
      end
    else
      match (let? c := last_char selection in
             let? n := int_of_str c in
             setitem (links g) output_channel (Some (n - 1))) with
      | Ok l => (Ok tt, set_links l g)
      | Err e => (Err e, g)
      end.

(** [Gui.GetConfigDict] *)
Definition link_key (i : Z) : string := ("link" ++ str_of_int (i + 1) ++ "to")%string.

Definition link_value (l : option Z) : value :=
  match l with
  | None => VStr "0"
  | Some t => VStr (str_of_int (t + 1))
  end.

Definition Gui_GetConfigDict (g : Gui) : result config :=
  let? gui :=
    foldM (fun d i => let? l := getitem (links g) i in
                      Ok (dict_set d (link_key i) (link_value l)))
      (range (length (links g))) [] in
  Ok (dict_set [] "GUI" gui).

(** [Gui.ParseConfigDict] *)
Fixpoint apply_links (section : dict value) (keys : list string) : M Gui unit :=
  match keys with
  | [] => ret tt
  | key :: rest =>
      link <- lift (let? n := int_of_str (rstrip "to" (lstrip "link" key)) in Ok (n - 1)) ;;
      to <- lift (match dict_get section key with
                  | Some v => let? n := int_of v in Ok (n - 1)
                  | None => Err KeyError
                  end) ;;
      (fun g =>
         match setitem (links g) link (if to <? 0 then None else Some to) with
         | Ok l => (Ok tt, set_links l g)
         | Err e => (Err e, g)
         end) ;;;
      apply_links section rest
  end.

Definition Gui_ParseConfigDict (configdict : config) : M Gui unit :=
  match dict_get configdict "GUI" with
  | Some section => apply_links section (dict_keys section)
  | None => ret tt
  end.

(** ** The macros of the master tab *)

Section WithBackend.

Variable alsa : Backend.

(** [self.__hardwarerouting_sliders[o][i][0].SetValue(v)] followed by
    [self.__OnHardwareRouting(event=None, output_channel=o, input_channel=i)] *)
Definition set_and_route (fuel : nat) (v o i : Z) (g : Gui)
  : option (result unit * Gui) :=
  match slider_at g o i with
  | Err e => Some (Err e, g)
  | Ok _ => OnHardwareRouting alsa fuel None o i (SetValue o i v g)
  end.

(** [Gui.MuteHardwareRoutes] *)
Definition MuteHardwareRoutes (fuel : nat) (g : Gui) : option (result unit * Gui) :=
  for_each_bounded (range (GetNumberOfChannels (mixer g)))
    (fun o g1 =>
       for_each_bounded (range (GetNumberOfChannels (mixer g1)))
         (fun i => set_and_route fuel 0 o i) g1)
    g.

(** [Gui.PassThroughInputs] *)
Definition PassThroughInputs (fuel : nat) (g : Gui) : option (result unit * Gui) :=
  for_each_bounded (range (GetNumberOfChannels (mixer g)))
    (fun c => set_and_route fuel 100 c c) g.

(** [Gui.__MuteMostDigitalRoutes], the handler of the button: it calls the
    method of the mixer. *)
Definition Gui_MuteMostDigitalRoutes : M Gui unit :=
  fun g =>
    match MuteMostDigitalRoutes alsa (mixer g) with
    | (r, m') => (r, set_mixer m' g)
    end.

End WithBackend.

(** ** The master slider and the observer of the mixer *)

(** The object with the two widgets of the master tab that the handlers
    below use: [__masterslider] and the text of [__masterlabel]. *)
Record MasterGui : Type := {
  gui : Gui;
  masterslider : Slider;
  masterlabel : string
}.

Definition set_gui (g : Gui) (w : MasterGui) : MasterGui :=
  {| gui := g; masterslider := masterslider w; masterlabel := masterlabel w |}.

(** [Gui.__OnMaster] *)
Definition OnMaster (alsa : Backend) : M MasterGui unit :=
  fun w =>
    match
      for_each (range (GetNumberOfChannels (mixer (gui w))))
        (fun c => SetVolume alsa (slider_value (masterslider w)) c c true)
        (mixer (gui w))
    with
    | (Err e, m') => (Err e, set_gui (set_mixer m' (gui w)) w)
    | (Ok _, m') =>
        (Ok tt,
         {| gui := set_mixer m' (gui w);
            masterslider := masterslider w;
            masterlabel := str_of_int (slider_value (masterslider w)) |})
    end.

(** The function [worker] of [Gui.__OnMixerEvent], which [wx.CallAfter] runs
    in the thread of the GUI.  Its first loop, over the analog routes that
    changed: *)
Definition sync_sliders (changed_analog_routes : list (Z * Z)) : M Gui unit :=
  for_each changed_analog_routes
    (fun '(o, i) g =>
       match GetVolume o i false (mixer g) with
       | Err e => (Err e, g)
       | Ok volume =>
           match slider_at g o i with
           | Err e => (Err e, g)
           | Ok (slider, _) =>
               if negb (volume =? slider_value slider)
               then (Ok tt, SetLabel o i (str_of_int volume) (SetValue o i volume g))
               else (Ok tt, g)
           end
       end).

(** [mastervolume = 0] and the loop that adds the volumes of the digital
    routes [(c, c)]. *)
Definition diagonal_sum (m : Mixer) : result Z :=
  foldM (fun total c => let? v := GetVolume c c true m in Ok (total + v))
    (range (GetNumberOfChannels m)) 0.

Section Worker.

(** [int(round(total / float(n)))], the mean of [n] volumes that add up to
    [total]: it is computed in floating point, whose arithmetic is not part
    of this development. *)
Variable rounded_mean : Z -> nat -> result Z.

(** The second loop of [worker], over the digital routes that changed: the
    first route from an input to the output of the same number sets the
    master slider, and the loop ends there. *)
Fixpoint sync_master (changed_digital_routes : list (Z * Z)) : M MasterGui unit :=
  match changed_digital_routes with
  | [] => ret tt
  | (o, i) :: rest =>
      if o =? i then
        fun w =>
          match (let? total := diagonal_sum (mixer (gui w)) in
                 rounded_mean total (GetNumberOfChannels (mixer (gui w)))) with
          | Err e => (Err e, w)
          | Ok v =>
              (Ok tt,
               {| gui := gui w;
                  masterslider := {| slider_id := slider_id (masterslider w);
                                     slider_value := v |};
                  masterlabel := str_of_int v |})
          end
      else sync_master rest
  end.

Definition OnMixerEvent_worker (changed_analog_routes changed_digital_routes : list (Z * Z))
  : M MasterGui unit :=
  fun w =>
    match sync_sliders changed_analog_routes (gui w) with
    | (Err e, g') => (Err e, set_gui g' w)
    | (Ok _, g') => sync_master changed_digital_routes (set_gui g' w)
    end.

End Worker.

(* ===================================================================== *)
(** * class Config: the dictionary that is saved and loaded *)
(* ===================================================================== *)

(** The dictionary [Config.Save] builds before it writes it to the file. *)
Definition Save_configdict (g : Gui) : result config :=
  let? configdict := GetConfigDict (mixer g) in
  let? gui_configdict := Gui_GetConfigDict g in
  Ok (fold_left (fun d '(section, content) => dict_set d section content)
        gui_configdict configdict).

(** What [Config.Load] does with the dictionary it has read from the file. *)
Definition Load_configdict (alsa : Backend) (configdict : config) : M Gui unit :=
  fun g =>
    match ParseConfigDict alsa configdict (mixer g) with
    | (Err e, m') => (Err e, set_mixer m' g)
    | (Ok _, m') => Gui_ParseConfigDict configdict (set_mixer m' g)
    end.

(** [Config.Save] writes every value [v] as [str(v)], and the parser returns
    the values as strings. *)
Definition as_written (configdict : config) : config :=
  map (fun '(section, content) =>
         (section, map (fun '(k, v) => (k, VStr (str_of v))) content))
    configdict.

(* ===================================================================== *)
(** * The notions of the statements *)
(* ===================================================================== *)

(** ** Subscripts *)

(** The subscripts Python accepts for a list of [len] elements. *)
Definition in_bounds (len : nat) (k : Z) : Prop :=
  - Z.of_nat len <= k < Z.of_nat len.

(** ** The slots of a matrix of routes *)

(** [rows[o][i]] for subscripts counted from the front. *)
Definition cell {A} (rows : list (list A)) (o i : nat) : option A :=
  match nth_error rows o with
  | Some row => nth_error row i
  | None => None
  end.

Definition shape {A} (rows : list (list A)) : list nat := map (@Datatypes.length A) rows.

(** ** Strings: printing and parsing of integers, splitting of keys *)

Fixpoint forall_chars (p : ascii -> bool) (s : string) : bool :=
  match s with
  | EmptyString => true
  | String c r => p c && forall_chars p r
  end.

Definition all_digits (s : string) : bool := forall_chars is_digit s.

(** ** Writing a route *)

(** The mixer after [routes[o][i].setvolume(value, 0)] took the volume [v]. *)
Definition written (digital : bool) (value : Z) (no ni : nat) (c : Control) (v : Z)
    (m : Mixer) : Mixer :=
  set_routes digital (store (routes_of digital m) no ni (with_volume c v))
    (log_write (SetRouteVolume digital no ni value) m).

(** ** Matrices of routes *)

(** Every slot holds a control: the hardware reported every route of the
    rows the matrix has. *)
Definition all_present (rows : list (list (option Control))) : bool :=
  forallb (forallb (fun slot => match slot with Some _ => true | None => false end))
    rows.

Definition row_len {A} (rows : list (list A)) (o : nat) : nat :=
  match nth_error rows o with
  | Some row => length row
  | None => O
  end.

(** ** MuteMostDigitalRoutes *)

(** The routes that the loops have passed when the outer loop is in row [k]
    and the inner loop before column [j], the diagonal left out. *)
Definition muted_upto (k j o i : nat) : bool :=
  (((o <? k) || ((o =? k) && (i <? j))) && negb (o =? i))%nat.

Definition mute_inv (m : Mixer) (k j : nat) (m' : Mixer) : Prop :=
  analog_routes m' = analog_routes m /\
  shape (digital_routes m') = shape (digital_routes m) /\
  forall o i,
    cell (digital_routes m') o i =
    option_map (option_map (fun c => if muted_upto k j o i then with_volume c 0 else c))
      (cell (digital_routes m) o i).

(** ** The polling thread: one dispatch per cycle *)

(** The descriptors that signalled in a cycle: the events with POLLIN. *)
Definition signaled (events : list (Z * Z)) : list Z :=
  map fst (filter (fun d => negb (Z.land (snd d) POLLIN =? 0)) events).

(** The [(output, input)] pairs of the analog or of the digital routes of a
    batch, in the order of the batch. *)
Definition routes_in (digital : bool) (batch : list RouteInfo) : list (Z * Z) :=
  map (fun r : RouteInfo => let '(o, i, _, _, _) := r in (o, i))
    (filter (fun r : RouteInfo => let '(_, _, d, _, _) := r in Bool.eqb d digital)
       batch).

(** ** ParseConfigDict: the observers *)

(** The routes that the keys of a section name, as [(output, input)]. *)
Definition named_routes (prefix : string) (section : option (dict value))
  : result (list (Z * Z)) :=
  match section with
  | None => Ok []
  | Some s =>
      mapM (fun key => let? io := parse_route_key prefix key in Ok (snd io, fst io))
        (dict_keys s)
  end.

(** ** The cascade of the links *)

(** One call of [__OnHardwareRouting] up to its recursive call: the output
    of the recursive call, if there is one, and the state it is made in. *)
Definition routing_step (alsa : Backend) (event : Event)
    (output_channel input_channel : Z) (g : Gui) : result (option Z) * Gui :=
  match slider_at g output_channel input_channel with
  | Err e => (Err e, g)
  | Ok (slider, _) =>
      let volume := slider_value slider in
      match SetVolume alsa volume output_channel input_channel false (mixer g) with
      | (Err e, m') => (Err e, set_mixer m' g)
      | (Ok _, m') =>
          let g1 := SetLabel output_channel input_channel (str_of_int volume)
                      (set_mixer m' g) in
          match getitem (links g1) output_channel with
          | Err e => (Err e, g1)
          | Ok linked_output =>
              match linked_output, event with
              | Some lo, Some id =>
                  match slider_at g1 lo input_channel with
                  | Err e => (Err e, g1)
                  | Ok (linked_slider, _) =>
                      if negb (id =? slider_id linked_slider)
                      then (Ok (Some lo), SetValue lo input_channel volume g1)
                      else (Ok None, g1)
                  end
              | _, _ => (Ok None, g1)
              end
          end
      end
  end.

(** The identifiers of the sliders: no handler changes them. *)
Definition ids (g : Gui) : list (list Z) :=
  map (map (fun sl : Slider * string => slider_id (fst sl))) (hardwarerouting_sliders g).

Definition id_at (g : Gui) (o i : Z) : result Z :=
  let? row := getitem (ids g) o in getitem row i.

(** ** ParseConfigDict: what it tolerates *)

(** The two subscripts lead to a control. *)
Definition addressable (rows : list (list (option Control))) (o i : Z) : Prop :=
  exists no ni c, locate rows o i = Ok (no, ni, c).

(** A key of the section ["Analog"] or ["Digital"] that [ParseConfigDict]
    can apply: it names a route that exists and its value is a volume. *)
Definition entry_applies (prefix : string) (rows : list (list (option Control)))
    (section : dict value) (key : string) : Prop :=
  exists i o v z,
    parse_route_key prefix key = Ok (i, o) /\
    dict_get section key = Some v /\ int_of v = Ok z /\ 0 <= z <= 100 /\
    addressable rows o i.

Definition section_applies (prefix name : string) (digital : bool) (configdict : config)
    (m : Mixer) : Prop :=
  forall section, dict_get configdict name = Some section ->
    forall key, In key (dict_keys section) ->
      entry_applies prefix (routes_of digital m) section key.

(** The values given for the controls of the effects that have a volume are
    volumes. *)
Definition effects_apply (configdict : config) (m : Mixer) : Prop :=
  forall section, dict_get configdict "Effects" = Some section ->
    forall n cur v, In (n, FxLinear cur) (fx_controls m) ->
      dict_get section (cname n) = Some v ->
      exists z, int_of v = Ok z /\ 0 <= z <= 100.

(** ** GetConfigDict on a matrix without gaps *)

(** Every slot that exists holds a control. *)
Definition present (rows : list (list (option Control))) : Prop :=
  forall o i slot, cell rows o i = Some slot -> exists c, slot = Some c.

(** The routes of a matrix in the order of the two loops. *)
Definition row_positions {A} (rows : list (list A)) (o : nat) : list (nat * nat) :=
  map (pair o) (seq 0 (row_len rows o)).

Definition positions_upto {A} (rows : list (list A)) (k : nat) : list (nat * nat) :=
  flat_map (row_positions rows) (seq 0 k).

Definition positions {A} (rows : list (list A)) : list (nat * nat) :=
  positions_upto rows (length rows).

Definition vol_at (rows : list (list (option Control))) (o i : nat) : Z :=
  match cell rows o i with
  | Some (Some c) => volume c
  | _ => 0
  end.

Definition key_of (prefix : string) (p : nat * nat) : string :=
  route_key prefix (Z.of_nat (snd p)) (Z.of_nat (fst p)).

(** The section that [GetConfigDict] writes for a matrix. *)
Definition entries (prefix : string) (rows : list (list (option Control)))
    (ps : list (nat * nat)) : dict value :=
  map (fun p => (key_of prefix p, VInt (vol_at rows (fst p) (snd p)))) ps.

(** ** ParseConfigDict on the section of a matrix *)

Definition mem_pos (o i : nat) (ps : list (nat * nat)) : bool :=
  existsb (fun p => (fst p =? o)%nat && (snd p =? i)%nat) ps.

Definition zpair (p : nat * nat) : Z * Z := (Z.of_nat (fst p), Z.of_nat (snd p)).

(** ** The volumes of a matrix *)

Definition volumes (rows : list (list (option Control))) : list (list (option Z)) :=
  map (map (option_map volume)) rows.

(** ** The section of the effects *)

Definition fx_key (nc : string * FxControl) : string := cname (fst nc).

Definition fx_entries (fx : list (string * FxControl)) : dict value :=
  map (fun nc => (fx_key nc, fx_value (snd nc))) fx.

(** A control of the effects as the hardware can have it: a volume from 0
    to 100, or a current label that is one of the labels. *)
Definition fx_valid (nc : string * FxControl) : Prop :=
  match snd nc with
  | FxLinear v => 0 <= v <= 100
  | FxEnum current labels => In current labels
  end.

(** Two states of the same control: the same name and kind, and for an
    enumerated control the same labels. *)
Definition same_control (a b : string * FxControl) : Prop :=
  fst a = fst b /\
  match snd a, snd b with
  | FxLinear _, FxLinear _ => True
  | FxEnum _ la, FxEnum _ lb => la = lb
  | _, _ => False
  end.

(** ** The section of the links *)

Definition link_entries (ls : list (option Z)) (js : list nat) : dict value :=
  map (fun j => (link_key (Z.of_nat j), link_value (nth j ls None))) js.

Definition links_valid (ls : list (option Z)) : Prop :=
  Forall (fun l => match l with Some t => 0 <= t | None => True end) ls.

(** ** Saving and loading a configuration *)

(** The numbers of the channels of a matrix, counted from 1 as the keys
    have them, are ints that [int] reads back. *)
Definition channels_in_limit {A} (rows : list (list A)) : Prop :=
  forall o i x, cell rows o i = Some x ->
    Z.of_nat o + 1 < int_limit /\ Z.of_nat i + 1 < int_limit.

(** The same for the links, counted from 1 as the section ["GUI"] has
    them. *)
Definition links_in_limit (ls : list (option Z)) : Prop :=
  Z.of_nat (length ls) < int_limit /\
  Forall (fun l => match l with Some t => t + 1 < int_limit | None => True end) ls.

(** What is read back of a state: the volumes of the two matrices, the
    controls of the effects and the links. *)
Record Snapshot : Type := {
  snap_analog : list (list (option Z));
  snap_digital : list (list (option Z));
  snap_effects : list (string * FxControl);
  snap_links : list (option Z)
}.

Definition snapshot (g : Gui) : Snapshot :=
  {| snap_analog := volumes (analog_routes (mixer g));
     snap_digital := volumes (digital_routes (mixer g));
     snap_effects := fx_controls (mixer g);
     snap_links := links g |}.

Definition volumes_in_range (rows : list (list (option Control))) : bool :=
  forallb
    (forallb (fun slot => match slot with
                          | Some c => (0 <=? volume c) && (volume c <=? 100)
                          | None => true
                          end))
    rows.

(** The states of the program on an interface whose digital routes mirror
    its analog routes: both matrices have a control in every slot and the
    same shape, the volumes are volumes of ALSA (0 to 100), the controls of
    the effects have pairwise different keys, the current label of an
    enumerated control is one of its labels, and a link is an output
    counted from 0. *)
Record well_formed (g : Gui) : Prop := {
  wf_analog : all_present (analog_routes (mixer g)) = true;
  wf_digital : all_present (digital_routes (mixer g)) = true;
  wf_shape : shape (digital_routes (mixer g)) = shape (analog_routes (mixer g));
  wf_analog_range : volumes_in_range (analog_routes (mixer g)) = true;
  wf_digital_range : volumes_in_range (digital_routes (mixer g)) = true;
  wf_keys : NoDup (map fx_key (fx_controls (mixer g)));
  wf_effects : Forall fx_valid (fx_controls (mixer g));
  wf_links : links_valid (links g)
}.

(** Two states of the program on the same interface: the same routes, the
    same controls of the effects, the same number of outputs. *)
Record same_hardware (g g' : Gui) : Prop := {
  sh_analog : shape (analog_routes (mixer g')) = shape (analog_routes (mixer g));
  sh_digital : shape (digital_routes (mixer g')) = shape (digital_routes (mixer g));
  sh_analog_present : all_present (analog_routes (mixer g')) = true;
  sh_digital_present : all_present (digital_routes (mixer g')) = true;
  sh_effects : Forall2 same_control (fx_controls (mixer g)) (fx_controls (mixer g'));
  sh_links : length (links g') = length (links g)
}.

(** The numbers that [Config.Save] writes for a state are read back by
    [int]: no channel and no link has a number of more than
    [int_max_str_digits] digits. *)
Record within_int_limit (g : Gui) : Prop := {
  il_channels : channels_in_limit (analog_routes (mixer g));
  il_links : links_in_limit (links g)
}.

(** The dictionary of a well-formed state. *)
Definition saved (g : Gui) : config :=
  [("Analog", entries "ain" (analog_routes (mixer g)) (positions (analog_routes (mixer g))));
   ("Digital",
    entries "din" (digital_routes (mixer g)) (positions (digital_routes (mixer g))));
   ("Effects", fx_entries (fx_controls (mixer g)));
   ("GUI", link_entries (links g) (seq 0 (length (links g))))].

(* ===================================================================== *)
(** * Example states *)
(* ===================================================================== *)

(** An interface with three inputs and three outputs, an effect with a
    volume and an enumerated effect; one observer is registered. *)
Definition ex_control (v fd : Z) : option Control :=
  Some {| volume := v; descriptor := (fd, 1) |}.

Definition ex_mixer : Mixer :=
  {| analog_routes :=
       [[ex_control 10 10; ex_control 20 11; ex_control 30 12];
        [ex_control 40 13; ex_control 50 14; ex_control 60 15];
        [ex_control 70 16; ex_control 80 17; ex_control 90 18]];
     digital_routes :=
       [[ex_control 100 20; ex_control 5 21; ex_control 6 22];
        [ex_control 7 23; ex_control 100 24; ex_control 8 25];
        [ex_control 9 26; ex_control 11 27; ex_control 95 28]];
     fx_controls :=
       [("Effect Volume", FxLinear 33);
        ("Effect Program", FxEnum "Hall 2" ["Room 1"; "Hall 1"; "Hall 2"; "Plate"])];
     observers := [0%nat];
     descriptors_to_routes :=
       [(10, (0, 0, false, 1, 10)); (11, (0, 1, false, 1, 11));
        (21, (0, 1, true, 1, 21)); (24, (1, 1, true, 1, 24))];
     hw_writes := [];
     dispatched := [] |}.

Definition ex_slider (id v : Z) : Slider * string :=
  ({| slider_id := id; slider_value := v |}, str_of_int v).

Definition ex_sliders : list (list (Slider * string)) :=
  [[ex_slider (-201) 10; ex_slider (-202) 20; ex_slider (-203) 30];
   [ex_slider (-204) 40; ex_slider (-205) 50; ex_slider (-206) 60];
   [ex_slider (-207) 70; ex_slider (-208) 80; ex_slider (-209) 90]].

(** Output 2 is linked to output 1 (counted from 0). *)
Definition ex_gui : Gui :=
  {| mixer := ex_mixer;
     hardwarerouting_sliders := ex_sliders;
     links := [None; None; Some 1] |}.

(** Outputs 1 and 2 are linked to each other. *)
Definition ex_gui_cycle : Gui :=
  {| mixer := ex_mixer;
     hardwarerouting_sliders := ex_sliders;
     links := [None; Some 2; Some 1] |}.

(** Output 2 is linked to output 1, and outputs 1 and 0 to each other: a
    cycle that output 2 is not part of. *)
Definition ex_gui_chain : Gui :=
  {| mixer := ex_mixer;
     hardwarerouting_sliders := ex_sliders;
     links := [Some 1; Some 0; Some 1] |}.

(** The state of [ex_gui_chain] once the value 70 of the slider of
    [(2, 0)] has gone through the outputs 2, 1 and 0, for the calls made to
    the hardware so far. *)
Definition ex_gui_chain_at_70 (log : list hw_write) : Gui :=
  {| mixer :=
       {| analog_routes :=
            [[ex_control 70 10; ex_control 20 11; ex_control 30 12];
             [ex_control 70 13; ex_control 50 14; ex_control 60 15];
             [ex_control 70 16; ex_control 80 17; ex_control 90 18]];
          digital_routes := digital_routes ex_mixer;
          fx_controls := fx_controls ex_mixer;
          observers := observers ex_mixer;
          descriptors_to_routes := descriptors_to_routes ex_mixer;
          hw_writes := log;
          dispatched := [] |};
     hardwarerouting_sliders :=
       [[ex_slider (-201) 70; ex_slider (-202) 20; ex_slider (-203) 30];
        [ex_slider (-204) 70; ex_slider (-205) 50; ex_slider (-206) 60];
        [ex_slider (-207) 70; ex_slider (-208) 80; ex_slider (-209) 90]];
     links := [Some 1; Some 0; Some 1] |}.

(** The program on the same interface after a start with everything muted
    and no link. *)
Definition ex_muted : Gui :=
  {| mixer :=
       {| analog_routes :=
            [[ex_control 0 10; ex_control 0 11; ex_control 0 12];
             [ex_control 0 13; ex_control 0 14; ex_control 0 15];
             [ex_control 0 16; ex_control 0 17; ex_control 0 18]];
          digital_routes :=
            [[ex_control 0 20; ex_control 0 21; ex_control 0 22];
             [ex_control 0 23; ex_control 0 24; ex_control 0 25];
             [ex_control 0 26; ex_control 0 27; ex_control 0 28]];
          fx_controls :=
            [("Effect Volume", FxLinear 0);
             ("Effect Program", FxEnum "Room 1" ["Room 1"; "Hall 1"; "Hall 2"; "Plate"])];
          observers := [0%nat];
          descriptors_to_routes := [];
          hw_writes := [];
          dispatched := [] |};
     hardwarerouting_sliders := ex_sliders;
     links := [None; None; None] |}.

(** A dictionary that sets the route of input 1 to output 1 to the volume
    it has, and two more routes. *)
Definition ex_notify_config : config :=
  [("Analog", [("ain1_to_out1", VInt 10); ("ain2_to_out1", VStr " 25 ")]);
   ("Digital", [("din2_to_out1", VInt 0)])].

(** A dictionary whose second value is no int. *)
Definition ex_raising_config : config :=
  [("Analog", [("ain1_to_out1", VInt 5); ("ain2_to_out1", VStr "loud")])].

Definition ex_config : config :=
  [("Analog", [("ain1_to_out2", VStr "55")]);
   ("Effects", [("effect_volume", VInt 7); ("effect_chorus", VStr "on")]);
   ("Window", [("width", VStr "480")])].

(** An interface that reports two digital routes and one analog route for
    output 1, and one that reports a digital route for an output without
    analog routes.  The constructor accepts both.  For the first,
    [GetConfigDict] leaves the second digital route out; for the second it
    raises. *)
Definition ex_alsa (v fd : Z) : AlsaMixer :=
  {| am_volume := v; am_descriptor := (fd, 1); am_enum := None |}.

Definition ex_wide_digital : list (string * AlsaMixer) :=
  [("AIn1 - Out1", ex_alsa 10 3); ("DIn1 - Out1", ex_alsa 20 4);
   ("DIn2 - Out1", ex_alsa 30 5)].

Definition ex_tall_digital : list (string * AlsaMixer) :=
  [("AIn1 - Out1", ex_alsa 10 3); ("DIn1 - Out1", ex_alsa 20 4);
   ("DIn1 - Out2", ex_alsa 30 5)].

(** An interface with one route of each kind and two controls of the
    effects whose names differ only in case and in the space. *)
Definition ex_shared_key : list (string * AlsaMixer) :=
  [("AIn1 - Out1", ex_alsa 10 3); ("DIn1 - Out1", ex_alsa 20 4);
   ("Reverb Level", ex_alsa 10 5); ("reverb_level", ex_alsa 20 6)].

(** The program after its start on an interface with one output: the
    slider of the analog route, no link. *)
Definition ex_started (controls : list (string * AlsaMixer)) : Gui :=
  {| mixer := snd (Mixer_init checked_backend controls false false);
     hardwarerouting_sliders := [[ex_slider (-201) 10]];
     links := [None] |}.

(* ===================================================================== *)
(** * The notions of the further properties *)
(* ===================================================================== *)

(** ** The constructor *)

(** The names that [Mixer.__init__] takes for routes. *)
Definition is_route_name (name : string) : bool :=
  matches_route "AIn" name || matches_route "DIn" name.

(** The two digits of a route name that [__CreateRoute] reads are not 0:
    the channels of the interface are counted from 1. *)
Definition channels_from_1 (name : string) : Prop :=
  String.get 3 name <> Some "0"%char /\ String.get 10 name <> Some "0"%char.

(** From [m] to [m']: the names of the controls of the effects, the
    observers and the calls made to them are the same, and every route that
    holds a control still holds one. *)
Definition keeps_controls (m m' : Mixer) : Prop :=
  map fst (fx_controls m') = map fst (fx_controls m) /\
  observers m' = observers m /\ dispatched m' = dispatched m /\
  forall d o i c, cell (routes_of d m) o i = Some (Some c) ->
    exists c', cell (routes_of d m') o i = Some (Some c').

(** ** DisableEffects *)

(** A control of the effects after [DisableEffects]: a volume is 0, an
    enumerated control is as it was. *)
Definition muted_fx (nc : string * FxControl) : string * FxControl :=
  (fst nc, match snd nc with FxLinear _ => FxLinear 0 | c => c end).

(** The calls [setvolume(0, 0)] that [DisableEffects] makes for a list of
    controls. *)
Definition fx_mute_writes (fx : list (string * FxControl)) : list hw_write :=
  flat_map (fun nc => match snd nc with
                      | FxLinear _ => [SetFxVolume (fst nc) 0]
                      | FxEnum _ _ => []
                      end) fx.

(** ** The polling thread over several cycles *)

(** The routes whose descriptors signalled in a poll. *)
Definition batch_of (table : list (Z * RouteInfo)) (events : list (Z * Z))
  : list RouteInfo :=
  match mapM (lookup_fd table) (signaled events) with
  | Ok batch => batch
  | Err _ => []
  end.

(** The calls a cycle makes for a batch: none for an empty batch, else one
    per observer. *)
Definition calls_of (observers : list Observer) (batch : list RouteInfo)
  : list Dispatch :=
  match batch with
  | [] => []
  | _ :: _ => map (fun o => (o, routes_in false batch, routes_in true batch)) observers
  end.

(** ** ParseConfigDict: what it changes *)

(** One of [keys] names the slot [(o, i)] of [rows]: the key parses, and the
    two numbers it holds are subscripts of Python for row [o] and for
    position [i] in it. *)
Definition names_slot (prefix : string) (keys : list string)
    (rows : list (list (option Control))) (o i : nat) : Prop :=
  exists key io,
    In key keys /\ parse_route_key prefix key = Ok io /\
    norm_index (length rows) (snd io) = Some o /\
    norm_index (row_len rows o) (fst io) = Some i.

(** ** The values of a configuration file *)

(** [str(v)], as a value of the dictionary that is read back. *)
Definition written_value (v : value) : value := VStr (str_of v).

(** The values that [str] writes: CPython raises ValueError for an int of
    more than [int_max_str_digits] digits, in [str] as in [int]. *)
Definition writable (v : value) : Prop :=
  match v with
  | VInt z => - int_limit < z < int_limit
  | VStr _ => True
  end.

Definition writable_section (content : dict value) : Prop :=
  forall key v, dict_get content key = Some v -> writable v.

Definition writable_config (configdict : config) : Prop :=
  forall name content, dict_get configdict name = Some content -> writable_section content.

Definition written_section (content : dict value) : dict value :=
  map (fun '(k, v) => (k, VStr (str_of v))) content.

(** ** The macros *)

(** A slider and its label after [SetValue(v)] and [SetLabel(str(v))]. *)
Definition set_slider (v : Z) (sl : Slider * string) : Slider * string :=
  ({| slider_id := slider_id (fst sl); slider_value := v |}, str_of_int v).

(** From [g] to [g']: the analog routes [passed] have the volume [v] and
    their sliders show it; everything else is as it was. *)
Record macro_inv (v : Z) (passed : nat -> nat -> bool) (g g' : Gui) : Prop := {
  mi_links : links g' = links g;
  mi_digital : digital_routes (mixer g') = digital_routes (mixer g);
  mi_fx : fx_controls (mixer g') = fx_controls (mixer g);
  mi_observers : observers (mixer g') = observers (mixer g);
  mi_dispatched : dispatched (mixer g') = dispatched (mixer g);
  mi_shape : shape (analog_routes (mixer g')) = shape (analog_routes (mixer g));
  mi_analog : forall o i,
    cell (analog_routes (mixer g')) o i =
    option_map (option_map (fun c => if passed o i then with_volume c v else c))
      (cell (analog_routes (mixer g)) o i);
  mi_sliders : forall o i,
    cell (hardwarerouting_sliders g') o i =
    option_map (fun sl => if passed o i then set_slider v sl else sl)
      (cell (hardwarerouting_sliders g) o i)
}.

(** ** Chains of links *)

(** The links from output [o] lead through the outputs of [chain], one
    after the other, and the link of the last one satisfies [stop]. *)
Fixpoint links_along (ls : list (option Z)) (stop : option Z -> Prop) (o : nat)
    (chain : list nat) : Prop :=
  match chain with
  | [] => exists lk, nth_error ls o = Some lk /\ stop lk
  | o1 :: rest =>
      nth_error ls o = Some (Some (Z.of_nat o1)) /\ links_along ls stop o1 rest
  end.

(** A set [S] of outputs that the links do not leave: every output of [S]
    is linked to an output of [S].  For input [i] each of them has a route
    and a slider, the slider shows a volume, and none of these sliders is
    the slider [id]. *)
Definition foreign_links (S : list nat) (i : nat) (id : Z) (g : Gui) : Prop :=
  forall o, In o S ->
    (exists o', nth_error (links g) o = Some (Some (Z.of_nat o')) /\ In o' S) /\
    (exists s l, cell (hardwarerouting_sliders g) o i = Some (s, l) /\
                 slider_id s <> id /\ 0 <= slider_value s <= 100) /\
    (exists c, cell (analog_routes (mixer g)) o i = Some (Some c)).

(** ** OnLink *)

(** [int(selection[-1])] of the selection ["Out%i" % (k + 1)] is the last
    digit of [k + 1]. *)
Definition last_digit_ok (k : Z) : bool :=
  match (let? c := last_char ("Out" ++ str_of_int (k + 1)) in int_of_str c) with
  | Ok n => n =? (k + 1) mod 10
  | Err _ => false
  end.

(** ** The observer of the mixer *)

(** The slider of [(o, i)] after the first loop of [worker] went through
    the routes [ps]: when the route is among them and its volume is not the
    value of the slider, the slider and the label show the volume. *)
Definition synced (rows : list (list (option Control))) (ps : list (nat * nat))
    (o i : nat) (sl : Slider * string) : Slider * string :=
  if mem_pos o i ps && negb (vol_at rows o i =? slider_value (fst sl))
  then set_slider (vol_at rows o i) sl
  else sl.

(** ** The master slider *)

(** From [m] to [m']: the digital routes [(c, c)] with [c < k] have the
    volume [v]; the other routes are as they were. *)
Definition master_inv (v : Z) (k : nat) (m m' : Mixer) : Prop :=
  analog_routes m' = analog_routes m /\
  dispatched m' = dispatched m /\
  shape (digital_routes m') = shape (digital_routes m) /\
  forall o i,
    cell (digital_routes m') o i =
    option_map (option_map (fun c => if ((o =? i) && (o <? k))%nat
                                     then with_volume c v else c))
      (cell (digital_routes m) o i).

(* ===================================================================== *)
(** * Further example states *)
(* ===================================================================== *)

(** An interface that reports the route of input 2 to output 1 but not the
    one of input 1. *)
Definition ex_gapped : list (string * AlsaMixer) :=
  [("AIn2 - Out1", ex_alsa 30 7); ("DIn1 - Out1", ex_alsa 20 8)].

(** A binding that raises for the control whose volume is 33, and sets every
    other control to what it is given. *)
Definition ex_stuck_backend : Backend :=
  {| setvolume := fun value cur =>
       if cur =? 33 then Err ALSAAudioError else Ok value;
     amixer_sset := fun _ label _ _ => Ok label |}.

(** The example interface with three controls of the effects that have a
    volume. *)
Definition ex_fx_mixer : Mixer :=
  set_fx [("Effect Duration", FxLinear 5); ("Effect Volume", FxLinear 33);
          ("Effect Feedback Volume", FxLinear 7)] ex_mixer.

(** What [GetConfigDict] returns on the example interface. *)
Definition ex_saved_mixer : config :=
  match GetConfigDict ex_mixer with
  | Ok configdict => configdict
  | Err _ => []
  end.

(** A dictionary whose section ["Digital"] has a key that names no route. *)
Definition ex_failing_config : config :=
  [("Analog", [("ain1_to_out1", VInt 5)]); ("Digital", [("bogus", VInt 1)])].

(** Output 0 is linked to output 1 and output 1 to output 2. *)
Definition ex_gui_line : Gui :=
  {| mixer := ex_mixer;
     hardwarerouting_sliders := ex_sliders;
     links := [Some 1; Some 2; None] |}.

(** The example program with its master slider at 80. *)
Definition ex_master : MasterGui :=
  {| gui := ex_gui;
     masterslider := {| slider_id := -100; slider_value := 80 |};
     masterlabel := "0" |}.

(* ===================================================================== *)
(** * Subscripts *)
(* ===================================================================== *)

Lemma norm_index_nat (len n : nat) :
  norm_index len (Z.of_nat n) = if (n <? len)%nat then Some n else None.
Proof.
  unfold norm_index.
  destruct (0 <=? Z.of_nat n) eqn:E0; [| apply Z.leb_gt in E0; lia].
  destruct (Z.of_nat n <? Z.of_nat len) eqn:E1, (n <? len)%nat eqn:E2;
    try reflexivity.
  - now rewrite Nat2Z.id.
  - apply Z.ltb_lt in E1. apply Nat.ltb_ge in E2. lia.
  - apply Z.ltb_ge in E1. apply Nat.ltb_lt in E2. lia.
Qed.

Lemma norm_index_lt (len : nat) (k : Z) (n : nat) :
  norm_index len k = Some n -> (n < len)%nat.
Proof.
  unfold norm_index.
  destruct (0 <=? k) eqn:E0.
  - destruct (k <? Z.of_nat len) eqn:E1; [| discriminate].
    intros [= <-]. apply Z.leb_le in E0. apply Z.ltb_lt in E1. lia.
  - destruct (- Z.of_nat len <=? k) eqn:E1; [| discriminate].
    intros [= <-]. apply Z.leb_gt in E0. apply Z.leb_le in E1. lia.
Qed.

Lemma norm_index_none (len : nat) (k : Z) :
  ~ in_bounds len k -> norm_index len k = None.
Proof.
  unfold in_bounds, norm_index. intros H.
  destruct (0 <=? k) eqn:E0.
  - destruct (k <? Z.of_nat len) eqn:E1; [| reflexivity].
    apply Z.leb_le in E0. apply Z.ltb_lt in E1. lia.
  - destruct (- Z.of_nat len <=? k) eqn:E1; [| reflexivity].
    apply Z.leb_gt in E0. apply Z.leb_le in E1. lia.
Qed.

Lemma norm_index_negative (len : nat) (k : Z) :
  - Z.of_nat len <= k < 0 ->
  norm_index len k = norm_index len (Z.of_nat len + k).
Proof.
  intros H. unfold norm_index.
  destruct (0 <=? k) eqn:E0; [apply Z.leb_le in E0; lia |].
  destruct (- Z.of_nat len <=? k) eqn:E1; [| apply Z.leb_gt in E1; lia].
  destruct (0 <=? Z.of_nat len + k) eqn:E2; [| apply Z.leb_gt in E2; lia].
  destruct (Z.of_nat len + k <? Z.of_nat len) eqn:E3; [reflexivity |].
  apply Z.ltb_ge in E3. lia.
Qed.

Lemma getitem_nat {A} (l : list A) (n : nat) :
  getitem l (Z.of_nat n) =
  match nth_error l n with Some x => Ok x | None => Err IndexError end.
Proof.
  unfold getitem. rewrite norm_index_nat.
  destruct (n <? length l)%nat eqn:E; [reflexivity |].
  apply Nat.ltb_ge in E. apply nth_error_None in E. now rewrite E.
Qed.

Lemma getitem_out_of_bounds {A} (l : list A) (k : Z) :
  ~ in_bounds (length l) k -> getitem l k = Err IndexError.
Proof. intros H. unfold getitem. now rewrite norm_index_none. Qed.

Lemma getitem_negative {A} (l : list A) (k : Z) :
  - Z.of_nat (length l) <= k < 0 ->
  getitem l k = getitem l (Z.of_nat (length l) + k).
Proof. intros H. unfold getitem. now rewrite norm_index_negative. Qed.

Lemma getitem_ok_norm {A} (l : list A) (k : Z) (x : A) :
  getitem l k = Ok x ->
  exists n, norm_index (length l) k = Some n /\ nth_error l n = Some x.
Proof.
  unfold getitem. destruct (norm_index (length l) k) as [n |]; [| discriminate].
  destruct (nth_error l n) as [y |] eqn:E; [| discriminate].
  intros [= <-]. now exists n.
Qed.

Lemma length_update {A} (l : list A) (n : nat) (x : A) :
  length (update l n x) = length l.
Proof.
  revert n. induction l as [| h t IH]; intros [| n]; simpl; auto.
Qed.

Lemma nth_error_update {A} (l : list A) (n k : nat) (x : A) :
  nth_error (update l n x) k =
  if (k =? n)%nat then
    match nth_error l n with Some _ => Some x | None => None end
  else nth_error l k.
Proof.
  revert n k. induction l as [| h t IH]; intros [| n] [| k]; simpl; auto.
  now destruct (k =? n)%nat.
Qed.

Lemma locate_nat (rows : list (list (option Control))) (o i : nat) :
  locate rows (Z.of_nat o) (Z.of_nat i) =
  match cell rows o i with
  | Some (Some c) => Ok (o, i, c)
  | Some None => Err AttributeError
  | None => Err IndexError
  end.
Proof.
  unfold locate, cell. rewrite getitem_nat.
  destruct (nth_error rows o) as [row |] eqn:Er; simpl; [| reflexivity].
  rewrite getitem_nat.
  destruct (nth_error row i) as [slot |] eqn:Ei; simpl; [| reflexivity].
  destruct slot as [c |]; [| reflexivity].
  rewrite !norm_index_nat.
  assert (Ho : (o < length rows)%nat) by (apply nth_error_Some; congruence).
  assert (Hi : (i < length row)%nat) by (apply nth_error_Some; congruence).
  apply Nat.ltb_lt in Ho, Hi. now rewrite Ho, Hi.
Qed.

Lemma locate_ok (rows : list (list (option Control))) (o i : Z) no ni c :
  locate rows o i = Ok (no, ni, c) ->
  cell rows no ni = Some (Some c) /\
  exists row, getitem rows o = Ok row /\
              norm_index (length rows) o = Some no /\
              norm_index (length row) i = Some ni.
Proof.
  unfold locate, cell. intros H.
  destruct (getitem rows o) as [row | e] eqn:Er; simpl in H; [| discriminate].
  destruct (getitem row i) as [slot | e] eqn:Ei; simpl in H; [| discriminate].
  destruct (getitem_ok_norm _ _ _ Er) as (no' & Hno & Hrow).
  destruct (getitem_ok_norm _ _ _ Ei) as (ni' & Hni & Hslot).
  rewrite Hno, Hni in H. destruct slot as [c' |]; [| discriminate].
  injection H as <- <- <-. rewrite Hrow. split; [assumption |].
  exists row. auto.
Qed.

Lemma cell_store (rows : list (list (option Control))) (no ni : nat) (c : Control)
    (o i : nat) :
  cell (store rows no ni c) o i =
  if ((o =? no) && (i =? ni))%nat then
    match cell rows no ni with Some _ => Some (Some c) | None => None end
  else cell rows o i.
Proof.
  unfold store, cell.
  destruct (nth_error rows no) as [row |] eqn:Er.
  - rewrite nth_error_update, Er.
    destruct (o =? no)%nat eqn:Eo; simpl.
    + apply Nat.eqb_eq in Eo. subst o. rewrite nth_error_update.
      destruct (i =? ni)%nat eqn:Ei; [reflexivity |]. now rewrite Er.
    + reflexivity.
  - destruct (o =? no)%nat eqn:Eo; simpl; [| reflexivity].
    apply Nat.eqb_eq in Eo. subst o. rewrite Er.
    now destruct (i =? ni)%nat.
Qed.

Lemma shape_store (rows : list (list (option Control))) (no ni : nat) (c : Control) :
  shape (store rows no ni c) = shape rows.
Proof.
  unfold store, shape.
  destruct (nth_error rows no) as [row |] eqn:Er; [| reflexivity].
  revert no Er. induction rows as [| r rs IH]; intros [| no] Er; simpl in *;
    try discriminate.
  - injection Er as ->. now rewrite length_update.
  - f_equal. now apply IH.
Qed.

(* ===================================================================== *)
(** * GetVolume and SetVolume *)
(* ===================================================================== *)

Lemma GetVolume_nat (m : Mixer) (digital : bool) (o i : nat) :
  GetVolume (Z.of_nat o) (Z.of_nat i) digital m =
  match cell (routes_of digital m) o i with
  | Some (Some c) => Ok (volume c)
  | Some None => Err AttributeError
  | None => Err IndexError
  end.
Proof.
  unfold GetVolume. rewrite locate_nat.
  now destruct (cell (routes_of digital m) o i) as [[c |] |].
Qed.

Lemma locate_out_of_bounds_output rows (o i : Z) :
  ~ in_bounds (length rows) o -> locate rows o i = Err IndexError.
Proof. intros H. unfold locate. now rewrite getitem_out_of_bounds. Qed.

Lemma locate_out_of_bounds_input rows (o i : Z) row :
  getitem rows o = Ok row -> ~ in_bounds (length row) i ->
  locate rows o i = Err IndexError.
Proof.
  intros Hr H. unfold locate. rewrite Hr. simpl.
  now rewrite getitem_out_of_bounds.
Qed.

Lemma locate_negative_output rows (o i : Z) :
  - Z.of_nat (length rows) <= o < 0 ->
  locate rows o i = locate rows (Z.of_nat (length rows) + o) i.
Proof.
  intros H. unfold locate.
  now rewrite (getitem_negative rows o H), (norm_index_negative _ o H).
Qed.

Lemma locate_negative_input rows (o i : Z) row :
  getitem rows o = Ok row -> - Z.of_nat (length row) <= i < 0 ->
  locate rows o i = locate rows o (Z.of_nat (length row) + i).
Proof.
  intros Hr H. unfold locate. rewrite Hr. simpl.
  now rewrite (getitem_negative row i H), (norm_index_negative _ i H).
Qed.

(** C9, as the code has it.  [GetVolume] has no check of its own: the two
    subscripts are Python's.  It raises IndexError when the output is not in
    [-R, R), for R the number of rows of the domain, or when the input is
    not in [-L, L), for L the length of the row of the output.  A negative
    output in [-R, 0) is the row [R + output] and a negative input in
    [-L, 0) is the column [L + input]: the volume of that route is
    returned. *)
Theorem GetVolume_subscripts (m : Mixer) (digital : bool) (o i : Z) :
  let rows := routes_of digital m in
  (~ in_bounds (length rows) o -> GetVolume o i digital m = Err IndexError) /\
  (forall row, getitem rows o = Ok row -> ~ in_bounds (length row) i ->
     GetVolume o i digital m = Err IndexError) /\
  (- Z.of_nat (length rows) <= o < 0 ->
     GetVolume o i digital m = GetVolume (Z.of_nat (length rows) + o) i digital m) /\
  (forall row, getitem rows o = Ok row -> - Z.of_nat (length row) <= i < 0 ->
     GetVolume o i digital m = GetVolume o (Z.of_nat (length row) + i) digital m).
Proof.
  intros rows. unfold GetVolume. fold rows. split; [| split; [| split]].
  - intros H. now rewrite locate_out_of_bounds_output.
  - intros row Hr H. now rewrite (locate_out_of_bounds_input _ _ _ _ Hr).
  - intros H. now rewrite locate_negative_output.
  - intros row Hr H. now rewrite (locate_negative_input _ _ _ _ Hr).
Qed.

(* ===================================================================== *)
(** * Strings: printing and parsing of integers, splitting of keys *)
(* ===================================================================== *)

Lemma forall_chars_app p (s t : string) :
  forall_chars p (s ++ t)%string = forall_chars p s && forall_chars p t.
Proof.
  induction s as [| c s IH]; simpl; [reflexivity |].
  now rewrite IH, andb_assoc.
Qed.

Lemma forall_chars_impl (p q : ascii -> bool) (s : string) :
  (forall c, p c = true -> q c = true) ->
  forall_chars p s = true -> forall_chars q s = true.
Proof.
  intros Hpq. induction s as [| c s IH]; simpl; [reflexivity |].
  intros H. apply andb_true_iff in H as [Hc Hs].
  now rewrite (Hpq c Hc), IH.
Qed.

Lemma mem_char_app c (s t : string) :
  mem_char c (s ++ t)%string = mem_char c s || mem_char c t.
Proof.
  induction s as [| a s IH]; simpl; [reflexivity |].
  now rewrite IH, orb_assoc.
Qed.

Lemma mem_char_forall p c (s : string) :
  forall_chars p s = true -> p c = false -> mem_char c s = false.
Proof.
  intros Hs Hc. induction s as [| a s IH]; simpl in *; [reflexivity |].
  apply andb_true_iff in Hs as [Ha Hs].
  destruct (Ascii.eqb_spec c a) as [-> |]; [congruence |].
  now apply IH.
Qed.

Lemma is_digit_not_space c : is_digit c = true -> is_space c = false.
Proof.
  unfold is_digit, is_space. intros H.
  apply andb_true_iff in H as [H1 H2].
  apply Nat.leb_le in H1, H2.
  apply orb_false_iff. split.
  - apply andb_false_iff. right. apply Nat.leb_gt. lia.
  - apply Nat.eqb_neq. lia.
Qed.

Lemma is_digit_neq c a : is_digit a = false -> is_digit c = true -> Ascii.eqb c a = false.
Proof.
  intros Ha Hc. destruct (Ascii.eqb_spec c a) as [-> |]; congruence.
Qed.

(** ** [int(str(z)) == z] *)

Lemma string_of_uint_digits (d : Decimal.uint) :
  all_digits (NilEmpty.string_of_uint d) = true.
Proof. induction d; simpl; auto. Qed.

Lemma lstrip_space_id (s : string) :
  match s with
  | EmptyString => True
  | String c _ => is_space c = false
  end -> lstrip_space s = s.
Proof. destruct s as [| c s]; simpl; [reflexivity |]. now intros ->. Qed.

Lemma rstrip_space_id (s : string) :
  forall_chars (fun c => negb (is_space c)) s = true -> rstrip_space s = s.
Proof.
  induction s as [| c s IH]; simpl; [reflexivity |].
  intros H. apply andb_true_iff in H as [Hc Hs]. rewrite (IH Hs).
  apply negb_true_iff in Hc. rewrite Hc. now destruct s.
Qed.

Lemma int_digits_id (s : string) (b : bool) :
  all_digits s = true -> s <> EmptyString \/ b = true ->
  int_digits b s = Some s.
Proof.
  revert b. induction s as [| c s IH]; simpl; intros b Hs Hb.
  - destruct Hb as [Hb | ->]; [congruence | reflexivity].
  - apply andb_true_iff in Hs as [Hc Hs]. rewrite Hc.
    rewrite (IH true Hs) by now right. reflexivity.
Qed.

Lemma string_of_uint_length (d : Decimal.uint) :
  String.length (NilEmpty.string_of_uint d) = Decimal.nb_digits d.
Proof. induction d; simpl; auto. Qed.

Lemma int_unsigned_uint (u : Decimal.uint) :
  u <> Decimal.Nil -> (Decimal.nb_digits u <= int_max_str_digits)%nat ->
  int_unsigned (NilEmpty.string_of_uint u) = Some (Z.of_uint u).
Proof.
  intros Hu Hn. unfold int_unsigned.
  rewrite int_digits_id.
  - rewrite string_of_uint_length.
    apply Nat.leb_le in Hn. rewrite Hn. now rewrite NilEmpty.usu.
  - apply string_of_uint_digits.
  - left. destruct u; simpl; congruence.
Qed.

Lemma digits_no_space (s : string) :
  all_digits s = true -> forall_chars (fun c => negb (is_space c)) s = true.
Proof.
  apply forall_chars_impl. intros c H.
  now rewrite (is_digit_not_space c H).
Qed.

Lemma string_of_uint_head (u : Decimal.uint) :
  u <> Decimal.Nil ->
  exists c r, NilEmpty.string_of_uint u = String c r /\ is_digit c = true.
Proof.
  intros Hu. destruct u; try congruence; simpl; eexists; eexists; split;
    reflexivity.
Qed.

Lemma int_of_str_uint (u : Decimal.uint) :
  u <> Decimal.Nil -> (Decimal.nb_digits u <= int_max_str_digits)%nat ->
  int_of_str (NilEmpty.string_of_uint u) = Ok (Z.of_uint u).
Proof.
  intros Hu Hn. unfold int_of_str.
  destruct (string_of_uint_head u Hu) as (c & r & E & Hc).
  rewrite lstrip_space_id by (rewrite E; now apply is_digit_not_space).
  rewrite rstrip_space_id by (apply digits_no_space, string_of_uint_digits).
  pose proof (int_unsigned_uint u Hu Hn) as Hun. rewrite E in *.
  assert (Hm : Ascii.eqb c "-" = false) by now apply is_digit_neq.
  assert (Hp : Ascii.eqb c "+" = false) by now apply is_digit_neq.
  destruct c as [[|] [|] [|] [|] [|] [|] [|] [|]]; simpl in Hm, Hp;
    try discriminate; now rewrite Hun.
Qed.

(** The decimal text of an integer: digits, after a minus sign when it is
    negative. *)
Lemma str_of_int_nonneg (z : Z) :
  0 <= z ->
  exists u, u <> Decimal.Nil /\ str_of_int z = NilEmpty.string_of_uint u /\
            Z.of_uint u = z.
Proof.
  intros Hz. unfold str_of_int.
  pose proof (DecimalZ.of_to z) as Hof.
  destruct z as [| p | p]; simpl in *.
  - exists (Decimal.D0 Decimal.Nil). repeat split. discriminate.
  - exists (Pos.to_uint p). split; [apply DecimalPos.Unsigned.to_uint_nonnil |].
    split; [| exact Hof].
    unfold NilZero.string_of_uint.
    destruct (Pos.to_uint p) eqn:E; try reflexivity.
    now apply DecimalPos.Unsigned.to_uint_nonnil in E.
  - lia.
Qed.

Lemma str_of_int_digits (z : Z) :
  0 <= z -> all_digits (str_of_int z) = true /\ str_of_int z <> EmptyString.
Proof.
  intros Hz. destruct (str_of_int_nonneg z Hz) as (u & Hu & -> & _).
  split; [apply string_of_uint_digits |].
  destruct u; simpl; congruence.
Qed.

(** ** The number of digits of an integer *)

Lemma of_uint_acc_bounds (d : Decimal.uint) (acc : positive) :
  Z.pos acc * 10 ^ Z.of_nat (Decimal.nb_digits d) <= Z.pos (Pos.of_uint_acc d acc)
  < (Z.pos acc + 1) * 10 ^ Z.of_nat (Decimal.nb_digits d).
Proof.
  revert acc.
  induction d as [| d IH | d IH | d IH | d IH | d IH | d IH | d IH | d IH | d IH | d IH];
    intros acc; cbn [Pos.of_uint_acc Decimal.nb_digits]; [simpl; lia | ..];
    rewrite Nat2Z.inj_succ, Z.pow_succ_r by lia;
    match goal with
    | |- _ <= Z.pos (Pos.of_uint_acc _ ?a) < _ => specialize (IH a)
    end;
    assert (0 < 10 ^ Z.of_nat (Decimal.nb_digits d)) by (apply Z.pow_pos_nonneg; lia);
    nia.
Qed.

(** A numeral of [n] digits is below [10 ^ n]. *)
Lemma of_uint_lt (d : Decimal.uint) :
  0 <= Z.of_uint d < 10 ^ Z.of_nat (Decimal.nb_digits d).
Proof.
  unfold Z.of_uint.
  induction d as [| d IH | d IH | d IH | d IH | d IH | d IH | d IH | d IH | d IH | d IH];
    cbn [Pos.of_uint Decimal.nb_digits]; [simpl; lia | ..];
    rewrite Nat2Z.inj_succ, Z.pow_succ_r by lia;
    assert (0 < 10 ^ Z.of_nat (Decimal.nb_digits d)) by (apply Z.pow_pos_nonneg; lia);
    [lia | ..];
    match goal with
    | |- _ <= Z.of_N (N.pos (Pos.of_uint_acc _ ?a)) < _ =>
        pose proof (of_uint_acc_bounds d a)
    end;
    cbn [Z.of_N]; lia.
Qed.

(** A numeral of [n] digits whose first digit is not 0 is at least
    [10 ^ (n - 1)]. *)
Lemma of_uint_ge (d : Decimal.uint) :
  nonzero_head d -> 10 ^ Z.of_nat (Decimal.nb_digits d - 1) <= Z.of_uint d.
Proof.
  unfold Z.of_uint.
  destruct d as [| d | d | d | d | d | d | d | d | d | d]; cbn [nonzero_head];
    try contradiction; intros _;
    cbn [Pos.of_uint Decimal.nb_digits];
    rewrite Nat.sub_succ, Nat.sub_0_r;
    match goal with
    | |- _ <= Z.of_N (N.pos (Pos.of_uint_acc _ ?a)) =>
        pose proof (of_uint_acc_bounds d a)
    end;
    assert (0 < 10 ^ Z.of_nat (Decimal.nb_digits d)) by (apply Z.pow_pos_nonneg; lia);
    cbn [Z.of_N]; nia.
Qed.

Lemma unorm_head (d : Decimal.uint) :
  Decimal.unorm d = Decimal.D0 Decimal.Nil \/ nonzero_head (Decimal.unorm d).
Proof.
  induction d as [| d IH | d IH | d IH | d IH | d IH | d IH | d IH | d IH | d IH | d IH];
    try (right; exact I).
  - now left.
  - now rewrite DecimalFacts.unorm_D0.
Qed.

Lemma to_uint_digits (p : positive) (n : nat) :
  Z.pos p < 10 ^ Z.of_nat n -> (Decimal.nb_digits (Pos.to_uint p) <= n)%nat.
Proof.
  intros Hp.
  pose proof (DecimalPos.Unsigned.of_to p) as Hof.
  pose proof (DecimalPos.Unsigned.to_of (Pos.to_uint p)) as Hnorm.
  rewrite Hof in Hnorm. cbn [N.to_uint] in Hnorm.
  destruct (unorm_head (Pos.to_uint p)) as [H0 | Hh]; rewrite <- Hnorm in *.
  - rewrite H0 in Hof. discriminate.
  - apply of_uint_ge in Hh. unfold Z.of_uint in Hh. rewrite Hof in Hh.
    cbn [Z.of_N] in Hh.
    assert (H : Z.of_nat (Decimal.nb_digits (Pos.to_uint p) - 1) < Z.of_nat n).
    { apply (Z.pow_lt_mono_r_iff 10); lia. }
    lia.
Qed.

(** The ints of absolute value below [int_limit] are written with at most
    [int_max_str_digits] digits, and the literals of at most that many
    digits denote such ints. *)
Lemma int_limit_pos : 2 ^ 63 <= int_limit.
Proof.
  unfold int_limit, int_max_str_digits.
  apply Z.leb_le. vm_compute. reflexivity.
Qed.

Lemma str_of_int_nonneg_digits (z : Z) :
  0 <= z < int_limit ->
  exists u, u <> Decimal.Nil /\ str_of_int z = NilEmpty.string_of_uint u /\
            Z.of_uint u = z /\ (Decimal.nb_digits u <= int_max_str_digits)%nat.
Proof.
  intros [Hz Hl]. unfold str_of_int.
  pose proof (DecimalZ.of_to z) as Hof.
  destruct z as [| p | p]; simpl in Hof |- *.
  - exists (Decimal.D0 Decimal.Nil). repeat split; [discriminate |].
    unfold int_max_str_digits. cbn [Decimal.nb_digits]. lia.
  - exists (Pos.to_uint p). split; [apply DecimalPos.Unsigned.to_uint_nonnil |].
    split; [| split; [exact Hof | now apply to_uint_digits]].
    unfold NilZero.string_of_uint.
    destruct (Pos.to_uint p) eqn:E; try reflexivity.
    now apply DecimalPos.Unsigned.to_uint_nonnil in E.
  - lia.
Qed.

Lemma int_of_str_of_int (z : Z) :
  - int_limit < z < int_limit -> int_of_str (str_of_int z) = Ok z.
Proof.
  intros Hl.
  destruct (Z.le_gt_cases 0 z) as [Hz | Hz].
  - destruct (str_of_int_nonneg_digits z) as (u & Hu & -> & <- & Hn); [lia |].
    now apply int_of_str_uint.
  - destruct z as [| p | p]; try lia.
    unfold str_of_int. simpl.
    pose proof (DecimalPos.Unsigned.to_uint_nonnil p) as Hu.
    pose proof (DecimalZ.of_to (Z.neg p)) as Hof. simpl in Hof.
    assert (E : NilZero.string_of_uint (Pos.to_uint p) =
                NilEmpty.string_of_uint (Pos.to_uint p)).
    { unfold NilZero.string_of_uint. destruct (Pos.to_uint p); congruence. }
    rewrite E. unfold int_of_str.
    change (lstrip_space (String "-" (NilEmpty.string_of_uint (Pos.to_uint p))))
      with (String "-" (NilEmpty.string_of_uint (Pos.to_uint p))).
    rewrite rstrip_space_id.
    + rewrite int_unsigned_uint; [simpl; now rewrite Hof | assumption |].
      apply to_uint_digits. unfold int_limit in Hl. lia.
    + simpl. apply digits_no_space, string_of_uint_digits.
Qed.

Lemma int_unsigned_limit (s : string) (z : Z) :
  int_unsigned s = Some z -> 0 <= z < int_limit.
Proof.
  unfold int_unsigned. destruct (int_digits false s) as [ds |]; [| discriminate].
  destruct (Nat.leb_spec (String.length ds) int_max_str_digits) as [Hn |];
    [| discriminate].
  destruct (NilEmpty.uint_of_string ds) as [u |] eqn:E; [| discriminate].
  intros [= <-]. apply NilEmpty.sus in E. subst ds.
  rewrite string_of_uint_length in Hn.
  pose proof (of_uint_lt u) as [H0 H1]. split; [assumption |].
  apply (Z.lt_le_trans _ _ _ H1). unfold int_limit.
  apply Z.pow_le_mono_r; lia.
Qed.

(** What [int] returns is an int of at most [int_max_str_digits] digits. *)
Lemma int_of_str_limit (s : string) (z : Z) :
  int_of_str s = Ok z -> - int_limit < z < int_limit.
Proof.
  unfold int_of_str.
  set (r := match rstrip_space (lstrip_space s) with
            | String "-" rest => option_map Z.opp (int_unsigned rest)
            | String "+" rest => int_unsigned rest
            | _ => int_unsigned (rstrip_space (lstrip_space s))
            end).
  assert (Hr : forall y, r = Some y -> - int_limit < y < int_limit).
  { intros y. unfold r.
    assert (Hu : forall t, int_unsigned t = Some y -> - int_limit < y < int_limit)
      by (intros t Ht; apply int_unsigned_limit in Ht; lia).
    assert (Hm : forall t, option_map Z.opp (int_unsigned t) = Some y ->
                           - int_limit < y < int_limit).
    { intros t Ht. destruct (int_unsigned t) as [x |] eqn:Ex; [| discriminate].
      injection Ht as <-. apply int_unsigned_limit in Ex. lia. }
    destruct (rstrip_space (lstrip_space s)) as [| c rest]; [apply Hu |].
    destruct c as [[|] [|] [|] [|] [|] [|] [|] [|]]; first [apply Hu | apply Hm]. }
  destruct r as [y |]; [| discriminate]. intros [= <-]. now apply Hr.
Qed.

(** [int] refuses the text of an int of more than [int_max_str_digits]
    digits. *)
Lemma int_of_str_beyond_limit (z : Z) :
  int_limit <= z -> int_of_str (str_of_int z) = Err ValueError.
Proof.
  intros Hz. pose proof int_limit_pos as Hl.
  destruct (str_of_int_nonneg z) as (u & Hu & E & Hv); [lia |].
  rewrite E. unfold int_of_str.
  destruct (string_of_uint_head u Hu) as (c & r & Er & Hc).
  rewrite lstrip_space_id by (rewrite Er; now apply is_digit_not_space).
  rewrite rstrip_space_id by (apply digits_no_space, string_of_uint_digits).
  assert (Hun : int_unsigned (NilEmpty.string_of_uint u) = None).
  { unfold int_unsigned. rewrite int_digits_id.
    - rewrite string_of_uint_length.
      destruct (Nat.leb_spec (Decimal.nb_digits u) int_max_str_digits) as [Hn |];
        [| reflexivity].
      exfalso. pose proof (of_uint_lt u) as [_ H1]. rewrite Hv in H1.
      assert (10 ^ Z.of_nat (Decimal.nb_digits u) <= int_limit)
        by (unfold int_limit; apply Z.pow_le_mono_r; lia).
      lia.
    - apply string_of_uint_digits.
    - left. destruct u; simpl; congruence. }
  rewrite Er in *.
  assert (Hm : Ascii.eqb c "-" = false) by now apply is_digit_neq.
  assert (Hp : Ascii.eqb c "+" = false) by now apply is_digit_neq.
  destruct c as [[|] [|] [|] [|] [|] [|] [|] [|]]; simpl in Hm, Hp;
    try discriminate; now rewrite Hun.
Qed.

(** [int] refuses a string that starts with one of the separators 28 to
    31, which [str.isspace] takes for white space. *)
Lemma int_of_str_separator (c : ascii) (s : string) :
  (28 <= nat_of_ascii c <= 31)%nat -> int_of_str (String c s) = Err ValueError.
Proof.
  intros Hc.
  assert (Hs : is_space c = false).
  { unfold is_space. apply orb_false_iff. split.
    - apply andb_false_iff. right. apply Nat.leb_gt. lia.
    - apply Nat.eqb_neq. lia. }
  assert (Hd : is_digit c = false).
  { unfold is_digit. apply andb_false_iff. left. apply Nat.leb_gt. lia. }
  unfold int_of_str. cbn [lstrip_space]. rewrite Hs.
  assert (Hr : exists r, rstrip_space (String c s) = String c r).
  { cbn [rstrip_space]. rewrite Hs. destruct (rstrip_space s); eauto. }
  destruct Hr as (r & ->).
  assert (Hu : int_unsigned (String c r) = None).
  { unfold int_unsigned. cbn [int_digits]. rewrite Hd. cbn [andb].
    now rewrite andb_false_r. }
  assert (Hm : Ascii.eqb c "-" = false)
    by (destruct (Ascii.eqb_spec c "-") as [-> |]; [cbn in Hc; lia | reflexivity]).
  assert (Hp : Ascii.eqb c "+" = false)
    by (destruct (Ascii.eqb_spec c "+") as [-> |]; [cbn in Hc; lia | reflexivity]).
  destruct c as [[|] [|] [|] [|] [|] [|] [|] [|]]; simpl in Hm, Hp;
    try discriminate; now rewrite Hu.
Qed.

Lemma str_of_int_inj (z z' : Z) : str_of_int z = str_of_int z' -> z = z'.
Proof.
  unfold str_of_int. intros E.
  assert (Hn : forall x, Z.to_int x <> Decimal.Pos Decimal.Nil /\
                         Z.to_int x <> Decimal.Neg Decimal.Nil).
  { intros [| p | p]; simpl; split; try discriminate;
      intros [= H]; now apply DecimalPos.Unsigned.to_uint_nonnil in H. }
  assert (H : Some (Z.to_int z) = Some (Z.to_int z')).
  { rewrite <- (NilZero.isi (Z.to_int z)), <- (NilZero.isi (Z.to_int z'));
      try apply Hn. now rewrite E. }
  injection H as H. now apply DecimalZ.to_int_inj.
Qed.

(** ** Splitting *)

Lemma split_go_skip (sep x : string) (cur s : string) :
  split_go sep (String.length x) cur (x ++ s)%string = split_go sep O cur s.
Proof.
  induction x as [| c x IH]; simpl; [| exact IH].
  destruct s; reflexivity.
Qed.

Lemma starts_with_app (p s : string) : starts_with p (p ++ s)%string = true.
Proof.
  induction p as [| c p IH]; simpl; [reflexivity |].
  now rewrite Ascii.eqb_refl, IH.
Qed.

(** An occurrence of the separator ends the piece that is being collected. *)
Lemma split_go_sep (c0 : ascii) (sep' cur s : string) :
  split_go (String c0 sep') O cur (String c0 sep' ++ s)%string =
  cur :: split_go (String c0 sep') O EmptyString s.
Proof.
  change (String c0 sep' ++ s)%string with (String c0 (sep' ++ s)%string).
  cbn [split_go].
  change (String c0 (sep' ++ s)%string) with (String c0 sep' ++ s)%string.
  rewrite starts_with_app. f_equal.
  replace (String.length (String c0 sep') - 1)%nat with (String.length sep')
    by (cbn [String.length]; lia).
  apply split_go_skip.
Qed.

Lemma append_assoc (a b c : string) :
  ((a ++ b) ++ c)%string = (a ++ (b ++ c))%string.
Proof. induction a as [| x a IH]; simpl; [reflexivity | now rewrite IH]. Qed.

Lemma append_nil_r (a : string) : (a ++ EmptyString)%string = a.
Proof. induction a as [| x a IH]; simpl; [reflexivity | now rewrite IH]. Qed.

(** Characters that are not the first of the separator are collected. *)
Lemma split_go_other (c0 : ascii) (sep' cur x s : string) :
  mem_char c0 x = false ->
  split_go (String c0 sep') O cur (x ++ s)%string =
  split_go (String c0 sep') O (cur ++ x)%string s.
Proof.
  revert cur. induction x as [| c x IH]; intros cur Hx.
  - simpl. now rewrite append_nil_r.
  - simpl in Hx. apply orb_false_iff in Hx as [Hc Hx].
    change (String c x ++ s)%string with (String c (x ++ s)%string).
    cbn [split_go starts_with].
    rewrite Hc. cbn [andb].
    rewrite IH by assumption. f_equal.
    rewrite append_assoc. reflexivity.
Qed.

Lemma split_go_end (sep cur : string) : split_go sep O cur EmptyString = [cur].
Proof. reflexivity. Qed.

(** [(x + sep + y).split(sep) == [x, y]] when the first character of [sep]
    occurs neither in [x] nor in [y]. *)
Lemma split_once (c0 : ascii) (sep' x y : string) :
  mem_char c0 x = false -> mem_char c0 y = false ->
  split (String c0 sep') (x ++ String c0 sep' ++ y)%string = [x; y].
Proof.
  intros Hx Hy. unfold split.
  rewrite split_go_other by assumption. simpl (EmptyString ++ x)%string.
  rewrite split_go_sep.
  rewrite <- (append_nil_r y) at 1.
  rewrite split_go_other by assumption. reflexivity.
Qed.

(** ** The keys of the routes and of the links *)

Lemma digits_no_char (s : string) (c : ascii) :
  all_digits s = true -> is_digit c = false -> mem_char c s = false.
Proof. intros Hs Hc. exact (mem_char_forall is_digit c s Hs Hc). Qed.

Lemma route_key_pieces (c0 : ascii) (p' : string) (i o : Z) :
  is_digit c0 = false -> mem_char c0 "_to_out" = false ->
  0 <= i -> 0 <= o ->
  getitem (split (String c0 p') (route_key (String c0 p') i o)) 1 =
    Ok (str_of_int (i + 1) ++ "_to_out" ++ str_of_int (o + 1))%string /\
  split "_to_out" (str_of_int (i + 1) ++ "_to_out" ++ str_of_int (o + 1))%string =
    [str_of_int (i + 1); str_of_int (o + 1)].
Proof.
  intros Hc0 Hc1 Hi Ho. unfold route_key.
  destruct (str_of_int_digits (i + 1)) as [Hdi _]; [lia |].
  destruct (str_of_int_digits (o + 1)) as [Hdo _]; [lia |].
  split.
  - change (String c0 p' ++ str_of_int (i + 1) ++ "_to_out" ++ str_of_int (o + 1))%string
      with (EmptyString ++ String c0 p' ++
              (str_of_int (i + 1) ++ "_to_out" ++ str_of_int (o + 1)))%string.
    rewrite split_once; [reflexivity | reflexivity |].
    rewrite !mem_char_app, Hc1.
    rewrite (digits_no_char _ c0 Hdi Hc0), (digits_no_char _ c0 Hdo Hc0).
    reflexivity.
  - apply (split_once "_" "to_out"); now apply digits_no_char.
Qed.

Lemma parse_route_key_route_key (c0 : ascii) (p' : string) (i o : Z) :
  is_digit c0 = false -> mem_char c0 "_to_out" = false ->
  0 <= i -> 0 <= o -> i + 1 < int_limit -> o + 1 < int_limit ->
  parse_route_key (String c0 p') (route_key (String c0 p') i o) = Ok (i, o).
Proof.
  intros Hc0 Hc1 Hi Ho Hil Hol. unfold parse_route_key.
  destruct (route_key_pieces c0 p' i o Hc0 Hc1 Hi Ho) as [-> Hs].
  cbn [rbind]. rewrite Hs.
  cbn [mapM rbind]. rewrite !int_of_str_of_int by lia. cbn [rbind].
  now replace (i + 1 - 1) with i by lia; replace (o + 1 - 1) with o by lia.
Qed.

Lemma parse_ain (i o : Z) :
  0 <= i -> 0 <= o -> i + 1 < int_limit -> o + 1 < int_limit ->
  parse_route_key "ain" (route_key "ain" i o) = Ok (i, o).
Proof. intros. now apply parse_route_key_route_key. Qed.

Lemma parse_din (i o : Z) :
  0 <= i -> 0 <= o -> i + 1 < int_limit -> o + 1 < int_limit ->
  parse_route_key "din" (route_key "din" i o) = Ok (i, o).
Proof. intros. now apply parse_route_key_route_key. Qed.

(** Different routes have different keys, whatever the number of digits. *)
Lemma route_key_inj (prefix : string) (i o i' o' : Z) :
  prefix = "ain" \/ prefix = "din" ->
  0 <= i -> 0 <= o -> 0 <= i' -> 0 <= o' ->
  route_key prefix i o = route_key prefix i' o' -> i = i' /\ o = o'.
Proof.
  intros Hp Hi Ho Hi' Ho' E.
  assert (H : exists c0 p', prefix = String c0 p' /\ is_digit c0 = false /\
                            mem_char c0 "_to_out" = false).
  { destruct Hp as [-> | ->]; eexists; eexists; repeat split. }
  destruct H as (c0 & p' & -> & Hc0 & Hc1).
  destruct (route_key_pieces c0 p' i o Hc0 Hc1 Hi Ho) as [G S].
  destruct (route_key_pieces c0 p' i' o' Hc0 Hc1 Hi' Ho') as [G' S'].
  assert (Er : (str_of_int (i + 1) ++ "_to_out" ++ str_of_int (o + 1))%string =
               (str_of_int (i' + 1) ++ "_to_out" ++ str_of_int (o' + 1))%string)
    by congruence.
  rewrite Er, S' in S. injection S as Ei Eo.
  apply str_of_int_inj in Ei, Eo. lia.
Qed.

Lemma lstrip_stop (chars : string) (c : ascii) (s : string) :
  mem_char c chars = false -> lstrip chars (String c s) = String c s.
Proof. intros H. simpl. now rewrite H. Qed.

Lemma rstrip_keep (chars x y : string) :
  forall_chars (fun a => negb (mem_char a chars)) x = true ->
  rstrip chars y = EmptyString ->
  rstrip chars (x ++ y)%string = x.
Proof.
  intros Hx Hy. induction x as [| c x IH]; [exact Hy |].
  simpl in Hx. apply andb_true_iff in Hx as [Hc Hx]. apply negb_true_iff in Hc.
  change (String c x ++ y)%string with (String c (x ++ y)%string).
  cbn [rstrip]. rewrite (IH Hx). rewrite Hc. now destruct x.
Qed.

Lemma digit_not_in (chars : string) (c : ascii) :
  forall_chars (fun a => negb (is_digit a)) chars = true ->
  is_digit c = true -> mem_char c chars = false.
Proof.
  intros Hs Hc. apply (mem_char_forall (fun a => negb (is_digit a))); [assumption |].
  now rewrite Hc.
Qed.

Lemma link_key_digits (i : Z) :
  0 <= i -> rstrip "to" (lstrip "link" (link_key i)) = str_of_int (i + 1).
Proof.
  intros Hi. unfold link_key.
  destruct (str_of_int_nonneg (i + 1)) as (u & Hu & E & Hv); [lia |].
  destruct (string_of_uint_head u Hu) as (c & r & Er & Hc).
  assert (Hd : all_digits (str_of_int (i + 1)) = true)
    by (rewrite E; apply string_of_uint_digits).
  change (lstrip "link" ("link" ++ str_of_int (i + 1) ++ "to")%string)
    with (lstrip "link" (str_of_int (i + 1) ++ "to")%string).
  assert (Hl : lstrip "link" (str_of_int (i + 1) ++ "to")%string =
               (str_of_int (i + 1) ++ "to")%string).
  { rewrite E, Er. apply lstrip_stop. now apply digit_not_in. }
  rewrite Hl. rewrite rstrip_keep.
  - reflexivity.
  - revert Hd. apply forall_chars_impl. intros a Ha.
    apply negb_true_iff. now apply digit_not_in.
  - reflexivity.
Qed.

Lemma parse_link_key (i : Z) :
  0 <= i -> i + 1 < int_limit ->
  int_of_str (rstrip "to" (lstrip "link" (link_key i))) = Ok (i + 1).
Proof.
  intros Hi Hl. rewrite link_key_digits by assumption.
  apply int_of_str_of_int. lia.
Qed.

Lemma link_key_inj (i j : Z) : 0 <= i -> 0 <= j -> link_key i = link_key j -> i = j.
Proof.
  intros Hi Hj E.
  pose proof (link_key_digits i Hi) as Pi. pose proof (link_key_digits j Hj) as Pj.
  rewrite E, Pj in Pi. apply str_of_int_inj in Pi. lia.
Qed.

(** ** Dictionaries *)

Lemma dict_get_app {V} (d d' : dict V) (k : string) :
  dict_get (d ++ d') k =
  match dict_get d k with Some v => Some v | None => dict_get d' k end.
Proof.
  induction d as [| [k' v'] d IH]; simpl; [reflexivity |].
  now destruct (String.eqb k' k).
Qed.

Lemma dict_get_none {V} (d : dict V) (k : string) :
  ~ In k (dict_keys d) -> dict_get d k = None.
Proof.
  induction d as [| [k' v'] d IH]; simpl; [reflexivity |].
  intros H. destruct (String.eqb_spec k' k) as [-> | Hne].
  - exfalso. apply H. now left.
  - apply IH. intros Hin. apply H. now right.
Qed.

Lemma dict_set_fresh {V} (d : dict V) (k : string) (v : V) :
  ~ In k (dict_keys d) -> dict_set d k v = d ++ [(k, v)].
Proof.
  induction d as [| [k' v'] d IH]; simpl; [reflexivity |].
  intros H. destruct (String.eqb_spec k' k) as [-> | Hne].
  - exfalso. apply H. now left.
  - f_equal. apply IH. intros Hin. apply H. now right.
Qed.

Lemma dict_get_set_other {V} (d : dict V) (k k' : string) (v : V) :
  k <> k' -> dict_get (dict_set d k v) k' = dict_get d k'.
Proof.
  intros Hne. induction d as [| [k0 v0] d IH]; simpl.
  - destruct (String.eqb_spec k k'); congruence.
  - destruct (String.eqb_spec k0 k) as [-> | H0]; simpl.
    + destruct (String.eqb_spec k k'); congruence.
    + now rewrite IH.
Qed.

(** In a dictionary built from a list through a key that is injective on the
    list, each element is found under its key. *)
Lemma dict_get_map {X V} (key : X -> string) (val : X -> V) (l : list X) (x : X) :
  In x l -> (forall y, In y l -> key y = key x -> y = x) ->
  dict_get (map (fun y => (key y, val y)) l) (key x) = Some (val x).
Proof.
  induction l as [| y l IH]; simpl; [tauto |].
  intros Hin Hinj. destruct (String.eqb_spec (key y) (key x)) as [E | Hne].
  - rewrite (Hinj y (or_introl eq_refl) E). reflexivity.
  - destruct Hin as [-> | Hin]; [congruence |]. apply IH; auto.
Qed.

(* ===================================================================== *)
(** * Writing a route *)
(* ===================================================================== *)

Lemma routes_of_log_write digital w m :
  routes_of digital (log_write w m) = routes_of digital m.
Proof. now destruct digital. Qed.

Lemma routes_of_set_routes digital rs m :
  routes_of digital (set_routes digital rs m) = rs.
Proof. now destruct digital. Qed.

Lemma routes_of_set_routes_other digital rs m :
  routes_of (negb digital) (set_routes digital rs m) = routes_of (negb digital) m.
Proof. now destruct digital. Qed.

Lemma route_setvolume_located (B : Backend) digital value o i m no ni c :
  locate (routes_of digital m) o i = Ok (no, ni, c) ->
  route_setvolume B digital value o i m =
  match setvolume B value (volume c) with
  | Err e => (Err e, log_write (SetRouteVolume digital no ni value) m)
  | Ok v => (Ok tt, written digital value no ni c v m)
  end.
Proof.
  intros H. unfold route_setvolume, written. rewrite H.
  now rewrite routes_of_log_write.
Qed.

(** After a slot is stored, the two subscripts that led to it lead to the
    stored control. *)
Lemma locate_store rows (o i : Z) no ni c c' :
  locate rows o i = Ok (no, ni, c) ->
  locate (store rows no ni c') o i = Ok (no, ni, c').
Proof.
  intros H. destruct (locate_ok _ _ _ _ _ _ H) as (Hcell & row & Hrow & Hno & Hni).
  destruct (getitem_ok_norm _ _ _ Hrow) as (no' & Hno' & Hnth).
  assert (no' = no) by congruence. subst no'.
  unfold locate, store. rewrite Hnth.
  unfold getitem at 1. rewrite length_update, Hno, nth_error_update, Nat.eqb_refl, Hnth.
  cbn [rbind]. unfold getitem. rewrite !length_update, Hni.
  rewrite nth_error_update, Nat.eqb_refl.
  unfold cell in Hcell. rewrite Hnth in Hcell. rewrite Hcell.
  reflexivity.
Qed.

Lemma GetVolume_located m digital o i v :
  GetVolume o i digital m = Ok v ->
  exists no ni c, locate (routes_of digital m) o i = Ok (no, ni, c) /\ volume c = v.
Proof.
  unfold GetVolume.
  destruct (locate (routes_of digital m) o i) as [[[no ni] c] | e]; simpl;
    [| discriminate].
  intros [= <-]. now exists no, ni, c.
Qed.

(** C2, as the code has it.  [SetVolume] has no check of its own: for every
    value, inside the range 0 to 100 or outside, and every route that
    [GetVolume] can read, the value is forwarded as it is to the control of
    the route, and the outcome is the control's.  When the control raises,
    [SetVolume] raises the same exception and the route keeps its volume;
    when the control takes a volume, the route reads that volume. *)
Theorem SetVolume_forwards (B : Backend) (m : Mixer) (digital : bool)
    (value o i v0 : Z) :
  GetVolume o i digital m = Ok v0 ->
  let r := fst (SetVolume B value o i digital m) in
  let m' := snd (SetVolume B value o i digital m) in
  (exists no ni, hw_writes m' = hw_writes m ++ [SetRouteVolume digital no ni value]) /\
  match setvolume B value v0 with
  | Err e => r = Err e /\ GetVolume o i digital m' = Ok v0
  | Ok v => r = Ok tt /\ GetVolume o i digital m' = Ok v
  end.
Proof.
  intros Hget. destruct (GetVolume_located _ _ _ _ _ Hget) as (no & ni & c & Hloc & Hv).
  unfold SetVolume. rewrite (route_setvolume_located B _ value _ _ _ _ _ _ Hloc).
  rewrite Hv. destruct (setvolume B value v0) as [v | e]; cbn [fst snd].
  - split; [exists no, ni; now destruct digital |]. split; [reflexivity |].
    unfold GetVolume, written. rewrite routes_of_set_routes.
    now rewrite (locate_store _ _ _ _ _ _ (with_volume c v) Hloc).
  - split; [exists no, ni; reflexivity |]. split; [reflexivity |].
    unfold GetVolume. rewrite routes_of_log_write, Hloc. simpl. now rewrite Hv.
Qed.

(* ===================================================================== *)
(** * Loops *)
(* ===================================================================== *)

Lemma range_S (n : nat) : range (S n) = range n ++ [Z.of_nat n].
Proof. unfold range. now rewrite seq_S, map_app. Qed.

Lemma for_each_app {S A} (xs ys : list A) (body : A -> M S unit) (s : S) :
  for_each (xs ++ ys) body s =
  match for_each xs body s with
  | (Ok _, s') => for_each ys body s'
  | (Err e, s') => (Err e, s')
  end.
Proof.
  revert s. induction xs as [| x xs IH]; intros s; simpl.
  - reflexivity.
  - unfold bind. destruct (body x s) as [[[] | e] s1]; [apply IH | reflexivity].
Qed.

(** A [for k in range(n)] loop whose body keeps an invariant never raises. *)
Lemma for_range_inv {S} (I : nat -> S -> Prop) (body : Z -> M S unit) (n : nat) (s : S) :
  I O s ->
  (forall k s0, (k < n)%nat -> I k s0 ->
     exists s1, body (Z.of_nat k) s0 = (Ok tt, s1) /\ I (Datatypes.S k) s1) ->
  exists s', for_each (range n) body s = (Ok tt, s') /\ I n s'.
Proof.
  intros H0 Hstep. induction n as [| n IH].
  - exists s. now split.
  - destruct IH as (s1 & E1 & I1); [intros k s0 Hk; apply Hstep; lia |].
    destruct (Hstep n s1 (Nat.lt_succ_diag_r n) I1) as (s2 & E2 & I2).
    exists s2. split; [| assumption].
    rewrite range_S, for_each_app, E1. simpl. unfold bind. now rewrite E2.
Qed.

Lemma foldM_app {A B} (f : B -> A -> result B) (xs ys : list A) (acc : B) :
  foldM f (xs ++ ys) acc = let? acc' := foldM f xs acc in foldM f ys acc'.
Proof.
  revert acc. induction xs as [| x xs IH]; intros acc; simpl; [reflexivity |].
  destruct (f acc x) as [acc' | e]; simpl; [apply IH | reflexivity].
Qed.

Lemma foldM_range_inv {B} (I : nat -> B -> Prop) (f : B -> Z -> result B) (n : nat)
    (acc : B) :
  I O acc ->
  (forall k b, (k < n)%nat -> I k b ->
     exists b', f b (Z.of_nat k) = Ok b' /\ I (Datatypes.S k) b') ->
  exists b', foldM f (range n) acc = Ok b' /\ I n b'.
Proof.
  intros H0 Hstep. induction n as [| n IH].
  - exists acc. now split.
  - destruct IH as (b1 & E1 & I1); [intros k b Hk; apply Hstep; lia |].
    destruct (Hstep n b1 (Nat.lt_succ_diag_r n) I1) as (b2 & E2 & I2).
    exists b2. split; [| assumption].
    rewrite range_S, foldM_app, E1. simpl. now rewrite E2.
Qed.

(* ===================================================================== *)
(** * Matrices of routes *)
(* ===================================================================== *)

Lemma all_present_cell rows o i slot :
  all_present rows = true -> cell rows o i = Some slot -> exists c, slot = Some c.
Proof.
  unfold all_present, cell. intros H Hc.
  destruct (nth_error rows o) as [row |] eqn:Er; [| discriminate].
  apply nth_error_In in Er, Hc.
  rewrite forallb_forall in H. specialize (H row Er).
  rewrite forallb_forall in H. specialize (H slot Hc).
  destruct slot as [c |]; [now exists c | discriminate].
Qed.

Lemma cell_lt {A} (rows : list (list A)) o i x :
  cell rows o i = Some x -> (o < length rows)%nat /\ (i < row_len rows o)%nat.
Proof.
  unfold cell, row_len. destruct (nth_error rows o) as [row |] eqn:Er; [| discriminate].
  intros Hc. split; apply nth_error_Some; congruence.
Qed.

Lemma cell_some {A} (rows : list (list A)) o i :
  (o < length rows)%nat -> (i < row_len rows o)%nat -> exists x, cell rows o i = Some x.
Proof.
  unfold cell, row_len. intros Ho Hi.
  destruct (nth_error rows o) as [row |] eqn:Er; [| lia].
  destruct (nth_error row i) as [x |] eqn:Ei; [now exists x |].
  apply nth_error_None in Ei. lia.
Qed.

Lemma row_len_shape {A B} (X : list (list A)) (Y : list (list B)) o :
  shape X = shape Y -> row_len X o = row_len Y o.
Proof.
  unfold shape, row_len. intros H.
  assert (E : nth_error (map (@Datatypes.length A) X) o =
              nth_error (map (@Datatypes.length B) Y) o) by now rewrite H.
  rewrite !nth_error_map in E.
  destruct (nth_error X o), (nth_error Y o); simpl in E; congruence.
Qed.

Lemma length_shape {A B} (X : list (list A)) (Y : list (list B)) :
  shape X = shape Y -> length X = length Y.
Proof.
  unfold shape. intros H.
  rewrite <- (length_map (@Datatypes.length A) X), H. apply length_map.
Qed.

Lemma getitem_row {A} (rows : list (list A)) o :
  (o < length rows)%nat ->
  exists row, getitem rows (Z.of_nat o) = Ok row /\ length row = row_len rows o /\
              nth_error rows o = Some row.
Proof.
  intros Ho. rewrite getitem_nat. unfold row_len.
  destruct (nth_error rows o) as [row |] eqn:Er.
  - now exists row.
  - apply nth_error_None in Er. lia.
Qed.

(** Two matrices of the same shape with the same slots are equal. *)
Lemma matrix_ext {A} (X Y : list (list A)) :
  shape X = shape Y -> (forall o i, cell X o i = cell Y o i) -> X = Y.
Proof.
  revert Y. induction X as [| x X IH]; intros [| y Y] Hs Hc; simpl in Hs;
    try discriminate; [reflexivity |].
  injection Hs as Hl Hs. f_equal.
  - apply nth_error_ext. intros i. exact (Hc O i).
  - apply IH; [assumption |]. intros o i. exact (Hc (S o) i).
Qed.

Lemma route_setvolume_nat (B : Backend) digital value (o i : nat) m c :
  accepts_range B -> 0 <= value <= 100 ->
  cell (routes_of digital m) o i = Some (Some c) ->
  route_setvolume B digital value (Z.of_nat o) (Z.of_nat i) m =
  (Ok tt, written digital value o i c value m).
Proof.
  intros HB Hv Hc.
  rewrite (route_setvolume_located B digital value _ _ m o i c).
  - now rewrite HB.
  - rewrite locate_nat. now rewrite Hc.
Qed.

(* ===================================================================== *)
(** * MuteMostDigitalRoutes *)
(* ===================================================================== *)

Ltac nat_cases :=
  repeat match goal with
         | |- context [(?a <? ?b)%nat] => destruct (Nat.ltb_spec a b)
         | |- context [(?a =? ?b)%nat] => destruct (Nat.eqb_spec a b)
         end;
  cbn [andb orb negb]; try reflexivity; try lia; try congruence.

Lemma with_volume_id c : with_volume c (volume c) = c.
Proof. now destruct c. Qed.

Lemma mute_inv_start m : mute_inv m O O m.
Proof.
  split; [reflexivity |]. split; [reflexivity |]. intros o i.
  assert (Hm : muted_upto O O o i = false) by (unfold muted_upto; nat_cases).
  rewrite Hm. now destruct (cell (digital_routes m) o i) as [[c |] |].
Qed.

Lemma mute_inv_next_row m k m' :
  mute_inv m k (row_len (digital_routes m) k) m' -> mute_inv m (S k) O m'.
Proof.
  intros (Ha & Hs & Hc). split; [assumption |]. split; [assumption |].
  intros o i. rewrite Hc.
  destruct (cell (digital_routes m) o i) as [slot |] eqn:E; [| reflexivity].
  destruct (cell_lt _ _ _ _ E) as [_ Hi]. simpl. do 2 f_equal.
  assert (Hm : muted_upto k (row_len (digital_routes m) k) o i = muted_upto (S k) O o i).
  { unfold muted_upto. nat_cases. subst. lia. }
  now rewrite Hm.
Qed.

Lemma mute_step (B : Backend) m k j m0 :
  accepts_range B -> all_present (digital_routes m) = true ->
  (k < length (digital_routes m))%nat -> (j < row_len (digital_routes m) k)%nat ->
  mute_inv m k j m0 ->
  exists m1,
    (if negb (Z.of_nat k =? Z.of_nat j)
     then route_setvolume B true 0 (Z.of_nat k) (Z.of_nat j)
     else ret tt) m0 = (Ok tt, m1) /\
    mute_inv m k (S j) m1.
Proof.
  intros HB Hp Hk Hj (Ha & Hs & Hc).
  destruct (cell_some _ _ _ Hk Hj) as (slot & Hslot).
  destruct (all_present_cell _ _ _ _ Hp Hslot) as (c & ->).
  destruct (Z.eqb_spec (Z.of_nat k) (Z.of_nat j)) as [E | Hne]; cbn [negb].
  - apply Nat2Z.inj in E. subst j. exists m0. split; [reflexivity |].
    split; [assumption |]. split; [assumption |]. intros o i. rewrite Hc.
    destruct (cell (digital_routes m) o i) as [[c' |] |]; simpl; try reflexivity.
    do 2 f_equal. unfold muted_upto. nat_cases.
  - assert (Hkj : k <> j) by congruence.
    assert (Hc0 : cell (routes_of true m0) k j = Some (Some c)).
    { simpl. rewrite Hc, Hslot. simpl. do 2 f_equal.
      unfold muted_upto. rewrite Nat.ltb_irrefl, Nat.ltb_irrefl, andb_false_r.
      reflexivity. }
    exists (written true 0 k j c 0 m0).
    split; [apply route_setvolume_nat; auto; lia |].
    split; [exact Ha |]. split.
    + simpl. now rewrite shape_store.
    + intros o i. simpl. rewrite cell_store. simpl in Hc0. rewrite Hc0.
      destruct ((o =? k) && (i =? j))%nat eqn:Eoi.
      * apply andb_true_iff in Eoi as [Eo Ei].
        apply Nat.eqb_eq in Eo, Ei. subst o i. rewrite Hslot. simpl. do 2 f_equal.
        unfold muted_upto. nat_cases.
      * rewrite Hc.
        destruct (cell (digital_routes m) o i) as [[c' |] |]; simpl; try reflexivity.
        do 2 f_equal. apply andb_false_iff in Eoi.
        assert (Hm : muted_upto k (S j) o i = muted_upto k j o i).
        { unfold muted_upto.
          destruct Eoi as [Eo | Ei];
            [apply Nat.eqb_neq in Eo | apply Nat.eqb_neq in Ei]; nat_cases. }
        now rewrite Hm.
Qed.

(** The state in which [MuteMostDigitalRoutes] ends. *)
Lemma MuteMostDigitalRoutes_inv (B : Backend) (m : Mixer) :
  accepts_range B -> all_present (digital_routes m) = true ->
  exists m', MuteMostDigitalRoutes B m = (Ok tt, m') /\
             mute_inv m (length (digital_routes m)) O m'.
Proof.
  intros HB Hp. unfold MuteMostDigitalRoutes.
  apply (for_range_inv (fun k m' => mute_inv m k O m')).
  - apply mute_inv_start.
  - intros k m0 Hk Hinv.
    assert (Hk0 : (k < length (digital_routes m0))%nat).
    { destruct Hinv as (_ & Hs & _). now rewrite (length_shape _ _ Hs). }
    destruct (getitem_row _ _ Hk0) as (row & Hrow & Hlen & _).
    rewrite Hrow.
    assert (Hlen' : length row = row_len (digital_routes m) k).
    { destruct Hinv as (_ & Hs & _). rewrite Hlen. now apply row_len_shape. }
    rewrite Hlen'.
    destruct (for_range_inv (fun j m' => mute_inv m k j m')
                (fun i => if negb (Z.of_nat k =? i)
                          then route_setvolume B true 0 (Z.of_nat k) i else ret tt)
                (row_len (digital_routes m) k) m0 Hinv) as (m1 & E1 & I1).
    + intros j s0 Hj Hs0. now apply mute_step.
    + exists m1. split; [exact E1 | now apply mute_inv_next_row].
Qed.


(* ===================================================================== *)
(** * The polling thread: one dispatch per cycle *)
(* ===================================================================== *)

Lemma collect_changes_batch table events batch a d :
  mapM (lookup_fd table) (signaled events) = Ok batch ->
  collect_changes table events a d =
  Ok (a ++ routes_in false batch, d ++ routes_in true batch).
Proof.
  revert batch a d. induction events as [| [fd mask] events IH]; intros batch a d H.
  - injection H as <-. simpl. now rewrite !List.app_nil_r.
  - unfold signaled in H. cbn [filter snd] in H. cbn [collect_changes snd fst].
    destruct (negb (Z.land mask POLLIN =? 0)).
    + cbn [map fst mapM] in H.
      destruct (lookup_fd table fd) as [[[[[o i] dg] em] fd'] | e]; [| discriminate].
      cbn [rbind] in H. fold (signaled events) in H.
      destruct (mapM (lookup_fd table) (signaled events)) as [rest | e] eqn:Er;
        [| discriminate].
      injection H as <-. cbn [rbind].
      destruct dg; rewrite (IH rest) by reflexivity; unfold routes_in;
        cbn [filter Bool.eqb map]; now rewrite <- !List.app_assoc.
    + now apply IH.
Qed.

Lemma routes_in_nonempty r batch :
  routes_in false (r :: batch) <> [] \/ routes_in true (r :: batch) <> [].
Proof.
  destruct r as [[[[o i] dg] em] fd]. unfold routes_in. cbn [filter].
  destruct dg; cbn [Bool.eqb map]; [right | left]; discriminate.
Qed.

Lemma PollForChanges_cycle_batch_state (m : Mixer) (events : list (Z * Z))
    (batch : list RouteInfo) :
  mapM (lookup_fd (descriptors_to_routes m)) (signaled events) = Ok batch ->
  PollForChanges_cycle events m =
  (Ok tt,
   match batch with
   | [] => m
   | _ :: _ =>
       log_dispatch
         (map (fun o => (o, routes_in false batch, routes_in true batch)) (observers m))
         m
   end).
Proof.
  intros H. unfold PollForChanges_cycle.
  rewrite (collect_changes_batch _ _ batch [] [] H). cbn [app].
  destruct batch as [| r batch]; [reflexivity |].
  unfold notify.
  destruct (routes_in_nonempty r batch) as [Hn | Hn];
    destruct (routes_in false (r :: batch)), (routes_in true (r :: batch));
    congruence.
Qed.

(** C7.  When the descriptors that signalled in a poll cycle are the ones of
    the routes [batch], the cycle returns, and the calls it has made to the
    observers are these: when [batch] is not empty, exactly one call to
    every registered observer, in the order of their registration, each
    with the whole batch, split into the pairs of the analog routes and the
    pairs of the digital routes; when no descriptor signalled, no call at
    all.  The routes, the controls of the effects, the observers, the table
    of the descriptors and the hardware are as they were. *)
Theorem PollForChanges_cycle_one_dispatch (m : Mixer) (events : list (Z * Z))
    (batch : list RouteInfo) :
  mapM (lookup_fd (descriptors_to_routes m)) (signaled events) = Ok batch ->
  exists m',
    PollForChanges_cycle events m = (Ok tt, m') /\
    dispatched m' =
      dispatched m ++
      match batch with
      | [] => []
      | _ :: _ =>
          map (fun o => (o, routes_in false batch, routes_in true batch)) (observers m)
      end /\
    analog_routes m' = analog_routes m /\ digital_routes m' = digital_routes m /\
    fx_controls m' = fx_controls m /\ observers m' = observers m /\
    descriptors_to_routes m' = descriptors_to_routes m /\ hw_writes m' = hw_writes m.
Proof.
  intros H. rewrite (PollForChanges_cycle_batch_state m events batch H).
  eexists. split; [reflexivity |].
  destruct batch as [| r batch]; cbn [log_dispatch dispatched analog_routes digital_routes
    fx_controls observers descriptors_to_routes hw_writes];
    rewrite ?List.app_nil_r; repeat split.
Qed.

(* ===================================================================== *)
(** * ParseConfigDict: the observers *)
(* ===================================================================== *)

Lemma route_setvolume_observers (B : Backend) digital value o i m :
  observers (snd (route_setvolume B digital value o i m)) = observers m /\
  dispatched (snd (route_setvolume B digital value o i m)) = dispatched m.
Proof.
  unfold route_setvolume.
  destruct (locate (routes_of digital m) o i) as [[[no ni] c] | e]; [| now split].
  destruct (setvolume B value (volume c)); now split.
Qed.

Lemma apply_routes_changed (B : Backend) prefix digital section keys changed m r m' :
  apply_routes B prefix digital section keys changed m = (Ok r, m') ->
  observers m' = observers m /\ dispatched m' = dispatched m /\
  exists named,
    mapM (fun key => let? io := parse_route_key prefix key in Ok (snd io, fst io)) keys
    = Ok named /\
    r = changed ++ named.
Proof.
  revert changed m. induction keys as [| key keys IH]; intros changed m H.
  - injection H as <- <-. repeat split. exists []. now rewrite List.app_nil_r.
  - cbn [apply_routes] in H. unfold bind, lift in H.
    destruct (parse_route_key prefix key) as [[i o] | e] eqn:Ek; [| discriminate].
    destruct (match dict_get section key with
              | Some v => int_of v
              | None => Err KeyError
              end) as [v | e]; [| discriminate].
    cbn [fst snd] in H. unfold SetVolume in H.
    pose proof (route_setvolume_observers B digital v o i m) as [Ho Hd].
    destruct (route_setvolume B digital v o i m) as [[[] | e] m1]; [| discriminate].
    cbn [snd] in Ho, Hd.
    destruct (IH _ _ H) as (Ho' & Hd' & named & Hn & ->).
    split; [congruence |]. split; [congruence |].
    exists ((o, i) :: named). cbn [mapM]. rewrite Ek. cbn [rbind fst snd].
    rewrite Hn. cbn [rbind]. split; [reflexivity |]. now rewrite <- List.app_assoc.
Qed.

Lemma apply_routes_observers (B : Backend) prefix digital section keys changed m :
  observers (snd (apply_routes B prefix digital section keys changed m)) = observers m /\
  dispatched (snd (apply_routes B prefix digital section keys changed m)) = dispatched m.
Proof.
  revert changed m. induction keys as [| key keys IH]; intros changed m; [now split |].
  cbn [apply_routes]. unfold bind, lift.
  destruct (parse_route_key prefix key) as [[i o] | e]; [| now split].
  destruct (match dict_get section key with
            | Some v => int_of v
            | None => Err KeyError
            end) as [v | e]; [| now split].
  cbn [fst snd]. unfold SetVolume.
  pose proof (route_setvolume_observers B digital v o i m) as [Ho Hd].
  destruct (route_setvolume B digital v o i m) as [[[] | e] m1]; cbn [snd] in *;
    [| now split].
  destruct (IH (changed ++ [(o, i)]) m1) as [Ho' Hd']. split; congruence.
Qed.

(** A call of [ParseConfigDict] that returns has called every observer
    once, after everything was applied. *)
Lemma ParseConfigDict_returning_call (B : Backend) (configdict : config) (m m' : Mixer) :
  ParseConfigDict B configdict m = (Ok tt, m') ->
  exists changed_analog changed_digital,
    named_routes "ain" (dict_get configdict "Analog") = Ok changed_analog /\
    named_routes "din" (dict_get configdict "Digital") = Ok changed_digital /\
    observers m' = observers m /\
    dispatched m' =
    dispatched m ++
    map (fun o => (o, changed_analog, changed_digital)) (observers m).
Proof.
  intros H. unfold ParseConfigDict, bind in H.
  assert (Ha : exists a m1,
             match dict_get configdict "Analog" with
             | Some section => apply_routes B "ain" false section (dict_keys section) []
             | None => ret []
             end m = (Ok a, m1) /\
             named_routes "ain" (dict_get configdict "Analog") = Ok a /\
             observers m1 = observers m /\ dispatched m1 = dispatched m).
  { destruct (dict_get configdict "Analog") as [section |].
    - destruct (apply_routes B "ain" false section (dict_keys section) [] m)
        as [[a | e] m1] eqn:E; [| discriminate].
      destruct (apply_routes_changed _ _ _ _ _ _ _ _ _ E) as (Ho & Hd & named & Hn & ->).
      exists named, m1. auto.
    - exists [], m. auto. }
  destruct Ha as (a & m1 & Ea & Hna & Ho1 & Hd1). rewrite Ea in H.
  assert (Hb : exists d m2,
             match dict_get configdict "Digital" with
             | Some section => apply_routes B "din" true section (dict_keys section) []
             | None => ret []
             end m1 = (Ok d, m2) /\
             named_routes "din" (dict_get configdict "Digital") = Ok d /\
             observers m2 = observers m1 /\ dispatched m2 = dispatched m1).
  { destruct (dict_get configdict "Digital") as [section |].
    - destruct (apply_routes B "din" true section (dict_keys section) [] m1)
        as [[d | e] m2] eqn:E; [| discriminate].
      destruct (apply_routes_changed _ _ _ _ _ _ _ _ _ E) as (Ho & Hd & named & Hn & ->).
      exists named, m2. auto.
    - exists [], m1. auto. }
  destruct Hb as (d & m2 & Eb & Hnd & Ho2 & Hd2). rewrite Eb in H.
  exists a, d. split; [assumption |]. split; [assumption |].
  destruct (dict_get configdict "Effects") as [section |].
  + destruct (apply_effects B section (fx_controls m2) (hw_writes m2))
      as [[[[] | e] fx] log]; [| discriminate].
    unfold notify in H. injection H as <-. simpl. split; congruence.
  + unfold ret, notify in H. injection H as <-. simpl. split; congruence.
Qed.

(** A call of [ParseConfigDict] that raises has called no observer: the
    loop over the observers is the last statement of the method. *)
Lemma ParseConfigDict_raising_call (B : Backend) (configdict : config) (m m' : Mixer)
    (e : error) :
  ParseConfigDict B configdict m = (Err e, m') ->
  observers m' = observers m /\ dispatched m' = dispatched m.
Proof.
  unfold ParseConfigDict, bind. intros H.
  assert (Ha : forall name prefix digital m0,
             observers (snd (match dict_get configdict name with
                             | Some section =>
                                 apply_routes B prefix digital section (dict_keys section) []
                             | None => ret []
                             end m0)) = observers m0 /\
             dispatched (snd (match dict_get configdict name with
                              | Some section =>
                                  apply_routes B prefix digital section (dict_keys section) []
                              | None => ret []
                              end m0)) = dispatched m0).
  { intros name prefix digital m0.
    destruct (dict_get configdict name) as [section |];
      [apply apply_routes_observers | now split]. }
  destruct (Ha "Analog" "ain" false m) as [Ho1 Hd1].
  destruct (match dict_get configdict "Analog" with
            | Some section => apply_routes B "ain" false section (dict_keys section) []
            | None => ret []
            end m) as [[a | e1] m1]; cbn [snd] in *.
  2:{ injection H as _ <-. now split. }
  destruct (Ha "Digital" "din" true m1) as [Ho2 Hd2].
  destruct (match dict_get configdict "Digital" with
            | Some section => apply_routes B "din" true section (dict_keys section) []
            | None => ret []
            end m1) as [[d | e2] m2]; cbn [snd] in *.
  2:{ injection H as _ <-. split; congruence. }
  destruct (dict_get configdict "Effects") as [section |].
  - destruct (apply_effects B section (fx_controls m2) (hw_writes m2))
      as [[[[] | e3] fx] log]; [discriminate |].
    injection H as _ <-. cbn. split; congruence.
  - discriminate.
Qed.

(* ===================================================================== *)
(** * The cascade of the links *)
(* ===================================================================== *)

Lemma OnHardwareRouting_unfold (B : Backend) fuel event o i g :
  OnHardwareRouting B (S fuel) event o i g =
  match routing_step B event o i g with
  | (Err e, g') => Some (Err e, g')
  | (Ok None, g') => Some (Ok tt, g')
  | (Ok (Some lo), g') => OnHardwareRouting B fuel event lo i g'
  end.
Proof.
  cbn [OnHardwareRouting]. unfold routing_step.
  destruct (slider_at g o i) as [[slider l] | e]; [| reflexivity].
  destruct (SetVolume B (slider_value slider) o i false (mixer g)) as [[[] | e] m'];
    [| reflexivity].
  destruct (getitem _ o) as [[lo |] | e]; try reflexivity.
  destruct event as [id |]; [| reflexivity].
  destruct (slider_at _ lo i) as [[ls ll] | e]; [| reflexivity].
  now destruct (negb (id =? slider_id ls)).
Qed.

Lemma getitem_map {A X} (F : A -> X) (l : list A) (k : Z) :
  getitem (map F l) k =
  match getitem l k with Ok x => Ok (F x) | Err e => Err e end.
Proof.
  unfold getitem. rewrite length_map.
  destruct (norm_index (length l) k) as [n |]; [| reflexivity].
  rewrite nth_error_map. now destruct (nth_error l n).
Qed.

Lemma update_same {A} (l : list A) (n : nat) (x : A) :
  nth_error l n = Some x -> update l n x = l.
Proof.
  revert n. induction l as [| h t IH]; intros [| n] H; simpl in *;
    try discriminate.
  - now injection H as ->.
  - f_equal. now apply IH.
Qed.

Lemma map_update {A X} (F : A -> X) (l : list A) (n : nat) (x : A) :
  map F (update l n x) = update (map F l) n (F x).
Proof.
  revert n. induction l as [| h t IH]; intros [| n]; simpl; try reflexivity.
  now rewrite IH.
Qed.

Lemma map_alter_item {A X} (F : A -> X) (f : A -> A) (l : list A) (k : Z) :
  (forall x, F (f x) = F x) -> map F (alter_item f l k) = map F l.
Proof.
  intros H. unfold alter_item.
  destruct (norm_index (length l) k) as [n |]; [| reflexivity].
  destruct (nth_error l n) as [x |] eqn:E; [| reflexivity].
  rewrite map_update, H. apply update_same. now rewrite nth_error_map, E.
Qed.

Lemma ids_SetValue o i v g : ids (SetValue o i v g) = ids g.
Proof.
  unfold ids, SetValue. simpl. apply map_alter_item. intros row.
  now apply map_alter_item.
Qed.

Lemma ids_SetLabel o i t g : ids (SetLabel o i t g) = ids g.
Proof.
  unfold ids, SetLabel. simpl. apply map_alter_item. intros row.
  now apply map_alter_item.
Qed.

Lemma slider_at_id g o i s l :
  slider_at g o i = Ok (s, l) -> id_at g o i = Ok (slider_id s).
Proof.
  unfold slider_at, id_at, ids. rewrite getitem_map.
  destruct (getitem (hardwarerouting_sliders g) o) as [row | e]; [| discriminate].
  simpl. rewrite getitem_map. intros ->. reflexivity.
Qed.

Lemma route_setvolume_log_length (B : Backend) digital value o i m :
  (length (hw_writes (snd (route_setvolume B digital value o i m))) <=
   length (hw_writes m) + 1)%nat.
Proof.
  unfold route_setvolume.
  destruct (locate (routes_of digital m) o i) as [[[no ni] c] | e]; simpl; [| lia].
  destruct (setvolume B value (volume c)); simpl; rewrite length_app; simpl; lia.
Qed.

(** What one call leaves as it was, and how far it can go. *)
Lemma routing_step_frame (B : Backend) event o i g :
  let g' := snd (routing_step B event o i g) in
  links g' = links g /\ ids g' = ids g /\
  (length (hw_writes (mixer g')) <= length (hw_writes (mixer g)) + 1)%nat /\
  dispatched (mixer g') = dispatched (mixer g).
Proof.
  unfold routing_step.
  destruct (slider_at g o i) as [[slider l] | e]; simpl;
    [| repeat split; lia].
  pose proof (route_setvolume_log_length B false (slider_value slider) o i (mixer g)) as HL.
  pose proof (route_setvolume_observers B false (slider_value slider) o i (mixer g))
    as [_ HD].
  unfold SetVolume.
  destruct (route_setvolume B false (slider_value slider) o i (mixer g))
    as [[[] | e] m']; simpl in *; [| repeat split; assumption].
  destruct (getitem (links g) o) as [[lo |] | e]; simpl;
    try (rewrite ?ids_SetLabel; repeat split; assumption).
  destruct event as [id |]; simpl;
    try (rewrite ?ids_SetLabel; repeat split; assumption).
  destruct (slider_at _ lo i) as [[ls ll] | e]; simpl;
    try (rewrite ?ids_SetLabel; repeat split; assumption).
  destruct (negb (id =? slider_id ls)); simpl;
    rewrite ?ids_SetValue, ?ids_SetLabel; repeat split; assumption.
Qed.

(** A call goes on only along the link of its output, and only when the
    slider of the linked output is not the one the event came from. *)
Lemma routing_step_next (B : Backend) id o i g lo g' :
  routing_step B (Some id) o i g = (Ok (Some lo), g') ->
  getitem (links g) o = Ok (Some lo) /\ id_at g lo i <> Ok id.
Proof.
  unfold routing_step.
  destruct (slider_at g o i) as [[slider l] | e]; [| discriminate].
  destruct (SetVolume B (slider_value slider) o i false (mixer g)) as [[[] | e] m'];
    [| discriminate].
  simpl. destruct (getitem (links g) o) as [[lo' |] | e]; try discriminate.
  destruct (slider_at _ lo' i) as [[ls ll] | e] eqn:Els; [| discriminate].
  destruct (Z.eqb_spec id (slider_id ls)) as [E | Hne]; simpl; [discriminate |].
  intros [= <- <-]. split; [reflexivity |].
  apply slider_at_id in Els. unfold id_at in *. rewrite ids_SetLabel in Els.
  change (ids (set_mixer m' g)) with (ids g) in Els.
  rewrite Els. congruence.
Qed.

(** C3.  When the link of output [a] is output [b] and the link of output
    [b] is output [a], moving the slider of any input of output [a] to any
    value ends: the handler returns after at most two calls of itself, that
    is after at most two volumes were set, for every bound of at least two
    on the depth of its calls.  The second call finds that the slider of the
    linked output is the slider the event came from, and stops. *)
Theorem cascade_of_two_cycle_terminates (B : Backend) (g : Gui) (a b i v : Z)
    (fuel : nat) :
  getitem (links g) a = Ok (Some b) ->
  getitem (links g) b = Ok (Some a) ->
  (2 <= fuel)%nat ->
  exists r g',
    move_slider B fuel v a i g = Some (r, g') /\
    (length (hw_writes (mixer g')) <= length (hw_writes (mixer g)) + 2)%nat.
Proof.
  intros Hab Hba Hfuel. unfold move_slider.
  destruct (slider_at g a i) as [[s0 l0] | e] eqn:E0;
    [| eexists; eexists; split; [reflexivity | lia]].
  apply slider_at_id in E0.
  remember (SetValue a i v g) as g1 eqn:Eg1.
  assert (Hl1 : links g1 = links g) by now subst g1.
  assert (Hi1 : ids g1 = ids g) by (subst g1; apply ids_SetValue).
  assert (Hw1 : length (hw_writes (mixer g1)) = length (hw_writes (mixer g)))
    by now subst g1.
  clear Eg1.
  destruct fuel as [| [| fuel]]; try lia.
  rewrite OnHardwareRouting_unfold.
  pose proof (routing_step_frame B (Some (slider_id s0)) a i g1) as (Hl2 & Hi2 & Hw2 & _).
  destruct (routing_step B (Some (slider_id s0)) a i g1) as [[[lo |] | e] g2] eqn:E1;
    cbn [snd] in *;
    [| eexists; eexists; split; [reflexivity | lia] ..].
  apply routing_step_next in E1 as [Hlo _].
  rewrite Hl1, Hab in Hlo. injection Hlo as <-.
  rewrite OnHardwareRouting_unfold.
  pose proof (routing_step_frame B (Some (slider_id s0)) b i g2) as (Hl3 & Hi3 & Hw3 & _).
  destruct (routing_step B (Some (slider_id s0)) b i g2) as [[[lo |] | e] g3] eqn:E2;
    cbn [snd] in *;
    [| eexists; eexists; split; [reflexivity | lia] ..].
  exfalso. apply routing_step_next in E2 as [Hlo Hid].
  rewrite Hl2, Hl1, Hba in Hlo. injection Hlo as <-.
  apply Hid. unfold id_at in *. now rewrite Hi2, Hi1.
Qed.

(** ** The sliders under subscripts counted from the front *)

Lemma nth_error_alter_item {A} (f : A -> A) (l : list A) (n k : nat) :
  nth_error (alter_item f l (Z.of_nat n)) k =
  if (k =? n)%nat then option_map f (nth_error l n) else nth_error l k.
Proof.
  unfold alter_item. rewrite norm_index_nat.
  destruct (n <? length l)%nat eqn:En.
  - destruct (nth_error l n) as [x |] eqn:Ex.
    + rewrite nth_error_update, Ex. reflexivity.
    + destruct (Nat.eqb_spec k n) as [-> |]; [now rewrite Ex | reflexivity].
  - apply Nat.ltb_ge, nth_error_None in En.
    destruct (Nat.eqb_spec k n) as [-> |]; [now rewrite En | reflexivity].
Qed.

Lemma cell_alter {A} (f : A -> A) (rows : list (list A)) (o i o' i' : nat) :
  cell (alter_item (fun row => alter_item f row (Z.of_nat i)) rows (Z.of_nat o)) o' i' =
  if ((o' =? o) && (i' =? i))%nat then option_map f (cell rows o i) else cell rows o' i'.
Proof.
  unfold cell. rewrite nth_error_alter_item.
  destruct (Nat.eqb_spec o' o) as [-> | Ho]; cbn [andb].
  - destruct (nth_error rows o) as [row |]; cbn [option_map].
    + apply nth_error_alter_item.
    + now destruct (i' =? i)%nat.
  - reflexivity.
Qed.

Lemma slider_at_nat (g : Gui) (o i : nat) :
  slider_at g (Z.of_nat o) (Z.of_nat i) =
  match cell (hardwarerouting_sliders g) o i with
  | Some x => Ok x
  | None => Err IndexError
  end.
Proof.
  unfold slider_at, cell. rewrite getitem_nat.
  destruct (nth_error (hardwarerouting_sliders g) o) as [row |]; [| reflexivity].
  cbn [rbind]. apply getitem_nat.
Qed.

Lemma routing_step_ok (B : Backend) event (o i : nat) g s l c :
  accepts_range B ->
  cell (hardwarerouting_sliders g) o i = Some (s, l) ->
  0 <= slider_value s <= 100 ->
  cell (analog_routes (mixer g)) o i = Some (Some c) ->
  let v := slider_value s in
  let g1 := SetLabel (Z.of_nat o) (Z.of_nat i) (str_of_int v)
              (set_mixer (written false v o i c v (mixer g)) g) in
  routing_step B event (Z.of_nat o) (Z.of_nat i) g =
  match getitem (links g) (Z.of_nat o) with
  | Err e => (Err e, g1)
  | Ok linked_output =>
      match linked_output, event with
      | Some lo, Some id =>
          match slider_at g1 lo (Z.of_nat i) with
          | Err e => (Err e, g1)
          | Ok (linked_slider, _) =>
              if negb (id =? slider_id linked_slider)
              then (Ok (Some lo), SetValue lo (Z.of_nat i) v g1)
              else (Ok None, g1)
          end
      | _, _ => (Ok None, g1)
      end
  end.
Proof.
  intros HB Hs Hv Hc. unfold routing_step.
  rewrite slider_at_nat, Hs. unfold SetVolume.
  rewrite (route_setvolume_nat B false _ o i (mixer g) c HB Hv Hc).
  reflexivity.
Qed.

(** C4, as the code has it.  Output [a] is linked to output [b], and output
    [b] is not linked or is linked back to [a].  When the user moves the
    slider of input [i] of output [a] to [v], the handler returns, the
    volume [v] was set on the route of [a] and then on the route of [b],
    and both routes read [v].  The handler itself calls no observer: the
    calls made to the observers are the ones of before. *)
Theorem cascade_replicates_volume (B : Backend) (g : Gui) (a b i : nat) (v : Z)
    (fuel : nat) (sa sb : Slider) (la lb : string) (va vb : Z) :
  accepts_range B -> 0 <= v <= 100 -> (2 <= fuel)%nat ->
  slider_at g (Z.of_nat a) (Z.of_nat i) = Ok (sa, la) ->
  slider_at g (Z.of_nat b) (Z.of_nat i) = Ok (sb, lb) ->
  slider_id sa <> slider_id sb ->
  GetVolume (Z.of_nat a) (Z.of_nat i) false (mixer g) = Ok va ->
  GetVolume (Z.of_nat b) (Z.of_nat i) false (mixer g) = Ok vb ->
  getitem (links g) (Z.of_nat a) = Ok (Some (Z.of_nat b)) ->
  getitem (links g) (Z.of_nat b) = Ok None \/
  getitem (links g) (Z.of_nat b) = Ok (Some (Z.of_nat a)) ->
  exists g',
    move_slider B fuel v (Z.of_nat a) (Z.of_nat i) g = Some (Ok tt, g') /\
    GetVolume (Z.of_nat a) (Z.of_nat i) false (mixer g') = Ok v /\
    GetVolume (Z.of_nat b) (Z.of_nat i) false (mixer g') = Ok v /\
    hw_writes (mixer g') =
      hw_writes (mixer g) ++ [SetRouteVolume false a i v; SetRouteVolume false b i v] /\
    dispatched (mixer g') = dispatched (mixer g).
Proof.
  intros HB Hv Hfuel Hsa Hsb Hid Hga Hgb Hla Hlb.
  assert (Hab : a <> b).
  { intros ->. rewrite Hsa in Hsb. injection Hsb as <- _. now apply Hid. }
  rewrite slider_at_nat in Hsa, Hsb.
  destruct (cell (hardwarerouting_sliders g) a i) as [xa |] eqn:Eca; [| discriminate].
  destruct (cell (hardwarerouting_sliders g) b i) as [xb |] eqn:Ecb; [| discriminate].
  injection Hsa as ->. injection Hsb as ->.
  rewrite GetVolume_nat in Hga, Hgb. cbn [routes_of] in Hga, Hgb.
  destruct (cell (analog_routes (mixer g)) a i) as [[ca |] |] eqn:Era; try discriminate.
  destruct (cell (analog_routes (mixer g)) b i) as [[cb |] |] eqn:Erb; try discriminate.
  clear Hga Hgb.
  assert (Hba : ((b =? a) && (i =? i))%nat = false)
    by (apply andb_false_iff; left; now apply Nat.eqb_neq).
  assert (Haa : forall x, ((x =? x) && (i =? i))%nat = true)
    by (intros x; now rewrite !Nat.eqb_refl).
  assert (Hab' : ((a =? b) && (i =? i))%nat = false)
    by (apply andb_false_iff; left; now apply Nat.eqb_neq).
  unfold move_slider. rewrite slider_at_nat, Eca.
  destruct fuel as [| [| fuel]]; try lia.
  (* the call for output a *)
  rewrite OnHardwareRouting_unfold.
  set (g0 := SetValue (Z.of_nat a) (Z.of_nat i) v g).
  assert (E0a : cell (hardwarerouting_sliders g0) a i =
                Some ({| slider_id := slider_id sa; slider_value := v |}, la)).
  { unfold g0, SetValue. cbn [hardwarerouting_sliders set_sliders].
    now rewrite cell_alter, Haa, Eca. }
  rewrite (routing_step_ok B _ a i g0 _ _ ca HB E0a Hv Era).
  cbn [slider_value]. change (links g0) with (links g). rewrite Hla.
  set (m1 := written false v a i ca v (mixer g0)).
  set (g1 := SetLabel (Z.of_nat a) (Z.of_nat i) (str_of_int v) (set_mixer m1 g0)).
  assert (E1b : cell (hardwarerouting_sliders g1) b i = Some (sb, lb)).
  { unfold g1, SetLabel, g0, SetValue. cbn [hardwarerouting_sliders set_sliders set_mixer].
    now rewrite !cell_alter, Hba. }
  assert (E1a : exists l', cell (hardwarerouting_sliders g1) a i =
                Some ({| slider_id := slider_id sa; slider_value := v |}, l')).
  { unfold g1, SetLabel. cbn [hardwarerouting_sliders set_sliders set_mixer].
    rewrite cell_alter, Haa, E0a. cbn. eauto. }
  rewrite slider_at_nat, E1b.
  destruct (Z.eqb_spec (slider_id sa) (slider_id sb)) as [E | _]; [contradiction |].
  cbn [negb].
  (* the call for output b *)
  rewrite OnHardwareRouting_unfold.
  set (g2 := SetValue (Z.of_nat b) (Z.of_nat i) v g1).
  assert (E2b : cell (hardwarerouting_sliders g2) b i =
                Some ({| slider_id := slider_id sb; slider_value := v |}, lb)).
  { unfold g2, SetValue. cbn [hardwarerouting_sliders set_sliders].
    now rewrite cell_alter, Haa, E1b. }
  assert (Erb1 : cell (analog_routes (mixer g2)) b i = Some (Some cb)).
  { unfold g2, g1, m1, written. cbn. now rewrite cell_store, Hba. }
  rewrite (routing_step_ok B _ b i g2 _ _ cb HB E2b Hv Erb1).
  cbn [slider_value]. change (links g2) with (links g).
  set (m2 := written false v b i cb v (mixer g2)).
  set (g3 := SetLabel (Z.of_nat b) (Z.of_nat i) (str_of_int v) (set_mixer m2 g2)).
  assert (E3a : exists l', cell (hardwarerouting_sliders g3) a i =
                Some ({| slider_id := slider_id sa; slider_value := v |}, l')).
  { destruct E1a as (l' & E1a). exists l'.
    unfold g3, SetLabel, g2, SetValue. cbn [hardwarerouting_sliders set_sliders set_mixer].
    now rewrite !cell_alter, Hab'. }
  assert (Hfinal : GetVolume (Z.of_nat a) (Z.of_nat i) false (mixer g3) = Ok v /\
                   GetVolume (Z.of_nat b) (Z.of_nat i) false (mixer g3) = Ok v /\
                   hw_writes (mixer g3) =
                     hw_writes (mixer g) ++
                     [SetRouteVolume false a i v; SetRouteVolume false b i v] /\
                   dispatched (mixer g3) = dispatched (mixer g)).
  { rewrite !GetVolume_nat. unfold g3, m2, written, g2, g1, m1, written.
    cbn. rewrite !cell_store, Hab', Hba, !Haa, Era, Erb. cbn.
    rewrite <- List.app_assoc. auto. }
  exists g3.
  destruct Hlb as [Hlb | Hlb]; rewrite Hlb.
  - split; [reflexivity | exact Hfinal].
  - destruct E3a as (l' & E3a). rewrite slider_at_nat, E3a.
    cbn [slider_id]. rewrite Z.eqb_refl. cbn [negb].
    split; [reflexivity | exact Hfinal].
Qed.

(* ===================================================================== *)
(** * ParseConfigDict: what it tolerates *)
(* ===================================================================== *)

Lemma locate_char rows (o i : Z) no ni c :
  locate rows o i = Ok (no, ni, c) <->
  norm_index (length rows) o = Some no /\
  norm_index (row_len rows no) i = Some ni /\
  cell rows no ni = Some (Some c).
Proof.
  split.
  - intros H. destruct (locate_ok _ _ _ _ _ _ H) as (Hcell & row & Hrow & Hno & Hni).
    destruct (getitem_ok_norm _ _ _ Hrow) as (no' & Hno' & Hnth).
    assert (no' = no) by congruence. subst no'.
    unfold row_len. rewrite Hnth. auto.
  - intros (Hno & Hni & Hcell). unfold locate, getitem at 1. rewrite Hno.
    unfold cell, row_len in *.
    destruct (nth_error rows no) as [row |]; [| discriminate].
    cbn [rbind]. unfold getitem. rewrite Hni, Hcell. cbn [rbind]. reflexivity.
Qed.

Lemma addressable_store rows n1 n2 c' (o i : Z) :
  addressable rows o i -> addressable (store rows n1 n2 c') o i.
Proof.
  intros (no & ni & c & H). apply locate_char in H as (Hno & Hni & Hcell).
  pose proof (shape_store rows n1 n2 c') as Hs.
  destruct ((no =? n1) && (ni =? n2))%nat eqn:E.
  - exists no, ni, c'. apply locate_char.
    rewrite (length_shape _ _ Hs), (row_len_shape _ _ no Hs).
    repeat split; try assumption.
    rewrite cell_store, E.
    apply andb_true_iff in E as [E1 E2]. apply Nat.eqb_eq in E1, E2. subst.
    now rewrite Hcell.
  - exists no, ni, c. apply locate_char.
    rewrite (length_shape _ _ Hs), (row_len_shape _ _ no Hs).
    repeat split; try assumption.
    now rewrite cell_store, E.
Qed.

Lemma apply_routes_applies (B : Backend) prefix digital section keys changed m :
  accepts_range B ->
  (forall key, In key keys -> entry_applies prefix (routes_of digital m) section key) ->
  exists r m',
    apply_routes B prefix digital section keys changed m = (Ok r, m') /\
    routes_of (negb digital) m' = routes_of (negb digital) m /\
    fx_controls m' = fx_controls m /\
    (forall o i, addressable (routes_of digital m) o i ->
                 addressable (routes_of digital m') o i).
Proof.
  intros HB. revert changed m. induction keys as [| key keys IH]; intros changed m Hk.
  - exists changed, m. repeat split; auto.
  - destruct (Hk key (or_introl eq_refl)) as (i & o & v & z & Hp & Hg & Hz & Hr & Ha).
    destruct Ha as (no & ni & c & Hloc).
    cbn [apply_routes]. unfold bind, lift. rewrite Hp, Hg, Hz. cbn [fst snd].
    unfold SetVolume.
    rewrite (route_setvolume_located B digital z o i m no ni c Hloc), (HB z _ Hr).
    set (m1 := written digital z no ni c z m).
    assert (Hkeep : forall o' i', addressable (routes_of digital m) o' i' ->
                                  addressable (routes_of digital m1) o' i').
    { intros o' i' H. unfold m1, written. rewrite routes_of_set_routes.
      now apply addressable_store. }
    destruct (IH (changed ++ [(o, i)]) m1) as (r & m' & E & Hother & Hfx & Haddr).
    + intros key' Hin.
      destruct (Hk key' (or_intror Hin)) as (i' & o' & v' & z' & H1 & H2 & H3 & H4 & H5).
      exists i', o', v', z'. split; [| split; [| split; [| split]]]; auto.
    + exists r, m'. split; [exact E |]. split; [| split].
      * rewrite Hother. unfold m1, written.
        now rewrite routes_of_set_routes_other; destruct digital.
      * rewrite Hfx. reflexivity.
      * intros o' i' H. apply Haddr, Hkeep, H.
Qed.

Lemma value_in_inv (v : value) (labels : list string) :
  value_in v labels = true -> exists s, v = VStr s /\ In s labels.
Proof.
  destruct v as [z | s]; cbn; [discriminate |]. intros H.
  apply existsb_exists in H as (x & Hx & E). apply String.eqb_eq in E. subst x.
  now exists s.
Qed.

Lemma apply_effects_applies (B : Backend) section fx log :
  accepts_range B -> selects_labels B ->
  (forall n cur v, In (n, FxLinear cur) fx -> dict_get section (cname n) = Some v ->
     exists z, int_of v = Ok z /\ 0 <= z <= 100) ->
  fst (fst (apply_effects B section fx log)) = Ok tt.
Proof.
  intros HB HS. revert log. induction fx as [| [n c] fx IH]; intros log H; [reflexivity |].
  assert (Hrest : forall n cur v, In (n, FxLinear cur) fx ->
                    dict_get section (cname n) = Some v ->
                    exists z, int_of v = Ok z /\ 0 <= z <= 100)
    by (intros n' cur' v' Hin; apply (H n' cur'); now right).
  cbn [apply_effects].
  destruct (dict_get section (cname n)) as [v |] eqn:Ev.
  - destruct c as [cur | cur labels].
    + destruct (H n cur v (or_introl eq_refl) Ev) as (z & Hz & Hr).
      rewrite Hz, (HB z cur Hr).
      specialize (IH (log ++ [SetFxVolume n z]) Hrest).
      now destruct (apply_effects B section fx (log ++ [SetFxVolume n z])) as [[r fx'] log'].
    + destruct (value_in v labels) eqn:Ein.
      * destruct (value_in_inv v labels Ein) as (s & -> & Hs).
        cbn [str_of]. rewrite (HS n s cur labels Hs).
        specialize (IH (log ++ [AmixerSset n s]) Hrest).
        now destruct (apply_effects B section fx _) as [[r fx'] log'].
      * specialize (IH log Hrest).
        now destruct (apply_effects B section fx log) as [[r fx'] log'].
  - specialize (IH log Hrest).
    now destruct (apply_effects B section fx log) as [[r fx'] log'].
Qed.

(** A key of the section ["Effects"] that is the key of no control has no
    effect. *)
Lemma apply_effects_unknown_key (B : Backend) section k v fx log :
  (forall n c, In (n, c) fx -> cname n <> k) ->
  apply_effects B (dict_set section k v) fx log = apply_effects B section fx log.
Proof.
  revert log. induction fx as [| [n c] fx IH]; intros log H; [reflexivity |].
  assert (Hrest : forall n c, In (n, c) fx -> cname n <> k)
    by (intros n' c' Hin; apply (H n' c'); now right).
  cbn [apply_effects].
  rewrite dict_get_set_other by (intros E; now apply (H n c (or_introl eq_refl))).
  destruct (dict_get section (cname n)) as [v' |]; [| now rewrite IH].
  destruct c as [cur | cur labels].
  - destruct (int_of v') as [z |]; [| reflexivity].
    destruct (setvolume B z cur); [| reflexivity]. now rewrite IH.
  - destruct (value_in v' labels); [| now rewrite IH].
    destruct (amixer_sset B n (str_of v') cur labels); [| reflexivity].
    now rewrite IH.
Qed.

Lemma dict_get_set_same {V} (d : dict V) (k : string) (v : V) :
  dict_get (dict_set d k v) k = Some v.
Proof.
  induction d as [| [k0 v0] d IH]; simpl.
  - now rewrite String.eqb_refl.
  - destruct (String.eqb_spec k0 k) as [-> | H0]; simpl.
    + now rewrite String.eqb_refl.
    + destruct (String.eqb_spec k0 k); [contradiction | exact IH].
Qed.

Lemma route_setvolume_fx (B : Backend) digital value o i m :
  fx_controls (snd (route_setvolume B digital value o i m)) = fx_controls m.
Proof.
  unfold route_setvolume.
  destruct (locate (routes_of digital m) o i) as [[[no ni] c] | e]; [| reflexivity].
  destruct (setvolume B value (volume c)); reflexivity.
Qed.

Lemma apply_routes_fx (B : Backend) prefix digital section keys changed m :
  fx_controls (snd (apply_routes B prefix digital section keys changed m)) =
  fx_controls m.
Proof.
  revert changed m. induction keys as [| key keys IH]; intros changed m; [reflexivity |].
  cbn [apply_routes]. unfold bind, lift.
  destruct (parse_route_key prefix key) as [[i o] | e]; [| reflexivity].
  destruct (match dict_get section key with
            | Some v => int_of v
            | None => Err KeyError
            end) as [v | e]; [| reflexivity].
  cbn [fst snd]. unfold SetVolume.
  pose proof (route_setvolume_fx B digital v o i m) as Hfx.
  destruct (route_setvolume B digital v o i m) as [[[] | e] m1]; cbn [snd] in *.
  - now rewrite IH.
  - assumption.
Qed.

(** C6, as the code has it.  A section that is missing leaves its category
    as it is, a section the mixer does not know is not looked at, and a key
    of the section ["Effects"] that is the key of no control is skipped.
    The keys of the sections ["Analog"] and ["Digital"] are all applied:
    when each of them names a route that exists and the values are volumes,
    [ParseConfigDict] returns without an exception. *)
Theorem ParseConfigDict_tolerates (B : Backend) (configdict : config) (m : Mixer) :
  accepts_range B -> selects_labels B ->
  section_applies "ain" "Analog" false configdict m ->
  section_applies "din" "Digital" true configdict m ->
  effects_apply configdict m ->
  (exists m',
     ParseConfigDict B configdict m = (Ok tt, m') /\
     (dict_get configdict "Analog" = None -> analog_routes m' = analog_routes m) /\
     (dict_get configdict "Digital" = None -> digital_routes m' = digital_routes m) /\
     (dict_get configdict "Effects" = None -> fx_controls m' = fx_controls m)) /\
  (forall section k v,
     dict_get configdict "Effects" = Some section ->
     (forall n c, In (n, c) (fx_controls m) -> cname n <> k) ->
     ParseConfigDict B (dict_set configdict "Effects" (dict_set section k v)) m =
     ParseConfigDict B configdict m).
Proof.
  intros HB HS Han Hdi Hfx. split.
  - unfold ParseConfigDict, bind.
    assert (Ha : exists a m1,
               match dict_get configdict "Analog" with
               | Some section => apply_routes B "ain" false section (dict_keys section) []
               | None => ret []
               end m = (Ok a, m1) /\
               digital_routes m1 = digital_routes m /\ fx_controls m1 = fx_controls m /\
               (dict_get configdict "Analog" = None -> m1 = m)).
    { destruct (dict_get configdict "Analog") as [section |] eqn:E.
      - destruct (apply_routes_applies B "ain" false section (dict_keys section) [] m HB
                    (Han section E)) as (a & m1 & E1 & Ho & Hf & _).
        exists a, m1. repeat split; auto. discriminate.
      - exists [], m. repeat split; auto. }
    destruct Ha as (a & m1 & Ea & Hd1 & Hf1 & Hn1). rewrite Ea.
    assert (Hb : exists d m2,
               match dict_get configdict "Digital" with
               | Some section => apply_routes B "din" true section (dict_keys section) []
               | None => ret []
               end m1 = (Ok d, m2) /\
               analog_routes m2 = analog_routes m1 /\ fx_controls m2 = fx_controls m1 /\
               (dict_get configdict "Digital" = None -> m2 = m1)).
    { destruct (dict_get configdict "Digital") as [section |] eqn:E.
      - destruct (apply_routes_applies B "din" true section (dict_keys section) [] m1 HB)
          as (d & m2 & E2 & Ho & Hf & _).
        + intros key Hin. cbn [routes_of]. rewrite Hd1. exact (Hdi section E key Hin).
        + exists d, m2. repeat split; auto. discriminate.
      - exists [], m1. repeat split; auto. }
    destruct Hb as (d & m2 & Eb & Ha2 & Hf2 & Hn2). rewrite Eb.
    destruct (dict_get configdict "Effects") as [section |] eqn:Ee.
    + pose proof (apply_effects_applies B section (fx_controls m2) (hw_writes m2) HB HS)
        as He.
      destruct (apply_effects B section (fx_controls m2) (hw_writes m2))
        as [[r fx] log]. cbn [fst] in He. rewrite He.
      * eexists. split; [reflexivity |]. cbn.
        split; [intros H; rewrite Ha2, (Hn1 H); reflexivity |].
        split; [intros H; rewrite (Hn2 H), Hd1; reflexivity | discriminate].
      * intros n cur v Hin. apply (Hfx section Ee n cur v).
        now rewrite <- Hf1, <- Hf2.
    + eexists. split; [reflexivity |]. cbn.
      split; [intros H; rewrite Ha2, (Hn1 H); reflexivity |].
      split; [intros H; rewrite (Hn2 H), Hd1; reflexivity |].
      intros _. now rewrite Hf2, Hf1.
  - intros section k v He Hk. unfold ParseConfigDict.
    rewrite !dict_get_set_other by discriminate.
    rewrite dict_get_set_same, He. unfold bind.
    set (first := match dict_get configdict "Analog" with
                  | Some s => apply_routes B "ain" false s (dict_keys s) []
                  | None => ret []
                  end m).
    assert (H1 : fx_controls (snd first) = fx_controls m).
    { unfold first. destruct (dict_get configdict "Analog");
        [apply apply_routes_fx | reflexivity]. }
    destruct first as [[a | e] m1]; [| reflexivity]. cbn [snd] in H1.
    set (second := match dict_get configdict "Digital" with
                   | Some s => apply_routes B "din" true s (dict_keys s) []
                   | None => ret []
                   end m1).
    assert (H2 : fx_controls (snd second) = fx_controls m1).
    { unfold second. destruct (dict_get configdict "Digital");
        [apply apply_routes_fx | reflexivity]. }
    destruct second as [[d | e] m2]; [| reflexivity]. cbn [snd] in H2.
    rewrite apply_effects_unknown_key; [reflexivity |].
    intros n c Hin. apply (Hk n c). now rewrite <- H1, <- H2.
Qed.

(* ===================================================================== *)
(** * ParseConfigDict: the observers, for every call *)
(* ===================================================================== *)

Lemma ParseConfigDict_returns (B : Backend) (configdict : config) (m : Mixer) :
  accepts_range B -> selects_labels B ->
  section_applies "ain" "Analog" false configdict m ->
  section_applies "din" "Digital" true configdict m ->
  effects_apply configdict m ->
  exists m', ParseConfigDict B configdict m = (Ok tt, m').
Proof.
  intros HB HS Han Hdi Hfx. unfold ParseConfigDict, bind.
  assert (Ha : exists a m1,
             match dict_get configdict "Analog" with
             | Some section => apply_routes B "ain" false section (dict_keys section) []
             | None => ret []
             end m = (Ok a, m1) /\
             digital_routes m1 = digital_routes m /\ fx_controls m1 = fx_controls m).
  { destruct (dict_get configdict "Analog") as [section |] eqn:E.
    - destruct (apply_routes_applies B "ain" false section (dict_keys section) [] m HB
                  (Han section E)) as (a & m1 & E1 & Ho & Hf & _).
      exists a, m1. repeat split; auto.
    - exists [], m. repeat split; auto. }
  destruct Ha as (a & m1 & Ea & Hd1 & Hf1). rewrite Ea.
  assert (Hb : exists d m2,
             match dict_get configdict "Digital" with
             | Some section => apply_routes B "din" true section (dict_keys section) []
             | None => ret []
             end m1 = (Ok d, m2) /\ fx_controls m2 = fx_controls m1).
  { destruct (dict_get configdict "Digital") as [section |] eqn:E.
    - destruct (apply_routes_applies B "din" true section (dict_keys section) [] m1 HB)
        as (d & m2 & E2 & Ho & Hf & _).
      + intros key Hin. cbn [routes_of]. rewrite Hd1. exact (Hdi section E key Hin).
      + exists d, m2. repeat split; auto.
    - exists [], m1. repeat split; auto. }
  destruct Hb as (d & m2 & Eb & Hf2). rewrite Eb.
  destruct (dict_get configdict "Effects") as [section |] eqn:Ee.
  - pose proof (apply_effects_applies B section (fx_controls m2) (hw_writes m2) HB HS)
      as He.
    destruct (apply_effects B section (fx_controls m2) (hw_writes m2))
      as [[r fx] log]. cbn [fst] in He. rewrite He.
    + eexists. reflexivity.
    + intros n cur v Hin. apply (Hfx section Ee n cur v).
      now rewrite <- Hf1, <- Hf2.
  - eexists. reflexivity.
Qed.

(** C10, as the code has it.  The loop over the observers is the last
    statement of [ParseConfigDict].  A call that returns has called every
    registered observer exactly once, in the order of their registration,
    after everything was applied; the two lists it passes are the routes
    that the keys of the sections ["Analog"] and ["Digital"] name, in the
    order of the keys and whatever the values and the previous volumes
    are.  A call that raises has called no observer.  The call returns
    when every key names a route that exists and the values are volumes
    that the binding accepts, and it returns for every dictionary without
    the sections ["Analog"], ["Digital"] and ["Effects"] (the empty one
    among them): every observer then receives two empty lists and nothing
    else changes. *)
Theorem ParseConfigDict_notifies_once (B : Backend) (configdict : config) (m : Mixer) :
  (forall m', ParseConfigDict B configdict m = (Ok tt, m') ->
     exists changed_analog changed_digital,
       named_routes "ain" (dict_get configdict "Analog") = Ok changed_analog /\
       named_routes "din" (dict_get configdict "Digital") = Ok changed_digital /\
       observers m' = observers m /\
       dispatched m' =
       dispatched m ++
       map (fun o => (o, changed_analog, changed_digital)) (observers m)) /\
  (forall e m', ParseConfigDict B configdict m = (Err e, m') ->
     observers m' = observers m /\ dispatched m' = dispatched m) /\
  (accepts_range B -> selects_labels B ->
   section_applies "ain" "Analog" false configdict m ->
   section_applies "din" "Digital" true configdict m ->
   effects_apply configdict m ->
   exists m' changed_analog changed_digital,
     ParseConfigDict B configdict m = (Ok tt, m') /\
     named_routes "ain" (dict_get configdict "Analog") = Ok changed_analog /\
     named_routes "din" (dict_get configdict "Digital") = Ok changed_digital /\
     dispatched m' =
     dispatched m ++
     map (fun o => (o, changed_analog, changed_digital)) (observers m)) /\
  (dict_get configdict "Analog" = None -> dict_get configdict "Digital" = None ->
   dict_get configdict "Effects" = None ->
   exists m',
     ParseConfigDict B configdict m = (Ok tt, m') /\
     dispatched m' = dispatched m ++ map (fun o => (o, [], [])) (observers m) /\
     analog_routes m' = analog_routes m /\ digital_routes m' = digital_routes m /\
     fx_controls m' = fx_controls m /\ observers m' = observers m /\
     descriptors_to_routes m' = descriptors_to_routes m /\ hw_writes m' = hw_writes m).
Proof.
  split; [| split; [| split]].
  - intros m'. apply ParseConfigDict_returning_call.
  - intros e m'. apply ParseConfigDict_raising_call.
  - intros HB HS Han Hdi Hfx.
    destruct (ParseConfigDict_returns B configdict m HB HS Han Hdi Hfx) as (m' & E).
    destruct (ParseConfigDict_returning_call B configdict m m' E)
      as (a & d & Ha & Hd & _ & Hdis).
    exists m', a, d. auto.
  - intros Ha Hd He. unfold ParseConfigDict. rewrite Ha, Hd, He.
    eexists. split; [reflexivity |]. repeat split.
Qed.

(* ===================================================================== *)
(** * GetConfigDict on a matrix without gaps *)
(* ===================================================================== *)

Lemma all_present_present rows : all_present rows = true -> present rows.
Proof. intros H o i slot. now apply all_present_cell. Qed.

Lemma in_row_positions {A} (rows : list (list A)) k o i :
  In (o, i) (row_positions rows k) <-> o = k /\ (i < row_len rows k)%nat.
Proof.
  unfold row_positions. rewrite in_map_iff. split.
  - intros (j & [= <- <-] & Hj). apply in_seq in Hj. split; [reflexivity | lia].
  - intros [-> Hi]. exists i. split; [reflexivity |]. apply in_seq. lia.
Qed.

Lemma in_positions_upto {A} (rows : list (list A)) k o i :
  In (o, i) (positions_upto rows k) <-> (o < k)%nat /\ (i < row_len rows o)%nat.
Proof.
  unfold positions_upto. rewrite in_flat_map. split.
  - intros (o' & Ho' & Hin). apply in_seq in Ho'.
    apply in_row_positions in Hin as [-> Hi]. split; [lia | assumption].
  - intros [Ho Hi]. exists o. split; [apply in_seq; lia |].
    now apply in_row_positions.
Qed.

Lemma in_positions {A} (rows : list (list A)) o i :
  In (o, i) (positions rows) <-> exists x, cell rows o i = Some x.
Proof.
  unfold positions. rewrite in_positions_upto. split.
  - intros [Ho Hi]. now apply cell_some.
  - intros (x & Hx). now apply cell_lt in Hx.
Qed.

Lemma positions_upto_S {A} (rows : list (list A)) k :
  positions_upto rows (S k) = positions_upto rows k ++ row_positions rows k.
Proof.
  unfold positions_upto. rewrite seq_S, flat_map_app. simpl.
  now rewrite List.app_nil_r.
Qed.

Lemma key_of_inj prefix (p q : nat * nat) :
  prefix = "ain" \/ prefix = "din" -> key_of prefix p = key_of prefix q -> p = q.
Proof.
  intros Hp H. destruct p as [o i], q as [o' i']. unfold key_of in H. cbn in H.
  apply route_key_inj in H as [Hi Ho]; try lia; [| assumption].
  apply Nat2Z.inj in Hi, Ho. now subst.
Qed.

Lemma key_of_fresh prefix rows (ps : list (nat * nat)) (p : nat * nat) :
  prefix = "ain" \/ prefix = "din" -> ~ In p ps ->
  ~ In (key_of prefix p) (dict_keys (entries prefix rows ps)).
Proof.
  intros Hp Hn Hin. unfold dict_keys, entries in Hin. rewrite map_map in Hin.
  apply in_map_iff in Hin as (q & Hq & Hin). cbn in Hq.
  apply key_of_inj in Hq; [| assumption]. now subst.
Qed.

Lemma dump_routes_entries prefix digital bounds m :
  prefix = "ain" \/ prefix = "din" ->
  present (routes_of digital m) ->
  shape bounds = shape (routes_of digital m) ->
  dump_routes prefix digital bounds m =
  Ok (entries prefix (routes_of digital m) (positions (routes_of digital m))).
Proof.
  intros Hp Hpres Hshape. unfold dump_routes.
  set (R := routes_of digital m) in *.
  destruct (foldM_range_inv
              (fun k d => d = entries prefix R (positions_upto R k))
              (fun d o =>
                 let? row := getitem bounds o in
                 foldM (fun d i =>
                          let? v := GetVolume o i digital m in
                          Ok (dict_set d (route_key prefix i o) (VInt v)))
                   (range (length row)) d)
              (length R) []) as (d & E & ->); [reflexivity | | exact E].
  intros k d Hk ->.
  assert (Hk' : (k < length bounds)%nat) by now rewrite (length_shape _ _ Hshape).
  destruct (getitem_row _ _ Hk') as (row & Hrow & Hlen & _).
  rewrite Hrow. cbn [rbind].
  rewrite Hlen, (row_len_shape _ _ k Hshape).
  destruct (foldM_range_inv
              (fun j d => d = entries prefix R
                                (positions_upto R k ++ map (pair k) (seq 0 j)))
              (fun d i =>
                 let? v := GetVolume (Z.of_nat k) i digital m in
                 Ok (dict_set d (route_key prefix i (Z.of_nat k)) (VInt v)))
              (row_len R k) (entries prefix R (positions_upto R k)))
    as (d' & E' & ->).
  - simpl. now rewrite List.app_nil_r.
  - intros j d Hj ->.
    destruct (cell_some _ _ _ Hk Hj) as (slot & Hslot).
    destruct (Hpres _ _ _ Hslot) as (c & ->).
    rewrite GetVolume_nat. fold R. rewrite Hslot. cbn [rbind].
    eexists. split; [reflexivity |].
    change (route_key prefix (Z.of_nat j) (Z.of_nat k)) with (key_of prefix (k, j)).
    rewrite dict_set_fresh.
    + rewrite seq_S, map_app, List.app_assoc. cbn [map Nat.add].
      unfold entries.
      rewrite (map_app _ (positions_upto R k ++ map (pair k) (seq 0 j)) [(k, j)]).
      f_equal. cbn [map fst snd]. unfold vol_at. now rewrite Hslot.
    + apply key_of_fresh; [assumption |]. intros Hin.
      apply in_app_or in Hin as [Hin | Hin].
      * apply in_positions_upto in Hin. lia.
      * apply in_map_iff in Hin as (j' & [= <-] & Hj'). apply in_seq in Hj'. lia.
  - exists (entries prefix R (positions_upto R k ++ map (pair k) (seq 0 (row_len R k)))).
    split; [exact E' |]. now rewrite positions_upto_S.
Qed.

(* ===================================================================== *)
(** * ParseConfigDict on the section of a matrix *)
(* ===================================================================== *)

Lemma parse_key_of prefix (p : nat * nat) :
  prefix = "ain" \/ prefix = "din" ->
  Z.of_nat (fst p) + 1 < int_limit -> Z.of_nat (snd p) + 1 < int_limit ->
  parse_route_key prefix (key_of prefix p) = Ok (Z.of_nat (snd p), Z.of_nat (fst p)).
Proof.
  intros [-> | ->] Ho Hi; unfold key_of; [apply parse_ain | apply parse_din]; lia.
Qed.

Lemma present_store rows o i c :
  present rows -> present (store rows o i c).
Proof.
  intros H o' i' slot. rewrite cell_store.
  destruct ((o' =? o) && (i' =? i))%nat; [| apply H].
  destruct (cell rows o i); [| discriminate]. intros [= <-]. now exists c.
Qed.

Lemma apply_routes_positions (B : Backend) prefix digital A all ps changed m :
  accepts_range B -> prefix = "ain" \/ prefix = "din" ->
  (forall p, In p ps -> In p all) ->
  (forall p, In p all -> 0 <= vol_at A (fst p) (snd p) <= 100) ->
  present (routes_of digital m) ->
  (forall p, In p ps -> exists x, cell (routes_of digital m) (fst p) (snd p) = Some x) ->
  channels_in_limit (routes_of digital m) ->
  exists m',
    apply_routes B prefix digital (entries prefix A all) (map (key_of prefix) ps)
      changed m = (Ok (changed ++ map zpair ps), m') /\
    routes_of (negb digital) m' = routes_of (negb digital) m /\
    fx_controls m' = fx_controls m /\
    shape (routes_of digital m') = shape (routes_of digital m) /\
    forall o i,
      cell (routes_of digital m') o i =
      option_map
        (option_map (fun c => if mem_pos o i ps then with_volume c (vol_at A o i) else c))
        (cell (routes_of digital m) o i).
Proof.
  intros HB Hp. revert changed m.
  induction ps as [| [o i] ps IH]; intros changed m Hsub Hvol Hpres Hex Hlim.
  - exists m. rewrite List.app_nil_r. repeat split; try reflexivity.
    intros o i. now destruct (cell (routes_of digital m) o i) as [[c |] |].
  - cbn [map apply_routes]. unfold bind, lift.
    destruct (Hex (o, i) (or_introl eq_refl)) as (slot & Hslot). cbn [fst snd] in Hslot.
    destruct (Hlim o i slot Hslot) as [Hlo Hli].
    rewrite (parse_key_of prefix (o, i) Hp Hlo Hli). cbn [fst snd].
    assert (Hget : dict_get (entries prefix A all) (key_of prefix (o, i)) =
                   Some (VInt (vol_at A o i))).
    { unfold entries.
      apply (dict_get_map (key_of prefix)
               (fun p => VInt (vol_at A (fst p) (snd p))) all (o, i));
        [apply Hsub; now left | intros q _; now apply key_of_inj]. }
    rewrite Hget. cbn [int_of fst snd]. unfold SetVolume.
    destruct (Hpres _ _ _ Hslot) as (c & ->).
    rewrite (route_setvolume_nat B digital (vol_at A o i) o i m c HB
               (Hvol (o, i) (Hsub _ (or_introl eq_refl))) Hslot).
    set (m1 := written digital (vol_at A o i) o i c (vol_at A o i) m).
    assert (Hr1 : routes_of digital m1 =
                  store (routes_of digital m) o i (with_volume c (vol_at A o i)))
      by (unfold m1, written; apply routes_of_set_routes).
    destruct (IH (changed ++ [(Z.of_nat o, Z.of_nat i)]) m1)
      as (m' & E & Hother & Hfx & Hs & Hc).
    + intros p Hin. apply Hsub. now right.
    + assumption.
    + rewrite Hr1. now apply present_store.
    + intros p Hin. rewrite Hr1, cell_store.
      destruct (Hex p (or_intror Hin)) as (x & Hx).
      destruct ((fst p =? o) && (snd p =? i))%nat; [| eauto].
      rewrite Hslot. eauto.
    + intros o' i' x. rewrite Hr1, cell_store.
      destruct ((o' =? o) && (i' =? i))%nat eqn:Eoi; [| apply Hlim].
      apply andb_true_iff in Eoi as [Eo Ei]. apply Nat.eqb_eq in Eo, Ei. subst o' i'.
      intros _. split; assumption.
    + exists m'.
      split; [rewrite E; now rewrite <- List.app_assoc |].
      split; [rewrite Hother; unfold m1, written;
              now rewrite routes_of_set_routes_other; destruct digital |].
      split; [rewrite Hfx; reflexivity |].
      split; [rewrite Hs, Hr1; apply shape_store |].
      intros o' i'. rewrite Hc, Hr1, cell_store.
      change (mem_pos o' i' ((o, i) :: ps))
        with (((o =? o') && (i =? i'))%nat || mem_pos o' i' ps).
      rewrite (Nat.eqb_sym o o'), (Nat.eqb_sym i i').
      destruct ((o' =? o) && (i' =? i))%nat eqn:Eoi.
      * apply andb_true_iff in Eoi as [Eo Ei]. apply Nat.eqb_eq in Eo, Ei. subst o' i'.
        rewrite Hslot. cbn [option_map orb].
        now destruct (mem_pos o i ps).
      * cbn [orb]. reflexivity.
Qed.

Lemma shape_volumes rows : shape (volumes rows) = shape rows.
Proof.
  unfold shape, volumes. rewrite map_map. apply map_ext. intros row.
  apply length_map.
Qed.

Lemma cell_volumes rows o i :
  cell (volumes rows) o i = option_map (option_map volume) (cell rows o i).
Proof.
  unfold cell, volumes. rewrite nth_error_map.
  destruct (nth_error rows o) as [row |]; [| reflexivity].
  cbn [option_map]. apply nth_error_map.
Qed.

Lemma mem_pos_positions {A} (rows : list (list A)) o i x :
  cell rows o i = Some x -> mem_pos o i (positions rows) = true.
Proof.
  intros H. unfold mem_pos. apply existsb_exists. exists (o, i).
  split; [apply in_positions; eauto |]. cbn. now rewrite !Nat.eqb_refl.
Qed.

Lemma cell_same_shape {A X} (P : list (list A)) (Q : list (list X)) o i x :
  shape P = shape Q -> cell P o i = Some x -> exists y, cell Q o i = Some y.
Proof.
  intros Hs Hc. apply cell_lt in Hc as [Ho Hi].
  apply cell_some.
  - now rewrite <- (length_shape _ _ Hs).
  - now rewrite <- (row_len_shape _ _ o Hs).
Qed.

(** Applying the section of a matrix to a matrix of the same shape gives
    the volumes of the first. *)
Lemma apply_routes_roundtrip (B : Backend) prefix digital A changed m :
  accepts_range B -> prefix = "ain" \/ prefix = "din" ->
  present A -> present (routes_of digital m) ->
  shape (routes_of digital m) = shape A ->
  (forall o i c, cell A o i = Some (Some c) -> 0 <= volume c <= 100) ->
  channels_in_limit A ->
  exists m',
    apply_routes B prefix digital (entries prefix A (positions A))
      (dict_keys (entries prefix A (positions A))) changed m
    = (Ok (changed ++ map zpair (positions A)), m') /\
    routes_of (negb digital) m' = routes_of (negb digital) m /\
    fx_controls m' = fx_controls m /\
    volumes (routes_of digital m') = volumes A.
Proof.
  intros HB Hp HpA Hpm Hshape Hrange Hlim.
  assert (Hkeys : dict_keys (entries prefix A (positions A)) =
                  map (key_of prefix) (positions A)).
  { unfold dict_keys, entries. rewrite map_map. reflexivity. }
  rewrite Hkeys.
  destruct (apply_routes_positions B prefix digital A (positions A) (positions A)
              changed m HB Hp) as (m' & E & Hother & Hfx & Hs & Hc); auto.
  - intros [o i] Hin. cbn [fst snd]. unfold vol_at.
    apply in_positions in Hin as (x & Hx). rewrite Hx.
    destruct x as [c |]; [now apply (Hrange o i) | lia].
  - intros [o i] Hin. cbn [fst snd]. apply in_positions in Hin as (x & Hx).
    apply (cell_same_shape A _ o i x); [now symmetry | assumption].
  - intros o i x Hx. destruct (cell_same_shape _ A o i x Hshape Hx) as (y & Hy).
    exact (Hlim o i y Hy).
  - exists m'. split; [exact E |]. split; [exact Hother |]. split; [exact Hfx |].
    apply matrix_ext.
    + rewrite !shape_volumes. congruence.
    + intros o i. rewrite !cell_volumes, Hc.
      destruct (cell (routes_of digital m) o i) as [slot |] eqn:Em.
      * destruct (Hpm _ _ _ Em) as (c & ->).
        destruct (cell_same_shape _ A o i _ Hshape Em) as (y & Hy).
        destruct (HpA _ _ _ Hy) as (cA & ->).
        rewrite (mem_pos_positions A o i _ Hy), Hy. cbn. unfold vol_at.
        now rewrite Hy.
      * destruct (cell A o i) as [y |] eqn:Ey; [| reflexivity].
        destruct (cell_same_shape A (routes_of digital m) o i y) as (z & Hz);
          [now symmetry | assumption | congruence].
Qed.

(* ===================================================================== *)
(** * The section of the effects *)
(* ===================================================================== *)

Lemma NoDup_map_inj {X Y} (f : X -> Y) (l : list X) (x y : X) :
  NoDup (map f l) -> In x l -> In y l -> f x = f y -> x = y.
Proof.
  induction l as [| a l IH]; simpl; [tauto |].
  intros Hnd Hx Hy E. inversion Hnd as [| ? ? Hna Hnd']; subst.
  destruct Hx as [-> | Hx], Hy as [-> | Hy]; auto.
  - exfalso. apply Hna. rewrite E. now apply in_map.
  - exfalso. apply Hna. rewrite <- E. now apply in_map.
Qed.

Lemma effects_section (fx : list (string * FxControl)) (acc : dict value) :
  NoDup (dict_keys acc ++ map fx_key fx) ->
  fold_left (fun d '(n, c) => dict_set d (cname n) (fx_value c)) fx acc =
  acc ++ fx_entries fx.
Proof.
  revert acc. induction fx as [| [n c] fx IH]; intros acc Hnd.
  - simpl. now rewrite List.app_nil_r.
  - cbn [fold_left]. rewrite dict_set_fresh.
    + rewrite IH.
      * rewrite <- List.app_assoc. reflexivity.
      * unfold dict_keys in *. rewrite map_app. cbn [map fst].
        rewrite <- List.app_assoc. exact Hnd.
    + intros Hin. apply NoDup_remove_2 in Hnd. apply Hnd.
      apply in_or_app. now left.
Qed.

Lemma value_in_label (current : string) (labels : list string) :
  In current labels -> value_in (VStr current) labels = true.
Proof.
  intros H. cbn. apply existsb_exists. exists current.
  split; [assumption | apply String.eqb_refl].
Qed.

Lemma apply_effects_section (B : Backend) section fxA fx log :
  accepts_range B -> selects_labels B ->
  Forall2 same_control fxA fx -> Forall fx_valid fxA ->
  (forall nc, In nc fxA -> dict_get section (fx_key nc) = Some (fx_value (snd nc))) ->
  exists log', apply_effects B section fx log = (Ok tt, fxA, log').
Proof.
  intros HB HS Hsame. revert log.
  induction Hsame as [| [n c] [n' c'] fxA fx [Hn Hk] Hsame IH]; intros log Hv Hget.
  - now exists log.
  - cbn [fst snd] in Hn, Hk. subst n'.
    inversion Hv as [| ? ? Hv1 Hv2]; subst.
    assert (Hget' : forall nc, In nc fxA ->
                      dict_get section (fx_key nc) = Some (fx_value (snd nc)))
      by (intros nc Hin; apply Hget; now right).
    cbn [apply_effects].
    pose proof (Hget (n, c) (or_introl eq_refl)) as Hg.
    unfold fx_key in Hg. cbn [fst snd] in Hg. rewrite Hg.
    destruct c as [v | cur la], c' as [v' | cur' lb]; try contradiction.
    + cbn [fx_value int_of]. unfold fx_valid in Hv1. cbn [snd] in Hv1.
      rewrite (HB v v' Hv1).
      destruct (IH (log ++ [SetFxVolume n v]) Hv2 Hget') as (log' & ->).
      now exists log'.
    + subst lb. unfold fx_valid in Hv1. cbn [snd] in Hv1.
      cbn [fx_value]. rewrite (value_in_label cur la Hv1).
      cbn [str_of]. rewrite (HS n cur cur' la Hv1).
      destruct (IH (log ++ [AmixerSset n cur]) Hv2 Hget') as (log' & ->).
      now exists log'.
Qed.

Lemma apply_effects_roundtrip (B : Backend) fxA fx log :
  accepts_range B -> selects_labels B ->
  NoDup (map fx_key fxA) -> Forall2 same_control fxA fx -> Forall fx_valid fxA ->
  exists log', apply_effects B (fx_entries fxA) fx log = (Ok tt, fxA, log').
Proof.
  intros HB HS Hnd Hsame Hv. apply apply_effects_section; auto.
  intros nc Hin. unfold fx_entries.
  apply (dict_get_map fx_key (fun nc => fx_value (snd nc))); [assumption |].
  intros y Hy E. now apply (NoDup_map_inj fx_key fxA).
Qed.

(* ===================================================================== *)
(** * The section of the links *)
(* ===================================================================== *)

Lemma link_key_fresh ls (js : list nat) (j : nat) :
  ~ In j js -> ~ In (link_key (Z.of_nat j)) (dict_keys (link_entries ls js)).
Proof.
  intros Hn Hin. unfold dict_keys, link_entries in Hin. rewrite map_map in Hin.
  apply in_map_iff in Hin as (k & Hk & Hin). cbn in Hk.
  apply link_key_inj in Hk; try lia. apply Nat2Z.inj in Hk. now subst.
Qed.

Lemma Gui_GetConfigDict_section (g : Gui) :
  Gui_GetConfigDict g =
  Ok [("GUI", link_entries (links g) (seq 0 (length (links g))))].
Proof.
  unfold Gui_GetConfigDict.
  destruct (foldM_range_inv
              (fun k d => d = link_entries (links g) (seq 0 k))
              (fun d i => let? l := getitem (links g) i in
                          Ok (dict_set d (link_key i) (link_value l)))
              (length (links g)) []) as (d & E & ->); [reflexivity | |].
  - intros k d Hk ->. rewrite getitem_nat.
    destruct (nth_error (links g) k) as [l |] eqn:El;
      [| apply nth_error_None in El; lia].
    cbn [rbind]. eexists. split; [reflexivity |].
    rewrite dict_set_fresh by (apply link_key_fresh; rewrite in_seq; lia).
    rewrite seq_S. unfold link_entries. rewrite map_app. cbn [map Nat.add].
    now rewrite (nth_error_nth _ _ None El).
  - rewrite E. reflexivity.
Qed.

(** The link that [Gui.ParseConfigDict] reads back from the value written
    for a link. *)
Lemma link_value_roundtrip (l : option Z) :
  match l with Some t => 0 <= t | None => True end ->
  match l with Some t => t + 1 < int_limit | None => True end ->
  (let? n := int_of (link_value l) in Ok (n - 1)) =
  Ok (match l with Some t => t | None => -1 end).
Proof.
  destruct l as [t |]; intros H Hl; cbn [link_value int_of].
  - rewrite int_of_str_of_int by lia. cbn [rbind]. f_equal. lia.
  - reflexivity.
Qed.

Lemma apply_links_section (lsA : list (option Z)) (all js : list nat) (g : Gui) :
  links_valid lsA -> links_in_limit lsA ->
  (forall j, In j js -> In j all) ->
  (forall j, In j js -> (j < length lsA)%nat /\ (j < length (links g))%nat) ->
  exists g',
    apply_links (link_entries lsA all) (map (fun j => link_key (Z.of_nat j)) js) g
    = (Ok tt, g') /\
    mixer g' = mixer g /\ hardwarerouting_sliders g' = hardwarerouting_sliders g /\
    length (links g') = length (links g) /\
    forall k, nth_error (links g') k =
              if existsb (Nat.eqb k) js
              then (if (k <? length (links g))%nat then nth_error lsA k else None)
              else nth_error (links g) k.
Proof.
  intros Hvalid [Hsize Hlim]. revert g.
  induction js as [| j js IH]; intros g Hsub Hlt.
  - exists g. repeat split; reflexivity.
  - destruct (Hlt j (or_introl eq_refl)) as [HjA Hjg].
    cbn [map apply_links]. unfold bind, lift.
    rewrite parse_link_key by lia. cbn [rbind].
    replace (Z.of_nat j + 1 - 1) with (Z.of_nat j) by lia.
    assert (Hget : dict_get (link_entries lsA all) (link_key (Z.of_nat j)) =
                   Some (link_value (nth j lsA None))).
    { unfold link_entries.
      apply (dict_get_map (fun j => link_key (Z.of_nat j))
               (fun j => link_value (nth j lsA None)) all j);
        [apply Hsub; now left |].
      intros k _ E. apply link_key_inj in E; lia. }
    rewrite Hget.
    assert (Hl : match nth j lsA None with Some t => 0 <= t | None => True end).
    { unfold links_valid in Hvalid. rewrite Forall_forall in Hvalid.
      apply Hvalid. now apply nth_In. }
    assert (Hl' : match nth j lsA None with
                  | Some t => t + 1 < int_limit
                  | None => True
                  end).
    { rewrite Forall_forall in Hlim. apply Hlim. now apply nth_In. }
    rewrite (link_value_roundtrip _ Hl Hl').
    assert (Hnew : (if match nth j lsA None with Some t => t | None => -1 end <? 0
                    then None
                    else Some match nth j lsA None with Some t => t | None => -1 end)
                   = nth j lsA None).
    { destruct (nth j lsA None) as [t |]; [| reflexivity].
      destruct (Z.ltb_spec t 0); [lia | reflexivity]. }
    rewrite Hnew. unfold setitem. rewrite norm_index_nat.
    apply Nat.ltb_lt in Hjg. rewrite Hjg. apply Nat.ltb_lt in Hjg.
    set (g1 := set_links (update (links g) j (nth j lsA None)) g).
    destruct (IH g1) as (g' & E & Hm & Hsl & Hlen & Hnth).
    + intros k Hin. apply Hsub. now right.
    + intros k Hin. destruct (Hlt k (or_intror Hin)) as [H1 H2].
      split; [assumption |]. unfold g1. cbn. now rewrite length_update.
    + exists g'. split; [exact E |]. split; [exact Hm |]. split; [exact Hsl |].
      split; [rewrite Hlen; unfold g1; cbn; apply length_update |].
      intros k. rewrite Hnth. unfold g1. cbn [links set_links existsb].
      rewrite length_update, nth_error_update.
      destruct (Nat.eqb_spec k j) as [-> | Hkj]; cbn [orb].
      * apply Nat.ltb_lt in Hjg. rewrite Hjg.
        assert (Ej : nth_error (links g) j <> None) by (apply nth_error_Some; now apply Nat.ltb_lt).
        destruct (nth_error (links g) j); [| contradiction].
        rewrite (nth_error_nth' lsA None HjA).
        now destruct (existsb (Nat.eqb j) js).
      * reflexivity.
Qed.

Lemma existsb_seq (k n : nat) : existsb (Nat.eqb k) (seq 0 n) = (k <? n)%nat.
Proof.
  destruct (Nat.ltb_spec k n) as [H | H].
  - apply existsb_exists. exists k. split; [apply in_seq; lia | apply Nat.eqb_refl].
  - destruct (existsb (Nat.eqb k) (seq 0 n)) eqn:E; [| reflexivity].
    apply existsb_exists in E as (x & Hx & Ex). apply in_seq in Hx.
    apply Nat.eqb_eq in Ex. lia.
Qed.

Lemma apply_links_roundtrip (lsA : list (option Z)) (g : Gui) :
  links_valid lsA -> links_in_limit lsA -> length (links g) = length lsA ->
  exists g',
    apply_links (link_entries lsA (seq 0 (length lsA)))
      (dict_keys (link_entries lsA (seq 0 (length lsA)))) g = (Ok tt, g') /\
    mixer g' = mixer g /\ hardwarerouting_sliders g' = hardwarerouting_sliders g /\
    links g' = lsA.
Proof.
  intros Hvalid Hlim Hlen.
  assert (Hkeys : dict_keys (link_entries lsA (seq 0 (length lsA))) =
                  map (fun j => link_key (Z.of_nat j)) (seq 0 (length lsA))).
  { unfold dict_keys, link_entries. now rewrite map_map. }
  rewrite Hkeys.
  destruct (apply_links_section lsA (seq 0 (length lsA)) (seq 0 (length lsA)) g Hvalid
              Hlim)
    as (g' & E & Hm & Hs & Hl & Hnth); auto.
  - intros j Hj. apply in_seq in Hj. lia.
  - exists g'. repeat split; auto.
    apply nth_error_ext. intros k. rewrite Hnth, existsb_seq, Hlen.
    destruct (Nat.ltb_spec k (length lsA)) as [H | H]; [reflexivity |].
    assert (H' : nth_error (links g) k = None) by (apply nth_error_None; lia).
    rewrite H'. symmetry. now apply nth_error_None.
Qed.

(* ===================================================================== *)
(** * Saving and loading a configuration *)
(* ===================================================================== *)

Lemma volumes_in_range_cell rows o i c :
  volumes_in_range rows = true -> cell rows o i = Some (Some c) ->
  0 <= volume c <= 100.
Proof.
  unfold volumes_in_range, cell. intros H Hc.
  destruct (nth_error rows o) as [row |] eqn:Er; [| discriminate].
  apply nth_error_In in Er, Hc.
  rewrite forallb_forall in H. specialize (H row Er).
  rewrite forallb_forall in H. specialize (H _ Hc). cbn in H.
  apply andb_true_iff in H as [H1 H2]. apply Z.leb_le in H1, H2. lia.
Qed.

Lemma Save_configdict_saved (g : Gui) :
  well_formed g -> Save_configdict g = Ok (saved g).
Proof.
  intros W. unfold Save_configdict, GetConfigDict.
  rewrite (dump_routes_entries "ain" false (analog_routes (mixer g)) (mixer g));
    [| now left | apply all_present_present, (wf_analog _ W) | reflexivity].
  rewrite (dump_routes_entries "din" true (analog_routes (mixer g)) (mixer g));
    [| now right | apply all_present_present, (wf_digital _ W)
     | symmetry; apply (wf_shape _ W)].
  cbn [rbind routes_of].
  rewrite (effects_section (fx_controls (mixer g)) []) by apply (wf_keys _ W).
  rewrite Gui_GetConfigDict_section. reflexivity.
Qed.

(** C1, as the code has it.  For every state [g] in which the two matrices
    have a control in every slot and the same shape and the controls of the
    effects have pairwise different keys, with any number of linear and
    enumerated controls and any links, the dictionary that [Config.Save]
    builds of [g] is built without an exception, and loading it into any
    state [g'] of the program on the same interface (into [g] itself among
    them) returns without an exception and leaves the volumes of both
    matrices, the controls of the effects and the links of [g].  The
    numbers of the channels and of the links are read back by [int], which
    takes no more than [int_max_str_digits] digits: they are below
    [int_limit]. *)
Theorem config_roundtrip (B : Backend) (g g' : Gui) :
  accepts_range B -> selects_labels B -> well_formed g -> within_int_limit g ->
  same_hardware g g' ->
  exists configdict g'',
    Save_configdict g = Ok configdict /\
    Load_configdict B configdict g' = (Ok tt, g'') /\
    snapshot g'' = snapshot g.
Proof.
  intros HB HS W L S. exists (saved g).
  rewrite (Save_configdict_saved g W).
  unfold Load_configdict, ParseConfigDict, bind.
  change (dict_get (saved g) "Analog")
    with (Some (entries "ain" (analog_routes (mixer g))
                  (positions (analog_routes (mixer g))))).
  change (dict_get (saved g) "Digital")
    with (Some (entries "din" (digital_routes (mixer g))
                  (positions (digital_routes (mixer g))))).
  change (dict_get (saved g) "Effects") with (Some (fx_entries (fx_controls (mixer g)))).
  cbv beta iota.
  (* the analog routes *)
  destruct (apply_routes_roundtrip B "ain" false (analog_routes (mixer g)) [] (mixer g') HB)
    as (m1 & E1 & Hd1 & Hf1 & Hv1).
  { now left. }
  { apply all_present_present, (wf_analog _ W). }
  { apply all_present_present, (sh_analog_present _ _ S). }
  { apply (sh_analog _ _ S). }
  { intros o i c. apply volumes_in_range_cell, (wf_analog_range _ W). }
  { apply (il_channels _ L). }
  rewrite E1. cbn [negb routes_of] in Hd1.
  (* the digital routes *)
  destruct (apply_routes_roundtrip B "din" true (digital_routes (mixer g)) [] m1 HB)
    as (m2 & E2 & Ha2 & Hf2 & Hv2).
  { now right. }
  { apply all_present_present, (wf_digital _ W). }
  { cbn [routes_of]. rewrite Hd1. apply all_present_present, (sh_digital_present _ _ S). }
  { cbn [routes_of]. rewrite Hd1. apply (sh_digital _ _ S). }
  { intros o i c. apply volumes_in_range_cell, (wf_digital_range _ W). }
  { intros o i x Hx.
    destruct (cell_same_shape _ (analog_routes (mixer g)) o i x (wf_shape _ W) Hx)
      as (y & Hy).
    exact (il_channels _ L o i y Hy). }
  rewrite E2. cbn [negb routes_of] in Ha2, Hv1, Hv2.
  (* the effects *)
  destruct (apply_effects_roundtrip B (fx_controls (mixer g)) (fx_controls m2)
              (hw_writes m2) HB HS (wf_keys _ W)) as (log & E3).
  { rewrite Hf2, Hf1. apply (sh_effects _ _ S). }
  { apply (wf_effects _ W). }
  rewrite E3. unfold notify.
  set (m3 := log_dispatch _ (set_fx_log (fx_controls (mixer g)) log m2)).
  (* the links *)
  unfold Gui_ParseConfigDict.
  change (dict_get (saved g) "GUI")
    with (Some (link_entries (links g) (seq 0 (length (links g))))).
  destruct (apply_links_roundtrip (links g) (set_mixer m3 g') (wf_links _ W)
              (il_links _ L))
    as (g'' & E4 & Hm4 & _ & Hl4).
  { apply (sh_links _ _ S). }
  exists g''. split; [reflexivity |]. split; [exact E4 |].
  unfold snapshot. rewrite Hm4, Hl4. cbn [mixer set_mixer].
  unfold m3. cbn [analog_routes digital_routes fx_controls log_dispatch set_fx_log].
  now rewrite Hv2, Ha2, Hv1.
Qed.

(* ===================================================================== *)
(** * The properties on concrete states *)
(* ===================================================================== *)

Lemma checked_backend_selects : selects_labels checked_backend.
Proof.
  intros name label cur labels H. cbn.
  assert (E : existsb (String.eqb label) labels = true).
  { apply existsb_exists. exists label. split; [assumption | apply String.eqb_refl]. }
  now rewrite E.
Qed.

Lemma checked_backend_accepts : accepts_range checked_backend.
Proof.
  intros value cur H. cbn.
  destruct (Z.leb_spec 0 value); [| lia].
  destruct (Z.leb_spec value 100); [reflexivity | lia].
Qed.

Lemma ex_gui_well_formed : well_formed ex_gui.
Proof.
  constructor; try reflexivity.
  - repeat constructor; cbn; intuition discriminate.
  - repeat constructor; cbn; try lia; tauto.
  - repeat constructor; lia.
Qed.

Lemma ex_gui_within_int_limit : within_int_limit ex_gui.
Proof.
  pose proof int_limit_pos as Hl.
  constructor.
  - intros o i x Hx. apply cell_lt in Hx as [Ho Hi].
    cbn [length ex_gui mixer ex_mixer analog_routes] in Ho.
    destruct o as [| [| [| o]]]; [| | | lia]; cbn in Hi; lia.
  - split; [cbn [length ex_gui links]; lia |].
    repeat (constructor; try lia).
Qed.

Lemma ex_muted_same_hardware : same_hardware ex_gui ex_muted.
Proof.
  constructor; try reflexivity. repeat constructor.
Qed.

(** Two controls of the effects with one key: the dictionary holds the
    volume of the second, and loading it gives that volume to both.  On the
    interface with a digital row that has no analog row, the dictionary is
    not built (the loop of C8). *)
Lemma config_roundtrip_shared_key :
  (fst (Mixer_init checked_backend ex_shared_key false false) = Ok tt /\
   exists configdict g'',
     Save_configdict (ex_started ex_shared_key) = Ok configdict /\
     Load_configdict checked_backend configdict (ex_started ex_shared_key)
       = (Ok tt, g'') /\
     snap_effects (snapshot (ex_started ex_shared_key))
       = [("Reverb Level", FxLinear 10); ("reverb_level", FxLinear 20)] /\
     snap_effects (snapshot g'')
       = [("Reverb Level", FxLinear 20); ("reverb_level", FxLinear 20)]) /\
  (fst (Mixer_init checked_backend ex_tall_digital false false) = Ok tt /\
   Save_configdict (ex_started ex_tall_digital) = Err IndexError).
Proof.
  split.
  - split; [reflexivity |]. eexists. eexists.
    split; [reflexivity |]. split; [vm_compute; reflexivity |]. split; reflexivity.
  - split; reflexivity.
Qed.

Lemma config_roundtrip_witness :
  accepts_range checked_backend /\ selects_labels checked_backend /\
  well_formed ex_gui /\ within_int_limit ex_gui /\ same_hardware ex_gui ex_muted /\
  exists configdict g'',
    Save_configdict ex_gui = Ok configdict /\
    Load_configdict checked_backend configdict ex_muted = (Ok tt, g'') /\
    snapshot g'' = snapshot ex_gui.
Proof.
  split; [exact checked_backend_accepts |].
  split; [exact checked_backend_selects |].
  split; [exact ex_gui_well_formed |].
  split; [exact ex_gui_within_int_limit |].
  split; [exact ex_muted_same_hardware |].
  exact (config_roundtrip checked_backend ex_gui ex_muted checked_backend_accepts
           checked_backend_selects ex_gui_well_formed ex_gui_within_int_limit
           ex_muted_same_hardware).
Defined.

(** The value 150 for the route of input 0 and output 0: [SetVolume] hands
    it to the control, and the exception is the one of the control. *)
Lemma SetVolume_forwards_150 :
  fst (SetVolume checked_backend 150 0 0 false ex_mixer) = Err ALSAAudioError /\
  hw_writes (snd (SetVolume checked_backend 150 0 0 false ex_mixer)) =
    [SetRouteVolume false 0 0 150].
Proof. split; reflexivity. Qed.

Lemma SetVolume_forwards_witness :
  GetVolume 0 0 false ex_mixer = Ok 10 /\
  let r := fst (SetVolume checked_backend 150 0 0 false ex_mixer) in
  let m' := snd (SetVolume checked_backend 150 0 0 false ex_mixer) in
  (exists no ni, hw_writes m' = hw_writes ex_mixer ++ [SetRouteVolume false no ni 150]) /\
  match setvolume checked_backend 150 10 with
  | Err e => r = Err e /\ GetVolume 0 0 false m' = Ok 10
  | Ok v => r = Ok tt /\ GetVolume 0 0 false m' = Ok v
  end.
Proof.
  split; [reflexivity |].
  exact (SetVolume_forwards checked_backend ex_mixer false 150 0 0 10 eq_refl).
Defined.

Lemma cascade_of_two_cycle_terminates_witness :
  getitem (links ex_gui_cycle) 1 = Ok (Some 2) /\
  getitem (links ex_gui_cycle) 2 = Ok (Some 1) /\
  (2 <= 2)%nat /\
  exists r g',
    move_slider checked_backend 2 70 1 0 ex_gui_cycle = Some (r, g') /\
    (length (hw_writes (mixer g')) <= length (hw_writes (mixer ex_gui_cycle)) + 2)%nat.
Proof.
  split; [reflexivity |]. split; [reflexivity |]. split; [lia |].
  exact (cascade_of_two_cycle_terminates checked_backend ex_gui_cycle 1 2 0 70 2
           eq_refl eq_refl (le_n 2)).
Defined.

(** The test of the handler compares with the slider the event came from
    only.  When the links lead into a cycle that the output of this slider
    is not part of, the handler calls itself without end: whatever the
    bound on the depth of the calls, it is reached. *)
Lemma ex_gui_chain_step (o : Z) (log : list hw_write) :
  o = 0 \/ o = 1 ->
  routing_step checked_backend (Some (-207)) o 0 (ex_gui_chain_at_70 log) =
  (Ok (Some (1 - o)),
   ex_gui_chain_at_70 (log ++ [SetRouteVolume false (Z.to_nat o) 0 70])).
Proof. intros [-> | ->]; reflexivity. Qed.

Lemma cascade_beyond_origin_never_returns (fuel : nat) :
  move_slider checked_backend fuel 70 2 0 ex_gui_chain = None.
Proof.
  assert (Hloop : forall fuel o log, o = 0 \/ o = 1 ->
            OnHardwareRouting checked_backend fuel (Some (-207)) o 0
              (ex_gui_chain_at_70 log) = None).
  { clear fuel. induction fuel as [| fuel IH]; intros o log Ho; [reflexivity |].
    rewrite OnHardwareRouting_unfold, (ex_gui_chain_step o log Ho).
    apply IH. lia. }
  destruct fuel as [| [| [| fuel]]]; try reflexivity.
  unfold move_slider.
  change (slider_at ex_gui_chain 2 0) with (Ok (ex_slider (-207) 70)).
  cbv beta iota. cbn [ex_slider slider_id].
  rewrite !OnHardwareRouting_unfold.
  exact (Hloop fuel 1
           [SetRouteVolume false 2 0 70; SetRouteVolume false 1 0 70;
            SetRouteVolume false 0 0 70] (or_intror eq_refl)).
Qed.

(** The slider of input 0 of output 2 is moved to 70 while output 2 is
    linked to output 1: the route of output 1 reads 70 afterwards, and the
    observer that is registered was not called. *)
Lemma cascade_calls_no_observer :
  exists g',
    move_slider checked_backend 2 70 2 0 ex_gui = Some (Ok tt, g') /\
    GetVolume 1 0 false (mixer g') = Ok 70 /\
    observers (mixer g') = [0%nat] /\
    dispatched (mixer g') = [].
Proof. eexists. split; [vm_compute; reflexivity |]. repeat split. Qed.

Lemma cascade_replicates_volume_witness :
  exists g',
    move_slider checked_backend 2 70 2 0 ex_gui = Some (Ok tt, g') /\
    GetVolume 2 0 false (mixer g') = Ok 70 /\
    GetVolume 1 0 false (mixer g') = Ok 70 /\
    hw_writes (mixer g') =
      hw_writes (mixer ex_gui) ++ [SetRouteVolume false 2 0 70; SetRouteVolume false 1 0 70] /\
    dispatched (mixer g') = dispatched (mixer ex_gui).
Proof.
  refine (cascade_replicates_volume checked_backend ex_gui 2 1 0 70 2
            {| slider_id := -207; slider_value := 70 |}
            {| slider_id := -204; slider_value := 40 |} "70" "40" 70 40
            checked_backend_accepts _ (le_n 2) eq_refl eq_refl _ eq_refl eq_refl eq_refl
            (or_introl eq_refl)).
  - lia.
  - discriminate.
Defined.


(** A dictionary from a file edited by hand: a key of the section
    ["Analog"] that is not of the form [ain{I}_to_out{O}], and one that
    names a route the interface does not have.  [ParseConfigDict] raises,
    and no observer is called. *)
Lemma ParseConfigDict_raises_on_malformed_key :
  ParseConfigDict checked_backend [("Analog", [("volume", VStr "50")])] ex_mixer
    = (Err IndexError, ex_mixer) /\
  ParseConfigDict checked_backend [("Digital", [("din9_to_out9", VStr "50")])] ex_mixer
    = (Err IndexError, ex_mixer).
Proof. split; reflexivity. Qed.

Lemma ParseConfigDict_tolerates_witness :
  accepts_range checked_backend /\ selects_labels checked_backend /\
  section_applies "ain" "Analog" false ex_config ex_mixer /\
  section_applies "din" "Digital" true ex_config ex_mixer /\
  effects_apply ex_config ex_mixer /\
  exists m',
    ParseConfigDict checked_backend ex_config ex_mixer = (Ok tt, m') /\
    digital_routes m' = digital_routes ex_mixer.
Proof.
  assert (Ha : section_applies "ain" "Analog" false ex_config ex_mixer).
  { intros section [= <-] key [<- | []].
    exists 0, 1, (VStr "55"), 55. repeat split; try reflexivity; try lia.
    exists 1%nat, 0%nat, {| volume := 40; descriptor := (13, 1) |}. reflexivity. }
  assert (Hd : section_applies "din" "Digital" true ex_config ex_mixer).
  { intros section H. discriminate. }
  assert (He : effects_apply ex_config ex_mixer).
  { intros section [= <-] n cur v [[= <- <-] | [H | []]]; [| discriminate].
    intros [= <-]. exists 7. split; [reflexivity | lia]. }
  split; [exact checked_backend_accepts |].
  split; [exact checked_backend_selects |].
  split; [exact Ha |]. split; [exact Hd |]. split; [exact He |].
  destruct (ParseConfigDict_tolerates checked_backend ex_config ex_mixer
              checked_backend_accepts checked_backend_selects Ha Hd He)
    as [(m' & E & _ & Hdig & _) _].
  exists m'. split; [exact E |]. now apply Hdig.
Defined.

Lemma PollForChanges_cycle_one_dispatch_witness :
  mapM (lookup_fd (descriptors_to_routes ex_mixer)) (signaled [(10, 1); (7, 8); (21, 5)])
    = Ok [(0, 0, false, 1, 10); (0, 1, true, 1, 21)] /\
  exists m',
    PollForChanges_cycle [(10, 1); (7, 8); (21, 5)] ex_mixer = (Ok tt, m') /\
    dispatched m' = [(0%nat, [(0, 0)], [(0, 1)])].
Proof.
  split; [reflexivity |].
  destruct (PollForChanges_cycle_one_dispatch ex_mixer [(10, 1); (7, 8); (21, 5)]
              [(0, 0, false, 1, 10); (0, 1, true, 1, 21)] eq_refl)
    as (m' & E & Hd & _).
  exists m'. split; [exact E | exact Hd].
Defined.

(** The output -1 is not refused: it is the last output. *)
Lemma GetVolume_negative_output :
  GetVolume (-1) 0 false ex_mixer = Ok 70 /\ GetVolume 2 0 false ex_mixer = Ok 70.
Proof. split; reflexivity. Qed.

Lemma GetVolume_subscripts_witness :
  GetVolume 3 0 false ex_mixer = Err IndexError /\
  GetVolume (-4) 0 false ex_mixer = Err IndexError /\
  GetVolume 0 (-1) true ex_mixer = GetVolume 0 2 true ex_mixer.
Proof.
  destruct (GetVolume_subscripts ex_mixer false 3 0) as (H1 & _).
  destruct (GetVolume_subscripts ex_mixer false (-4) 0) as (H2 & _).
  destruct (GetVolume_subscripts ex_mixer true 0 (-1)) as (_ & _ & _ & H4).
  split; [apply H1; unfold in_bounds; cbn; lia |].
  split; [apply H2; unfold in_bounds; cbn; lia |].
  apply (H4 [ex_control 100 20; ex_control 5 21; ex_control 6 22] eq_refl).
  cbn. lia.
Defined.

(** The first key sets a route to the volume it has: the route is in the
    list all the same. *)
Lemma ParseConfigDict_notifies_once_witness :
  GetVolume 0 0 false ex_mixer = Ok 10 /\
  observers ex_mixer = [0%nat] /\
  exists m',
    ParseConfigDict checked_backend ex_notify_config ex_mixer = (Ok tt, m') /\
    dispatched m' = [(0%nat, [(0, 0); (0, 1)], [(0, 1)])].
Proof.
  split; [reflexivity |]. split; [reflexivity |].
  destruct (ParseConfigDict_notifies_once checked_backend ex_notify_config ex_mixer)
    as (_ & _ & H & _).
  destruct H as (m' & a & d & E & Ha & Hd & Hdis).
  - exact checked_backend_accepts.
  - exact checked_backend_selects.
  - intros section [= <-] key [<- | [<- | []]].
    + exists 0, 0, (VInt 10), 10. repeat split; try reflexivity; try lia.
      exists 0%nat, 0%nat, {| volume := 10; descriptor := (10, 1) |}. reflexivity.
    + exists 1, 0, (VStr " 25 "), 25. repeat split; try reflexivity; try lia.
      exists 0%nat, 1%nat, {| volume := 20; descriptor := (11, 1) |}. reflexivity.
  - intros section [= <-] key [<- | []].
    exists 1, 0, (VInt 0), 0. repeat split; try reflexivity; try lia.
    exists 0%nat, 1%nat, {| volume := 5; descriptor := (21, 1) |}. reflexivity.
  - intros section H. discriminate.
  - exists m'. split; [exact E |].
    vm_compute in Ha, Hd. injection Ha as <-. injection Hd as <-. exact Hdis.
Defined.

(** The first value is applied, the second is no int: [ParseConfigDict]
    raises ValueError, the route of the first key has its new volume, and
    the observer that is registered was not called. *)
Lemma ParseConfigDict_raising_call_skips_observers :
  observers ex_mixer = [0%nat] /\
  GetVolume 0 0 false ex_mixer = Ok 10 /\
  exists m',
    ParseConfigDict checked_backend ex_raising_config ex_mixer = (Err ValueError, m') /\
    GetVolume 0 0 false m' = Ok 5 /\
    dispatched m' = [].
Proof.
  split; [reflexivity |]. split; [reflexivity |].
  eexists. split; [vm_compute; reflexivity |]. split; reflexivity.
Qed.

(** C8 on the code: the loop of the section ["Digital"] takes the length of
    its rows from the analog matrix. *)
Theorem GetConfigDict_digital_rows_follow_analog :
  (exists m,
     Mixer_init checked_backend ex_wide_digital false false = (Ok tt, m) /\
     GetVolume 0 1 true m = Ok 30 /\
     GetConfigDict m =
     Ok [("Analog", [("ain1_to_out1", VInt 10)]);
         ("Digital", [("din1_to_out1", VInt 20)]);
         ("Effects", [])]) /\
  (exists m,
     Mixer_init checked_backend ex_tall_digital false false = (Ok tt, m) /\
     GetVolume 1 0 true m = Ok 30 /\
     GetConfigDict m = Err IndexError).
Proof.
  split; eexists; (split; [reflexivity |]); split; reflexivity.
Qed.

(* ===================================================================== *)
(** * Creating the routes *)
(* ===================================================================== *)

Lemma length_pad_to {A} (l : list A) (n : Z) (x : A) :
  length (pad_to l n x) = Nat.max (length l) (Z.to_nat n).
Proof. unfold pad_to. rewrite length_app, repeat_length. lia. Qed.

Lemma nth_error_pad_to {A} (l : list A) (n : Z) (x : A) (k : nat) :
  nth_error (pad_to l n x) k =
  if (k <? length l)%nat then nth_error l k
  else if Z.of_nat k <? n then Some x else None.
Proof.
  unfold pad_to. destruct (Nat.ltb_spec k (length l)) as [Hk | Hk].
  - now rewrite nth_error_app1.
  - rewrite nth_error_app2 by assumption.
    destruct (Z.ltb_spec (Z.of_nat k) n) as [Hn | Hn].
    + apply nth_error_repeat. lia.
    + apply nth_error_None. rewrite repeat_length. lia.
Qed.

Lemma int_at_digit (name : string) (k : nat) (c : ascii) :
  String.get k name = Some c -> is_digit c = true ->
  int_at name k = Ok (Z.of_nat (nat_of_ascii c) - 48).
Proof.
  intros Hg Hd. unfold int_at. rewrite Hg.
  destruct c as [[] [] [] [] [] [] [] []]; try discriminate Hd; reflexivity.
Qed.

Lemma CreateRoute_cells (name : string) (a : AlsaMixer) (digital : bool) (m : Mixer)
    (o i : Z) :
  int_at name 10 = Ok o -> int_at name 3 = Ok i -> 1 <= o -> 1 <= i ->
  exists rows',
    CreateRoute name a digital m =
    (Ok tt,
     register_route (fst (am_descriptor a))
       (o - 1, i - 1, digital, snd (am_descriptor a), fst (am_descriptor a))
       (set_routes digital rows' m)) /\
    forall o' i',
      cell rows' o' i' =
      if ((o' =? Z.to_nat (o - 1)) && (i' =? Z.to_nat (i - 1)))%nat
      then Some (Some (as_route a))
      else if ((o' =? Z.to_nat (o - 1)) &&
               (row_len (routes_of digital m) (Z.to_nat (o - 1)) <=? i') &&
               (i' <? Z.to_nat (i - 1)))%nat
           then Some None
           else cell (routes_of digital m) o' i'.
Proof.
  intros Ho Hi Ho1 Hi1. unfold CreateRoute. rewrite Ho, Hi. cbn [rbind].
  set (rows := routes_of digital m).
  replace (o - 1 + 1) with o by lia. replace (i - 1 + 1) with i by lia.
  set (no := Z.to_nat (o - 1)). set (ni := Z.to_nat (i - 1)).
  assert (Eo : o - 1 = Z.of_nat no) by (unfold no; lia).
  assert (Ei : i - 1 = Z.of_nat ni) by (unfold ni; lia).
  rewrite Eo, Ei.
  set (row := match nth_error rows no with Some r => r | None => [] end).
  assert (Hrow : nth_error (pad_to rows o []) no = Some row).
  { rewrite nth_error_pad_to. unfold row.
    destruct (Nat.ltb_spec no (length rows)) as [Hl | Hl].
    - destruct (nth_error rows no) eqn:E; [reflexivity |].
      apply nth_error_None in E. lia.
    - destruct (Z.ltb_spec (Z.of_nat no) o); [| lia].
      apply nth_error_None in Hl. now rewrite Hl. }
  assert (Hlen : length row = row_len rows no).
  { unfold row, row_len. now destruct (nth_error rows no). }
  rewrite getitem_nat, Hrow. cbn [rbind].
  unfold setitem at 1. rewrite norm_index_nat, length_pad_to.
  destruct (Nat.ltb_spec ni (Nat.max (length row) (Z.to_nat i))) as [_ | Hn]; [| lia].
  cbn [rbind]. unfold setitem. rewrite norm_index_nat, length_pad_to.
  destruct (Nat.ltb_spec no (Nat.max (length rows) (Z.to_nat o))) as [_ | Hn]; [| lia].
  eexists. split; [reflexivity |].
  intros o' i'. unfold cell. rewrite nth_error_update, Hrow.
  destruct (Nat.eqb_spec o' no) as [-> | Hne]; cbn [andb].
  - rewrite nth_error_update, !nth_error_pad_to, Hlen.
    destruct (Nat.eqb_spec i' ni) as [-> | Hni].
    + destruct (Nat.ltb_spec ni (row_len rows no)) as [Hl | Hl].
      * rewrite <- Hlen in Hl. apply nth_error_Some in Hl.
        now destruct (nth_error row ni).
      * destruct (Z.ltb_spec (Z.of_nat ni) i); [reflexivity | lia].
    + destruct (Nat.ltb_spec i' (row_len rows no)) as [Hl | Hl].
      * destruct (Nat.leb_spec (row_len rows no) i'); [lia |]. cbn [andb].
        unfold row. destruct (nth_error rows no); [reflexivity | now destruct i'].
      * destruct (Nat.leb_spec (row_len rows no) i'); [| lia]. cbn [andb].
        destruct (Z.ltb_spec (Z.of_nat i') i), (Nat.ltb_spec i' ni);
          try lia; try reflexivity.
        clear Hlen Hrow. unfold row_len in Hl. clear H. subst row.
        destruct (nth_error rows no); [| reflexivity].
        symmetry. now apply nth_error_None.
  - rewrite nth_error_pad_to.
    destruct (Nat.ltb_spec o' (length rows)) as [Hl | Hl]; [reflexivity |].
    apply nth_error_None in Hl. rewrite Hl.
    destruct (Z.ltb_spec (Z.of_nat o') o); [| reflexivity].
    now destruct i'.
Qed.

Lemma lookup_set_fd (table : list (Z * RouteInfo)) (fd : Z) (r : RouteInfo) :
  lookup_fd (set_fd table fd r) fd = Ok r.
Proof.
  induction table as [| [k r'] table IH]; simpl.
  - now rewrite Z.eqb_refl.
  - destruct (Z.eqb_spec k fd) as [-> | Hne]; simpl.
    + now rewrite Z.eqb_refl.
    + destruct (Z.eqb_spec k fd); [contradiction | assumption].
Qed.

Lemma lookup_set_fd_other (table : list (Z * RouteInfo)) (fd fd' : Z) (r : RouteInfo) :
  fd' <> fd -> lookup_fd (set_fd table fd r) fd' = lookup_fd table fd'.
Proof.
  intros Hne. induction table as [| [k r'] table IH]; simpl.
  - destruct (Z.eqb_spec fd fd'); [congruence | reflexivity].
  - destruct (Z.eqb_spec k fd) as [-> | Hk]; simpl.
    + destruct (Z.eqb_spec fd fd'); [congruence | reflexivity].
    + destruct (Z.eqb_spec k fd'); [reflexivity | assumption].
Qed.

(** X1.  [__CreateRoute] for a name whose two digits are an input [i] and
    an output [o] counted from 1 returns.  Afterwards
    [GetVolume(o - 1, i - 1)] reads the volume of the control that was
    opened, every route that could be read before reads what it read, the
    matrix of the other kind and the controls of the effects are as they
    were, and nothing was written to the hardware. *)
Theorem CreateRoute_then_GetVolume (name : string) (a : AlsaMixer) (digital : bool)
    (m : Mixer) (o i : Z) :
  int_at name 10 = Ok o -> int_at name 3 = Ok i -> 1 <= o -> 1 <= i ->
  exists m',
    CreateRoute name a digital m = (Ok tt, m') /\
    GetVolume (o - 1) (i - 1) digital m' = Ok (am_volume a) /\
    (forall o' i' v, 0 <= o' -> 0 <= i' -> (o', i') <> (o - 1, i - 1) ->
       GetVolume o' i' digital m = Ok v -> GetVolume o' i' digital m' = Ok v) /\
    routes_of (negb digital) m' = routes_of (negb digital) m /\
    fx_controls m' = fx_controls m /\
    hw_writes m' = hw_writes m.
Proof.
  intros Ho Hi Ho1 Hi1.
  destruct (CreateRoute_cells name a digital m o i Ho Hi Ho1 Hi1) as (rows' & E & Hc).
  eexists. split; [exact E |].
  assert (Hr : forall x y z, routes_of digital (register_route x y (set_routes digital rows' z))
                             = rows') by (intros; now destruct digital).
  split; [| split; [| split; [now destruct digital | split; reflexivity]]].
  - replace (o - 1) with (Z.of_nat (Z.to_nat (o - 1))) by lia.
    replace (i - 1) with (Z.of_nat (Z.to_nat (i - 1))) by lia.
    rewrite GetVolume_nat, Hr, Hc, !Nat.eqb_refl. reflexivity.
  - intros o' i' v Ho' Hi' Hne.
    rewrite <- (Z2Nat.id o' Ho'), <- (Z2Nat.id i' Hi'). rewrite !GetVolume_nat, Hr, Hc.
    destruct (Nat.eqb_spec (Z.to_nat o') (Z.to_nat (o - 1))) as [Eo | Hno]; cbn [andb].
    + destruct (Nat.eqb_spec (Z.to_nat i') (Z.to_nat (i - 1))) as [Ei | Hni].
      * exfalso. apply Hne. f_equal; lia.
      * destruct (Nat.leb_spec (row_len (routes_of digital m) (Z.to_nat (o - 1)))
                    (Z.to_nat i')) as [Hl | Hl]; cbn [andb]; [| auto].
        rewrite <- Eo in Hl.
        destruct (cell (routes_of digital m) (Z.to_nat o') (Z.to_nat i')) as [x |] eqn:Ec.
        -- apply cell_lt in Ec. lia.
        -- discriminate.
    + auto.
Qed.

Lemma CreateRoute_then_GetVolume_witness :
  exists m',
    CreateRoute "AIn2 - Out3" (ex_alsa 35 40) false ex_mixer = (Ok tt, m') /\
    GetVolume 2 1 false m' = Ok 35 /\
    (forall o' i' v, 0 <= o' -> 0 <= i' -> (o', i') <> (2, 1) ->
       GetVolume o' i' false ex_mixer = Ok v -> GetVolume o' i' false m' = Ok v) /\
    routes_of true m' = routes_of true ex_mixer /\
    fx_controls m' = fx_controls ex_mixer /\
    hw_writes m' = hw_writes ex_mixer.
Proof.
  apply (CreateRoute_then_GetVolume "AIn2 - Out3" (ex_alsa 35 40) false ex_mixer 3 2);
    [reflexivity | reflexivity | lia | lia].
Defined.

(** X2.  When [__CreateRoute] puts a route beyond the end of the row of
    its output, the slots between the end of the row and the route are
    filled with None: [GetVolume] raises AttributeError on each of them. *)
Theorem CreateRoute_pads_with_None (name : string) (a : AlsaMixer) (digital : bool)
    (m : Mixer) (o i : Z) (i' : nat) :
  int_at name 10 = Ok o -> int_at name 3 = Ok i -> 1 <= o -> 1 <= i ->
  (row_len (routes_of digital m) (Z.to_nat (o - 1)) <= i')%nat -> Z.of_nat i' < i - 1 ->
  GetVolume (o - 1) (Z.of_nat i') digital (snd (CreateRoute name a digital m))
  = Err AttributeError.
Proof.
  intros Ho Hi Ho1 Hi1 Hl Hi'.
  destruct (CreateRoute_cells name a digital m o i Ho Hi Ho1 Hi1) as (rows' & E & Hc).
  rewrite E. cbn [snd].
  remember (Z.to_nat (o - 1)) as no eqn:Eno.
  assert (Eo : o - 1 = Z.of_nat no) by lia.
  rewrite Eo at 1. rewrite GetVolume_nat.
  replace (routes_of digital _) with rows' by now destruct digital.
  rewrite Hc, Nat.eqb_refl. cbn [andb].
  destruct (Nat.eqb_spec i' (Z.to_nat (i - 1))); [lia |].
  destruct (Nat.leb_spec (row_len (routes_of digital m) no) i'); [| lia].
  destruct (Nat.ltb_spec i' (Z.to_nat (i - 1))); [reflexivity | lia].
Qed.

Lemma CreateRoute_pads_with_None_witness :
  GetVolume 0 0 false (snd (CreateRoute "AIn2 - Out1" (ex_alsa 30 7) false empty_mixer))
  = Err AttributeError.
Proof.
  apply (CreateRoute_pads_with_None "AIn2 - Out1" (ex_alsa 30 7) false empty_mixer 1 2 0);
    [reflexivity | reflexivity | lia | lia | cbn; lia | lia].
Defined.

Lemma CreateRoute_then_poll_state (name : string) (a : AlsaMixer) (digital : bool)
    (m : Mixer) (o i mask : Z) :
  int_at name 10 = Ok o -> int_at name 3 = Ok i -> 1 <= o -> 1 <= i ->
  Z.land mask POLLIN <> 0 ->
  exists m',
    CreateRoute name a digital m = (Ok tt, m') /\
    observers m' = observers m /\ dispatched m' = dispatched m /\
    hw_writes m' = hw_writes m /\
    PollForChanges_cycle [(fst (am_descriptor a), mask)] m' =
    (Ok tt,
     log_dispatch
       (map (fun f => (f, if digital then [] else [(o - 1, i - 1)],
                          if digital then [(o - 1, i - 1)] else []))
          (observers m)) m').
Proof.
  intros Ho Hi Ho1 Hi1 Hmask.
  destruct (CreateRoute_cells name a digital m o i Ho Hi Ho1 Hi1) as (rows' & E & _).
  eexists. split; [exact E |]. split; [reflexivity |]. split; [reflexivity |].
  split; [reflexivity |].
  unfold PollForChanges_cycle. cbn [collect_changes fst snd descriptors_to_routes register_route].
  destruct (Z.eqb_spec (Z.land mask POLLIN) 0) as [| _]; [contradiction |]. cbn [negb].
  rewrite lookup_set_fd. cbn [rbind].
  destruct digital; reflexivity.
Qed.

(** X3.  A route that [__CreateRoute] has registered is found again by the
    polling thread: a cycle in which the descriptor of the route, and no
    other, signalled input returns, and the calls made to the observers
    since before the route was created are one call to every observer,
    with this route in the list of its kind and the other list empty.  The
    cycle changes neither the routes nor the hardware. *)
Theorem CreateRoute_then_poll (name : string) (a : AlsaMixer) (digital : bool)
    (m : Mixer) (o i mask : Z) :
  int_at name 10 = Ok o -> int_at name 3 = Ok i -> 1 <= o -> 1 <= i ->
  Z.land mask POLLIN <> 0 ->
  exists m' m'',
    CreateRoute name a digital m = (Ok tt, m') /\
    PollForChanges_cycle [(fst (am_descriptor a), mask)] m' = (Ok tt, m'') /\
    dispatched m'' =
      dispatched m ++
      map (fun f => (f, if digital then [] else [(o - 1, i - 1)],
                        if digital then [(o - 1, i - 1)] else []))
        (observers m) /\
    observers m'' = observers m /\
    analog_routes m'' = analog_routes m' /\ digital_routes m'' = digital_routes m' /\
    hw_writes m'' = hw_writes m.
Proof.
  intros Ho Hi Ho1 Hi1 Hmask.
  destruct (CreateRoute_then_poll_state name a digital m o i mask Ho Hi Ho1 Hi1 Hmask)
    as (m' & E & Hobs & Hd & Hw & Ep).
  exists m'. eexists. split; [exact E |]. split; [exact Ep |].
  cbn [log_dispatch dispatched observers analog_routes digital_routes hw_writes].
  rewrite Hd, Hobs, Hw. repeat split.
Qed.

Lemma CreateRoute_then_poll_witness :
  exists m' m'',
    CreateRoute "DIn1 - Out2" (ex_alsa 9 40) true ex_mixer = (Ok tt, m') /\
    PollForChanges_cycle [(40, 1)] m' = (Ok tt, m'') /\
    dispatched m'' = [(0%nat, [], [(1, 0)])].
Proof.
  destruct (CreateRoute_then_poll "DIn1 - Out2" (ex_alsa 9 40) true ex_mixer 2 1 1)
    as (m' & m'' & E & Ep & Hd & _);
    [reflexivity | reflexivity | lia | lia | discriminate |].
  exists m', m''. split; [exact E |]. split; [exact Ep | exact Hd].
Defined.

Lemma digit_value (c : ascii) :
  is_digit c = true -> c <> "0"%char -> 1 <= Z.of_nat (nat_of_ascii c) - 48.
Proof.
  intros Hd Hc. unfold is_digit in Hd. apply andb_true_iff in Hd as [H1 H2].
  apply Nat.leb_le in H1. 
  assert (nat_of_ascii c <> 48%nat).
  { intros E. apply Hc. rewrite <- (ascii_nat_embedding c), E. reflexivity. }
  lia.
Qed.

Lemma matches_route_channels (kind name : string) :
  matches_route kind name = true -> channels_from_1 name ->
  exists o i, int_at name 10 = Ok o /\ int_at name 3 = Ok i /\ 1 <= o /\ 1 <= i.
Proof.
  unfold matches_route, digit_at, channels_from_1. intros H [H3 H10].
  apply andb_true_iff in H as [H Hd10]. apply andb_true_iff in H as [H _].
  apply andb_true_iff in H as [_ Hd3].
  destruct (String.get 3 name) as [c3 |] eqn:E3; [| discriminate].
  destruct (String.get 10 name) as [c10 |] eqn:E10; [| discriminate].
  exists (Z.of_nat (nat_of_ascii c10) - 48), (Z.of_nat (nat_of_ascii c3) - 48).
  split; [now apply int_at_digit |]. split; [now apply int_at_digit |].
  split; apply digit_value; congruence.
Qed.

Lemma matches_route_exclusive (name : string) :
  matches_route "AIn" name = true -> matches_route "DIn" name = false.
Proof.
  unfold matches_route. destruct name as [| c name]; [discriminate |].
  cbn [starts_with]. destruct (Ascii.eqb_spec "A"%char c) as [<- |]; [| discriminate].
  reflexivity.
Qed.

Lemma init_loop (controls : list (string * AlsaMixer)) (m0 : Mixer) :
  (forall name a, In (name, a) controls -> is_route_name name = true ->
     channels_from_1 name) ->
  exists m,
    for_each controls
      (fun '(name, a) =>
         if matches_route "AIn" name then CreateRoute name a false
         else if matches_route "DIn" name then CreateRoute name a true
         else fun m => (Ok tt, set_fx (fx_controls m ++ [(name, as_fx a)]) m)) m0
    = (Ok tt, m) /\
    fx_controls m =
      fx_controls m0 ++
      map (fun na => (fst na, as_fx (snd na)))
        (filter (fun na => negb (is_route_name (fst na))) controls) /\
    hw_writes m = hw_writes m0 /\ observers m = observers m0 /\
    dispatched m = dispatched m0 /\
    (forall d o' i' c, cell (routes_of d m0) o' i' = Some (Some c) ->
       exists c', cell (routes_of d m) o' i' = Some (Some c')) /\
    (forall name a, In (name, a) controls -> is_route_name name = true ->
       exists o i c, int_at name 10 = Ok o /\ int_at name 3 = Ok i /\
         cell (routes_of (negb (matches_route "AIn" name)) m)
           (Z.to_nat (o - 1)) (Z.to_nat (i - 1)) = Some (Some c)).
Proof.
  revert m0. induction controls as [| [name a] controls IH]; intros m0 H.
  - exists m0. cbn. rewrite List.app_nil_r. repeat split; eauto. intros ? ? [].
  - assert (Hstep : exists m1,
              (if matches_route "AIn" name then CreateRoute name a false
               else if matches_route "DIn" name then CreateRoute name a true
               else fun m => (Ok tt, set_fx (fx_controls m ++ [(name, as_fx a)]) m)) m0
              = (Ok tt, m1) /\
              fx_controls m1 =
                fx_controls m0 ++
                (if negb (is_route_name name) then [(name, as_fx a)] else []) /\
              hw_writes m1 = hw_writes m0 /\ observers m1 = observers m0 /\
              dispatched m1 = dispatched m0 /\
              (forall d o' i' c, cell (routes_of d m0) o' i' = Some (Some c) ->
                 exists c', cell (routes_of d m1) o' i' = Some (Some c')) /\
              (is_route_name name = true ->
               exists o i c, int_at name 10 = Ok o /\ int_at name 3 = Ok i /\
                 cell (routes_of (negb (matches_route "AIn" name)) m1)
                   (Z.to_nat (o - 1)) (Z.to_nat (i - 1)) = Some (Some c))).
    { assert (Hcr : forall kind digital,
                matches_route kind name = true -> is_route_name name = true ->
                exists m1,
                  CreateRoute name a digital m0 = (Ok tt, m1) /\
                  fx_controls m1 = fx_controls m0 /\
                  hw_writes m1 = hw_writes m0 /\ observers m1 = observers m0 /\
                  dispatched m1 = dispatched m0 /\
                  (forall d o' i' c, cell (routes_of d m0) o' i' = Some (Some c) ->
                     exists c', cell (routes_of d m1) o' i' = Some (Some c')) /\
                  exists o i c, int_at name 10 = Ok o /\ int_at name 3 = Ok i /\
                    cell (routes_of digital m1) (Z.to_nat (o - 1)) (Z.to_nat (i - 1))
                    = Some (Some c)).
      { intros kind digital Hk Hr.
        destruct (matches_route_channels kind name Hk (H name a (or_introl eq_refl) Hr))
          as (o & i & Ho & Hi & Ho1 & Hi1).
        destruct (CreateRoute_cells name a digital m0 o i Ho Hi Ho1 Hi1)
          as (rows' & E & Hc).
        eexists. split; [exact E |]. repeat (split; [reflexivity |]).
        assert (Hr' : forall x y z,
                  routes_of digital (register_route x y (set_routes digital rows' z))
                  = rows') by (intros; now destruct digital).
        split.
        - intros d o' i' c Hcell.
          destruct (Bool.eqb d digital) eqn:Ed.
          + apply eqb_prop in Ed. subst d. rewrite Hr', Hc.
            destruct ((o' =? Z.to_nat (o - 1)) && (i' =? Z.to_nat (i - 1)))%nat;
              [eauto |].
            destruct (Nat.eqb_spec o' (Z.to_nat (o - 1))) as [-> |]; cbn [andb]; [| eauto].
            destruct (Nat.leb_spec (row_len (routes_of digital m0) (Z.to_nat (o - 1))) i');
              cbn [andb]; [| eauto].
            apply cell_lt in Hcell. lia.
          + exists c. rewrite <- Hcell. destruct d, digital; try discriminate; reflexivity.
        - exists o, i, (as_route a). split; [assumption |]. split; [assumption |].
          now rewrite Hr', Hc, !Nat.eqb_refl. }
      unfold is_route_name in *.
      destruct (matches_route "AIn" name) eqn:EA.
      - destruct (Hcr "AIn" false EA eq_refl) as (m1 & E1 & Hf & Hw & Hob & Hd & Hp & Hn).
        exists m1. cbn [orb negb]. rewrite List.app_nil_r. repeat split; auto.
      - destruct (matches_route "DIn" name) eqn:ED.
        + destruct (Hcr "DIn" true ED eq_refl) as (m1 & E1 & Hf & Hw & Hob & Hd & Hp & Hn).
          exists m1. cbn [orb negb]. rewrite List.app_nil_r. repeat split; auto.
        + eexists. split; [reflexivity |]. cbn [orb negb].
          do 4 (split; [reflexivity |]). split; [| discriminate].
          intros d o' i' c Hc. exists c. now destruct d. }
    destruct Hstep as (m1 & E1 & Hf1 & Hw1 & Ho1 & Hd1 & Hp1 & Hn1).
    destruct (IH m1) as (m & E & Hf & Hw & Ho & Hd & Hp & Hn).
    { intros n' a' Hin Hr. apply (H n' a'); [now right | assumption]. }
    exists m. split.
    { cbn [for_each]. unfold bind. rewrite E1. exact E. }
    split.
    { rewrite Hf, Hf1. cbn [filter fst snd].
      destruct (negb (is_route_name name)); cbn [map fst snd];
        now rewrite <- ?List.app_assoc, ?List.app_nil_r. }
    split; [congruence |]. split; [congruence |]. split; [congruence |]. split.
    { intros d o' i' c Hc. destruct (Hp1 d o' i' c Hc) as (c1 & Hc1). eauto. }
    intros n' a' [Heq | Hin] Hr.
    + injection Heq as <- <-.
      destruct (Hn1 Hr) as (o & i & c & Ho' & Hi' & Hc).
      destruct (Hp _ _ _ _ Hc) as (c' & Hc'). eauto 10.
    + now apply (Hn n' a').
Qed.

Lemma for_each_preserves {S A} (P : S -> Prop) (xs : list A) (body : A -> M S unit) :
  (forall x s, P s -> P (snd (body x s))) ->
  forall s, P s -> P (snd (for_each xs body s)).
Proof.
  intros Hb. induction xs as [| x xs IH]; intros s Hs; [exact Hs |].
  cbn [for_each]. unfold bind. specialize (Hb x s Hs).
  destruct (body x s) as [[[] | e] s1]; cbn [snd] in *; [now apply IH | assumption].
Qed.

Lemma keeps_controls_refl m : keeps_controls m m.
Proof. repeat split. eauto. Qed.

Lemma keeps_controls_trans m1 m2 m3 :
  keeps_controls m1 m2 -> keeps_controls m2 m3 -> keeps_controls m1 m3.
Proof.
  intros (F1 & O1 & D1 & C1) (F2 & O2 & D2 & C2).
  split; [congruence |]. split; [congruence |]. split; [congruence |].
  intros d o i c H. destruct (C1 _ _ _ _ H) as (c' & H'). eauto.
Qed.

Lemma route_setvolume_keeps (B : Backend) digital value o i m :
  keeps_controls m (snd (route_setvolume B digital value o i m)).
Proof.
  unfold route_setvolume.
  destruct (locate (routes_of digital m) o i) as [[[no ni] c] | e];
    [| apply keeps_controls_refl].
  destruct (setvolume B value (volume c)) as [v | e]; cbn [snd].
  - repeat split. intros d o' i' c' H.
    destruct (Bool.eqb d digital) eqn:Ed.
    + apply eqb_prop in Ed. subst d.
      rewrite routes_of_set_routes, cell_store, routes_of_log_write.
      destruct ((o' =? no) && (i' =? ni))%nat eqn:E; [| eauto].
      apply andb_true_iff in E as [Eo Ei]. apply Nat.eqb_eq in Eo, Ei. subst.
      rewrite H. eauto.
    + exists c'. rewrite <- H. destruct d, digital; try discriminate; reflexivity.
  - repeat split. intros d o' i' c' H. exists c'. rewrite <- H. now destruct d.
Qed.

Lemma MuteMostDigitalRoutes_keeps (B : Backend) m :
  keeps_controls m (snd (MuteMostDigitalRoutes B m)).
Proof.
  unfold MuteMostDigitalRoutes.
  apply (for_each_preserves (keeps_controls m)); [| apply keeps_controls_refl].
  intros o s Hs. destruct (getitem (digital_routes s) o) as [row | e]; [| exact Hs].
  apply (for_each_preserves (keeps_controls m)); [| exact Hs].
  intros i s' Hs'. destruct (negb (o =? i)); [| exact Hs'].
  eapply keeps_controls_trans; [exact Hs' | apply route_setvolume_keeps].
Qed.

Lemma disable_fx_names (B : Backend) fx log :
  map fst (snd (fst (disable_fx B fx log))) = map fst fx.
Proof.
  revert log. induction fx as [| [n [cur | cur labels]] fx IH]; intros log;
    cbn [disable_fx]; [reflexivity | |].
  - destruct (setvolume B 0 cur) as [v | e]; [| reflexivity].
    specialize (IH (log ++ [SetFxVolume n 0])).
    destruct (disable_fx B fx (log ++ [SetFxVolume n 0])) as [[r rest] log'].
    cbn in *. now rewrite IH.
  - specialize (IH log). destruct (disable_fx B fx log) as [[r rest] log'].
    cbn in *. now rewrite IH.
Qed.

Lemma DisableEffects_keeps (B : Backend) m :
  keeps_controls m (snd (DisableEffects B m)).
Proof.
  unfold DisableEffects. pose proof (disable_fx_names B (fx_controls m) (hw_writes m)) as H.
  destruct (disable_fx B (fx_controls m) (hw_writes m)) as [[r fx] log].
  cbn in *. repeat split; [assumption |].
  intros d o i c Hc. exists c. rewrite <- Hc. now destruct d.
Qed.

(** X4.  [Mixer.__init__] on an interface whose route names count the
    channels from 1: every name that matches one of the two patterns is a
    route that [GetVolume] can read at (output - 1, input - 1) of its kind,
    the other names are the controls of the effects, in the order of the
    list, and no observer is registered.  This holds for both values of
    each flag, also when muting raises.  With both flags off the
    constructor returns and has written nothing to the hardware. *)
Theorem Mixer_init_registers_controls (B : Backend) (controls : list (string * AlsaMixer))
    (disable_effects mute_most_digital_routes : bool) :
  (forall name a, In (name, a) controls -> is_route_name name = true ->
     channels_from_1 name) ->
  exists r m,
    Mixer_init B controls disable_effects mute_most_digital_routes = (r, m) /\
    (disable_effects = false -> mute_most_digital_routes = false ->
     r = Ok tt /\ hw_writes m = [] /\
     fx_controls m =
       map (fun na => (fst na, as_fx (snd na)))
         (filter (fun na => negb (is_route_name (fst na))) controls)) /\
    map fst (fx_controls m) =
      filter (fun n => negb (is_route_name n)) (map fst controls) /\
    observers m = [] /\ dispatched m = [] /\
    forall name a, In (name, a) controls -> is_route_name name = true ->
      exists o i v, int_at name 10 = Ok o /\ int_at name 3 = Ok i /\
        GetVolume (o - 1) (i - 1) (negb (matches_route "AIn" name)) m = Ok v.
Proof.
  intros H.
  destruct (init_loop controls empty_mixer H) as (m1 & E1 & Hf1 & Hw1 & Ho1 & Hd1 & _ & Hn1).
  unfold Mixer_init, bind. rewrite E1.
  cbn [hw_writes observers dispatched fx_controls empty_mixer app] in Hw1, Ho1, Hd1, Hf1.
  assert (Hnames : map fst (fx_controls m1) =
                   filter (fun n => negb (is_route_name n)) (map fst controls)).
  { rewrite Hf1. clear.
    induction controls as [| [n a] controls IH]; [reflexivity |].
    cbn [filter map fst]. destruct (negb (is_route_name n)); cbn [map fst];
      now rewrite IH. }
  assert (Hread : forall m, keeps_controls m1 m ->
            forall name a, In (name, a) controls -> is_route_name name = true ->
              exists o i v, int_at name 10 = Ok o /\ int_at name 3 = Ok i /\
                GetVolume (o - 1) (i - 1) (negb (matches_route "AIn" name)) m = Ok v).
  { intros m (_ & _ & _ & Hk) name a Hin Hr.
    destruct (Hn1 name a Hin Hr) as (o & i & c & Ho & Hi & Hc).
    destruct (Hk _ _ _ _ Hc) as (c' & Hc').
    assert (Hb : 1 <= o /\ 1 <= i).
    { pose proof (H name a Hin Hr) as Hch. unfold is_route_name in Hr.
      apply orb_true_iff in Hr as [Hk' | Hk'];
        destruct (matches_route_channels _ _ Hk' Hch) as (o' & i' & Ho' & Hi' & ? & ?);
        split; congruence. }
    exists o, i, (volume c'). split; [assumption |]. split; [assumption |].
    replace (o - 1) with (Z.of_nat (Z.to_nat (o - 1))) by lia.
    replace (i - 1) with (Z.of_nat (Z.to_nat (i - 1))) by lia.
    rewrite GetVolume_nat. now rewrite Hc'. }
  assert (Hfinal : forall r m, keeps_controls m1 m ->
            (disable_effects = false -> mute_most_digital_routes = false ->
             r = Ok tt /\ m = m1) ->
            exists r' m',
              (r, m) = (r', m') /\
              (disable_effects = false -> mute_most_digital_routes = false ->
               r' = Ok tt /\ hw_writes m' = [] /\
               fx_controls m' =
                 map (fun na => (fst na, as_fx (snd na)))
                   (filter (fun na => negb (is_route_name (fst na))) controls)) /\
              map fst (fx_controls m') =
                filter (fun n => negb (is_route_name n)) (map fst controls) /\
              observers m' = [] /\ dispatched m' = [] /\
              forall name a, In (name, a) controls -> is_route_name name = true ->
                exists o i v, int_at name 10 = Ok o /\ int_at name 3 = Ok i /\
                  GetVolume (o - 1) (i - 1) (negb (matches_route "AIn" name)) m' = Ok v).
  { intros r m K Hoff. exists r, m. split; [reflexivity |].
    split.
    { intros Hde Hmm. destruct (Hoff Hde Hmm) as [-> ->]. auto. }
    destruct K as (F & O & D & C).
    split; [congruence |]. split; [congruence |]. split; [congruence |].
    apply Hread. repeat split; assumption. }
  pose proof (DisableEffects_keeps B m1) as KD.
  destruct disable_effects.
  - destruct (DisableEffects B m1) as [[[] | e] m2]; cbn [snd] in KD.
    + pose proof (MuteMostDigitalRoutes_keeps B m2) as KM.
      destruct mute_most_digital_routes.
      * destruct (MuteMostDigitalRoutes B m2) as [r3 m3]. cbn [snd] in KM.
        apply Hfinal; [eapply keeps_controls_trans; eassumption | discriminate].
      * apply Hfinal; [assumption | discriminate].
    + apply Hfinal; [assumption | discriminate].
  - cbn [ret]. pose proof (MuteMostDigitalRoutes_keeps B m1) as KM.
    destruct mute_most_digital_routes.
    + destruct (MuteMostDigitalRoutes B m1) as [r3 m3]. cbn [snd] in KM.
      apply Hfinal; [assumption | discriminate].
    + apply Hfinal; [apply keeps_controls_refl | auto].
Qed.

Lemma Mixer_init_registers_controls_witness :
  exists r m,
    Mixer_init checked_backend ex_shared_key false false = (r, m) /\
    (false = false -> false = false ->
     r = Ok tt /\ hw_writes m = [] /\
     fx_controls m =
       map (fun na => (fst na, as_fx (snd na)))
         (filter (fun na => negb (is_route_name (fst na))) ex_shared_key)) /\
    map fst (fx_controls m) =
      filter (fun n => negb (is_route_name n)) (map fst ex_shared_key) /\
    observers m = [] /\ dispatched m = [] /\
    forall name a, In (name, a) ex_shared_key -> is_route_name name = true ->
      exists o i v, int_at name 10 = Ok o /\ int_at name 3 = Ok i /\
        GetVolume (o - 1) (i - 1) (negb (matches_route "AIn" name)) m = Ok v.
Proof.
  apply (Mixer_init_registers_controls checked_backend ex_shared_key false false).
  intros name a [H | [H | [H | [H | []]]]] Hr; injection H as <- <-;
    try discriminate Hr; split; discriminate.
Defined.

(* ===================================================================== *)
(** * DisableEffects *)
(* ===================================================================== *)

Lemma disable_fx_mutes (B : Backend) fx log :
  (forall n cur, In (n, FxLinear cur) fx -> setvolume B 0 cur = Ok 0) ->
  disable_fx B fx log = (Ok tt, map muted_fx fx, log ++ fx_mute_writes fx).
Proof.
  revert log.
  induction fx as [| [n [cur | cur labels]] fx IH]; intros log HB; cbn [disable_fx].
  - cbn. now rewrite List.app_nil_r.
  - rewrite (HB n cur) by now left.
    rewrite IH by (intros n' cur' Hin; apply (HB n' cur'); now right).
    cbn. now rewrite <- List.app_assoc.
  - rewrite IH by (intros n' cur' Hin; apply (HB n' cur'); now right). reflexivity.
Qed.

(** X5.  When the binding accepts the volume 0 for the controls of the
    effects that have a volume (whatever it does with other volumes and
    other controls), [DisableEffects] returns: every such control was set
    to 0, once and in the order of the names, and reads 0; the enumerated
    controls, the routes and the observers are untouched. *)
Theorem DisableEffects_mutes (B : Backend) (m : Mixer) :
  (forall n cur, In (n, FxLinear cur) (fx_controls m) -> setvolume B 0 cur = Ok 0) ->
  exists m',
    DisableEffects B m = (Ok tt, m') /\
    fx_controls m' = map muted_fx (fx_controls m) /\
    hw_writes m' = hw_writes m ++ fx_mute_writes (fx_controls m) /\
    analog_routes m' = analog_routes m /\ digital_routes m' = digital_routes m /\
    observers m' = observers m /\ dispatched m' = dispatched m.
Proof.
  intros HB. unfold DisableEffects. rewrite (disable_fx_mutes B _ _ HB).
  eexists. split; [reflexivity |]. repeat split.
Qed.

Lemma DisableEffects_mutes_witness :
  exists m',
    DisableEffects checked_backend ex_mixer = (Ok tt, m') /\
    fx_controls m' = map muted_fx (fx_controls ex_mixer) /\
    hw_writes m' = hw_writes ex_mixer ++ fx_mute_writes (fx_controls ex_mixer) /\
    analog_routes m' = analog_routes ex_mixer /\
    digital_routes m' = digital_routes ex_mixer /\
    observers m' = observers ex_mixer /\ dispatched m' = dispatched ex_mixer.
Proof.
  apply (DisableEffects_mutes checked_backend ex_mixer).
  intros n cur _. reflexivity.
Defined.

(** X6.  [DisableEffects] has no handler: the first control that the
    binding refuses ends the loop with the exception of the binding.  The
    controls before it are muted and stay muted, the ones after it are not
    touched. *)
Theorem DisableEffects_stops_at_refusal (B : Backend) (m : Mixer)
    (before after : list (string * FxControl)) (n : string) (cur : Z) (e : error) :
  (forall nc, In nc before ->
     match snd nc with FxLinear v => setvolume B 0 v = Ok 0 | FxEnum _ _ => True end) ->
  setvolume B 0 cur = Err e ->
  fx_controls m = before ++ (n, FxLinear cur) :: after ->
  exists m',
    DisableEffects B m = (Err e, m') /\
    fx_controls m' = map muted_fx before ++ (n, FxLinear cur) :: after /\
    hw_writes m' = hw_writes m ++ fx_mute_writes before ++ [SetFxVolume n 0].
Proof.
  intros Hb He Hfx. unfold DisableEffects. rewrite Hfx.
  assert (H : forall log,
            disable_fx B (before ++ (n, FxLinear cur) :: after) log =
            (Err e, map muted_fx before ++ (n, FxLinear cur) :: after,
             log ++ fx_mute_writes before ++ [SetFxVolume n 0])).
  { clear Hfx. induction before as [| [n' [v | c l]] before IH]; intros log.
    - cbn. now rewrite He.
    - cbn [app disable_fx]. pose proof (Hb _ (or_introl eq_refl)) as H0. cbn in H0.
      rewrite H0. rewrite IH by (intros; apply Hb; now right).
      cbn. now rewrite <- List.app_assoc.
    - cbn [app disable_fx]. rewrite IH by (intros; apply Hb; now right).
      reflexivity. }
  rewrite H. eexists. split; [reflexivity |]. split; reflexivity.
Qed.

Lemma DisableEffects_stops_at_refusal_witness :
  exists m',
    DisableEffects ex_stuck_backend ex_fx_mixer = (Err ALSAAudioError, m') /\
    fx_controls m' =
      map muted_fx [("Effect Duration", FxLinear 5)] ++
      ("Effect Volume", FxLinear 33) :: [("Effect Feedback Volume", FxLinear 7)] /\
    hw_writes m' =
      hw_writes ex_fx_mixer ++ fx_mute_writes [("Effect Duration", FxLinear 5)] ++
      [SetFxVolume "Effect Volume" 0].
Proof.
  apply (DisableEffects_stops_at_refusal ex_stuck_backend ex_fx_mixer
           [("Effect Duration", FxLinear 5)] [("Effect Feedback Volume", FxLinear 7)]
           "Effect Volume" 33 ALSAAudioError).
  - intros nc [<- | []]. reflexivity.
  - reflexivity.
  - reflexivity.
Defined.

(* ===================================================================== *)
(** * The polling thread over several cycles *)
(* ===================================================================== *)

Lemma log_dispatch_nil m : log_dispatch [] m = m.
Proof. destruct m. unfold log_dispatch. cbn. now rewrite List.app_nil_r. Qed.

Lemma log_dispatch_app d1 d2 m :
  log_dispatch d2 (log_dispatch d1 m) = log_dispatch (d1 ++ d2) m.
Proof. unfold log_dispatch. cbn. now rewrite List.app_assoc. Qed.

Lemma lookup_fd_in (table : list (Z * RouteInfo)) (fd : Z) :
  In fd (map fst table) -> exists r, lookup_fd table fd = Ok r.
Proof.
  induction table as [| [k r] table IH]; intros H; [destruct H |].
  cbn [lookup_fd]. destruct (Z.eqb_spec k fd) as [-> | Hne]; [eauto |].
  destruct H as [H | H]; [contradiction | auto].
Qed.

Lemma lookup_fd_not_in (table : list (Z * RouteInfo)) (fd : Z) :
  ~ In fd (map fst table) -> lookup_fd table fd = Err KeyError.
Proof.
  induction table as [| [k r] table IH]; intros H; [reflexivity |].
  cbn [lookup_fd]. destruct (Z.eqb_spec k fd) as [-> | Hne].
  - exfalso. apply H. now left.
  - apply IH. intros Hin. apply H. now right.
Qed.

Lemma mapM_ok {A X} (f : A -> result X) (xs : list A) :
  (forall x, In x xs -> exists y, f x = Ok y) -> exists ys, mapM f xs = Ok ys.
Proof.
  induction xs as [| x xs IH]; intros H; [now exists [] |].
  destruct (H x (or_introl eq_refl)) as (y & Hy).
  destruct IH as (ys & Hys); [intros; apply H; now right |].
  exists (y :: ys). cbn [mapM]. now rewrite Hy, Hys.
Qed.

Lemma PollForChanges_cycle_batch (m : Mixer) (events : list (Z * Z)) :
  (forall fd, In fd (signaled events) -> In fd (map fst (descriptors_to_routes m))) ->
  PollForChanges_cycle events m =
  (Ok tt,
   log_dispatch (calls_of (observers m) (batch_of (descriptors_to_routes m) events)) m).
Proof.
  intros H.
  destruct (mapM_ok (lookup_fd (descriptors_to_routes m)) (signaled events))
    as (batch & Hb); [intros fd Hfd; now apply lookup_fd_in, H |].
  unfold PollForChanges_cycle, batch_of.
  rewrite (collect_changes_batch _ _ batch [] [] Hb), Hb. cbn [app].
  destruct batch as [| r batch]; [now rewrite log_dispatch_nil |].
  unfold notify, calls_of.
  destruct (routes_in_nonempty r batch) as [Hn | Hn];
    destruct (routes_in false (r :: batch)), (routes_in true (r :: batch));
    congruence.
Qed.

Lemma PollForChanges_polls_state (m : Mixer) (polls : list (list (Z * Z))) :
  (forall events fd, In events polls -> In fd (signaled events) ->
     In fd (map fst (descriptors_to_routes m))) ->
  PollForChanges polls m =
  (Ok tt,
   log_dispatch
     (flat_map (fun events =>
                  calls_of (observers m) (batch_of (descriptors_to_routes m) events))
        polls) m).
Proof.
  unfold PollForChanges.
  enough (G : forall polls d,
            (forall events fd, In events polls -> In fd (signaled events) ->
               In fd (map fst (descriptors_to_routes m))) ->
            for_each polls PollForChanges_cycle (log_dispatch d m) =
            (Ok tt,
             log_dispatch
               (d ++ flat_map (fun events =>
                         calls_of (observers m)
                           (batch_of (descriptors_to_routes m) events)) polls) m)).
  { intros H. rewrite <- (log_dispatch_nil m) at 1. now rewrite G. }
  clear polls. induction polls as [| events polls IH]; intros d H.
  - cbn. now rewrite List.app_nil_r.
  - cbn [for_each flat_map]. unfold bind.
    rewrite PollForChanges_cycle_batch
      by (intros fd Hfd; exact (H events fd (or_introl eq_refl) Hfd)).
    cbn [observers descriptors_to_routes log_dispatch].
    change (log_dispatch ?x (log_dispatch d m)) with (log_dispatch x (log_dispatch d m)).
    rewrite log_dispatch_app, IH by (intros ev fd Hev; apply H; now right).
    now rewrite <- List.app_assoc.
Qed.

(** X7.  The loop of [__PollForChanges] over any number of polls whose
    descriptors are all registered: it never raises, and the calls it has
    made to the observers are, poll after poll, one call per observer with
    the batch of that poll, none for a poll without input.  The changes of
    two polls are never merged and none is dropped.  The routes, the
    controls of the effects, the observers, the table of the descriptors
    and the hardware are as they were. *)
Theorem PollForChanges_dispatches_each_cycle (m : Mixer) (polls : list (list (Z * Z))) :
  (forall events fd, In events polls -> In fd (signaled events) ->
     In fd (map fst (descriptors_to_routes m))) ->
  exists m',
    PollForChanges polls m = (Ok tt, m') /\
    dispatched m' =
      dispatched m ++
      flat_map (fun events =>
                  match batch_of (descriptors_to_routes m) events with
                  | [] => []
                  | batch =>
                      map (fun o => (o, routes_in false batch, routes_in true batch))
                        (observers m)
                  end)
        polls /\
    analog_routes m' = analog_routes m /\ digital_routes m' = digital_routes m /\
    fx_controls m' = fx_controls m /\ observers m' = observers m /\
    descriptors_to_routes m' = descriptors_to_routes m /\ hw_writes m' = hw_writes m.
Proof.
  intros H. rewrite (PollForChanges_polls_state m polls H).
  eexists. split; [reflexivity |].
  cbn [log_dispatch dispatched analog_routes digital_routes fx_controls observers
       descriptors_to_routes hw_writes].
  split; [| repeat split].
  f_equal. apply flat_map_ext. intros events. unfold calls_of.
  now destruct (batch_of (descriptors_to_routes m) events).
Qed.

Lemma PollForChanges_dispatches_each_cycle_witness :
  exists m',
    PollForChanges [[(10, 1); (21, 1)]; [(7, 8)]; [(11, 4)]; [(24, 1)]] ex_mixer
      = (Ok tt, m') /\
    dispatched m' = [(0%nat, [(0, 0)], [(0, 1)]); (0%nat, [], [(1, 1)])].
Proof.
  destruct (PollForChanges_dispatches_each_cycle ex_mixer
              [[(10, 1); (21, 1)]; [(7, 8)]; [(11, 4)]; [(24, 1)]])
    as (m' & E & Hd & _).
  - intros events fd [<- | [<- | [<- | [<- | []]]]] Hin; cbn in Hin |- *; tauto.
  - exists m'. split; [exact E | exact Hd].
Defined.

(** X8.  [__PollForChanges] subscripts [__descriptors_to_routes] without a
    check.  A poll in which a descriptor that is not registered signals
    input raises KeyError: no observer is called, also not for the routes of
    the same poll that are registered, and the loop ends there, so that the
    later polls are never looked at. *)
Theorem PollForChanges_ends_at_unknown_descriptor (m : Mixer) (events : list (Z * Z))
    (later : list (list (Z * Z))) (fd : Z) :
  In fd (signaled events) -> ~ In fd (map fst (descriptors_to_routes m)) ->
  PollForChanges (events :: later) m = (Err KeyError, m).
Proof.
  intros Hin Hnot. unfold PollForChanges. cbn [for_each]. unfold bind.
  enough (E : PollForChanges_cycle events m = (Err KeyError, m)) by now rewrite E.
  unfold PollForChanges_cycle.
  enough (E : forall a d, collect_changes (descriptors_to_routes m) events a d
                          = Err KeyError) by now rewrite E.
  revert Hin. induction events as [| [fd' mask] events IH]; intros Hin a d;
    [destruct Hin |].
  unfold signaled in Hin. cbn [filter snd] in Hin. cbn [collect_changes fst snd].
  destruct (negb (Z.land mask POLLIN =? 0)).
  - destruct (In_dec Z.eq_dec fd' (map fst (descriptors_to_routes m))) as [Hreg | Hreg].
    + destruct (lookup_fd_in _ _ Hreg) as ([[[[o i] dg] em] f] & ->). cbn [rbind].
      destruct Hin as [<- | Hin]; [contradiction |].
      destruct dg; now apply IH.
    + now rewrite (lookup_fd_not_in _ _ Hreg).
  - now apply IH.
Qed.

Lemma PollForChanges_ends_at_unknown_descriptor_witness :
  PollForChanges ([(10, 1); (99, 1)] :: [[(11, 1)]]) ex_mixer = (Err KeyError, ex_mixer).
Proof.
  apply (PollForChanges_ends_at_unknown_descriptor ex_mixer [(10, 1); (99, 1)]
           [[(11, 1)]] 99).
  - cbn. tauto.
  - cbn. intros [H | [H | [H | [H | []]]]]; discriminate H.
Defined.

(* ===================================================================== *)
(** * GetConfigDict: the sections *)
(* ===================================================================== *)

Lemma in_range (n : nat) (x : Z) : In x (range n) <-> exists k, x = Z.of_nat k /\ (k < n)%nat.
Proof.
  unfold range. rewrite in_map_iff. split.
  - intros (k & <- & Hk). apply in_seq in Hk. exists k. split; [reflexivity | lia].
  - intros (k & -> & Hk). exists k. split; [reflexivity |]. apply in_seq. lia.
Qed.

(** A loop in which every step returns or raises [e0] returns or raises
    [e0]; it raises [e0] when one of its steps always does. *)
Lemma foldM_only_error {A B} (f : B -> A -> result B) (xs : list A) (e0 : error) :
  (forall acc x, In x xs -> (exists b, f acc x = Ok b) \/ f acc x = Err e0) ->
  forall acc, (exists b, foldM f xs acc = Ok b) \/ foldM f xs acc = Err e0.
Proof.
  induction xs as [| x xs IH]; intros H acc; [left; now exists acc |].
  cbn [foldM]. destruct (H acc x (or_introl eq_refl)) as [(b & ->) | ->]; cbn [rbind].
  - apply IH. intros acc' x' Hx'. apply H. now right.
  - now right.
Qed.

Lemma foldM_raises {A B} (f : B -> A -> result B) (xs : list A) (e0 : error) (x0 : A) :
  (forall acc x, In x xs -> (exists b, f acc x = Ok b) \/ f acc x = Err e0) ->
  In x0 xs -> (forall acc, f acc x0 = Err e0) ->
  forall acc, foldM f xs acc = Err e0.
Proof.
  induction xs as [| x xs IH]; intros H Hin Hx0 acc; [destruct Hin |].
  cbn [foldM]. destruct Hin as [-> | Hin].
  - now rewrite Hx0.
  - destruct (H acc x (or_introl eq_refl)) as [(b & ->) | ->]; cbn [rbind];
      [| reflexivity].
    apply IH; auto. intros acc' x' Hx'. apply H. now right.
Qed.

Lemma dump_row_only_AttributeError prefix digital m (o : nat) row :
  nth_error (routes_of digital m) o = Some row ->
  forall acc i, In i (range (length row)) ->
    (exists b, (let? v := GetVolume (Z.of_nat o) i digital m in
                Ok (dict_set acc (route_key prefix i (Z.of_nat o)) (VInt v))) = Ok b) \/
    (let? v := GetVolume (Z.of_nat o) i digital m in
     Ok (dict_set acc (route_key prefix i (Z.of_nat o)) (VInt v))) = Err AttributeError.
Proof.
  intros Hrow acc i Hi. apply in_range in Hi as (k & -> & Hk).
  rewrite GetVolume_nat. unfold cell. rewrite Hrow.
  destruct (nth_error row k) as [[c |] |] eqn:E; cbn [rbind]; eauto.
  apply nth_error_None in E. lia.
Qed.

Lemma dump_routes_gap prefix digital m (o i : nat) :
  cell (routes_of digital m) o i = Some None ->
  dump_routes prefix digital (routes_of digital m) m = Err AttributeError.
Proof.
  intros Hc. unfold dump_routes.
  destruct (cell_lt _ _ _ _ Hc) as [Ho Hi].
  apply (foldM_raises _ _ AttributeError (Z.of_nat o)).
  - intros acc x Hx. apply in_range in Hx as (k & -> & Hk).
    destruct (getitem_row _ _ Hk) as (row & -> & Hlen & Hnth). cbn [rbind].
    apply foldM_only_error. intros acc' i' Hi'.
    now apply (dump_row_only_AttributeError prefix digital m k row).
  - apply in_range. now exists o.
  - intros acc. destruct (getitem_row _ _ Ho) as (row & -> & Hlen & Hnth). cbn [rbind].
    apply (foldM_raises _ _ AttributeError (Z.of_nat i)).
    + intros acc' i' Hi'.
      now apply (dump_row_only_AttributeError prefix digital m o row).
    + apply in_range. exists i. split; [reflexivity | lia].
    + intros acc'. rewrite GetVolume_nat, Hc. reflexivity.
Qed.

(** X9.  [GetConfigDict] reads every slot of the analog matrix.  When one
    of them is a slot that [__CreateRoute] filled with None, it raises
    AttributeError and returns no dictionary. *)
Theorem GetConfigDict_raises_on_gap (m : Mixer) (o i : nat) :
  cell (analog_routes m) o i = Some None -> GetConfigDict m = Err AttributeError.
Proof.
  intros Hc. unfold GetConfigDict.
  pose proof (dump_routes_gap "ain" false m o i Hc) as E. cbn [routes_of] in E.
  now rewrite E.
Qed.

Lemma GetConfigDict_raises_on_gap_witness :
  GetConfigDict (snd (Mixer_init checked_backend ex_gapped false false))
  = Err AttributeError.
Proof.
  apply (GetConfigDict_raises_on_gap
           (snd (Mixer_init checked_backend ex_gapped false false)) 0 0).
  reflexivity.
Defined.

Lemma GetConfigDict_ok_present (m : Mixer) (configdict : config) :
  GetConfigDict m = Ok configdict -> present (analog_routes m).
Proof.
  intros H o i [c |] Hc; [now exists c |].
  pose proof (dump_routes_gap "ain" false m o i Hc) as E. cbn [routes_of] in E.
  unfold GetConfigDict in H. now rewrite E in H.
Qed.

Lemma dict_get_entries prefix rows (ps : list (nat * nat)) (o i : nat) :
  prefix = "ain" \/ prefix = "din" -> In (o, i) ps ->
  dict_get (entries prefix rows ps) (route_key prefix (Z.of_nat i) (Z.of_nat o))
  = Some (VInt (vol_at rows o i)).
Proof.
  intros Hp Hin. unfold entries.
  apply (dict_get_map (key_of prefix) (fun p => VInt (vol_at rows (fst p) (snd p)))
           ps (o, i) Hin).
  intros y _ Hy. now apply (key_of_inj prefix).
Qed.

Lemma dict_get_entries_inv prefix rows (ps : list (nat * nat)) key value :
  dict_get (entries prefix rows ps) key = Some value ->
  exists o i, In (o, i) ps /\ key = route_key prefix (Z.of_nat i) (Z.of_nat o) /\
              value = VInt (vol_at rows o i).
Proof.
  induction ps as [| [o i] ps IH]; cbn; [discriminate |].
  destruct (String.eqb_spec (key_of prefix (o, i)) key) as [<- | Hne].
  - intros [= <-]. exists o, i. auto.
  - intros H. destruct (IH H) as (o' & i' & Hin & Hk & Hv). exists o', i'. auto.
Qed.

(** X10.  When [GetConfigDict] returns, the section ["Analog"] of the
    dictionary is the analog matrix: the route of input [i] to output [o]
    is found under the key ain(i+1)_to_out(o+1) with the volume that
    [GetVolume] reads, every entry of the section is such a route, and the
    section has as many entries as the matrix has slots. *)
Theorem GetConfigDict_analog_section (m : Mixer) (configdict : config) :
  GetConfigDict m = Ok configdict ->
  exists section,
    dict_get configdict "Analog" = Some section /\
    (forall (o i : nat) v,
       GetVolume (Z.of_nat o) (Z.of_nat i) false m = Ok v ->
       dict_get section (route_key "ain" (Z.of_nat i) (Z.of_nat o)) = Some (VInt v)) /\
    (forall key value,
       dict_get section key = Some value ->
       exists (o i : nat) v,
         key = route_key "ain" (Z.of_nat i) (Z.of_nat o) /\ value = VInt v /\
         GetVolume (Z.of_nat o) (Z.of_nat i) false m = Ok v) /\
    length section = length (positions (analog_routes m)).
Proof.
  intros H. pose proof (GetConfigDict_ok_present m configdict H) as Hp.
  unfold GetConfigDict in H.
  pose proof (dump_routes_entries "ain" false (analog_routes m) m (or_introl eq_refl)
                Hp eq_refl) as E.
  cbn [routes_of] in E. rewrite E in H. cbn [rbind] in H.
  destruct (dump_routes "din" true (analog_routes m) m) as [digital | e];
    [| discriminate].
  cbn [rbind] in H. injection H as <-.
  exists (entries "ain" (analog_routes m) (positions (analog_routes m))).
  split; [reflexivity |]. split; [| split].
  - intros o i v Hv. rewrite GetVolume_nat in Hv. cbn [routes_of] in Hv.
    destruct (cell (analog_routes m) o i) as [[c |] |] eqn:Ec; try discriminate.
    injection Hv as <-.
    rewrite dict_get_entries; [| now left | apply in_positions; eauto].
    unfold vol_at. now rewrite Ec.
  - intros key value Hk.
    destruct (dict_get_entries_inv _ _ _ _ _ Hk) as (o & i & Hin & -> & ->).
    apply in_positions in Hin as (slot & Hslot).
    destruct (Hp _ _ _ Hslot) as (c & ->).
    exists o, i, (volume c). split; [reflexivity |].
    unfold vol_at. rewrite Hslot. split; [reflexivity |].
    rewrite GetVolume_nat. cbn [routes_of]. now rewrite Hslot.
  - unfold entries. apply length_map.
Qed.

Lemma GetConfigDict_analog_section_witness :
  exists section,
    dict_get ex_saved_mixer "Analog" = Some section /\
    (forall (o i : nat) v,
       GetVolume (Z.of_nat o) (Z.of_nat i) false ex_mixer = Ok v ->
       dict_get section (route_key "ain" (Z.of_nat i) (Z.of_nat o)) = Some (VInt v)) /\
    (forall key value,
       dict_get section key = Some value ->
       exists (o i : nat) v,
         key = route_key "ain" (Z.of_nat i) (Z.of_nat o) /\ value = VInt v /\
         GetVolume (Z.of_nat o) (Z.of_nat i) false ex_mixer = Ok v) /\
    length section = length (positions (analog_routes ex_mixer)).
Proof.
  apply (GetConfigDict_analog_section ex_mixer ex_saved_mixer).
  vm_compute. reflexivity.
Defined.

Lemma find_append {A} (p : A -> bool) (l1 l2 : list A) :
  find p (l1 ++ l2) = match find p l1 with Some x => Some x | None => find p l2 end.
Proof.
  induction l1 as [| x l1 IH]; cbn; [reflexivity |]. now destruct (p x).
Qed.

Lemma effects_fold_get (fx : list (string * FxControl)) (acc : dict value) (k : string) :
  dict_get (fold_left (fun d '(n, c) => dict_set d (cname n) (fx_value c)) fx acc) k =
  match find (fun nc => String.eqb (cname (fst nc)) k) (rev fx) with
  | Some nc => Some (fx_value (snd nc))
  | None => dict_get acc k
  end.
Proof.
  revert acc. induction fx as [| [n c] fx IH]; intros acc; [reflexivity |].
  cbn [fold_left rev]. rewrite IH, find_append.
  destruct (find (fun nc => String.eqb (cname (fst nc)) k) (rev fx)); [reflexivity |].
  cbn [find fst snd]. destruct (String.eqb_spec (cname n) k) as [<- | Hne].
  - apply dict_get_set_same.
  - now apply dict_get_set_other.
Qed.

(** X11.  When [GetConfigDict] returns, the section ["Effects"] holds,
    under a key, the value of the last control in [__fx_control_names] that
    has this key (the volume of a control with a volume, the current label
    of an enumerated one), and nothing under a key that no control has.
    Controls that share a key overwrite each other. *)
Theorem GetConfigDict_effects_section (m : Mixer) (configdict : config) :
  GetConfigDict m = Ok configdict ->
  exists section,
    dict_get configdict "Effects" = Some section /\
    forall k,
      dict_get section k =
      option_map (fun nc => fx_value (snd nc))
        (find (fun nc => String.eqb (cname (fst nc)) k) (rev (fx_controls m))).
Proof.
  unfold GetConfigDict. intros H.
  destruct (dump_routes "ain" false (analog_routes m) m) as [analog | e];
    [| discriminate].
  destruct (dump_routes "din" true (analog_routes m) m) as [digital | e];
    [| discriminate].
  cbn [rbind] in H. injection H as <-.
  eexists. split; [reflexivity |].
  intros k. rewrite effects_fold_get.
  now destruct (find _ (rev (fx_controls m))).
Qed.

Lemma GetConfigDict_effects_section_witness :
  exists section,
    dict_get ex_saved_mixer "Effects" = Some section /\
    forall k,
      dict_get section k =
      option_map (fun nc => fx_value (snd nc))
        (find (fun nc => String.eqb (cname (fst nc)) k) (rev (fx_controls ex_mixer))).
Proof.
  apply (GetConfigDict_effects_section ex_mixer ex_saved_mixer).
  vm_compute. reflexivity.
Defined.

(* ===================================================================== *)
(** * ParseConfigDict: what it changes *)
(* ===================================================================== *)

Lemma names_slot_shape prefix keys rows rows' o i :
  shape rows' = shape rows -> names_slot prefix keys rows' o i ->
  names_slot prefix keys rows o i.
Proof.
  intros Hs (key & io & Hin & Hp & Ho & Hi). exists key, io.
  rewrite <- (length_shape _ _ Hs), <- (row_len_shape _ _ o Hs). auto.
Qed.

Lemma slot_eq_dec (x y : option (option Control)) : {x = y} + {x <> y}.
Proof. repeat decide equality. Qed.

Lemma route_setvolume_frame (B : Backend) digital value o i m :
  let m' := snd (route_setvolume B digital value o i m) in
  routes_of (negb digital) m' = routes_of (negb digital) m /\
  shape (routes_of digital m') = shape (routes_of digital m) /\
  forall o' i', cell (routes_of digital m') o' i' <> cell (routes_of digital m) o' i' ->
    norm_index (length (routes_of digital m)) o = Some o' /\
    norm_index (row_len (routes_of digital m) o') i = Some i'.
Proof.
  unfold route_setvolume.
  destruct (locate (routes_of digital m) o i) as [[[no ni] c] | e] eqn:El; cbn [snd].
  2:{ split; [reflexivity |]. split; [reflexivity |]. intros o' i' H. now destruct H. }
  apply locate_char in El as (Ho & Hi & Hc).
  destruct (setvolume B value (volume c)) as [v | e]; cbn [snd].
  - split; [now destruct digital |]. rewrite routes_of_set_routes, routes_of_log_write.
    split; [apply shape_store |].
    intros o' i' H. rewrite cell_store in H.
    destruct (Nat.eqb_spec o' no) as [-> |]; cbn [andb] in H; [| now destruct H].
    destruct (Nat.eqb_spec i' ni) as [E |]; [| now destruct H].
    subst i'. now split.
  - rewrite routes_of_log_write. split; [now destruct digital |].
    split; [reflexivity |]. intros o' i' H. now destruct H.
Qed.

Lemma apply_routes_frame (B : Backend) prefix digital section keys changed m :
  let m' := snd (apply_routes B prefix digital section keys changed m) in
  routes_of (negb digital) m' = routes_of (negb digital) m /\
  shape (routes_of digital m') = shape (routes_of digital m) /\
  forall o i, cell (routes_of digital m') o i <> cell (routes_of digital m) o i ->
    names_slot prefix keys (routes_of digital m) o i.
Proof.
  revert changed m. induction keys as [| key keys IH]; intros changed m; cbn zeta.
  - cbn. split; [reflexivity |]. split; [reflexivity |]. intros o i H. now destruct H.
  - cbn [apply_routes]. unfold bind, lift.
    destruct (parse_route_key prefix key) as [[i0 o0] | e] eqn:Ek; cbn [snd].
    2:{ split; [reflexivity |]. split; [reflexivity |]. intros o i H. now destruct H. }
    destruct (match dict_get section key with
              | Some v => int_of v
              | None => Err KeyError
              end) as [v | e]; cbn [snd fst].
    2:{ split; [reflexivity |]. split; [reflexivity |]. intros o i H. now destruct H. }
    unfold SetVolume.
    pose proof (route_setvolume_frame B digital v o0 i0 m) as (Hn & Hs & Hc).
    assert (Hhere : forall o i,
              cell (routes_of digital (snd (route_setvolume B digital v o0 i0 m))) o i <>
              cell (routes_of digital m) o i ->
              names_slot prefix (key :: keys) (routes_of digital m) o i).
    { intros o i H. destruct (Hc o i H) as [Ho Hi].
      exists key, (i0, o0). split; [now left |]. auto. }
    destruct (route_setvolume B digital v o0 i0 m) as [[[] | e] m1]; cbn [snd] in *.
    2:{ split; [assumption |]. split; [assumption |]. exact Hhere. }
    destruct (IH (changed ++ [(o0, i0)]) m1) as (Hn' & Hs' & Hc').
    split; [congruence |]. split; [congruence |].
    intros o i H.
    destruct (slot_eq_dec (cell (routes_of digital m1) o i)
                (cell (routes_of digital m) o i)) as [E | Hne].
    + rewrite <- E in H. apply Hc' in H. apply (names_slot_shape _ _ _ _ _ _ Hs) in H.
      destruct H as (k & io & Hin & Hk). exists k, io. split; [now right | assumption].
    + now apply Hhere.
Qed.

Lemma apply_effects_frame (B : Backend) section fx log :
  let fx' := snd (fst (apply_effects B section fx log)) in
  map fst fx' = map fst fx /\
  forall k n c c', nth_error fx k = Some (n, c) -> nth_error fx' k = Some (n, c') ->
    c' <> c -> dict_mem section (cname n) = true.
Proof.
  revert log. induction fx as [| [n0 c0] fx IH]; intros log; cbn zeta.
  - cbn. split; [reflexivity |]. intros [| k]; discriminate.
  - cbn [apply_effects].
    assert (Hrec : forall log0 c1,
              (c1 <> c0 -> dict_mem section (cname n0) = true) ->
              let '(r, rest', log') := apply_effects B section fx log0 in
              map fst (snd (fst (r, (n0, c1) :: rest', log'))) = map fst ((n0, c0) :: fx) /\
              forall k n c c',
                nth_error ((n0, c0) :: fx) k = Some (n, c) ->
                nth_error (snd (fst (r, (n0, c1) :: rest', log'))) k = Some (n, c') ->
                c' <> c -> dict_mem section (cname n) = true).
    { intros log0 c1 Hc1. specialize (IH log0).
      destruct (apply_effects B section fx log0) as [[r rest'] log']. cbn in IH |- *.
      destruct IH as [Hn Hk]. split; [now rewrite Hn |].
      intros [| k] n c c'; cbn.
      - intros [= <- <-] [= <-]. exact Hc1.
      - apply Hk. }
    assert (Hstop : map fst ((n0, c0) :: fx) = map fst ((n0, c0) :: fx) /\
              forall k n c c',
                nth_error ((n0, c0) :: fx) k = Some (n, c) ->
                nth_error ((n0, c0) :: fx) k = Some (n, c') ->
                c' <> c -> dict_mem section (cname n) = true).
    { split; [reflexivity |]. intros k n c c' H1 H2 Hne. congruence. }
    unfold dict_mem at 1.
    destruct (dict_get section (cname n0)) as [v |] eqn:Eg.
    + assert (Hmem : forall c1 : FxControl, c1 <> c0 -> dict_mem section (cname n0) = true)
        by (intros; unfold dict_mem; now rewrite Eg).
      destruct c0 as [cur | cur labels].
      * destruct (int_of v) as [z | e]; [| exact Hstop].
        destruct (setvolume B z cur) as [v' | e]; [| exact Hstop].
        specialize (Hrec (log ++ [SetFxVolume n0 z]) (FxLinear v') (Hmem _)).
        now destruct (apply_effects B section fx (log ++ [SetFxVolume n0 z]))
          as [[r rest'] log'].
      * destruct (value_in v labels).
        -- destruct (amixer_sset B n0 (str_of v) cur labels) as [cur' | e];
             [| exact Hstop].
           specialize (Hrec (log ++ [AmixerSset n0 (str_of v)]) (FxEnum cur' labels)
                         (Hmem _)).
           now destruct (apply_effects B section fx (log ++ [AmixerSset n0 (str_of v)]))
             as [[r rest'] log'].
        -- specialize (Hrec log (FxEnum cur labels) (Hmem _)).
           now destruct (apply_effects B section fx log) as [[r rest'] log'].
    + assert (Hsame : c0 <> c0 -> dict_mem section (cname n0) = true) by congruence.
      specialize (Hrec log c0 Hsame).
      now destruct (apply_effects B section fx log) as [[r rest'] log'].
Qed.

(** X12.  The sentence of the docstring of [ParseConfigDict], only the
    controls for which the dictionary contains a value are changed, for
    every dictionary and whether the call returns or raises.  The two
    matrices keep their shapes.  A slot that differs afterwards is named by
    a key of the section of its kind, through the subscripts of Python (a
    number below 1 counts from the end).  The controls of the effects keep
    their names and order, and one that differs afterwards has its key in
    the section ["Effects"]. *)
Theorem ParseConfigDict_changes_only_named (B : Backend) (configdict : config)
    (m : Mixer) :
  let m' := snd (ParseConfigDict B configdict m) in
  (forall digital,
     shape (routes_of digital m') = shape (routes_of digital m) /\
     forall o i, cell (routes_of digital m') o i <> cell (routes_of digital m) o i ->
       exists section,
         dict_get configdict (if digital then "Digital" else "Analog") = Some section /\
         names_slot (if digital then "din" else "ain") (dict_keys section)
           (routes_of digital m) o i) /\
  map fst (fx_controls m') = map fst (fx_controls m) /\
  (forall k n c c',
     nth_error (fx_controls m) k = Some (n, c) ->
     nth_error (fx_controls m') k = Some (n, c') -> c' <> c ->
     exists section,
       dict_get configdict "Effects" = Some section /\ dict_mem section (cname n) = true).
Proof.
  cbn zeta.
  (* the routes of the section "Analog" *)
  pose (ca := match dict_get configdict "Analog" with
             | Some section => apply_routes B "ain" false section (dict_keys section) []
             | None => ret []
             end).
  assert (Ha : digital_routes (snd (ca m)) = digital_routes m /\
               fx_controls (snd (ca m)) = fx_controls m /\
               shape (analog_routes (snd (ca m))) = shape (analog_routes m) /\
               forall o i, cell (analog_routes (snd (ca m))) o i <> cell (analog_routes m) o i ->
                 exists section, dict_get configdict "Analog" = Some section /\
                   names_slot "ain" (dict_keys section) (analog_routes m) o i).
  { unfold ca. destruct (dict_get configdict "Analog") as [section |].
    - pose proof (apply_routes_frame B "ain" false section (dict_keys section) [] m)
        as (Hn & Hs & Hc).
      pose proof (apply_routes_fx B "ain" false section (dict_keys section) [] m) as Hf.
      cbn [routes_of negb] in *. repeat split; try assumption.
      intros o i H. exists section. split; [reflexivity | now apply Hc].
    - cbn. repeat split. intros o i H. now destruct H. }
  destruct Ha as (Ha1 & Ha2 & Ha3 & Ha4).
  (* the routes of the section "Digital" *)
  pose (cd := match dict_get configdict "Digital" with
             | Some section => apply_routes B "din" true section (dict_keys section) []
             | None => ret []
             end).
  assert (Hd : forall m1, analog_routes (snd (cd m1)) = analog_routes m1 /\
               fx_controls (snd (cd m1)) = fx_controls m1 /\
               shape (digital_routes (snd (cd m1))) = shape (digital_routes m1) /\
               forall o i, cell (digital_routes (snd (cd m1))) o i <> cell (digital_routes m1) o i ->
                 exists section, dict_get configdict "Digital" = Some section /\
                   names_slot "din" (dict_keys section) (digital_routes m1) o i).
  { intros m1. unfold cd. destruct (dict_get configdict "Digital") as [section |].
    - pose proof (apply_routes_frame B "din" true section (dict_keys section) [] m1)
        as (Hn & Hs & Hc).
      pose proof (apply_routes_fx B "din" true section (dict_keys section) [] m1) as Hf.
      cbn [routes_of negb] in *. repeat split; try assumption.
      intros o i H. exists section. split; [reflexivity | now apply Hc].
    - cbn. repeat split. intros o i H. now destruct H. }
  (* the effects *)
  pose (ce := match dict_get configdict "Effects" with
             | Some section =>
                 fun m0 : Mixer =>
                   let '(r, fx, log) :=
                     apply_effects B section (fx_controls m0) (hw_writes m0) in
                   (r, set_fx_log fx log m0)
             | None => ret tt
             end).
  assert (He : forall m2, analog_routes (snd (ce m2)) = analog_routes m2 /\
               digital_routes (snd (ce m2)) = digital_routes m2 /\
               map fst (fx_controls (snd (ce m2))) = map fst (fx_controls m2) /\
               forall k n c c',
                 nth_error (fx_controls m2) k = Some (n, c) ->
                 nth_error (fx_controls (snd (ce m2))) k = Some (n, c') -> c' <> c ->
                 exists section, dict_get configdict "Effects" = Some section /\
                                 dict_mem section (cname n) = true).
  { intros m2. unfold ce. destruct (dict_get configdict "Effects") as [section |].
    - pose proof (apply_effects_frame B section (fx_controls m2) (hw_writes m2))
        as (Hn & Hk).
      destruct (apply_effects B section (fx_controls m2) (hw_writes m2))
        as [[r fx] log]. cbn in *. repeat split; try assumption.
      intros k n c c' H1 H2 Hne. exists section. split; [reflexivity |].
      now apply (Hk k n c c').
    - cbn. repeat split. intros k n c c' H1 H2 Hne. congruence. }
  (* together *)
  assert (Hall : forall m1 m2 m3,
            m1 = snd (ca m) -> (m2 = m1 \/ m2 = snd (cd m1)) ->
            (m3 = m2 \/ m3 = snd (ce m2)) ->
            (forall digital,
               shape (routes_of digital m3) = shape (routes_of digital m) /\
               forall o i, cell (routes_of digital m3) o i <> cell (routes_of digital m) o i ->
                 exists section,
                   dict_get configdict (if digital then "Digital" else "Analog")
                   = Some section /\
                   names_slot (if digital then "din" else "ain") (dict_keys section)
                     (routes_of digital m) o i) /\
            map fst (fx_controls m3) = map fst (fx_controls m) /\
            (forall k n c c',
               nth_error (fx_controls m) k = Some (n, c) ->
               nth_error (fx_controls m3) k = Some (n, c') -> c' <> c ->
               exists section,
                 dict_get configdict "Effects" = Some section /\
                 dict_mem section (cname n) = true)).
  { intros m1 m2 m3 E1 E2 E3.
    assert (H2 : analog_routes m2 = analog_routes m1 /\ fx_controls m2 = fx_controls m1 /\
                 shape (digital_routes m2) = shape (digital_routes m1) /\
                 forall o i, cell (digital_routes m2) o i <> cell (digital_routes m1) o i ->
                   exists section, dict_get configdict "Digital" = Some section /\
                     names_slot "din" (dict_keys section) (digital_routes m1) o i).
    { destruct E2 as [-> | ->]; [| apply Hd].
      repeat split. intros o i H. now destruct H. }
    assert (H3 : analog_routes m3 = analog_routes m2 /\
                 digital_routes m3 = digital_routes m2 /\
                 map fst (fx_controls m3) = map fst (fx_controls m2) /\
                 forall k n c c',
                   nth_error (fx_controls m2) k = Some (n, c) ->
                   nth_error (fx_controls m3) k = Some (n, c') -> c' <> c ->
                   exists section, dict_get configdict "Effects" = Some section /\
                                   dict_mem section (cname n) = true).
    { destruct E3 as [-> | ->]; [| apply He].
      repeat split. intros k n c c' H1 H2' Hne. congruence. }
    destruct H2 as (Hb1 & Hb2 & Hb3 & Hb4). destruct H3 as (Hc1 & Hc2 & Hc3 & Hc4).
    subst m1. split; [| split].
    - intros [|]; cbn [routes_of].
      + rewrite Hc2. split; [congruence |]. intros o i H. rewrite Ha1 in *. now apply Hb4.
      + rewrite Hc1, Hb1. split; [assumption |]. exact Ha4.
    - congruence.
    - intros k n c c' H1 H3 Hne. rewrite <- Ha2, <- Hb2 in H1. now apply (Hc4 k n c c'). }
  change (ParseConfigDict B configdict m) with
    (bind ca (fun a => bind cd (fun d => bind ce (fun _ => notify a d))) m).
  unfold bind.
  destruct (ca m) as [[a | e1] m1] eqn:Ea; cbn [snd] in *.
  2:{ apply (Hall m1 m1 m1); auto. }
  destruct (cd m1) as [[d | e2] m2] eqn:Ed; cbn [snd] in *.
  2:{ apply (Hall m1 m2 m2); auto. right. now rewrite Ed. }
  destruct (ce m2) as [[[] | e3] m3] eqn:Ee; cbn [snd] in *.
  - unfold notify. cbn [snd].
    destruct (Hall m1 m2 m3 eq_refl) as (H1 & H2 & H3);
      [right; now rewrite Ed | right; now rewrite Ee |].
    split; [| split]; [| exact H2 | exact H3].
    intros digital. destruct (H1 digital) as [Hs Hc].
    destruct digital; cbn [routes_of log_dispatch analog_routes digital_routes] in *;
      now split.
  - apply (Hall m1 m2 m3); auto; right; [now rewrite Ed | now rewrite Ee].
Qed.

(** X13.  A call of [ParseConfigDict] that raises calls no observer and
    takes nothing back: the analog routes are left as the loop over the
    section ["Analog"] left them, whatever raised later.  The hardware can
    so differ from what the observers were told. *)
Theorem ParseConfigDict_raising_notifies_nobody (B : Backend) (configdict : config)
    (m m' : Mixer) (e : error) :
  ParseConfigDict B configdict m = (Err e, m') ->
  dispatched m' = dispatched m /\ observers m' = observers m /\
  forall section, dict_get configdict "Analog" = Some section ->
    analog_routes m' =
    analog_routes (snd (apply_routes B "ain" false section (dict_keys section) [] m)).
Proof.
  pose (ca := match dict_get configdict "Analog" with
              | Some section => apply_routes B "ain" false section (dict_keys section) []
              | None => ret []
              end).
  pose (cd := match dict_get configdict "Digital" with
              | Some section => apply_routes B "din" true section (dict_keys section) []
              | None => ret []
              end).
  pose (ce := match dict_get configdict "Effects" with
              | Some section =>
                  fun m0 : Mixer =>
                    let '(r, fx, log) :=
                      apply_effects B section (fx_controls m0) (hw_writes m0) in
                    (r, set_fx_log fx log m0)
              | None => ret tt
              end).
  change (ParseConfigDict B configdict m) with
    (bind ca (fun a => bind cd (fun d => bind ce (fun _ => notify a d))) m).
  unfold bind. intros H.
  assert (Ha : observers (snd (ca m)) = observers m /\
               dispatched (snd (ca m)) = dispatched m /\
               forall section, dict_get configdict "Analog" = Some section ->
                 analog_routes (snd (ca m)) =
                 analog_routes
                   (snd (apply_routes B "ain" false section (dict_keys section) [] m))).
  { unfold ca. destruct (dict_get configdict "Analog") as [section |].
    - destruct (apply_routes_observers B "ain" false section (dict_keys section) [] m).
      repeat split; try assumption. now intros s [= <-].
    - repeat split. discriminate. }
  assert (Hd : forall m1, observers (snd (cd m1)) = observers m1 /\
               dispatched (snd (cd m1)) = dispatched m1 /\
               analog_routes (snd (cd m1)) = analog_routes m1).
  { intros m1. unfold cd. destruct (dict_get configdict "Digital") as [section |].
    - destruct (apply_routes_observers B "din" true section (dict_keys section) [] m1).
      pose proof (apply_routes_frame B "din" true section (dict_keys section) [] m1)
        as (Hn & _).
      repeat split; assumption.
    - repeat split. }
  assert (He : forall m2, observers (snd (ce m2)) = observers m2 /\
               dispatched (snd (ce m2)) = dispatched m2 /\
               analog_routes (snd (ce m2)) = analog_routes m2).
  { intros m2. unfold ce. destruct (dict_get configdict "Effects") as [section |].
    - now destruct (apply_effects B section (fx_controls m2) (hw_writes m2))
        as [[r fx] log].
    - repeat split. }
  destruct Ha as (Ha1 & Ha2 & Ha3).
  destruct (ca m) as [[a | e1] m1]; cbn [snd] in *.
  2:{ injection H as _ <-. auto. }
  destruct (Hd m1) as (Hd1 & Hd2 & Hd3).
  destruct (cd m1) as [[d | e2] m2]; cbn [snd] in *.
  2:{ injection H as _ <-. split; [congruence |]. split; [congruence |].
      intros section Hs. rewrite Hd3. now apply Ha3. }
  destruct (He m2) as (He1 & He2 & He3).
  destruct (ce m2) as [[[] | e3] m3]; cbn [snd] in *; [discriminate |].
  injection H as _ <-. split; [congruence |]. split; [congruence |].
  intros section Hs. rewrite He3, Hd3. now apply Ha3.
Qed.

Lemma ParseConfigDict_raising_notifies_nobody_witness :
  let m' := snd (ParseConfigDict checked_backend ex_failing_config ex_mixer) in
  ParseConfigDict checked_backend ex_failing_config ex_mixer = (Err IndexError, m') /\
  GetVolume 0 0 false m' = Ok 5 /\
  dispatched m' = dispatched ex_mixer /\ observers m' = observers ex_mixer /\
  forall section, dict_get ex_failing_config "Analog" = Some section ->
    analog_routes m' =
    analog_routes
      (snd (apply_routes checked_backend "ain" false section (dict_keys section) []
              ex_mixer)).
Proof.
  cbv zeta. split; [vm_compute; reflexivity |]. split; [vm_compute; reflexivity |].
  apply (ParseConfigDict_raising_notifies_nobody checked_backend ex_failing_config
           ex_mixer _ IndexError).
  vm_compute. reflexivity.
Defined.

(* ===================================================================== *)
(** * The values of a configuration file *)
(* ===================================================================== *)

Lemma dict_get_written_section (content : dict value) (k : string) :
  dict_get (written_section content) k = option_map written_value (dict_get content k).
Proof.
  induction content as [| [k' v] content IH]; cbn; [reflexivity |].
  now destruct (String.eqb k' k).
Qed.

Lemma dict_keys_written_section (content : dict value) :
  dict_keys (written_section content) = dict_keys content.
Proof.
  unfold dict_keys, written_section. rewrite map_map. apply map_ext. now intros [k v].
Qed.

Lemma dict_get_as_written (configdict : config) (name : string) :
  dict_get (as_written configdict) name =
  option_map written_section (dict_get configdict name).
Proof.
  induction configdict as [| [s content] configdict IH]; cbn; [reflexivity |].
  now destruct (String.eqb s name).
Qed.

Lemma dict_get_in {V} (d : dict V) (k : string) (v : V) :
  dict_get d k = Some v -> In (k, v) d.
Proof.
  induction d as [| [k' v'] d IH]; cbn; [discriminate |].
  destruct (String.eqb_spec k' k) as [-> | Hne].
  - intros [= ->]. now left.
  - intros H. right. now apply IH.
Qed.

Lemma int_of_written (v : value) :
  writable v -> int_of (written_value v) = int_of v.
Proof.
  destruct v as [z | s]; cbn [writable written_value str_of int_of];
    [now apply int_of_str_of_int | reflexivity].
Qed.

Lemma apply_routes_written (B : Backend) prefix digital section keys changed m :
  writable_section section ->
  apply_routes B prefix digital (written_section section) keys changed m =
  apply_routes B prefix digital section keys changed m.
Proof.
  intros Hw.
  revert changed m. induction keys as [| key keys IH]; intros changed m; [reflexivity |].
  cbn [apply_routes]. unfold bind, lift.
  destruct (parse_route_key prefix key) as [io | e]; [| reflexivity].
  rewrite dict_get_written_section.
  destruct (dict_get section key) as [v |] eqn:Ev; cbn [option_map]; [| reflexivity].
  rewrite int_of_written by exact (Hw key v Ev).
  destruct (int_of v) as [z | e]; [| reflexivity].
  destruct (SetVolume B z (snd io) (fst io) digital m) as [[[] | e] m1];
    [apply IH | reflexivity].
Qed.

Lemma apply_effects_written (B : Backend) section fx log :
  writable_section section ->
  (forall n cur labels z, In (n, FxEnum cur labels) fx ->
     dict_get section (cname n) <> Some (VInt z)) ->
  apply_effects B (written_section section) fx log = apply_effects B section fx log.
Proof.
  intros Hw.
  revert log. induction fx as [| [n c] fx IH]; intros log H; [reflexivity |].
  assert (IH' : forall log0,
            apply_effects B (written_section section) fx log0 =
            apply_effects B section fx log0).
  { intros log0. apply IH. intros n' cur labels z Hin. apply (H n' cur labels z).
    now right. }
  cbn [apply_effects]. rewrite dict_get_written_section.
  destruct (dict_get section (cname n)) as [v |] eqn:Eg; cbn [option_map];
    [| now rewrite IH'].
  destruct c as [cur | cur labels].
  - rewrite int_of_written by exact (Hw _ v Eg).
    destruct (int_of v) as [z | e]; [| reflexivity].
    destruct (setvolume B z cur); [now rewrite IH' | reflexivity].
  - destruct v as [z | s].
    + exfalso. exact (H n cur labels z (or_introl eq_refl) Eg).
    + cbn [written_value str_of value_in].
      destruct (existsb (String.eqb s) labels); [| now rewrite IH'].
      destruct (amixer_sset B n s cur labels); [now rewrite IH' | reflexivity].
Qed.

Lemma apply_links_written section keys g :
  writable_section section ->
  apply_links (written_section section) keys g = apply_links section keys g.
Proof.
  intros Hw.
  revert g. induction keys as [| key keys IH]; intros g; [reflexivity |].
  cbn [apply_links]. unfold bind, lift.
  destruct (let? n := int_of_str (rstrip "to" (lstrip "link" key)) in Ok (n - 1))
    as [link | e]; [| reflexivity].
  rewrite dict_get_written_section.
  destruct (dict_get section key) as [v |] eqn:Ev; cbn [option_map]; [| reflexivity].
  rewrite int_of_written by exact (Hw key v Ev).
  destruct (int_of v) as [n | e]; cbn [rbind]; [| reflexivity].
  destruct (setitem (links g) link (if n - 1 <? 0 then None else Some (n - 1)));
    [apply IH | reflexivity].
Qed.

(** X14.  [Config.Save] hands every value [v] to the parser as [str(v)]
    and [Config.Load] gets strings back.  For a dictionary whose ints
    [str] writes (they have no more than [int_max_str_digits] digits),
    [Mixer.ParseConfigDict] followed by [Gui.ParseConfigDict] does on the
    dictionary of these strings what it does on the dictionary itself,
    provided no enumerated control is given an integer: an integer is never
    one of the labels, its string can be. *)
Theorem Load_configdict_of_written_values (B : Backend) (configdict : config) (g : Gui) :
  writable_config configdict ->
  (forall section n cur labels z,
     dict_get configdict "Effects" = Some section ->
     In (n, FxEnum cur labels) (fx_controls (mixer g)) ->
     dict_get section (cname n) <> Some (VInt z)) ->
  Load_configdict B (as_written configdict) g = Load_configdict B configdict g.
Proof.
  intros Hw H. unfold Load_configdict.
  assert (EG : forall g0, Gui_ParseConfigDict (as_written configdict) g0 =
                          Gui_ParseConfigDict configdict g0).
  { intros g0. unfold Gui_ParseConfigDict. rewrite dict_get_as_written.
    destruct (dict_get configdict "GUI") as [section |] eqn:Es; cbn [option_map];
      [| reflexivity].
    rewrite dict_keys_written_section. apply apply_links_written.
    exact (Hw _ _ Es). }
  enough (EM : ParseConfigDict B (as_written configdict) (mixer g) =
               ParseConfigDict B configdict (mixer g)).
  { rewrite EM. destruct (ParseConfigDict B configdict (mixer g)) as [[[] | e] m'];
      [apply EG | reflexivity]. }
  unfold ParseConfigDict, bind. rewrite !dict_get_as_written.
  assert (EA : forall name prefix digital m0,
            match option_map written_section (dict_get configdict name) with
            | Some section => apply_routes B prefix digital section (dict_keys section) []
            | None => ret []
            end m0 =
            match dict_get configdict name with
            | Some section => apply_routes B prefix digital section (dict_keys section) []
            | None => ret []
            end m0).
  { intros name prefix digital m0.
    destruct (dict_get configdict name) as [section |] eqn:Es; cbn [option_map];
      [| reflexivity].
    rewrite dict_keys_written_section. apply apply_routes_written.
    exact (Hw _ _ Es). }
  rewrite EA.
  pose proof (apply_routes_fx B "ain" false) as Hfa.
  destruct (match dict_get configdict "Analog" with
            | Some section => apply_routes B "ain" false section (dict_keys section) []
            | None => ret []
            end (mixer g)) as [[a | e1] m1] eqn:Ea; [| reflexivity].
  assert (Hf1 : fx_controls m1 = fx_controls (mixer g)).
  { destruct (dict_get configdict "Analog") as [section |].
    - specialize (Hfa section (dict_keys section) [] (mixer g)). now rewrite Ea in Hfa.
    - now injection Ea as _ <-. }
  rewrite EA.
  pose proof (apply_routes_fx B "din" true) as Hfd.
  destruct (match dict_get configdict "Digital" with
            | Some section => apply_routes B "din" true section (dict_keys section) []
            | None => ret []
            end m1) as [[d | e2] m2] eqn:Ed; [| reflexivity].
  assert (Hf2 : fx_controls m2 = fx_controls m1).
  { destruct (dict_get configdict "Digital") as [section |].
    - specialize (Hfd section (dict_keys section) [] m1). now rewrite Ed in Hfd.
    - now injection Ed as _ <-. }
  destruct (dict_get configdict "Effects") as [section |] eqn:Ee; cbn [option_map];
    [| reflexivity].
  rewrite apply_effects_written; [reflexivity | exact (Hw _ _ Ee) |].
  intros n cur labels z Hin. apply (H section n cur labels z eq_refl). congruence.
Qed.

Lemma Load_configdict_of_written_values_witness :
  Load_configdict checked_backend (as_written (saved ex_gui)) ex_muted =
  Load_configdict checked_backend (saved ex_gui) ex_muted.
Proof.
  apply (Load_configdict_of_written_values checked_backend (saved ex_gui) ex_muted).
  - pose proof int_limit_pos as Hl.
    intros name content Hn key v Hk.
    apply dict_get_in in Hn. vm_compute in Hn.
    repeat (destruct Hn as [Hn | Hn];
            [injection Hn as <- <-; apply dict_get_in in Hk; vm_compute in Hk;
             repeat (destruct Hk as [Hk | Hk];
                     [injection Hk as <- <-; cbn [writable]; first [exact I | lia] |]);
             contradiction |]).
    contradiction.
  - intros section n cur labels z Hs Hin. injection Hs as <-.
    destruct Hin as [H | [H | []]]; [discriminate H |].
    injection H as <- <- <-. vm_compute. discriminate.
Defined.

(* ===================================================================== *)
(** * The macros *)
(* ===================================================================== *)

Lemma for_each_bounded_app {S A} (xs ys : list A)
    (body : A -> S -> option (result unit * S)) (s : S) :
  for_each_bounded (xs ++ ys) body s =
  match for_each_bounded xs body s with
  | Some (Ok _, s') => for_each_bounded ys body s'
  | Some (Err e, s') => Some (Err e, s')
  | None => None
  end.
Proof.
  revert s. induction xs as [| x xs IH]; intros s; cbn; [reflexivity |].
  destruct (body x s) as [[[[] | e] s1] |]; [apply IH | reflexivity | reflexivity].
Qed.

Lemma for_bounded_range_inv {S} (I : nat -> S -> Prop)
    (body : Z -> S -> option (result unit * S)) (n : nat) (s : S) :
  I O s ->
  (forall k s0, (k < n)%nat -> I k s0 ->
     exists s1, body (Z.of_nat k) s0 = Some (Ok tt, s1) /\ I (Datatypes.S k) s1) ->
  exists s', for_each_bounded (range n) body s = Some (Ok tt, s') /\ I n s'.
Proof.
  intros H0 Hstep. induction n as [| n IH].
  - exists s. now split.
  - destruct IH as (s1 & E1 & I1); [intros k s0 Hk; apply Hstep; lia |].
    destruct (Hstep n s1 (Nat.lt_succ_diag_r n) I1) as (s2 & E2 & I2).
    exists s2. split; [| assumption].
    rewrite range_S, for_each_bounded_app, E1. cbn. now rewrite E2.
Qed.

Lemma set_and_route_ok (B : Backend) (fuel : nat) (v : Z) (o i : nat) (g : Gui)
    (s : Slider) (l : string) (c : Control) :
  accepts_range B -> 0 <= v <= 100 ->
  cell (hardwarerouting_sliders g) o i = Some (s, l) ->
  cell (analog_routes (mixer g)) o i = Some (Some c) ->
  (o < length (links g))%nat ->
  set_and_route B (S fuel) v (Z.of_nat o) (Z.of_nat i) g =
  Some (Ok tt,
        SetLabel (Z.of_nat o) (Z.of_nat i) (str_of_int v)
          (set_mixer (written false v o i c v (mixer g))
             (SetValue (Z.of_nat o) (Z.of_nat i) v g))).
Proof.
  intros HB Hv Hs Hc Hl. unfold set_and_route. rewrite slider_at_nat, Hs.
  rewrite OnHardwareRouting_unfold.
  set (g0 := SetValue (Z.of_nat o) (Z.of_nat i) v g).
  assert (E0 : cell (hardwarerouting_sliders g0) o i =
               Some ({| slider_id := slider_id s; slider_value := v |}, l)).
  { unfold g0, SetValue. cbn [hardwarerouting_sliders set_sliders].
    now rewrite cell_alter, !Nat.eqb_refl, Hs. }
  rewrite (routing_step_ok B None o i g0 _ _ c HB E0 Hv Hc).
  cbn [slider_value]. change (links g0) with (links g).
  rewrite getitem_nat.
  destruct (nth_error (links g) o) as [lk |] eqn:El.
  - now destruct lk.
  - apply nth_error_None in El. lia.
Qed.

Lemma macro_inv_start v g : macro_inv v (fun _ _ => false) g g.
Proof.
  constructor; try reflexivity.
  - intros o i. now destruct (cell (analog_routes (mixer g)) o i) as [[c |] |].
  - intros o i. now destruct (cell (hardwarerouting_sliders g) o i).
Qed.

Lemma macro_inv_ext v (P Q : nat -> nat -> bool) g g' :
  (forall o i, P o i = Q o i) -> macro_inv v P g g' -> macro_inv v Q g g'.
Proof.
  intros H [H1 H2 H3 H4 H5 H6 H7 H8]. constructor; try assumption.
  - intros o i. now rewrite H7, H.
  - intros o i. now rewrite H8, H.
Qed.

Lemma macro_step (B : Backend) (fuel : nat) (v : Z) (P : nat -> nat -> bool)
    (g g0 : Gui) (o i : nat) (c : Control) (sl : Slider * string) :
  accepts_range B -> 0 <= v <= 100 ->
  macro_inv v P g g0 ->
  cell (analog_routes (mixer g)) o i = Some (Some c) ->
  cell (hardwarerouting_sliders g) o i = Some sl ->
  (o < length (links g))%nat ->
  exists g1,
    set_and_route B (S fuel) v (Z.of_nat o) (Z.of_nat i) g0 = Some (Ok tt, g1) /\
    macro_inv v (fun o' i' => P o' i' || ((o' =? o) && (i' =? i))%nat) g g1.
Proof.
  intros HB Hv [H1 H2 H3 H4 H5 H6 H7 H8] Hc Hs Hl.
  pose proof (H7 o i) as Hc0. rewrite Hc in Hc0. cbn [option_map] in Hc0.
  pose proof (H8 o i) as Hs0. rewrite Hs in Hs0. cbn [option_map] in Hs0.
  destruct (if P o i then set_slider v sl else sl) as [s0 l0] eqn:Esl.
  eexists. split.
  { apply (set_and_route_ok B fuel v o i g0 s0 l0 _ HB Hv Hs0 Hc0). now rewrite H1. }
  constructor;
    cbn [links mixer hardwarerouting_sliders SetLabel SetValue set_sliders set_mixer
         written set_routes log_write analog_routes digital_routes fx_controls
         observers dispatched routes_of];
    try assumption.
  - now rewrite shape_store.
  - intros o' i'. rewrite cell_store, Hc0, H7.
    destruct ((o' =? o) && (i' =? i))%nat eqn:E.
    + apply andb_true_iff in E as [Eo Ei]. apply Nat.eqb_eq in Eo, Ei. subst o' i'.
      rewrite Hc. cbn [option_map]. rewrite orb_true_r. now destruct (P o i).
    + now rewrite orb_false_r.
  - intros o' i'. rewrite !cell_alter.
    destruct ((o' =? o) && (i' =? i))%nat eqn:E.
    + apply andb_true_iff in E as [Eo Ei]. apply Nat.eqb_eq in Eo, Ei. subst o' i'.
      rewrite !Nat.eqb_refl. cbn [andb]. rewrite Hs0, Hs. cbn [option_map fst].
      rewrite orb_true_r. unfold set_slider. cbn [fst slider_id].
      destruct (P o i);
        [unfold set_slider in Esl; injection Esl as <- <- | subst sl]; reflexivity.
    + rewrite H8. now rewrite orb_false_r.
Qed.

Lemma macro_inv_channels v P g g' :
  macro_inv v P g g' -> GetNumberOfChannels (mixer g') = GetNumberOfChannels (mixer g).
Proof. intros H. unfold GetNumberOfChannels. apply (length_shape _ _ (mi_shape _ _ _ _ H)). Qed.

Lemma macro_inv_reads v P g g' (o i : nat) :
  macro_inv v P g g' ->
  (P o i = true ->
   forall c sl, cell (analog_routes (mixer g)) o i = Some (Some c) ->
     cell (hardwarerouting_sliders g) o i = Some sl ->
     GetVolume (Z.of_nat o) (Z.of_nat i) false (mixer g') = Ok v /\
     slider_at g' (Z.of_nat o) (Z.of_nat i) = Ok (set_slider v sl)) /\
  (P o i = false ->
   GetVolume (Z.of_nat o) (Z.of_nat i) false (mixer g') =
   GetVolume (Z.of_nat o) (Z.of_nat i) false (mixer g) /\
   slider_at g' (Z.of_nat o) (Z.of_nat i) = slider_at g (Z.of_nat o) (Z.of_nat i)).
Proof.
  intros H. rewrite !GetVolume_nat, !slider_at_nat. cbn [routes_of].
  rewrite (mi_analog _ _ _ _ H), (mi_sliders _ _ _ _ H). split.
  - intros HP c sl Hc Hs. rewrite Hc, Hs, HP. cbn. auto.
  - intros HP. rewrite HP.
    destruct (cell (analog_routes (mixer g)) o i) as [[c |] |],
             (cell (hardwarerouting_sliders g) o i); cbn; auto.
Qed.

(** The state in which [MuteHardwareRoutes] ends. *)
Lemma MuteHardwareRoutes_inv (B : Backend) (fuel : nat) (g : Gui) :
  accepts_range B ->
  (forall o i, (o < GetNumberOfChannels (mixer g))%nat ->
     (i < GetNumberOfChannels (mixer g))%nat ->
     (exists c, cell (analog_routes (mixer g)) o i = Some (Some c)) /\
     (exists sl, cell (hardwarerouting_sliders g) o i = Some sl)) ->
  (GetNumberOfChannels (mixer g) <= length (links g))%nat ->
  exists g',
    MuteHardwareRoutes B (S fuel) g = Some (Ok tt, g') /\
    macro_inv 0
      (fun o i => (o <? GetNumberOfChannels (mixer g)) &&
                  (i <? GetNumberOfChannels (mixer g)))%nat g g'.
Proof.
  intros HB Hcov Hlinks.
  set (n := GetNumberOfChannels (mixer g)) in *.
  unfold MuteHardwareRoutes. fold n.
  apply (for_bounded_range_inv
           (fun k g' => macro_inv 0 (fun o i => (o <? k) && (i <? n))%nat g g')).
  - apply (macro_inv_ext 0 (fun _ _ => false)); [| apply macro_inv_start].
    intros o i. reflexivity.
  - intros k g0 Hk Hinv. rewrite (macro_inv_channels _ _ _ _ Hinv). fold n.
    destruct (for_bounded_range_inv
                (fun j g' =>
                   macro_inv 0
                     (fun o i => ((o <? k) && (i <? n)) || ((o =? k) && (i <? j)))%nat
                     g g')
                (fun i => set_and_route B (S fuel) 0 (Z.of_nat k) i) n g0)
      as (g1 & E1 & I1).
    + apply (macro_inv_ext 0 (fun o i => (o <? k) && (i <? n))%nat); [| exact Hinv].
      intros o i. now rewrite andb_false_r, orb_false_r.
    + intros j g1 Hj Hinv1.
      destruct (Hcov k j Hk Hj) as [(c & Hc) (sl & Hs)].
      destruct (macro_step B fuel 0 _ g g1 k j c sl HB ltac:(lia) Hinv1 Hc Hs
                  ltac:(lia)) as (g2 & E2 & I2).
      exists g2. split; [exact E2 |].
      eapply macro_inv_ext; [| exact I2].
      intros o i. cbv beta. nat_cases.
    + exists g1. split; [exact E1 |].
      eapply macro_inv_ext; [| exact I1].
      intros o i. cbv beta. nat_cases.
Qed.

(** X15.  [Gui.MuteHardwareRoutes] on a program with [n] outputs whose
    analog routes and sliders of the inputs below [n] exist: it returns,
    every analog route [(o, i)] with [o, i < n] reads 0 and its slider and
    label show 0.  The routes of further inputs, the digital routes and the
    links are as they were; no observer is called and no link is followed
    (the handler is called without an event). *)
Theorem MuteHardwareRoutes_mutes (B : Backend) (fuel : nat) (g : Gui) :
  accepts_range B -> (1 <= fuel)%nat ->
  (forall o i, (o < GetNumberOfChannels (mixer g))%nat ->
     (i < GetNumberOfChannels (mixer g))%nat ->
     (exists c, cell (analog_routes (mixer g)) o i = Some (Some c)) /\
     (exists sl, cell (hardwarerouting_sliders g) o i = Some sl)) ->
  (GetNumberOfChannels (mixer g) <= length (links g))%nat ->
  exists g',
    MuteHardwareRoutes B fuel g = Some (Ok tt, g') /\
    links g' = links g /\
    digital_routes (mixer g') = digital_routes (mixer g) /\
    dispatched (mixer g') = dispatched (mixer g) /\
    (forall o i, (o < GetNumberOfChannels (mixer g))%nat ->
       (i < GetNumberOfChannels (mixer g))%nat ->
       GetVolume (Z.of_nat o) (Z.of_nat i) false (mixer g') = Ok 0 /\
       exists id,
         slider_at g' (Z.of_nat o) (Z.of_nat i) =
         Ok ({| slider_id := id; slider_value := 0 |}, "0")) /\
    (forall o i, (GetNumberOfChannels (mixer g) <= i)%nat ->
       GetVolume (Z.of_nat o) (Z.of_nat i) false (mixer g') =
       GetVolume (Z.of_nat o) (Z.of_nat i) false (mixer g)).
Proof.
  intros HB Hfuel Hcov Hlinks. destruct fuel as [| fuel]; [lia |].
  destruct (MuteHardwareRoutes_inv B fuel g HB Hcov Hlinks) as (g' & E & Hinv).
  exists g'. split; [exact E |].
  split; [apply (mi_links _ _ _ _ Hinv) |].
  split; [apply (mi_digital _ _ _ _ Hinv) |].
  split; [apply (mi_dispatched _ _ _ _ Hinv) |]. split.
  - intros o i Ho Hi. destruct (Hcov o i Ho Hi) as [(c & Hc) (sl & Hs)].
    destruct (macro_inv_reads _ _ _ _ o i Hinv) as [Hyes _].
    destruct (Hyes ltac:(nat_cases) c sl Hc Hs) as [Hv Hsl].
    split; [exact Hv |]. exists (slider_id (fst sl)). exact Hsl.
  - intros o i Hi. destruct (macro_inv_reads _ _ _ _ o i Hinv) as [_ Hno].
    apply Hno. nat_cases.
Qed.

Lemma MuteHardwareRoutes_mutes_witness :
  exists g',
    MuteHardwareRoutes checked_backend 1 ex_gui = Some (Ok tt, g') /\
    links g' = links ex_gui /\
    digital_routes (mixer g') = digital_routes (mixer ex_gui) /\
    dispatched (mixer g') = dispatched (mixer ex_gui) /\
    (forall o i, (o < GetNumberOfChannels (mixer ex_gui))%nat ->
       (i < GetNumberOfChannels (mixer ex_gui))%nat ->
       GetVolume (Z.of_nat o) (Z.of_nat i) false (mixer g') = Ok 0 /\
       exists id,
         slider_at g' (Z.of_nat o) (Z.of_nat i) =
         Ok ({| slider_id := id; slider_value := 0 |}, "0")) /\
    (forall o i, (GetNumberOfChannels (mixer ex_gui) <= i)%nat ->
       GetVolume (Z.of_nat o) (Z.of_nat i) false (mixer g') =
       GetVolume (Z.of_nat o) (Z.of_nat i) false (mixer ex_gui)).
Proof.
  apply (MuteHardwareRoutes_mutes checked_backend 1 ex_gui).
  - exact checked_backend_accepts.
  - lia.
  - intros o i Ho Hi. cbn in Ho, Hi.
    destruct o as [| [| [| o]]]; try lia; destruct i as [| [| [| i]]]; try lia;
      split; eexists; reflexivity.
  - cbn. lia.
Defined.

(** The state in which [PassThroughInputs] ends. *)
Lemma PassThroughInputs_inv (B : Backend) (fuel : nat) (g : Gui) :
  accepts_range B ->
  (forall c, (c < GetNumberOfChannels (mixer g))%nat ->
     (exists r, cell (analog_routes (mixer g)) c c = Some (Some r)) /\
     (exists sl, cell (hardwarerouting_sliders g) c c = Some sl)) ->
  (GetNumberOfChannels (mixer g) <= length (links g))%nat ->
  exists g',
    PassThroughInputs B (S fuel) g = Some (Ok tt, g') /\
    macro_inv 100 (fun o i => (o =? i) && (o <? GetNumberOfChannels (mixer g)))%nat g g'.
Proof.
  intros HB Hcov Hlinks.
  set (n := GetNumberOfChannels (mixer g)) in *.
  unfold PassThroughInputs. fold n.
  apply (for_bounded_range_inv
           (fun k g' => macro_inv 100 (fun o i => (o =? i) && (o <? k))%nat g g')).
  - apply (macro_inv_ext 100 (fun _ _ => false)); [| apply macro_inv_start].
    intros o i. now rewrite andb_false_r.
  - intros k g0 Hk Hinv.
    destruct (Hcov k Hk) as [(c & Hc) (sl & Hs)].
    destruct (macro_step B fuel 100 _ g g0 k k c sl HB ltac:(lia) Hinv Hc Hs
                ltac:(lia)) as (g1 & E1 & I1).
    exists g1. split; [exact E1 |].
    eapply macro_inv_ext; [| exact I1].
    intros o i. cbv beta. nat_cases.
Qed.

(** X16.  [Gui.PassThroughInputs] on a program whose analog routes and
    sliders from each input to the output of the same number exist: it
    returns, each of these routes reads 100 and its slider and label show
    100.  Every other route and slider is as it was, also the ones of the
    outputs that an output is linked to: the handler is called without an
    event and follows no link. *)
Theorem PassThroughInputs_opens_diagonal (B : Backend) (fuel : nat) (g : Gui) :
  accepts_range B -> (1 <= fuel)%nat ->
  (forall c, (c < GetNumberOfChannels (mixer g))%nat ->
     (exists r, cell (analog_routes (mixer g)) c c = Some (Some r)) /\
     (exists sl, cell (hardwarerouting_sliders g) c c = Some sl)) ->
  (GetNumberOfChannels (mixer g) <= length (links g))%nat ->
  exists g',
    PassThroughInputs B fuel g = Some (Ok tt, g') /\
    links g' = links g /\
    digital_routes (mixer g') = digital_routes (mixer g) /\
    dispatched (mixer g') = dispatched (mixer g) /\
    (forall c, (c < GetNumberOfChannels (mixer g))%nat ->
       GetVolume (Z.of_nat c) (Z.of_nat c) false (mixer g') = Ok 100 /\
       exists id,
         slider_at g' (Z.of_nat c) (Z.of_nat c) =
         Ok ({| slider_id := id; slider_value := 100 |}, "100")) /\
    (forall o i, o <> i ->
       GetVolume (Z.of_nat o) (Z.of_nat i) false (mixer g') =
       GetVolume (Z.of_nat o) (Z.of_nat i) false (mixer g) /\
       slider_at g' (Z.of_nat o) (Z.of_nat i) = slider_at g (Z.of_nat o) (Z.of_nat i)).
Proof.
  intros HB Hfuel Hcov Hlinks. destruct fuel as [| fuel]; [lia |].
  destruct (PassThroughInputs_inv B fuel g HB Hcov Hlinks) as (g' & E & Hinv).
  exists g'. split; [exact E |].
  split; [apply (mi_links _ _ _ _ Hinv) |].
  split; [apply (mi_digital _ _ _ _ Hinv) |].
  split; [apply (mi_dispatched _ _ _ _ Hinv) |]. split.
  - intros c Hc. destruct (Hcov c Hc) as [(r & Hr) (sl & Hs)].
    destruct (macro_inv_reads _ _ _ _ c c Hinv) as [Hyes _].
    destruct (Hyes ltac:(nat_cases) r sl Hr Hs) as [Hv Hsl].
    split; [exact Hv |]. exists (slider_id (fst sl)). exact Hsl.
  - intros o i Hne. destruct (macro_inv_reads _ _ _ _ o i Hinv) as [_ Hno].
    apply Hno. nat_cases.
Qed.

Lemma PassThroughInputs_opens_diagonal_witness :
  exists g',
    PassThroughInputs checked_backend 1 ex_gui = Some (Ok tt, g') /\
    links g' = links ex_gui /\
    digital_routes (mixer g') = digital_routes (mixer ex_gui) /\
    dispatched (mixer g') = dispatched (mixer ex_gui) /\
    (forall c, (c < GetNumberOfChannels (mixer ex_gui))%nat ->
       GetVolume (Z.of_nat c) (Z.of_nat c) false (mixer g') = Ok 100 /\
       exists id,
         slider_at g' (Z.of_nat c) (Z.of_nat c) =
         Ok ({| slider_id := id; slider_value := 100 |}, "100")) /\
    (forall o i, o <> i ->
       GetVolume (Z.of_nat o) (Z.of_nat i) false (mixer g') =
       GetVolume (Z.of_nat o) (Z.of_nat i) false (mixer ex_gui) /\
       slider_at g' (Z.of_nat o) (Z.of_nat i) =
       slider_at ex_gui (Z.of_nat o) (Z.of_nat i)).
Proof.
  apply (PassThroughInputs_opens_diagonal checked_backend 1 ex_gui).
  - exact checked_backend_accepts.
  - lia.
  - intros c Hc. cbn in Hc.
    destruct c as [| [| [| c]]]; try lia; split; eexists; reflexivity.
  - cbn. lia.
Defined.

(** X17.  [Gui.MuteHardwareRoutes] followed by [Gui.PassThroughInputs],
    which is what the options [-m] and [-p] of the program do one after the
    other: both return, and of the analog routes between the [n] inputs and
    the [n] outputs the ones from an input to the output of the same number
    read 100 and all others read 0.  The digital routes and the links are as
    they were, and no observer is called. *)
Theorem MuteHardwareRoutes_then_PassThroughInputs (B : Backend) (fuel : nat) (g : Gui) :
  accepts_range B -> (1 <= fuel)%nat ->
  (forall o i, (o < GetNumberOfChannels (mixer g))%nat ->
     (i < GetNumberOfChannels (mixer g))%nat ->
     (exists c, cell (analog_routes (mixer g)) o i = Some (Some c)) /\
     (exists sl, cell (hardwarerouting_sliders g) o i = Some sl)) ->
  (GetNumberOfChannels (mixer g) <= length (links g))%nat ->
  exists g1 g2,
    MuteHardwareRoutes B fuel g = Some (Ok tt, g1) /\
    PassThroughInputs B fuel g1 = Some (Ok tt, g2) /\
    (forall o i, (o < GetNumberOfChannels (mixer g))%nat ->
       (i < GetNumberOfChannels (mixer g))%nat ->
       GetVolume (Z.of_nat o) (Z.of_nat i) false (mixer g2) =
       Ok (if (o =? i)%nat then 100 else 0)) /\
    digital_routes (mixer g2) = digital_routes (mixer g) /\
    links g2 = links g /\
    dispatched (mixer g2) = dispatched (mixer g).
Proof.
  intros HB Hfuel Hcov Hlinks. destruct fuel as [| fuel]; [lia |].
  destruct (MuteHardwareRoutes_inv B fuel g HB Hcov Hlinks) as (g1 & E1 & I1).
  pose proof (macro_inv_channels _ _ _ _ I1) as Hn.
  destruct (PassThroughInputs_inv B fuel g1 HB) as (g2 & E2 & I2).
  - rewrite Hn. intros c Hc. destruct (Hcov c c Hc Hc) as [(r & Hr) (sl & Hs)].
    rewrite (mi_analog _ _ _ _ I1), (mi_sliders _ _ _ _ I1), Hr, Hs. cbn. eauto.
  - rewrite Hn, (mi_links _ _ _ _ I1). exact Hlinks.
  - exists g1, g2. split; [exact E1 |]. split; [exact E2 |]. split.
    + intros o i Ho Hi. destruct (Hcov o i Ho Hi) as [(c & Hc) _].
      rewrite GetVolume_nat. cbn [routes_of].
      rewrite (mi_analog _ _ _ _ I2), (mi_analog _ _ _ _ I1), Hc, Hn. cbn [option_map].
      apply Nat.ltb_lt in Ho, Hi. rewrite Ho, Hi. cbn [andb].
      rewrite andb_true_r. now destruct (o =? i)%nat.
    + split; [rewrite (mi_digital _ _ _ _ I2); apply (mi_digital _ _ _ _ I1) |].
      split; [rewrite (mi_links _ _ _ _ I2); apply (mi_links _ _ _ _ I1) |].
      rewrite (mi_dispatched _ _ _ _ I2). apply (mi_dispatched _ _ _ _ I1).
Qed.

Lemma MuteHardwareRoutes_then_PassThroughInputs_witness :
  exists g1 g2,
    MuteHardwareRoutes checked_backend 1 ex_gui = Some (Ok tt, g1) /\
    PassThroughInputs checked_backend 1 g1 = Some (Ok tt, g2) /\
    (forall o i, (o < GetNumberOfChannels (mixer ex_gui))%nat ->
       (i < GetNumberOfChannels (mixer ex_gui))%nat ->
       GetVolume (Z.of_nat o) (Z.of_nat i) false (mixer g2) =
       Ok (if (o =? i)%nat then 100 else 0)) /\
    digital_routes (mixer g2) = digital_routes (mixer ex_gui) /\
    links g2 = links ex_gui /\
    dispatched (mixer g2) = dispatched (mixer ex_gui).
Proof.
  apply (MuteHardwareRoutes_then_PassThroughInputs checked_backend 1 ex_gui).
  - exact checked_backend_accepts.
  - lia.
  - intros o i Ho Hi. cbn in Ho, Hi.
    destruct o as [| [| [| o]]]; try lia; destruct i as [| [| [| i]]]; try lia;
      split; eexists; reflexivity.
  - cbn. lia.
Defined.

(* ===================================================================== *)
(** * The cascade along a chain of links *)
(* ===================================================================== *)

Lemma macro_inv_trans v (P Q : nat -> nat -> bool) g g1 g2 :
  macro_inv v P g g1 -> macro_inv v Q g1 g2 ->
  macro_inv v (fun o i => P o i || Q o i) g g2.
Proof.
  intros [H1 H2 H3 H4 H5 H6 H7 H8] [K1 K2 K3 K4 K5 K6 K7 K8].
  constructor; try congruence.
  - intros o i. rewrite K7, H7.
    destruct (cell (analog_routes (mixer g)) o i) as [[c |] |]; cbn; try reflexivity.
    do 2 f_equal. now destruct (P o i), (Q o i).
  - intros o i. rewrite K8, H8.
    destruct (cell (hardwarerouting_sliders g) o i) as [sl |]; cbn; [| reflexivity].
    f_equal. now destruct (P o i), (Q o i).
Qed.

(** The state after the slider of [(o, i)] was set to [v], the volume [v]
    was given to the route and the label was set. *)
Lemma macro_inv_single (v : Z) (g : Gui) (o i : nat) (c : Control) (sl : Slider * string) :
  cell (analog_routes (mixer g)) o i = Some (Some c) ->
  cell (hardwarerouting_sliders g) o i = Some sl ->
  macro_inv v (fun o' i' => (o' =? o) && (i' =? i))%nat g
    (SetLabel (Z.of_nat o) (Z.of_nat i) (str_of_int v)
       (set_mixer (written false v o i c v (mixer g))
          (SetValue (Z.of_nat o) (Z.of_nat i) v g))).
Proof.
  intros Hc Hs.
  constructor;
    cbn [links mixer hardwarerouting_sliders SetLabel SetValue set_sliders set_mixer
         written set_routes log_write analog_routes digital_routes fx_controls
         observers dispatched routes_of];
    try reflexivity.
  - apply shape_store.
  - intros o' i'. rewrite cell_store, Hc.
    destruct ((o' =? o) && (i' =? i))%nat eqn:E.
    + apply andb_true_iff in E as [Eo Ei]. apply Nat.eqb_eq in Eo, Ei. subst o' i'.
      now rewrite Hc.
    + now destruct (cell (analog_routes (mixer g)) o' i') as [[c' |] |].
  - intros o' i'. rewrite !cell_alter.
    destruct ((o' =? o) && (i' =? i))%nat eqn:E.
    + apply andb_true_iff in E as [Eo Ei]. apply Nat.eqb_eq in Eo, Ei. subst o' i'.
      rewrite !Nat.eqb_refl. cbn [andb]. now rewrite Hs.
    + now destruct (cell (hardwarerouting_sliders g) o' i').
Qed.

Lemma written_log digital value no ni c v m :
  hw_writes (written digital value no ni c v m) =
  hw_writes m ++ [SetRouteVolume digital no ni value].
Proof. reflexivity. Qed.

Lemma id_at_nat (g : Gui) (o i : nat) :
  id_at g (Z.of_nat o) (Z.of_nat i) =
  match cell (hardwarerouting_sliders g) o i with
  | Some sl => Ok (slider_id (fst sl))
  | None => Err IndexError
  end.
Proof.
  unfold id_at, ids, cell. rewrite getitem_nat, nth_error_map.
  destruct (nth_error (hardwarerouting_sliders g) o) as [row |]; cbn; [| reflexivity].
  rewrite getitem_nat, nth_error_map. now destruct (nth_error row i).
Qed.

Lemma cascade_from (B : Backend) (id v : Z) (i : nat) :
  accepts_range B -> 0 <= v <= 100 ->
  forall (rest : list nat) (o : nat) (g : Gui) (fuel : nat),
    (length rest < fuel)%nat ->
    NoDup (o :: rest) ->
    (forall o', In o' (o :: rest) ->
       exists c, cell (analog_routes (mixer g)) o' i = Some (Some c)) ->
    (exists sl, cell (hardwarerouting_sliders g) o i = Some sl) ->
    (forall o', In o' rest ->
       exists sl, cell (hardwarerouting_sliders g) o' i = Some sl /\
                  slider_id (fst sl) <> id) ->
    links_along (links g)
      (fun lk => lk = None \/ exists t, lk = Some t /\ id_at g t (Z.of_nat i) = Ok id)
      o rest ->
    exists g',
      OnHardwareRouting B fuel (Some id) (Z.of_nat o) (Z.of_nat i)
        (SetValue (Z.of_nat o) (Z.of_nat i) v g) = Some (Ok tt, g') /\
      macro_inv v (fun o' i' => existsb (Nat.eqb o') (o :: rest) && (i' =? i))%nat g g' /\
      hw_writes (mixer g') =
        hw_writes (mixer g) ++ map (fun o' => SetRouteVolume false o' i v) (o :: rest).
Proof.
  intros HB Hv. induction rest as [| o1 rest IH]; intros o g fuel Hfuel Hnd Hroutes Hso Hsl Hlinks.
  - destruct fuel as [| fuel]; [cbn in Hfuel; lia |].
    destruct (Hroutes o (or_introl eq_refl)) as (c & Hc). destruct Hso as (sl & Hs).
    pose proof (macro_inv_single v g o i c sl Hc Hs) as Hinv.
    rewrite OnHardwareRouting_unfold.
    set (g0 := SetValue (Z.of_nat o) (Z.of_nat i) v g) in *.
    assert (E0 : cell (hardwarerouting_sliders g0) o i =
                 Some ({| slider_id := slider_id (fst sl); slider_value := v |}, snd sl)).
    { unfold g0, SetValue. cbn [hardwarerouting_sliders set_sliders].
      now rewrite cell_alter, !Nat.eqb_refl, Hs. }
    rewrite (routing_step_ok B _ o i g0 _ _ c HB E0 Hv Hc). cbn [slider_value].
    change (links g0) with (links g). change (mixer g0) with (mixer g).
    set (g1 := SetLabel _ _ _ _) in *.
    destruct Hlinks as (lk & Hlk & Hstop). rewrite getitem_nat, Hlk.
    assert (Hres : exists g',
              Some (Ok tt, g1) = Some (Ok tt, g') /\
              macro_inv v (fun o' i' => existsb (Nat.eqb o') [o] && (i' =? i))%nat g g' /\
              hw_writes (mixer g') =
                hw_writes (mixer g) ++ map (fun o' => SetRouteVolume false o' i v) [o]).
    { exists g1. split; [reflexivity |]. split; [| reflexivity].
      eapply macro_inv_ext; [| exact Hinv].
      intros o' i'. cbn [existsb]. now rewrite orb_false_r. }
    destruct Hstop as [-> | (t & -> & Hid)]; [exact Hres |].
    assert (Hid1 : id_at g1 t (Z.of_nat i) = Ok id).
    { unfold id_at in *. unfold g1. rewrite ids_SetLabel.
      change (ids (set_mixer _ g0)) with (ids g0). unfold g0. now rewrite ids_SetValue. }
    destruct (slider_at g1 t (Z.of_nat i)) as [[ls ll] | e] eqn:Els.
    + apply slider_at_id in Els. rewrite Hid1 in Els. injection Els as <-.
      rewrite Z.eqb_refl. exact Hres.
    + exfalso. unfold slider_at, id_at, ids in *. rewrite getitem_map in Hid1.
      destruct (getitem (hardwarerouting_sliders g1) t) as [row | e']; cbn in *;
        [| discriminate].
      rewrite getitem_map, Els in Hid1. discriminate.
  - destruct fuel as [| fuel]; [cbn in Hfuel; lia |].
    destruct (Hroutes o (or_introl eq_refl)) as (c & Hc). destruct Hso as (sl & Hs).
    pose proof (macro_inv_single v g o i c sl Hc Hs) as Hinv.
    rewrite OnHardwareRouting_unfold.
    set (g0 := SetValue (Z.of_nat o) (Z.of_nat i) v g) in *.
    assert (E0 : cell (hardwarerouting_sliders g0) o i =
                 Some ({| slider_id := slider_id (fst sl); slider_value := v |}, snd sl)).
    { unfold g0, SetValue. cbn [hardwarerouting_sliders set_sliders].
      now rewrite cell_alter, !Nat.eqb_refl, Hs. }
    rewrite (routing_step_ok B _ o i g0 _ _ c HB E0 Hv Hc). cbn [slider_value].
    change (links g0) with (links g). change (mixer g0) with (mixer g).
    set (g1 := SetLabel _ _ _ _) in *.
    destruct Hlinks as (Hlk & Hrest). rewrite getitem_nat, Hlk.
    assert (Hne : o1 <> o).
    { intros ->. inversion Hnd as [| x l Hnot _]. apply Hnot. now left. }
    destruct (Hsl o1 (or_introl eq_refl)) as (sl1 & Hs1 & Hid1).
    assert (Hs1' : cell (hardwarerouting_sliders g1) o1 i = Some sl1).
    { rewrite (mi_sliders _ _ _ _ Hinv), Hs1. cbn [option_map].
      destruct (Nat.eqb_spec o1 o); [contradiction | reflexivity]. }
    rewrite slider_at_nat, Hs1'. destruct sl1 as [s1 l1]. cbn [fst] in Hid1.
    destruct (Z.eqb_spec id (slider_id s1)) as [E | _]; [congruence |]. cbn [negb].
    destruct (IH o1 g1 fuel) as (g' & E' & Hinv' & Hlog').
    + cbn in Hfuel |- *. lia.
    + now inversion Hnd.
    + intros o' Hin. destruct (Hroutes o' (or_intror Hin)) as (c' & Hc').
      rewrite (mi_analog _ _ _ _ Hinv), Hc'. cbn [option_map]. eauto.
    + eauto.
    + intros o' Hin. destruct (Hsl o' (or_intror Hin)) as (sl' & Hs' & Hid').
      rewrite (mi_sliders _ _ _ _ Hinv), Hs'. cbn [option_map].
      destruct ((o' =? o) && (i =? i))%nat; [| eauto].
      exists (set_slider v sl'). split; [reflexivity | exact Hid'].
    + rewrite (mi_links _ _ _ _ Hinv).
      assert (Hids : forall t, id_at g1 t (Z.of_nat i) = id_at g t (Z.of_nat i)).
      { intros t. unfold id_at, g1. rewrite ids_SetLabel.
        change (ids (set_mixer _ g0)) with (ids g0). unfold g0. now rewrite ids_SetValue. }
      clear - Hrest Hids. revert o1 Hrest. induction rest as [| o2 rest IHr]; intros o1 H.
      * destruct H as (lk & Hlk & Hstop). exists lk. split; [assumption |].
        destruct Hstop as [-> | (t & -> & Hid)]; [now left |].
        right. exists t. split; [reflexivity |]. now rewrite Hids.
      * destruct H as [H1 H2]. split; [assumption | now apply IHr].
    + exists g'. split; [exact E' |]. split.
      * eapply macro_inv_ext; [| exact (macro_inv_trans _ _ _ _ _ _ Hinv Hinv')].
        intros o' i'. cbv beta. cbn [existsb].
        destruct (Nat.eqb o' o), (Nat.eqb o' o1), (existsb (Nat.eqb o') rest),
          (Nat.eqb i' i); reflexivity.
      * rewrite Hlog'. unfold g1. cbn [mixer SetLabel set_sliders set_mixer].
        rewrite written_log. cbn [map]. now rewrite <- List.app_assoc.
Qed.

Lemma links_along_impl ls (P Q : option Z -> Prop) o chain :
  (forall lk, P lk -> Q lk) -> links_along ls P o chain -> links_along ls Q o chain.
Proof.
  intros H. revert o. induction chain as [| o1 rest IH]; intros o; cbn.
  - intros (lk & Hlk & Hp). eauto.
  - intros [H1 H2]. split; [assumption | now apply IH].
Qed.

(** X18.  The links from output [o0] lead through the pairwise different
    outputs of [chain], and the last of them is not linked or is linked to
    [o0].  When the user moves the slider of input [i] of output [o0] to
    [v], the handler returns for every bound above the length of the chain:
    the volume [v] was set once on the route of [o0] and of every output of
    the chain, in the order of the chain, and these routes read [v]; no
    other route has changed, no observer was called.  With an empty chain
    this is the move of a slider of an output that is not linked. *)
Theorem cascade_follows_chain (B : Backend) (g : Gui) (o0 : nat) (chain : list nat)
    (i : nat) (v : Z) (fuel : nat) (s0 : Slider) (l0 : string) :
  accepts_range B -> 0 <= v <= 100 -> (length chain < fuel)%nat ->
  NoDup (o0 :: chain) ->
  cell (hardwarerouting_sliders g) o0 i = Some (s0, l0) ->
  (forall o, In o (o0 :: chain) ->
     exists c, cell (analog_routes (mixer g)) o i = Some (Some c)) ->
  (forall o, In o chain ->
     exists sl, cell (hardwarerouting_sliders g) o i = Some sl /\
                slider_id (fst sl) <> slider_id s0) ->
  links_along (links g) (fun lk => lk = None \/ lk = Some (Z.of_nat o0)) o0 chain ->
  exists g',
    move_slider B fuel v (Z.of_nat o0) (Z.of_nat i) g = Some (Ok tt, g') /\
    (forall o, In o (o0 :: chain) ->
       GetVolume (Z.of_nat o) (Z.of_nat i) false (mixer g') = Ok v) /\
    (forall o i', ~ (In o (o0 :: chain) /\ i' = i) ->
       GetVolume (Z.of_nat o) (Z.of_nat i') false (mixer g') =
       GetVolume (Z.of_nat o) (Z.of_nat i') false (mixer g)) /\
    hw_writes (mixer g') =
      hw_writes (mixer g) ++ map (fun o => SetRouteVolume false o i v) (o0 :: chain) /\
    dispatched (mixer g') = dispatched (mixer g) /\
    links g' = links g.
Proof.
  intros HB Hv Hfuel Hnd Hs0 Hroutes Hsl Hlinks.
  unfold move_slider. rewrite slider_at_nat, Hs0. cbn [slider_id].
  destruct (cascade_from B (slider_id s0) v i HB Hv chain o0 g fuel Hfuel Hnd Hroutes
              (ex_intro _ _ Hs0) Hsl) as (g' & E & Hinv & Hlog).
  { eapply links_along_impl; [| exact Hlinks].
    intros lk [-> | ->]; [now left | right].
    exists (Z.of_nat o0). split; [reflexivity |]. now rewrite id_at_nat, Hs0. }
  exists g'. split; [exact E |]. split; [| split; [| split; [exact Hlog | split]]].
  - intros o Hin. destruct (Hroutes o Hin) as (c & Hc).
    rewrite GetVolume_nat. cbn [routes_of]. rewrite (mi_analog _ _ _ _ Hinv), Hc.
    cbn [option_map]. rewrite Nat.eqb_refl, andb_true_r.
    assert (Hex : existsb (Nat.eqb o) (o0 :: chain) = true).
    { apply existsb_exists. exists o. split; [assumption | apply Nat.eqb_refl]. }
    now rewrite Hex.
  - intros o i' Hnot. rewrite !GetVolume_nat. cbn [routes_of].
    rewrite (mi_analog _ _ _ _ Hinv).
    assert (Hex : existsb (Nat.eqb o) (o0 :: chain) && (i' =? i)%nat = false).
    { destruct (existsb (Nat.eqb o) (o0 :: chain)) eqn:Ex; [| reflexivity].
      destruct (Nat.eqb_spec i' i) as [-> |]; [| reflexivity].
      exfalso. apply Hnot. split; [| reflexivity].
      apply existsb_exists in Ex as (x & Hx & Ex). apply Nat.eqb_eq in Ex. now subst. }
    rewrite Hex. now destruct (cell (analog_routes (mixer g)) o i') as [[c |] |].
  - apply (mi_dispatched _ _ _ _ Hinv).
  - apply (mi_links _ _ _ _ Hinv).
Qed.

Lemma cascade_follows_chain_witness :
  exists g',
    move_slider checked_backend 3 70 0 0 ex_gui_line = Some (Ok tt, g') /\
    (forall o, In o [0; 1; 2]%nat ->
       GetVolume (Z.of_nat o) 0 false (mixer g') = Ok 70) /\
    (forall o i', ~ (In o [0; 1; 2]%nat /\ i' = 0%nat) ->
       GetVolume (Z.of_nat o) (Z.of_nat i') false (mixer g') =
       GetVolume (Z.of_nat o) (Z.of_nat i') false (mixer ex_gui_line)) /\
    hw_writes (mixer g') =
      hw_writes (mixer ex_gui_line) ++
      map (fun o => SetRouteVolume false o 0 70) [0; 1; 2]%nat /\
    dispatched (mixer g') = dispatched (mixer ex_gui_line) /\
    links g' = links ex_gui_line.
Proof.
  apply (cascade_follows_chain checked_backend ex_gui_line 0 [1; 2]%nat 0 70 3
           {| slider_id := -201; slider_value := 10 |} "10").
  - exact checked_backend_accepts.
  - lia.
  - cbn. lia.
  - repeat constructor; cbn; lia.
  - reflexivity.
  - intros o [<- | [<- | [<- | []]]]; eexists; reflexivity.
  - intros o [<- | [<- | []]]; eexists; (split; [reflexivity | discriminate]).
  - cbn. split; [reflexivity |]. split; [reflexivity |].
    exists None. split; [reflexivity | now left].
Defined.

Lemma foreign_links_step (S : list nat) (i : nat) (id v : Z) (g : Gui) (o o' : nat)
    (c : Control) (w : Z) :
  0 <= v <= 100 -> foreign_links S i id g ->
  cell (analog_routes (mixer g)) o i = Some (Some c) ->
  foreign_links S i id
    (SetValue (Z.of_nat o') (Z.of_nat i) v
       (SetLabel (Z.of_nat o) (Z.of_nat i) (str_of_int w)
          (set_mixer (written false w o i c w (mixer g)) g))).
Proof.
  intros Hv H Hc x Hx. destruct (H x Hx) as (Hl & (s & l & Hs & Hid & Hval) & (r & Hr)).
  split; [exact Hl |]. split.
  - cbn [hardwarerouting_sliders SetValue SetLabel set_sliders set_mixer].
    assert (Hlab : exists l1,
              cell (alter_item
                      (fun row => alter_item (fun sl => (fst sl, str_of_int w)) row
                                    (Z.of_nat i))
                      (hardwarerouting_sliders g) (Z.of_nat o)) x i = Some (s, l1)).
    { rewrite cell_alter. destruct (Nat.eqb_spec x o) as [E | Hne]; cbn [andb].
      - subst x. rewrite Nat.eqb_refl, Hs. cbn. eauto.
      - rewrite Hs. eauto. }
    destruct Hlab as (l1 & Hlab).
    rewrite cell_alter. destruct (Nat.eqb_spec x o') as [E | Hne]; cbn [andb].
    + subst x. rewrite Nat.eqb_refl, Hlab. cbn.
      eexists; eexists. split; [reflexivity |]. cbn. split; assumption.
    + rewrite Hlab. eauto.
  - cbn [mixer analog_routes SetValue SetLabel set_sliders set_mixer written set_routes
         log_write routes_of].
    rewrite cell_store, Hc, Hr. destruct ((x =? o) && (i =? i))%nat; eauto.
Qed.

Lemma OnHardwareRouting_foreign (B : Backend) (S : list nat) (i : nat) (id : Z) :
  accepts_range B ->
  forall fuel g o, foreign_links S i id g -> In o S ->
    OnHardwareRouting B fuel (Some id) (Z.of_nat o) (Z.of_nat i) g = None.
Proof.
  intros HB. induction fuel as [| fuel IH]; intros g o H Ho; [reflexivity |].
  destruct (H o Ho) as ((o' & Hl & Ho') & (s & l & Hs & Hid & Hval) & (c & Hc)).
  rewrite OnHardwareRouting_unfold.
  rewrite (routing_step_ok B _ o i g _ _ c HB Hs Hval Hc).
  rewrite getitem_nat, Hl.
  pose proof (foreign_links_step S i id (slider_value s) g o o' c (slider_value s)
                Hval H Hc) as H2.
  destruct (H o' Ho') as (_ & (s' & l' & Hs' & Hid' & _) & _).
  set (g1 := SetLabel (Z.of_nat o) (Z.of_nat i) (str_of_int (slider_value s))
               (set_mixer (written false (slider_value s) o i c (slider_value s) (mixer g))
                  g)) in *.
  assert (Hls : exists ll, slider_at g1 (Z.of_nat o') (Z.of_nat i) = Ok (s', ll)).
  { rewrite slider_at_nat. unfold g1.
    cbn [hardwarerouting_sliders SetLabel set_sliders set_mixer].
    rewrite cell_alter. destruct (Nat.eqb_spec o' o) as [E | Hne]; cbn [andb].
    - subst o'. rewrite Nat.eqb_refl, Hs. rewrite Hs in Hs'. injection Hs' as <- <-.
      cbn. eauto.
    - rewrite Hs'. eauto. }
  destruct Hls as (ll & ->).
  destruct (Z.eqb_spec id (slider_id s')); [congruence |]. cbn [negb].
  now apply IH.
Qed.

Lemma foreign_links_SetValue (S : list nat) (i : nat) (id v : Z) (g : Gui) (o i' : nat) :
  0 <= v <= 100 -> foreign_links S i id g ->
  foreign_links S i id (SetValue (Z.of_nat o) (Z.of_nat i') v g).
Proof.
  intros Hv H x Hx. destruct (H x Hx) as (Hl & (s & l & Hs & Hid & Hval) & Hr).
  split; [exact Hl |]. split; [| exact Hr].
  cbn [hardwarerouting_sliders SetValue set_sliders]. rewrite cell_alter.
  destruct ((x =? o) && (i =? i'))%nat eqn:E.
  - apply andb_true_iff in E as [Eo Ei]. apply Nat.eqb_eq in Eo, Ei. subst x i'.
    rewrite Hs. cbn. eexists; eexists. split; [reflexivity |]. cbn. split; assumption.
  - rewrite Hs. eauto.
Qed.

(** X19.  The test of [__OnHardwareRouting] compares with the slider the
    event came from, and with nothing else.  When the output of the moved
    slider is linked into a set of outputs that the links do not leave and
    that this output is not part of, the handler calls itself without end:
    whatever the bound on the depth of its calls, the bound is reached
    before it returns. *)
Theorem cascade_into_foreign_links_never_returns (B : Backend) (g : Gui) (S : list nat)
    (o0 a i : nat) (v : Z) (s0 : Slider) (l0 : string) (c0 : Control) :
  accepts_range B -> 0 <= v <= 100 ->
  cell (hardwarerouting_sliders g) o0 i = Some (s0, l0) ->
  cell (analog_routes (mixer g)) o0 i = Some (Some c0) ->
  nth_error (links g) o0 = Some (Some (Z.of_nat a)) -> In a S ->
  foreign_links S i (slider_id s0) g ->
  forall fuel, move_slider B fuel v (Z.of_nat o0) (Z.of_nat i) g = None.
Proof.
  intros HB Hv Hs0 Hc0 Hl Ha H fuel.
  unfold move_slider. rewrite slider_at_nat, Hs0. cbn [slider_id].
  destruct fuel as [| fuel]; [reflexivity |].
  rewrite OnHardwareRouting_unfold.
  set (g0 := SetValue (Z.of_nat o0) (Z.of_nat i) v g).
  assert (E0 : cell (hardwarerouting_sliders g0) o0 i =
               Some ({| slider_id := slider_id s0; slider_value := v |}, l0)).
  { unfold g0, SetValue. cbn [hardwarerouting_sliders set_sliders].
    now rewrite cell_alter, !Nat.eqb_refl, Hs0. }
  assert (H0 : foreign_links S i (slider_id s0) g0)
    by now apply foreign_links_SetValue.
  rewrite (routing_step_ok B _ o0 i g0 _ _ c0 HB E0 Hv Hc0). cbn [slider_value].
  change (links g0) with (links g). rewrite getitem_nat, Hl.
  pose proof (foreign_links_step S i (slider_id s0) v g0 o0 a c0 v Hv H0 Hc0) as H2.
  set (g1 := SetLabel (Z.of_nat o0) (Z.of_nat i) (str_of_int v)
               (set_mixer (written false v o0 i c0 v (mixer g0)) g0)) in *.
  assert (H1 : foreign_links S i (slider_id s0)
                 (SetLabel (Z.of_nat o0) (Z.of_nat i) (str_of_int v)
                    (set_mixer (written false v o0 i c0 v (mixer g0)) g0))).
  { intros x Hx. destruct (H2 x Hx) as (Hl2 & _ & Hr2).
    destruct (H0 x Hx) as (_ & (s & l & Hs & Hid & Hval) & _).
    split; [exact Hl2 |]. split; [| exact Hr2].
    cbn [hardwarerouting_sliders SetLabel set_sliders set_mixer]. rewrite cell_alter.
    destruct ((x =? o0) && (i =? i))%nat eqn:E.
    - apply andb_true_iff in E as [Eo _]. apply Nat.eqb_eq in Eo. subst x.
      rewrite E0 in Hs. injection Hs as <- <-. now cbn in Hid.
    - rewrite Hs. eauto. }
  destruct (H1 a Ha) as (_ & (sa & la & Hsa & Hida & _) & _).
  fold g1 in Hsa. rewrite slider_at_nat, Hsa.
  destruct (Z.eqb_spec (slider_id s0) (slider_id sa)); [congruence |]. cbn [negb].
  now apply (OnHardwareRouting_foreign B S i (slider_id s0) HB).
Qed.

Lemma cascade_into_foreign_links_never_returns_witness :
  move_slider checked_backend 1000 70 2 0 ex_gui_chain = None.
Proof.
  apply (cascade_into_foreign_links_never_returns checked_backend ex_gui_chain
           [0; 1]%nat 2 1 0 70 {| slider_id := -207; slider_value := 70 |} "70"
           {| volume := 70; descriptor := (16, 1) |}).
  - exact checked_backend_accepts.
  - lia.
  - reflexivity.
  - reflexivity.
  - reflexivity.
  - cbn. tauto.
  - intros o [<- | [<- | []]].
    + split; [exists 1%nat; split; [reflexivity | cbn; tauto] |].
      split; [do 2 eexists; split; [reflexivity | split; [discriminate | cbn; lia]] |].
      eexists; reflexivity.
    + split; [exists 0%nat; split; [reflexivity | cbn; tauto] |].
      split; [do 2 eexists; split; [reflexivity | split; [discriminate | cbn; lia]] |].
      eexists; reflexivity.
Defined.

(* ===================================================================== *)
(** * The links: OnLink and the section of the GUI *)
(* ===================================================================== *)

Lemma last_digit_upto_99 : forallb last_digit_ok (range 99) = true.
Proof. vm_compute. reflexivity. Qed.

Lemma last_digit (k : Z) :
  0 <= k <= 98 ->
  (let? c := last_char ("Out" ++ str_of_int (k + 1)) in int_of_str c) = Ok ((k + 1) mod 10).
Proof.
  intros Hk. pose proof last_digit_upto_99 as H. rewrite forallb_forall in H.
  specialize (H k). unfold last_digit_ok in H.
  destruct (let? c := last_char ("Out" ++ str_of_int (k + 1)) in int_of_str c) as [n | e].
  - f_equal. apply Z.eqb_eq. apply H. apply in_range. exists (Z.to_nat k). lia.
  - assert (false = true); [| discriminate]. apply H. apply in_range.
    exists (Z.to_nat k). lia.
Qed.

(** X20.  [__OnLink] takes the output from the last character of the
    selection.  For the selection ["None"] the link of the output is
    removed.  For the selection ["Out%i" % (k + 1)], with [k] up to 98, the
    link becomes the last digit of [k + 1] less 1: this is output [k] for
    the outputs 0 to 8, and it is not for the others (output 9, chosen as
    ["Out10"], gives the link -1). *)
Theorem OnLink_reads_last_digit (g : Gui) (output_channel : Z) (no : nat) (k : Z) :
  norm_index (length (links g)) output_channel = Some no ->
  0 <= k <= 98 ->
  OnLink output_channel "None" g = (Ok tt, set_links (update (links g) no None) g) /\
  OnLink output_channel ("Out" ++ str_of_int (k + 1)) g =
  (Ok tt, set_links (update (links g) no (Some ((k + 1) mod 10 - 1))) g).
Proof.
  intros Hno Hk. unfold OnLink. split.
  - cbn [String.eqb Ascii.eqb Bool.eqb]. unfold setitem. now rewrite Hno.
  - change (String.eqb ("Out" ++ str_of_int (k + 1)) "None") with false. cbv iota.
    pose proof (last_digit k Hk) as H.
    destruct (last_char ("Out" ++ str_of_int (k + 1))) as [c | e]; cbn [rbind] in *;
      [| discriminate].
    rewrite H. cbn [rbind]. unfold setitem. now rewrite Hno.
Qed.

Lemma OnLink_reads_last_digit_witness :
  OnLink 0 "None" ex_gui = (Ok tt, set_links [None; None; Some 1] ex_gui) /\
  OnLink 0 "Out10" ex_gui = (Ok tt, set_links [Some (-1); None; Some 1] ex_gui).
Proof.
  apply (OnLink_reads_last_digit ex_gui 0 0 9); [reflexivity | lia].
Defined.

Lemma links_valid_update ls n l :
  links_valid ls -> match l with Some t => 0 <= t | None => True end ->
  links_valid (update ls n l).
Proof.
  unfold links_valid. intros H Hl. revert n.
  induction H as [| x ls Hx H IH]; intros [| n]; cbn; constructor; auto.
Qed.

(** X21.  [Gui.ParseConfigDict], for every dictionary and whether it
    returns or raises, touches neither the mixer nor the sliders and keeps
    the number of the links; a value below 1 removes a link, so that links
    which were outputs counted from 0 stay so. *)
Theorem Gui_ParseConfigDict_keeps_links_valid (configdict : config) (g : Gui) :
  let g' := snd (Gui_ParseConfigDict configdict g) in
  mixer g' = mixer g /\
  hardwarerouting_sliders g' = hardwarerouting_sliders g /\
  length (links g') = length (links g) /\
  (links_valid (links g) -> links_valid (links g')).
Proof.
  cbn zeta. unfold Gui_ParseConfigDict.
  destruct (dict_get configdict "GUI") as [section |]; [| cbn; auto].
  generalize (dict_keys section) as keys. intros keys. revert g.
  induction keys as [| key keys IH]; intros g; [cbn; auto |].
  cbn [apply_links]. unfold bind, lift.
  destruct (let? n := int_of_str (rstrip "to" (lstrip "link" key)) in Ok (n - 1))
    as [link | e]; [| cbn; auto].
  destruct (match dict_get section key with
            | Some v => let? n := int_of v in Ok (n - 1)
            | None => Err KeyError
            end) as [to | e]; [| cbn; auto].
  unfold setitem.
  destruct (norm_index (length (links g)) link) as [n |]; [| cbn; auto].
  destruct (IH (set_links (update (links g) n (if to <? 0 then None else Some to)) g))
    as (H1 & H2 & H3 & H4).
  cbn [mixer hardwarerouting_sliders links set_links] in *.
  rewrite length_update in H3. repeat split; try assumption.
  intros Hv. apply H4. apply links_valid_update; [assumption |].
  destruct (Z.ltb_spec to 0); [exact I | assumption].
Qed.

Lemma length_alter_item {A} (f : A -> A) (l : list A) (k : Z) :
  length (alter_item f l k) = length l.
Proof.
  unfold alter_item. destruct (norm_index (length l) k); [| reflexivity].
  destruct (nth_error l n); [apply length_update | reflexivity].
Qed.

(** X22.  [Gui.ParseConfigDict] does not compare a link with the number
    of the outputs.  After a section ["GUI"] with one entry is parsed,
    whose key reads as the link of output [o] (it is [link(o+1)to]) and
    whose value reads as [t + 1] with [t] not below the number of outputs,
    output [o] is linked to [t]; a move of a slider of output [o] then sets
    the volume of its route and raises IndexError when it looks for the
    slider of output [t]. *)
Theorem link_to_missing_output_breaks_slider (B : Backend) (g : Gui) (o i : nat)
    (key : string) (value : value) (t v : Z) (fuel : nat) (sl : Slider * string)
    (c : Control) :
  accepts_range B -> 0 <= v <= 100 ->
  (o < length (links g))%nat ->
  cell (hardwarerouting_sliders g) o i = Some sl ->
  cell (analog_routes (mixer g)) o i = Some (Some c) ->
  int_of_str (rstrip "to" (lstrip "link" key)) = Ok (Z.of_nat o + 1) ->
  int_of value = Ok (t + 1) ->
  Z.of_nat (length (hardwarerouting_sliders g)) <= t ->
  exists g1 g2,
    Gui_ParseConfigDict [("GUI", [(key, value)])] g = (Ok tt, g1) /\
    nth_error (links g1) o = Some (Some t) /\
    move_slider B (S fuel) v (Z.of_nat o) (Z.of_nat i) g1 = Some (Err IndexError, g2) /\
    GetVolume (Z.of_nat o) (Z.of_nat i) false (mixer g2) = Ok v.
Proof.
  intros HB Hv Ho Hs Hc Hkey Hval Ht.
  exists (set_links (update (links g) o (Some t)) g).
  set (g1 := set_links (update (links g) o (Some t)) g).
  assert (E1 : Gui_ParseConfigDict [("GUI", [(key, value)])] g = (Ok tt, g1)).
  { unfold Gui_ParseConfigDict. cbn [dict_get String.eqb Ascii.eqb Bool.eqb dict_keys map fst].
    cbn [apply_links]. unfold bind, lift.
    rewrite Hkey. cbn [rbind].
    cbn [dict_get]. rewrite String.eqb_refl.
    rewrite Hval. cbn [rbind].
    replace (Z.of_nat o + 1 - 1) with (Z.of_nat o) by lia.
    replace (t + 1 - 1) with t by lia.
    unfold setitem. rewrite norm_index_nat.
    destruct (Nat.ltb_spec o (length (links g))); [| lia].
    destruct (Z.ltb_spec t 0); [lia |]. reflexivity. }
  assert (Hl1 : nth_error (links g1) o = Some (Some t)).
  { unfold g1. cbn [links set_links]. rewrite nth_error_update, Nat.eqb_refl.
    destruct (nth_error (links g) o) eqn:E; [reflexivity |].
    apply nth_error_None in E. lia. }
  eexists. split; [exact E1 |]. split; [exact Hl1 |].
  unfold move_slider. rewrite slider_at_nat.
  change (hardwarerouting_sliders g1) with (hardwarerouting_sliders g). rewrite Hs.
  destruct sl as [s l]. rewrite OnHardwareRouting_unfold.
  set (g0 := SetValue (Z.of_nat o) (Z.of_nat i) v g1).
  assert (E0 : cell (hardwarerouting_sliders g0) o i =
               Some ({| slider_id := slider_id s; slider_value := v |}, l)).
  { unfold g0, SetValue. cbn [hardwarerouting_sliders set_sliders g1 set_links].
    now rewrite cell_alter, !Nat.eqb_refl, Hs. }
  rewrite (routing_step_ok B _ o i g0 _ _ c HB E0 Hv Hc). cbn [slider_value].
  change (links g0) with (links g1). rewrite getitem_nat, Hl1.
  unfold slider_at at 1. rewrite getitem_out_of_bounds.
  - cbn [rbind]. split; [reflexivity |].
    rewrite GetVolume_nat. change (mixer g0) with (mixer g).
    cbn [mixer SetLabel SetValue set_sliders set_mixer written set_routes routes_of
         analog_routes log_write g1 set_links].
    now rewrite cell_store, !Nat.eqb_refl, Hc.
  - cbn [hardwarerouting_sliders SetLabel SetValue set_sliders set_mixer g0 g1 set_links].
    rewrite !length_alter_item. unfold in_bounds. lia.
Qed.

Lemma link_to_missing_output_breaks_slider_witness :
  exists g1 g2,
    Gui_ParseConfigDict [("GUI", [("link1to", VStr "6")])] ex_gui = (Ok tt, g1) /\
    nth_error (links g1) 0 = Some (Some 5) /\
    move_slider checked_backend 1 70 0 0 g1 = Some (Err IndexError, g2) /\
    GetVolume 0 0 false (mixer g2) = Ok 70.
Proof.
  apply (link_to_missing_output_breaks_slider checked_backend ex_gui 0 0
           "link1to" (VStr "6") 5 70 0
           ({| slider_id := -201; slider_value := 10 |}, "10")
           {| volume := 10; descriptor := (10, 1) |}).
  - exact checked_backend_accepts.
  - lia.
  - cbn. lia.
  - reflexivity.
  - reflexivity.
  - vm_compute. reflexivity.
  - vm_compute. reflexivity.
  - cbn. lia.
Defined.

(* ===================================================================== *)
(** * The observer of the mixer and the master slider *)
(* ===================================================================== *)

Lemma sync_sliders_cells (ps : list (nat * nat)) (g : Gui) :
  (forall o i, In (o, i) ps ->
     (exists c, cell (analog_routes (mixer g)) o i = Some (Some c)) /\
     (exists sl, cell (hardwarerouting_sliders g) o i = Some sl)) ->
  exists g',
    sync_sliders (map zpair ps) g = (Ok tt, g') /\
    mixer g' = mixer g /\ links g' = links g /\
    forall o i,
      cell (hardwarerouting_sliders g') o i =
      option_map (synced (analog_routes (mixer g)) ps o i)
        (cell (hardwarerouting_sliders g) o i).
Proof.
  revert g. induction ps as [| [o0 i0] ps IH]; intros g H.
  - exists g. split; [reflexivity |]. split; [reflexivity |]. split; [reflexivity |].
    intros o i. unfold synced. cbn. now destruct (cell (hardwarerouting_sliders g) o i).
  - destruct (H o0 i0 (or_introl eq_refl)) as [(c & Hc) (sl & Hs)].
    unfold sync_sliders. cbn [map for_each zpair fst snd]. unfold bind.
    rewrite GetVolume_nat. cbn [routes_of]. rewrite Hc, slider_at_nat, Hs.
    destruct sl as [s l].
    set (g1 := if negb (volume c =? slider_value s)
               then SetLabel (Z.of_nat o0) (Z.of_nat i0) (str_of_int (volume c))
                      (SetValue (Z.of_nat o0) (Z.of_nat i0) (volume c) g)
               else g).
    assert (E1 : (if negb (volume c =? slider_value s)
                  then (Ok tt,
                        SetLabel (Z.of_nat o0) (Z.of_nat i0) (str_of_int (volume c))
                          (SetValue (Z.of_nat o0) (Z.of_nat i0) (volume c) g))
                  else (Ok tt, g)) = (Ok tt, g1))
      by (unfold g1; now destruct (negb (volume c =? slider_value s))).
    rewrite E1.
    assert (Hm1 : mixer g1 = mixer g)
      by (unfold g1; now destruct (negb (volume c =? slider_value s))).
    assert (Hl1 : links g1 = links g)
      by (unfold g1; now destruct (negb (volume c =? slider_value s))).
    assert (Hc1 : forall o i,
              cell (hardwarerouting_sliders g1) o i =
              option_map (synced (analog_routes (mixer g)) [(o0, i0)] o i)
                (cell (hardwarerouting_sliders g) o i)).
    { intros o i. unfold synced, mem_pos. cbn [existsb fst snd]. rewrite orb_false_r.
      unfold g1. destruct ((o0 =? o) && (i0 =? i))%nat eqn:E.
      - apply andb_true_iff in E as [Eo Ei]. apply Nat.eqb_eq in Eo, Ei. subst o i.
        rewrite Hs. unfold vol_at. rewrite Hc. cbn [option_map fst andb].
        destruct (negb (volume c =? slider_value s)).
        + cbn [hardwarerouting_sliders SetLabel SetValue set_sliders].
          rewrite !cell_alter, !Nat.eqb_refl, Hs. reflexivity.
        + now rewrite Hs.
      - cbn [andb].
        destruct (negb (volume c =? slider_value s)).
        + cbn [hardwarerouting_sliders SetLabel SetValue set_sliders].
          rewrite !cell_alter. rewrite (Nat.eqb_sym o o0), (Nat.eqb_sym i i0), E.
          now destruct (cell (hardwarerouting_sliders g) o i).
        + now destruct (cell (hardwarerouting_sliders g) o i). }
    destruct (IH g1) as (g' & E' & Hm' & Hl' & Hc').
    { intros o i Hin. destruct (H o i (or_intror Hin)) as [(c' & Hc'') (sl' & Hs')].
      rewrite Hm1. split; [eauto |]. rewrite Hc1, Hs'. cbn. eauto. }
    exists g'. split; [exact E' |]. split; [congruence |]. split; [congruence |].
    intros o i. rewrite Hc', Hc1, Hm1.
    destruct (cell (hardwarerouting_sliders g) o i) as [[s' l'] |]; cbn [option_map];
      [| reflexivity].
    f_equal. unfold synced, mem_pos. cbn [existsb fst snd]. rewrite orb_false_r.
    destruct ((o0 =? o) && (i0 =? i))%nat; cbn [orb andb]; [| reflexivity].
    destruct (Z.eqb_spec (vol_at (analog_routes (mixer g)) o i) (slider_value s'))
      as [E | Hne]; cbn [negb fst].
    + rewrite E, Z.eqb_refl. cbn [negb]. now rewrite andb_false_r.
    + unfold set_slider. cbn [fst slider_value]. rewrite Z.eqb_refl. cbn [negb].
      now rewrite andb_false_r.
Qed.

Lemma mem_pos_In (o i : nat) (ps : list (nat * nat)) :
  mem_pos o i ps = true <-> In (o, i) ps.
Proof.
  unfold mem_pos. rewrite existsb_exists. split.
  - intros ([o' i'] & Hin & E). cbn in E. apply andb_true_iff in E as [Eo Ei].
    apply Nat.eqb_eq in Eo, Ei. now subst.
  - intros Hin. exists (o, i). split; [assumption |]. cbn. now rewrite !Nat.eqb_refl.
Qed.

(** X23.  The first loop of the worker of [__OnMixerEvent], for changed
    analog routes that have a control and a slider: it returns and has
    written nothing to the mixer; the slider of every route of the list
    shows the volume that [GetVolume] reads; the sliders of the other
    routes are as they were; a slider keeps its identifier, and one that
    changed has the label of its value. *)
Theorem sync_sliders_follows_hardware (ps : list (nat * nat)) (g : Gui) :
  (forall o i, In (o, i) ps ->
     (exists c, cell (analog_routes (mixer g)) o i = Some (Some c)) /\
     (exists sl, cell (hardwarerouting_sliders g) o i = Some sl)) ->
  exists g',
    sync_sliders (map zpair ps) g = (Ok tt, g') /\
    mixer g' = mixer g /\ links g' = links g /\
    (forall o i, In (o, i) ps ->
       exists sl', slider_at g' (Z.of_nat o) (Z.of_nat i) = Ok sl' /\
         GetVolume (Z.of_nat o) (Z.of_nat i) false (mixer g) =
         Ok (slider_value (fst sl'))) /\
    (forall o i, ~ In (o, i) ps ->
       slider_at g' (Z.of_nat o) (Z.of_nat i) = slider_at g (Z.of_nat o) (Z.of_nat i)) /\
    (forall o i sl sl',
       slider_at g (Z.of_nat o) (Z.of_nat i) = Ok sl ->
       slider_at g' (Z.of_nat o) (Z.of_nat i) = Ok sl' ->
       slider_id (fst sl') = slider_id (fst sl) /\
       (sl' = sl \/ snd sl' = str_of_int (slider_value (fst sl')))).
Proof.
  intros H. destruct (sync_sliders_cells ps g H) as (g' & E & Hm & Hl & Hc).
  exists g'. split; [exact E |]. split; [exact Hm |]. split; [exact Hl |].
  split; [| split].
  - intros o i Hin. destruct (H o i Hin) as [(c & Hr) (sl & Hs)].
    rewrite slider_at_nat, Hc, Hs. cbn [option_map]. eexists. split; [reflexivity |].
    rewrite GetVolume_nat. cbn [routes_of]. rewrite Hr. f_equal.
    unfold synced. apply mem_pos_In in Hin. rewrite Hin. cbn [andb].
    unfold vol_at. rewrite Hr.
    destruct (Z.eqb_spec (volume c) (slider_value (fst sl))) as [E' | _]; cbn [negb];
      [exact E' | reflexivity].
  - intros o i Hnot. rewrite !slider_at_nat, Hc.
    destruct (cell (hardwarerouting_sliders g) o i) as [sl |]; cbn [option_map];
      [| reflexivity].
    unfold synced. destruct (mem_pos o i ps) eqn:Em; [| reflexivity].
    apply mem_pos_In in Em. contradiction.
  - intros o i sl sl'. rewrite !slider_at_nat, Hc.
    destruct (cell (hardwarerouting_sliders g) o i) as [sl0 |]; cbn [option_map];
      [| discriminate].
    intros [= <-] [= <-]. unfold synced.
    destruct (mem_pos o i ps && negb (_ =? _)); [| auto].
    split; [reflexivity | right; reflexivity].
Qed.

Lemma sync_sliders_follows_hardware_witness :
  exists g',
    sync_sliders (map zpair [(0, 1); (2, 2)]%nat) ex_muted = (Ok tt, g') /\
    mixer g' = mixer ex_muted /\ links g' = links ex_muted /\
    (forall o i, In (o, i) [(0, 1); (2, 2)]%nat ->
       exists sl', slider_at g' (Z.of_nat o) (Z.of_nat i) = Ok sl' /\
         GetVolume (Z.of_nat o) (Z.of_nat i) false (mixer ex_muted) =
         Ok (slider_value (fst sl'))) /\
    (forall o i, ~ In (o, i) [(0, 1); (2, 2)]%nat ->
       slider_at g' (Z.of_nat o) (Z.of_nat i) =
       slider_at ex_muted (Z.of_nat o) (Z.of_nat i)) /\
    (forall o i sl sl',
       slider_at ex_muted (Z.of_nat o) (Z.of_nat i) = Ok sl ->
       slider_at g' (Z.of_nat o) (Z.of_nat i) = Ok sl' ->
       slider_id (fst sl') = slider_id (fst sl) /\
       (sl' = sl \/ snd sl' = str_of_int (slider_value (fst sl')))).
Proof.
  apply (sync_sliders_follows_hardware [(0, 1); (2, 2)]%nat ex_muted).
  intros o i [H | [H | []]]; injection H as <- <-; split; eexists; reflexivity.
Defined.

Lemma sync_sliders_frame (changed : list (Z * Z)) (g : Gui) :
  mixer (snd (sync_sliders changed g)) = mixer g /\
  links (snd (sync_sliders changed g)) = links g.
Proof.
  unfold sync_sliders.
  apply (for_each_preserves (fun g' => mixer g' = mixer g /\ links g' = links g));
    [| now split].
  intros [o i] s [Hm Hl].
  destruct (GetVolume o i false (mixer s)) as [v | e]; [| now split].
  destruct (slider_at s o i) as [[sl l] | e]; [| now split].
  destruct (negb (v =? slider_value sl)); now split.
Qed.

(** X24.  The worker of [__OnMixerEvent] only reads the mixer: for every
    pair of lists, whether it returns or raises and whatever the rounding of
    the mean gives, the mixer (no volume is set, so no change is announced
    again) and the links are as they were.  The master slider keeps its
    identifier, and it and its label are touched only when the list of the
    digital routes holds a route from an input to the output of the same
    number. *)
Theorem OnMixerEvent_worker_reads_only (rounded_mean : Z -> nat -> result Z)
    (changed_analog_routes changed_digital_routes : list (Z * Z)) (w : MasterGui) :
  let w' := snd (OnMixerEvent_worker rounded_mean changed_analog_routes
                   changed_digital_routes w) in
  mixer (gui w') = mixer (gui w) /\
  links (gui w') = links (gui w) /\
  slider_id (masterslider w') = slider_id (masterslider w) /\
  (forallb (fun p => negb (fst p =? snd p)) changed_digital_routes = true ->
   masterslider w' = masterslider w /\ masterlabel w' = masterlabel w).
Proof.
  cbn zeta. unfold OnMixerEvent_worker.
  destruct (sync_sliders_frame changed_analog_routes (gui w)) as [Hm Hl].
  destruct (sync_sliders changed_analog_routes (gui w)) as [[[] | e] g']; cbn [snd] in *.
  2:{ cbn. auto. }
  assert (H : forall w0,
            let w1 := snd (sync_master rounded_mean changed_digital_routes w0) in
            gui w1 = gui w0 /\
            slider_id (masterslider w1) = slider_id (masterslider w0) /\
            (forallb (fun p => negb (fst p =? snd p)) changed_digital_routes = true ->
             masterslider w1 = masterslider w0 /\ masterlabel w1 = masterlabel w0)).
  { intros w0. cbn zeta.
    induction changed_digital_routes as [| [o i] rest IH]; [cbn; auto |].
    cbn [sync_master forallb fst snd].
    destruct (o =? i); cbn [negb andb].
    - destruct (let? total := diagonal_sum (mixer (gui w0)) in
                rounded_mean total (GetNumberOfChannels (mixer (gui w0))));
        cbn; repeat split; discriminate.
    - exact IH. }
  destruct (H (set_gui g' w)) as (Hg & Hid & Hkeep). cbn [gui set_gui masterslider
    masterlabel] in *. rewrite Hg. auto.
Qed.

(** The loop of [__OnMaster]. *)
Lemma OnMaster_loop (B : Backend) (v : Z) (n : nat) (m : Mixer) :
  accepts_range B -> 0 <= v <= 100 ->
  (forall c, (c < n)%nat -> exists r, cell (digital_routes m) c c = Some (Some r)) ->
  exists m',
    for_each (range n) (fun c => SetVolume B v c c true) m = (Ok tt, m') /\
    master_inv v n m m'.
Proof.
  intros HB Hv Hdiag.
  apply (for_range_inv (fun k m' => master_inv v k m m')).
  - repeat split. intros o i. rewrite andb_false_r.
    now destruct (cell (digital_routes m) o i) as [[c |] |].
  - intros k m0 Hk (Ha & Hd & Hs & Hc).
    destruct (Hdiag k Hk) as (r & Hr).
    assert (Hr0 : cell (routes_of true m0) k k = Some (Some r)).
    { cbn [routes_of]. rewrite Hc, Hr. cbn [option_map].
      now rewrite Nat.ltb_irrefl, andb_false_r. }
    exists (written true v k k r v m0). split.
    { unfold SetVolume. now apply route_setvolume_nat. }
    split; [exact Ha |]. split; [exact Hd |]. split.
    { cbn [written set_routes digital_routes routes_of log_write].
      now rewrite shape_store. }
    intros o i. cbn [written set_routes digital_routes routes_of log_write].
    rewrite cell_store. cbn [routes_of] in Hr0. rewrite Hr0, Hc.
    destruct ((o =? k) && (i =? k))%nat eqn:Eoi.
    + apply andb_true_iff in Eoi as [Eo Ei]. apply Nat.eqb_eq in Eo, Ei. subst o i.
      rewrite Hr. cbn [option_map]. do 2 f_equal. nat_cases.
    + destruct (cell (digital_routes m) o i) as [[c' |] |]; cbn [option_map];
        try reflexivity.
      do 2 f_equal. apply andb_false_iff in Eoi.
      assert (Hm : ((o =? i) && (o <? S k))%nat = ((o =? i) && (o <? k))%nat).
      { destruct Eoi as [Eo | Ei];
          [apply Nat.eqb_neq in Eo | apply Nat.eqb_neq in Ei]; nat_cases. }
      now rewrite Hm.
Qed.

(** X25.  [__OnMaster] with the master slider at a volume [v], on a mixer
    that has the digital route [(c, c)] for each of its [n] outputs: it
    returns, these routes read [v] and the label of the master shows [v].
    The digital routes between different channels and the ones of further
    outputs, the analog routes, the sliders and the links are as they were,
    and no observer is called. *)
Theorem OnMaster_sets_diagonal (B : Backend) (w : MasterGui) :
  accepts_range B -> 0 <= slider_value (masterslider w) <= 100 ->
  (forall c, (c < GetNumberOfChannels (mixer (gui w)))%nat ->
     exists r, cell (digital_routes (mixer (gui w))) c c = Some (Some r)) ->
  exists w',
    OnMaster B w = (Ok tt, w') /\
    masterlabel w' = str_of_int (slider_value (masterslider w)) /\
    masterslider w' = masterslider w /\
    hardwarerouting_sliders (gui w') = hardwarerouting_sliders (gui w) /\
    links (gui w') = links (gui w) /\
    analog_routes (mixer (gui w')) = analog_routes (mixer (gui w)) /\
    dispatched (mixer (gui w')) = dispatched (mixer (gui w)) /\
    (forall c, (c < GetNumberOfChannels (mixer (gui w)))%nat ->
       GetVolume (Z.of_nat c) (Z.of_nat c) true (mixer (gui w')) =
       Ok (slider_value (masterslider w))) /\
    (forall o i, o <> i \/ (GetNumberOfChannels (mixer (gui w)) <= o)%nat ->
       GetVolume (Z.of_nat o) (Z.of_nat i) true (mixer (gui w')) =
       GetVolume (Z.of_nat o) (Z.of_nat i) true (mixer (gui w))).
Proof.
  intros HB Hv Hdiag.
  destruct (OnMaster_loop B _ _ _ HB Hv Hdiag) as (m' & E & Ha & Hd & Hs & Hc).
  unfold OnMaster. rewrite E.
  eexists. split; [reflexivity |].
  cbn [masterlabel masterslider gui set_mixer hardwarerouting_sliders links mixer].
  repeat (split; [first [reflexivity | assumption] |]). split.
  - intros c Hcn. destruct (Hdiag c Hcn) as (r & Hr).
    rewrite GetVolume_nat. cbn [routes_of]. rewrite Hc, Hr. cbn [option_map].
    rewrite Nat.eqb_refl. apply Nat.ltb_lt in Hcn. now rewrite Hcn.
  - intros o i Hoi. rewrite !GetVolume_nat. cbn [routes_of]. rewrite Hc.
    assert (Hm : ((o =? i) && (o <? GetNumberOfChannels (mixer (gui w))))%nat = false).
    { destruct Hoi as [Hne | Hge]; nat_cases. }
    rewrite Hm. now destruct (cell (digital_routes (mixer (gui w))) o i) as [[c' |] |].
Qed.

Lemma OnMaster_sets_diagonal_witness :
  exists w',
    OnMaster checked_backend ex_master = (Ok tt, w') /\
    masterlabel w' = str_of_int (slider_value (masterslider ex_master)) /\
    masterslider w' = masterslider ex_master /\
    hardwarerouting_sliders (gui w') = hardwarerouting_sliders (gui ex_master) /\
    links (gui w') = links (gui ex_master) /\
    analog_routes (mixer (gui w')) = analog_routes (mixer (gui ex_master)) /\
    dispatched (mixer (gui w')) = dispatched (mixer (gui ex_master)) /\
    (forall c, (c < GetNumberOfChannels (mixer (gui ex_master)))%nat ->
       GetVolume (Z.of_nat c) (Z.of_nat c) true (mixer (gui w')) =
       Ok (slider_value (masterslider ex_master))) /\
    (forall o i, o <> i \/ (GetNumberOfChannels (mixer (gui ex_master)) <= o)%nat ->
       GetVolume (Z.of_nat o) (Z.of_nat i) true (mixer (gui w')) =
       GetVolume (Z.of_nat o) (Z.of_nat i) true (mixer (gui ex_master))).
Proof.
  apply (OnMaster_sets_diagonal checked_backend ex_master).
  - exact checked_backend_accepts.
  - cbn. lia.
  - intros c Hc. cbn in Hc.
    destruct c as [| [| [| c]]]; try lia; eexists; reflexivity.
Defined.

(** X26.  The button that mutes most digital routes and the master slider
    work on complementary routes.  On a mixer whose digital matrix has no
    gap and has the route [(c, c)] for each of its [n] outputs, the handler
    of the button followed by [__OnMaster] with the master slider at [v]
    returns; of the digital routes that could be read, the ones between
    different channels read 0, the routes [(c, c)] of the [n] outputs read
    [v], and a route [(c, c)] beyond them keeps its volume.  The analog
    routes are as they were. *)
Theorem MuteMostDigitalRoutes_then_OnMaster (B : Backend) (w : MasterGui) :
  accepts_range B -> 0 <= slider_value (masterslider w) <= 100 ->
  all_present (digital_routes (mixer (gui w))) = true ->
  (forall c, (c < GetNumberOfChannels (mixer (gui w)))%nat ->
     exists r, cell (digital_routes (mixer (gui w))) c c = Some (Some r)) ->
  exists g1 w',
    Gui_MuteMostDigitalRoutes B (gui w) = (Ok tt, g1) /\
    OnMaster B (set_gui g1 w) = (Ok tt, w') /\
    analog_routes (mixer (gui w')) = analog_routes (mixer (gui w)) /\
    forall (o i : nat) v0,
      GetVolume (Z.of_nat o) (Z.of_nat i) true (mixer (gui w)) = Ok v0 ->
      GetVolume (Z.of_nat o) (Z.of_nat i) true (mixer (gui w')) =
      Ok (if (o =? i)%nat
          then (if (o <? GetNumberOfChannels (mixer (gui w)))%nat
                then slider_value (masterslider w) else v0)
          else 0).
Proof.
  intros HB Hv Hp Hdiag.
  destruct (MuteMostDigitalRoutes_inv B (mixer (gui w)) HB Hp)
    as (m1 & E1 & Ha1 & Hs1 & Hc1).
  assert (Hn : GetNumberOfChannels m1 = GetNumberOfChannels (mixer (gui w)))
    by (unfold GetNumberOfChannels; now rewrite Ha1).
  destruct (OnMaster_loop B (slider_value (masterslider w))
              (GetNumberOfChannels (mixer (gui w))) m1 HB Hv)
    as (m2 & E2 & Ha2 & Hd2 & Hs2 & Hc2).
  { intros c Hc. destruct (Hdiag c Hc) as (r & Hr). rewrite Hc1, Hr. cbn. eauto. }
  exists (set_mixer m1 (gui w)). eexists. split.
  { unfold Gui_MuteMostDigitalRoutes. now rewrite E1. }
  split.
  { unfold OnMaster. cbn [gui set_gui mixer set_mixer masterslider]. rewrite Hn, E2.
    reflexivity. }
  cbn [gui mixer set_mixer set_gui]. split; [congruence |].
  intros o i v0. rewrite !GetVolume_nat. cbn [routes_of]. rewrite Hc2, Hc1.
  destruct (cell (digital_routes (mixer (gui w))) o i) as [[c |] |] eqn:Ec;
    try discriminate.
  intros [= <-]. cbn [option_map]. f_equal.
  destruct (cell_lt _ _ _ _ Ec) as [Ho _]. unfold muted_upto.
  apply Nat.ltb_lt in Ho. rewrite Ho. cbn [orb andb].
  destruct (o =? i)%nat; cbn [andb negb].
  - now destruct (o <? GetNumberOfChannels (mixer (gui w)))%nat.
  - reflexivity.
Qed.

Lemma MuteMostDigitalRoutes_then_OnMaster_witness :
  exists g1 w',
    Gui_MuteMostDigitalRoutes checked_backend (gui ex_master) = (Ok tt, g1) /\
    OnMaster checked_backend (set_gui g1 ex_master) = (Ok tt, w') /\
    analog_routes (mixer (gui w')) = analog_routes (mixer (gui ex_master)) /\
    forall (o i : nat) v0,
      GetVolume (Z.of_nat o) (Z.of_nat i) true (mixer (gui ex_master)) = Ok v0 ->
      GetVolume (Z.of_nat o) (Z.of_nat i) true (mixer (gui w')) =
      Ok (if (o =? i)%nat
          then (if (o <? GetNumberOfChannels (mixer (gui ex_master)))%nat
                then slider_value (masterslider ex_master) else v0)
          else 0).
Proof.
  apply (MuteMostDigitalRoutes_then_OnMaster checked_backend ex_master).
  - exact checked_backend_accepts.
  - cbn. lia.
  - reflexivity.
  - intros c Hc. cbn in Hc.
    destruct c as [| [| [| c]]]; try lia; eexists; reflexivity.
Defined.
